(* ===== verification/_CoqProject ===== *)
-Q . S2P
Prelude.v
Machine.v
Math.v
Bitmap.v
Atomic.v
MemLib.v
Pmm.v
PmmProofs.v
PmmProps.v
PmmInit.v
Regions.v
Heap.v
Slob.v
SlobProofs.v
SlobProps.v
SlobInit.v
SlobBoot.v
Queue.v
QueueProps.v
Interleave.v
QueueConc.v
Str.v
StrProofs.v
StrFormat.v
StrProps.v
Kstate.v
Vm.v
VmProps.v
Poll.v
Printing.v
Bump.v
BumpProps.v
KernelHeap.v
Acpi.v
AcpiProps.v
AcpiInit.v
Ioapic.v
IoapicProps.v
Hpet.v
HpetProps.v
HpetInit.v
Lapic.v
LapicProps.v
Serial.v
SerialProps.v
Desc.v
DescProps.v
Pci.v
PciProps.v
PciScan.v
Ps2.v
Ps2Props.v
Ps2Init.v
Terminal.v
TermProps.v
TermRows.v
TermScroll.v
TermPrint.v
TermText.v
TermInput.v
TermInit.v
Kprintf.v
Main.v
MainProps.v
Isr.v
Console.v
Preempt.v
Speech.v
Boot.v
LibProps.v
