(* ===== verification/Prelude.v ===== *)
(** * BloreOS: a verification development of the kernel in src/src

    BloreOS is a small x86-64 kernel started by the Limine boot loader.
    kernel_main (kernel.c) brings up, in this order, the serial port, the
    terminal on the frame buffer, the GDT and IDT, the physical memory manager,
    the kernel heap, the ACPI tables, the HPET, the local APIC, the PCI scan,
    the NVMe probe, the keyboard queue and the PS/2 controller; then it loops:
    the keyboard interrupt puts scan codes into a queue, the loop takes them
    out and hands key events to the terminal, which edits an input line and
    runs its commands.

    ** How the program is modelled

    The program is a shallow embedding. A C function is a definition in the
    state monad [M St A] of [Machine]: it returns a value and a state, or ends
    as [Halted] (hcf), [Spin] (waits for ever for another CPU), [Fault] (an
    unmapped address, a division by zero, an index past an array, a shift too
    far, signed overflow, an argument that is no value) or [NoFuel]. Memory is
    a finite map from byte addresses to bytes: an access to an unmapped byte is
    a fault, never a default. Integers are [Z] with the wrap-around of their C
    type written out ([u8] to [u64], [s8], [s32], [s64]; [+64], [-32] and so on
    for arithmetic of a width). The globals of each C file are a record; [pmm]
    (mem.c) is extended by [slob] (slob.c) and that by [kernel] (all others).
    Local buffers, string literals and the tables the linker places are
    addresses that are arguments or come from the class [Image].

    The hardware is the class [Hardware]: a device answers a read with a
    function of all accesses made before, and the accesses made so far are part
    of the state ([k_io]), so theorems can speak about their order. cpuid is a
    function.

    kprintf formats its message and puts it on COM1 and on the screen. Its body
    is [kprintf_call] of [Kprintf]. The code that reports with kprintf calls the
    operation of the class [Printf]. Its default instance only notes the message
    with its arguments in a log: what theorems about such code say of its
    accesses and of memory leaves out those of its messages, which
    [kprintf_reaches_serial] and [kprintf_reaches_screen] give. ioapic.c, ps2.c
    and the start of the keyboard are also verified for any printer that keeps
    to the law [speaks] of [Printing]; [kprintf_console], the instance with the
    body, does while the terminal waits for input ([Speech]), and
    [keyboard_comes_up] is about that one.

    ** The files

    - [Prelude]: machine words, their arithmetic automation ([word_lia],
      [wsimp], [bitwise]) and the scope of the notations.
    - [Machine]: outcomes, the monad and its loops, memory and its lemmas.
    - [Math], [Bitmap], [Atomic], [MemLib]: include/math.h, include/bitmap.h,
      include/atomic.h (also as a step relation of any number of CPUs), and the
      byte loops of mem.c.
    - [Pmm], [PmmProofs], [PmmProps], [PmmInit]: the page allocator of mem.c,
      its operations, and what kmem_init makes of the boot loader's map.
    - [Regions], [Heap]: blocks of memory, and the interface malloc offers to
      its clients; [Slob], [SlobProofs], [SlobProps]: alloc/slob.c, which
      implements it; [SlobInit]: slob_init after kmem_init; [SlobBoot]: the
      heap from there to the first malloc; [Bump], [BumpProps]: alloc/bump.c;
      [KernelHeap]: the heap inside the whole kernel.
    - [Queue], [QueueProps]: lib/queue.c, against the interface of the heap.
    - [Interleave]: code as a sequence of atomic steps, run by several
      processors or interrupted between steps; [QueueConc]: cqueue_read and
      cqueue_write as such sequences, proved equal to the functions.
    - [Str], [StrProofs], [StrFormat], [StrProps]: lib/str.c.
    - [Kstate]: the globals of the rest, and include/cpu.h; [Poll]: loops that
      wait for a device; [Printing]: what callers of kprintf rely on.
    - [Vm], [VmProps]: vm.c. [Acpi], [AcpiProps]: acpi.c. [Ioapic],
      [IoapicProps]: ioapic.c. [Hpet], [HpetProps]: hpet.c. [Lapic],
      [LapicProps]: lapic.c, cpu.c, include/cpuid.h. [Serial], [SerialProps]:
      serial.c and pit.c. [Desc], [DescProps]: gdt.c and idt.c. [Pci],
      [PciProps], [PciScan]: pci.c and drivers/nvme.c. [Ps2], [Ps2Props]:
      drivers/ps2.c.
    - [TermInit], [AcpiInit], [HpetInit], [Ps2Init]: the start of the terminal,
      the tables, the timer and the keyboard controller.
    - [Terminal], [TermProps], [TermScroll]: terminal.c, its pixels and its
      scrolling; [TermRows]: rows of text and the abstract teletype;
      [TermPrint], [TermText]: printing; [TermInput]: the input line.
    - [Kprintf]: kprintf of lib/str.c. [Main], [MainProps]: kernel.c.
      [Speech]: the real kprintf does what [Printing] asks for.
    - [Isr]: the register save and restore of include/cpu.h, isr_ps2.S and
      isr_faults.S as instruction sequences around the C handlers.
    - [Console]: keyboard interrupt, queue, event loop and terminal together;
      [Preempt]: the event loop as a sequence of steps with interrupts between
      them; [Boot]: from the start of the keyboard to that loop.
    - [LibProps]: the properties of the bitmap, the lock and the byte loops.

    Definitions have the names of the C functions; the body of a loop is a
    definition of its own ([kalloc_iter], [format_iter], ...). A C name that is
    taken is changed: [inl_], [set_cr0_reg].

    ** What is shown

    - Memory: [kmem_init_establishes] (the start), [kalloc_allocates],
      [kalloc_exhausted], [kalloc_kfree_roundtrip], [pmm_ops_safe] (page
      allocator: no sequence of calls breaks its invariant), and its errors;
      [slob_client_safe] and [slob_malloc_first_fit] (heap: any client that
      stays inside its blocks), [slob_init_shares_pages] (the heap starts well
      formed, on pages kalloc also hands out), [first_malloc_builds_again];
      [bump_malloc_small] (the other allocator); [memmove_overlap] and, in
      [LibProps], memcmp and the bitmap.
    - Concurrency: [spinlock_mutual_exclusion]; [queue_counter_races] (the
      queue's counter is updated outside the lock); [interrupts_between_steps]
      (interrupts between the steps of the loop amount to interrupts between
      whole rounds) and [unmasked_read_deadlocks] (why the loop masks them).
    - Data and text: [queue_refines_fifo], [vsnprintf_renders] (against an
      abstract renderer), number and binary conversions read back.
    - Hardware tables: [walk_page_table_translates] (against the architecture's
      translation), descriptors and gates, [madt_registers_items],
      [ioapic_redirect_irq_programs].
    - Devices: [kprintf_reaches_serial], [hpet_sleep_counter_waits],
      [lapic_timer_init_calibrates], each as the accesses it makes and their
      order, with a counter that need only count while it is enabled;
      [pci_init_finds_all] (the table against what the configuration space
      answers, from the state before the kernel's first malloc).
    - Start-up, on every branch: [term_init_starts], [acpi_init_finds],
      [hpet_init_starts], [ps2_init_programs], besides [kmem_init_establishes],
      [slob_init_shares_pages] and [idt_init_gates]; [keyboard_comes_up] joins
      the heap, the queue, the controller, the serial port and the screen to the
      event loop.
    - Terminal: [tprintf_stays_on_screen],
      [tprintf_is_a_teletype] (the pixels of every row against an abstract
      teletype), [kprintf_reaches_screen], [term_keyevent_edits] (against an
      abstract line editor, and the commands against the teletype).
    - Interrupts and the event loop: [keyboard_interrupt_transparent]; and all
      of it composed, [keystrokes_reach_the_line]: any order of interrupts and
      rounds refines an abstract machine of a bounded queue and a line.
    - Errors: what the code does where it is wrong, as theorems of the same
      kind (NULL results that are not checked, ranges that are too long,
      uninitialised data).

    ** Fuel

    Loops over memory run with fuel [mem_fuel], one more than the number of
    mapped bytes: a string, a list or a table that is in memory is shorter.
    [slob_fuel] is the same number. kalloc looks at every page at most twice
    ([kalloc_fuel]), kfree at no more pages than there are ([kfree_fuel]); a
    number has at most 64 digits, strlen counts to 65535 and write_serial_str to
    256 in the code itself. Waiting for a device is bounded by [patience], a
    parameter; the theorems assume a device that answers within it. The theorems
    state that the result is reached, not only what it is if it is.

    ** Not modelled

    include/limine.h declares the boot protocol, a third party's; what the
    kernel reads of the responses is an argument of [kmem_init], [term_init],
    [acpi_init], [cpu_init] and [kernel_main]. What the compiled C code does to
    the registers is a parameter of the stubs in [Isr]. The wake-up of other
    processors is commented out in cpu_init; [_cpu_awake] is modelled.
    A keyboard interrupt arrives between the steps of the event loop, cqueue_read
    included; the handling of one key event is a single step, and in the other
    functions no interrupt arrives. Two processors interleave in the lock and in
    the queue only. The boot loader's strings and the font are memory contents.

    ** What is left

    kernel_main's start-up as one run: each part has its theorem, and the
    joints proved are those from kmem_init by slob_init to the first malloc,
    which the PCI scan makes, and from the heap by the keyboard to the event
    loop; the conditions of the parts between them are hypotheses of their
    theorems. The real kprintf in the start-up before the keyboard. Interrupts
    in the middle of the handling of a key event. *)
From Stdlib Require Export ZArith Lia.
From stdpp Require Export base decidable numbers list option strings gmap.

#[global] Set Default Goal Selector "!".

(** ** C integer types

    A C integer is a [Z]; conversions and arithmetic of a fixed width are
    written with the wrap-around functions below.  [uN] is the conversion to
    [uintN_t]; [sN] is the conversion to [intN_t] (two's complement, as gcc
    and clang define it on x86-64). *)

Definition u8 (z : Z) : Z := z `mod` 2 ^ 8.
Definition u16 (z : Z) : Z := z `mod` 2 ^ 16.
Definition u32 (z : Z) : Z := z `mod` 2 ^ 32.
Definition u64 (z : Z) : Z := z `mod` 2 ^ 64.
Definition s8 (z : Z) : Z := (z + 2 ^ 7) `mod` 2 ^ 8 - 2 ^ 7.
Definition s32 (z : Z) : Z := (z + 2 ^ 31) `mod` 2 ^ 32 - 2 ^ 31.
Definition s64 (z : Z) : Z := (z + 2 ^ 63) `mod` 2 ^ 64 - 2 ^ 63.

Declare Scope kernel_scope.
Delimit Scope kernel_scope with K.
Notation "a +64 b" := (u64 (a + b)) (at level 50, left associativity) : kernel_scope.
Notation "a -64 b" := (u64 (a - b)) (at level 50, left associativity) : kernel_scope.
Notation "a *64 b" := (u64 (a * b)) (at level 40, left associativity) : kernel_scope.
Notation "a +32 b" := (u32 (a + b)) (at level 50, left associativity) : kernel_scope.
Notation "a -32 b" := (u32 (a - b)) (at level 50, left associativity) : kernel_scope.
Notation "a *32 b" := (u32 (a * b)) (at level 40, left associativity) : kernel_scope.
Open Scope kernel_scope.
Open Scope Z_scope.

(** Values of the unsigned types. *)
Definition is_u8 (z : Z) : Prop := 0 <= z < 2 ^ 8.
Definition is_u16 (z : Z) : Prop := 0 <= z < 2 ^ 16.
Definition is_u32 (z : Z) : Prop := 0 <= z < 2 ^ 32.
Definition is_u64 (z : Z) : Prop := 0 <= z < 2 ^ 64.

(** ** Arithmetic automation

    [word_lia] is [lia] with the wrap-around functions unfolded and the
    Euclidean equations of [`div`] and [`mod`] added. *)

Ltac unfold_words :=
  unfold is_u8, is_u16, is_u32, is_u64, u8, u16, u32, u64, s8, s32, s64 in *.

Ltac word_lia := unfold_words; Z.to_euclidean_division_equations; lia.

Create HintDb words.

Lemma u8_small z : 0 <= z < 2 ^ 8 -> u8 z = z.
Proof. intros; by apply Z.mod_small. Qed.
Lemma u16_small z : 0 <= z < 2 ^ 16 -> u16 z = z.
Proof. intros; by apply Z.mod_small. Qed.
Lemma u32_small z : 0 <= z < 2 ^ 32 -> u32 z = z.
Proof. intros; by apply Z.mod_small. Qed.
Lemma u64_small z : 0 <= z < 2 ^ 64 -> u64 z = z.
Proof. intros; by apply Z.mod_small. Qed.

Lemma u8_range z : is_u8 (u8 z).
Proof. by apply Z.mod_pos_bound. Qed.
Lemma u16_range z : is_u16 (u16 z).
Proof. by apply Z.mod_pos_bound. Qed.
Lemma u32_range z : is_u32 (u32 z).
Proof. by apply Z.mod_pos_bound. Qed.
Lemma u64_range z : is_u64 (u64 z).
Proof. by apply Z.mod_pos_bound. Qed.

#[export] Hint Resolve u8_range u16_range u32_range u64_range : words.

(** [wsimp] removes the wrap-around functions whose argument is in range. *)
Ltac wsimp :=
  repeat (rewrite u64_small by lia || rewrite u32_small by lia
          || rewrite u16_small by lia || rewrite u8_small by lia).

(** ** Bits *)

(** Equality of integers bit by bit. *)
Ltac bitwise :=
  apply Z.bits_inj'; let n := fresh "n" in let Hn := fresh "Hn" in intros n Hn;
  rewrite ?Z.lor_spec, ?Z.land_spec, ?Z.lxor_spec, ?Z.ldiff_spec.

Lemma testbit_one_shift k n :
  0 <= k -> 0 <= n -> Z.testbit (Z.shiftl 1 k) n = bool_decide (n = k).
Proof.
  intros Hk Hn. rewrite Z.shiftl_1_l, Z.pow2_bits_eqb by done.
  case_bool_decide; destruct (Z.eqb_spec k n); congruence.
Qed.

Lemma testbit_mod_pow2 z w n :
  0 <= n -> 0 <= w -> Z.testbit (z `mod` 2 ^ w) n = bool_decide (n < w) && Z.testbit z n.
Proof.
  intros Hn Hw. case_bool_decide.
  - by rewrite Z.mod_pow2_bits_low.
  - by rewrite Z.mod_pow2_bits_high by lia.
Qed.

Lemma land_bit_nonzero z k :
  0 <= k -> (Z.land z (Z.shiftl 1 k) =? 0) = negb (Z.testbit z k).
Proof.
  intros Hk. destruct (Z.testbit z k) eqn:E; simpl.
  - apply Z.eqb_neq. intros H. apply (f_equal (fun x => Z.testbit x k)) in H.
    rewrite Z.land_spec, E, testbit_one_shift, Z.bits_0 in H by lia.
    case_bool_decide; simpl in *; congruence.
  - apply Z.eqb_eq. bitwise. rewrite testbit_one_shift, Z.bits_0 by lia.
    case_bool_decide; subst; rewrite ?E; by rewrite ?andb_false_r.
Qed.

(** ** Lists *)

Lemma lookup_lt_length {A} (l : list A) (i : nat) x : l !! i = Some x -> (i < length l)%nat.
Proof. apply lookup_lt_Some. Qed.
