(* ===== verification/Machine.v ===== *)
(** * The machine: outcomes, the state monad, byte memory and the kernel log *)
From S2P Require Import Prelude.

(** ** Outcomes of running C code *)

(** Undefined or trapping behaviour the code can run into. *)
Inductive fault :=
  | Unmapped (a : Z)          (* access to memory that is not mapped *)
  | OutOfBounds               (* access past the end of an array object *)
  | SignedOverflow            (* signed arithmetic overflow *)
  | DivByZero
  | BadShift                  (* shift count not below the width *)
  | BadArgument.              (* va_arg past or against the actual arguments *)

Inductive outcome (St A : Type) :=
  | Ret (a : A) (s : St)
  | Halted (s : St)           (* hcf(): interrupts off, CPU halted for good *)
  | Spin (s : St)             (* spins on a lock or device for as long as nobody else acts *)
  | Fault (f : fault)
  | NoFuel.
Arguments Ret {St A} a s.
Arguments Halted {St A} s.
Arguments Spin {St A} s.
Arguments Fault {St A} f.
Arguments NoFuel {St A}.

Definition M (St A : Type) : Type := St -> outcome St A.

#[export] Instance M_ret {St} : MRet (M St) := fun A a s => Ret a s.
#[export] Instance M_bind {St} : MBind (M St) := fun A B k m s =>
  match m s with
  | Ret a s' => k a s'
  | Halted s' => Halted s'
  | Spin s' => Spin s'
  | Fault f => Fault f
  | NoFuel => NoFuel
  end.

Section primitives.
Context {St : Type}.

Definition hcf {A} : M St A := fun s => Halted s.
Definition spin {A} : M St A := fun s => Spin s.
Definition fail {A} (f : fault) : M St A := fun _ => Fault f.
Definition gets {A} (f : St -> A) : M St A := fun s => Ret (f s) s.
Definition modify (f : St -> St) : M St unit := fun s => Ret tt (f s).

(** [for (i = lo; i < hi; i++) body(i)] with loop-invariant bounds. *)
Fixpoint for_count (n : nat) (i : Z) (body : Z -> M St unit) : M St unit :=
  match n with
  | O => mret tt
  | S n' => body i ;; for_count n' (i + 1) body
  end.
Definition for_range (lo hi : Z) (body : Z -> M St unit) : M St unit :=
  for_count (Z.to_nat (hi - lo)) lo body.

(** [while (true) { ... }] with [inl] to go round again, [inr] to leave. *)
Fixpoint loop {L R} (fuel : nat) (body : L -> M St (L + R)) (l : L) : M St R :=
  match fuel with
  | O => fun _ => NoFuel
  | S fuel' =>
      r ← body l;
      match r with
      | inl l' => loop fuel' body l'
      | inr x => mret x
      end
  end.

End primitives.

(** Running a component's code inside a larger state. *)
Definition zoom {St T A} (get : St -> T) (set : T -> St -> St) (m : M T A) : M St A :=
  fun s => match m (get s) with
           | Ret a t => Ret a (set t s)
           | Halted t => Halted (set t s)
           | Spin t => Spin (set t s)
           | Fault f => Fault f
           | NoFuel => NoFuel
           end.

(** ** Byte memory *)

Abbreviation memory := (gmap Z Z).

Definition byte_at (a : Z) (m : memory) : Z := default 0 (m !! a) `mod` 256.

(** Little-endian load and store of [n] bytes. *)
Fixpoint rd (n : nat) (a : Z) (m : memory) : Z :=
  match n with
  | O => 0
  | S n' => byte_at a m + 256 * rd n' (a + 1) m
  end.
Fixpoint wr (n : nat) (a v : Z) (m : memory) : memory :=
  match n with
  | O => m
  | S n' => <[a := v `mod` 256]> (wr n' (a + 1) (v `div` 256) m)
  end.
Fixpoint mapped (n : nat) (a : Z) (m : memory) : bool :=
  match n with
  | O => true
  | S n' => bool_decide (is_Some (m !! a)) && mapped n' (a + 1) m
  end.

(** [n] zero bytes from address [a] on. *)
Definition zeros (a n : Z) : memory := list_to_map ((fun i => (a + i, 0)) <$> seqZ 0 n).

(** All bytes of [[a, a + len)] are mapped. *)
Definition region (a len : Z) (m : memory) : Prop :=
  forall x, a <= x < a + len -> is_Some (m !! x).

(** ** The machine every component's state embeds *)

(** A variadic argument of kprintf: a 64-bit register slot or a string. *)
Inductive karg := KNum (z : Z) | KStr (s : string).
Arguments KStr s%_string_scope.
Record log_entry := Log { l_fmt : string; l_args : list karg }.

(** The escape for a new line in a C string. *)
Definition nl : string := String (Ascii.ascii_of_nat 10) EmptyString.

Record machine := Machine { mem : memory; klog : list log_entry }.

Class HasMachine (St : Type) := {
  get_mach : St -> machine;
  set_mach : machine -> St -> St;
  get_set_mach m s : get_mach (set_mach m s) = m;
  set_get_mach s : set_mach (get_mach s) s = s;
  set_set_mach m m' s : set_mach m (set_mach m' s) = set_mach m s
}.

Section memory_ops.
Context `{HasMachine St}.

Definition smem (s : St) : memory := mem (get_mach s).
Definition set_mem (m : memory) (s : St) : St :=
  set_mach (Machine m (klog (get_mach s))) s.

Definition load (n : nat) (a : Z) : M St Z := fun s =>
  if mapped n a (smem s) then Ret (rd n a (smem s)) s else Fault (Unmapped a).
Definition store (n : nat) (a v : Z) : M St unit := fun s =>
  if mapped n a (smem s) then Ret tt (set_mem (wr n a v (smem s)) s)
  else Fault (Unmapped a).

(** A call of kprintf as an entry of the log. *)
Definition kprintf_log (fmt : string) (args : list karg) : M St unit :=
  modify (fun s => set_mach (Machine (mem (get_mach s))
                               (Log fmt args :: klog (get_mach s))) s).
End memory_ops.

(** kprintf(format, ...), as the callers see it: what it does is an instance.
    [printf_log] only records the call; [Kprintf] has the one that prints. *)
Class Printf (St : Type) := kprintf : string -> list karg -> M St unit.
#[export] Instance printf_log `{HasMachine St} : Printf St := kprintf_log.
Arguments kprintf {St _} fmt%_string_scope args%_list_scope.

(** ** Reasoning about the monad *)

(** Running one step of a bind; [mred] runs the steps whose result is known. *)
Lemma bind_ret_eq {St A B} (m : M St A) (k : A -> M St B) s a s' :
  m s = Ret a s' -> (m ≫= k) s = k a s'.
Proof. intros E. unfold mbind, M_bind. by rewrite E. Qed.

Ltac mred :=
  unfold mbind, M_bind, mret, M_ret, gets, modify, hcf, spin, fail, zoom in *;
  cbn beta iota in *.

Lemma loop_S {St L R} fuel (body : L -> M St (L + R)) l s :
  loop (S fuel) body l s =
    (r ← body l; match r with inl l' => loop fuel body l' | inr x => mret x end) s.
Proof. done. Qed.

Lemma for_count_inv {St} (body : Z -> M St unit) (I : Z -> St -> Prop) n lo s :
  (forall i s, lo <= i < lo + Z.of_nat n -> I i s ->
     exists s', body i s = Ret tt s' /\ I (i + 1) s') ->
  I lo s ->
  exists s', for_count n lo body s = Ret tt s' /\ I (lo + Z.of_nat n) s'.
Proof.
  revert lo s. induction n as [|n IH]; intros lo s Hb HI; simpl.
  - exists s. split; [done|]. by rewrite Z.add_0_r.
  - destruct (Hb lo s) as (s1 & E1 & H1); [lia|done|].
    rewrite (bind_ret_eq _ _ _ _ _ E1).
    destruct (IH (lo + 1) s1) as (s2 & E2 & H2); [|done|].
    + intros i t Hi. apply Hb. lia.
    + exists s2. split; [done|]. by replace (lo + Z.of_nat (S n)) with (lo + 1 + Z.of_nat n) by lia.
Qed.

Lemma for_range_inv {St} (body : Z -> M St unit) (I : Z -> St -> Prop) lo hi s :
  lo <= hi ->
  (forall i s, lo <= i < hi -> I i s -> exists s', body i s = Ret tt s' /\ I (i + 1) s') ->
  I lo s ->
  exists s', for_range lo hi body s = Ret tt s' /\ I hi s'.
Proof.
  intros Hle Hb HI. unfold for_range.
  destruct (for_count_inv body I (Z.to_nat (hi - lo)) lo s) as (s' & E & H'); [|done|].
  - intros i t Hi. apply Hb. lia.
  - exists s'. split; [done|]. by replace hi with (lo + Z.of_nat (Z.to_nat (hi - lo))) by lia.
Qed.

Lemma for_range_empty {St} (body : Z -> M St unit) lo hi s :
  hi <= lo -> for_range lo hi body s = Ret tt s.
Proof. intros. unfold for_range. by replace (Z.to_nat (hi - lo)) with O by lia. Qed.

(** ** Reasoning about memory *)

Lemma byte_at_range a m : 0 <= byte_at a m < 256.
Proof. unfold byte_at. by apply Z.mod_pos_bound. Qed.

Lemma rd_1 a m : rd 1 a m = byte_at a m.
Proof. cbn [rd]. lia. Qed.

Lemma wr_1 a v m : wr 1 a v m = <[a := v `mod` 256]> m.
Proof. done. Qed.

Lemma pow256_succ n : 256 ^ Z.of_nat (S n) = 256 * 256 ^ Z.of_nat n.
Proof. rewrite Nat2Z.inj_succ, Z.pow_succ_r; lia. Qed.

Lemma rd_range n a m : 0 <= rd n a m < 256 ^ Z.of_nat n.
Proof.
  revert a. induction n as [|n IH]; intros a; cbn [rd]; [done|].
  rewrite pow256_succ. specialize (IH (a + 1)). pose proof (byte_at_range a m). lia.
Qed.

Lemma rd_ext n a m m' :
  (forall x, a <= x < a + Z.of_nat n -> byte_at x m = byte_at x m') -> rd n a m = rd n a m'.
Proof.
  revert a. induction n as [|n IH]; intros a H; cbn [rd]; [done|].
  rewrite (H a) by lia. rewrite (IH (a + 1)); [done|]. intros x Hx. apply H. lia.
Qed.

Lemma wr_lookup_ne n a v m x :
  ~ (a <= x < a + Z.of_nat n) -> wr n a v m !! x = m !! x.
Proof.
  revert a v. induction n as [|n IH]; intros a v Hx; cbn [wr]; [done|].
  rewrite lookup_insert_ne by lia. apply IH. lia.
Qed.

Lemma byte_at_wr_ne n a v m x :
  ~ (a <= x < a + Z.of_nat n) -> byte_at x (wr n a v m) = byte_at x m.
Proof. intros. unfold byte_at. by rewrite wr_lookup_ne. Qed.

Lemma byte_at_insert_eq a v m : byte_at a (<[a := v `mod` 256]> m) = v `mod` 256.
Proof. unfold byte_at. rewrite lookup_insert_eq. simpl. by rewrite Z.mod_mod. Qed.

Lemma byte_at_insert_ne a b v m : a <> b -> byte_at a (<[b := v]> m) = byte_at a m.
Proof. intros. unfold byte_at. by rewrite lookup_insert_ne. Qed.

Lemma rd_insert_ne n a b v m :
  ~ (a <= b < a + Z.of_nat n) -> rd n a (<[b := v]> m) = rd n a m.
Proof. intros. apply rd_ext. intros x Hx. apply byte_at_insert_ne. lia. Qed.

Lemma rd_wr_eq n a v m : rd n a (wr n a v m) = v `mod` 256 ^ Z.of_nat n.
Proof.
  revert a v. induction n as [|n IH]; intros a v; cbn [rd wr]; [by rewrite Z.mod_1_r|].
  rewrite byte_at_insert_eq, rd_insert_ne, IH, pow256_succ by lia.
  rewrite Z.rem_mul_r; [done|lia|]. apply Z.pow_pos_nonneg; lia.
Qed.

Lemma rd_wr_ne n k a b v m :
  a + Z.of_nat n <= b \/ b + Z.of_nat k <= a -> rd n a (wr k b v m) = rd n a m.
Proof. intros H. apply rd_ext. intros x Hx. apply byte_at_wr_ne. lia. Qed.

Lemma wr_is_Some n a v m x : is_Some (m !! x) -> is_Some (wr n a v m !! x).
Proof.
  revert a v. induction n as [|n IH]; intros a v Hx; cbn [wr]; [done|].
  destruct (decide (a = x)) as [->|]; [rewrite lookup_insert_eq; eauto|].
  rewrite lookup_insert_ne by done. by apply IH.
Qed.

(** The byte [wr] leaves at each address it covers. *)
Lemma wr_lookup_in n a v m x :
  a <= x < a + Z.of_nat n ->
  wr n a v m !! x = Some ((v `div` 256 ^ (x - a)) `mod` 256).
Proof.
  revert a v. induction n as [|n IH]; intros a v Hx; [lia|]. cbn [wr].
  destruct (decide (x = a)) as [->|].
  - by rewrite lookup_insert_eq, Z.sub_diag, Z.pow_0_r, Z.div_1_r.
  - rewrite lookup_insert_ne, IH, Z.div_div by lia. do 3 f_equal.
    replace (x - a) with (Z.succ (x - (a + 1))) by lia. by rewrite Z.pow_succ_r by lia.
Qed.

Lemma wr_wr_eq n a v w m : wr n a v (wr n a w m) = wr n a v m.
Proof.
  apply map_eq. intros x. destruct (decide (a <= x < a + Z.of_nat n)) as [Hx|Hx].
  - by rewrite !wr_lookup_in.
  - by rewrite !wr_lookup_ne.
Qed.

Lemma mapped_spec n a m : mapped n a m = true <-> region a (Z.of_nat n) m.
Proof.
  revert a. induction n as [|n IH]; intros a; cbn [mapped].
  - split; [|done]. intros _ x Hx. lia.
  - rewrite andb_true_iff, bool_decide_eq_true, IH. unfold region. split.
    + intros [Ha Hr] x Hx. destruct (decide (x = a)) as [->|]; [done|]. apply Hr. lia.
    + intros Hr. split; [apply Hr; lia|]. intros x Hx. apply Hr. lia.
Qed.

Lemma region_wr a len n b v m : region a len m -> region a len (wr n b v m).
Proof. intros H x Hx. by apply wr_is_Some, H. Qed.

Lemma region_sub a len b len' m :
  region a len m -> a <= b -> b + len' <= a + len -> region b len' m.
Proof. intros H ?? x Hx. apply H. lia. Qed.

Lemma zeros_lookup a n x : zeros a n !! x = if decide (a <= x < a + n) then Some 0 else None.
Proof.
  unfold zeros. case_decide as D.
  - apply elem_of_list_to_map_1.
    + rewrite <- list_fmap_compose. apply NoDup_fmap_2; [|apply NoDup_seqZ].
      intros i j. simpl. lia.
    + apply list_elem_of_fmap. exists (x - a). split; [f_equal; lia|]. apply elem_of_seqZ. lia.
  - apply not_elem_of_list_to_map_1. rewrite <- list_fmap_compose.
    intros (i & -> & Hi)%list_elem_of_fmap. apply elem_of_seqZ in Hi. simpl in D. lia.
Qed.

Lemma region_zeros a n : region a n (zeros a n).
Proof. intros x Hx. rewrite zeros_lookup, decide_True by done. eauto. Qed.

(** Memory that reads as zero everywhere it is mapped. *)
Definition all_zero (m : memory) : Prop := forall x, byte_at x m = 0.
Lemma all_zero_zeros a n : all_zero (zeros a n).
Proof. intros x. unfold byte_at. rewrite zeros_lookup. by case_decide. Qed.
Lemma all_zero_union m m' : all_zero m -> all_zero m' -> all_zero (m ∪ m').
Proof.
  intros H H' x. unfold byte_at. rewrite lookup_union.
  specialize (H x). specialize (H' x). unfold byte_at in *.
  destruct (m !! x), (m' !! x); done.
Qed.
Lemma all_zero_rd m n a : all_zero m -> rd n a m = 0.
Proof. intros H. revert a. induction n as [|n IH]; intros a; cbn [rd]; [done|]. by rewrite IH, H. Qed.
Lemma rd_zero_bytes k a m : (forall x, a <= x < a + Z.of_nat k -> byte_at x m = 0) -> rd k a m = 0.
Proof. intros Hz. rewrite (rd_ext k a m ∅); [by apply all_zero_rd|]. intros x Hx. by rewrite Hz. Qed.
(** Equal bytes at two places read as the same number. *)
Lemma rd_shift n a b m m' :
  (forall i, 0 <= i < Z.of_nat n -> byte_at (a + i) m = byte_at (b + i) m') -> rd n a m = rd n b m'.
Proof.
  revert a b. induction n as [|n IH]; intros a b H; cbn [rd]; [done|].
  pose proof (H 0 ltac:(lia)) as H0. rewrite !Z.add_0_r in H0. rewrite H0. do 2 f_equal.
  apply IH. intros i Hi. specialize (H (i + 1) ltac:(lia)).
  by replace (a + 1 + i) with (a + (i + 1)) by lia; replace (b + 1 + i) with (b + (i + 1)) by lia.
Qed.
Lemma region_union_l a n m m' : region a n m -> region a n (m ∪ m').
Proof. intros H x Hx. apply lookup_union_is_Some. left. by apply H. Qed.
Lemma region_union_r a n m m' : region a n m' -> region a n (m ∪ m').
Proof. intros H x Hx. apply lookup_union_is_Some. right. by apply H. Qed.

Create HintDb memory.
#[export] Hint Resolve region_zeros region_union_l region_union_r all_zero_zeros all_zero_union : memory.
#[export] Hint Resolve region_wr : memory.

Section memory_ops_facts.
Context `{HasMachine St}.
Implicit Type s : St.

Lemma smem_set_mem m s : smem (set_mem m s) = m.
Proof. unfold smem, set_mem. by rewrite get_set_mach. Qed.
Lemma set_mem_smem s : set_mem (smem s) s = s.
Proof.
  transitivity (set_mach (get_mach s) s); [|apply set_get_mach].
  unfold smem, set_mem. f_equal. by destruct (get_mach s).
Qed.
Lemma set_mem_set_mem m m' s : set_mem m (set_mem m' s) = set_mem m s.
Proof. unfold set_mem. by rewrite get_set_mach, set_set_mach. Qed.

Lemma load_ok n a s :
  region a (Z.of_nat n) (smem s) -> load n a s = Ret (rd n a (smem s)) s.
Proof. intros Hr. unfold load. by rewrite (proj2 (mapped_spec _ _ _) Hr). Qed.

Lemma store_ok n a v s :
  region a (Z.of_nat n) (smem s) ->
  store n a v s = Ret tt (set_mem (wr n a v (smem s)) s).
Proof. intros Hr. unfold store. by rewrite (proj2 (mapped_spec _ _ _) Hr). Qed.

Lemma load_unmapped n a s :
  ~ region a (Z.of_nat n) (smem s) -> load n a s = Fault (Unmapped a).
Proof.
  intros Hr. unfold load. destruct (mapped n a (smem s)) eqn:E; [|done].
  by apply mapped_spec in E.
Qed.
End memory_ops_facts.

Create Rewrite HintDb memory.
#[export] Hint Rewrite @smem_set_mem @set_mem_smem @set_mem_set_mem : memory.

(** ** Automation

    [mregion] proves that an access lies in a mapped region known from a
    hypothesis; [mstep] runs the next load, store or pure step of a program;
    [rdsimp] reads through the writes recorded in the memory. *)
Ltac mregion :=
  rewrite ?smem_set_mem; repeat apply region_wr;
  match goal with
  | H : region _ _ ?m |- region _ _ ?m => eapply (region_sub _ _ _ _ _ H); lia
  end.
Ltac mstep :=
  first [ erewrite bind_ret_eq; [|apply load_ok; mregion]
        | erewrite bind_ret_eq; [|apply store_ok; mregion]
        | erewrite bind_ret_eq; [|reflexivity] ];
  rewrite ?smem_set_mem, ?set_mem_set_mem.
Ltac rdsimp :=
  repeat (rewrite rd_wr_eq || rewrite rd_wr_ne by lia).

#[global] Arguments rd : simpl never.
#[global] Arguments wr : simpl never.
#[global] Arguments mapped : simpl never.
