(* ===== verification/Math.v ===== *)
(** * include/math.h: the rounding and comparison macros

    The macros are used on [uint64_t]/[size_t] operands only, so every
    intermediate result wraps at 2^64. *)
From S2P Require Import Prelude.

Definition DIV_ROUNDUP (val div : Z) : Z := (val +64 div -64 1) `div` div.
Definition MAX (a b : Z) : Z := if a >? b then a else b.
Definition MIN (a b : Z) : Z := if a <? b then a else b.
Definition ALIGN_UP (val align : Z) : Z := (val +64 align -64 1) `div` align *64 align.
Definition IS_BIT_SET (var pos : Z) : Z := Z.land (Z.shiftr var pos) 1.

Lemma DIV_ROUNDUP_eq val div :
  0 < div -> 0 <= val -> val + div <= 2 ^ 64 -> DIV_ROUNDUP val div = (val + div - 1) `div` div.
Proof.
  intros Hd Hv Ho. unfold DIV_ROUNDUP. f_equal. word_lia.
Qed.

(** No overflow: the least number of blocks that covers [val]. *)
Lemma DIV_ROUNDUP_bounds val div :
  0 < div -> 0 <= val -> val + div <= 2 ^ 64 ->
  div * (DIV_ROUNDUP val div - 1) < val <= div * DIV_ROUNDUP val div.
Proof.
  intros Hd Hv Ho. rewrite DIV_ROUNDUP_eq by done.
  pose proof (Z.div_mod (val + div - 1) div). pose proof (Z.mod_pos_bound (val + div - 1) div). lia.
Qed.

Lemma ALIGN_UP_eq val align :
  0 < align -> 0 <= val -> val + align <= 2 ^ 64 ->
  ALIGN_UP val align = (val + align - 1) `div` align * align.
Proof.
  intros Ha Hv Ho. unfold ALIGN_UP.
  replace (val +64 align -64 1) with (val + align - 1) by word_lia.
  apply u64_small.
  pose proof (Z.div_mod (val + align - 1) align).
  pose proof (Z.mod_pos_bound (val + align - 1) align).
  pose proof (Z.div_pos (val + align - 1) align). nia.
Qed.

Lemma ALIGN_UP_bounds val align :
  0 < align -> 0 <= val -> val + align <= 2 ^ 64 ->
  val <= ALIGN_UP val align < val + align /\ ALIGN_UP val align `mod` align = 0.
Proof.
  intros Ha Hv Ho. rewrite ALIGN_UP_eq by done.
  pose proof (Z.div_mod (val + align - 1) align).
  pose proof (Z.mod_pos_bound (val + align - 1) align).
  rewrite Z.mod_mul by lia. lia.
Qed.

(** Aligning a multiple of the alignment changes nothing. *)
Lemma ALIGN_UP_multiple val align :
  0 < align -> 0 <= val -> val + align <= 2 ^ 64 -> val `mod` align = 0 -> ALIGN_UP val align = val.
Proof.
  intros Ha Hv Ho Hm. destruct (ALIGN_UP_bounds val align) as [[Hl Hu] Hz]; [done..|].
  apply Z.mod_divide in Hm as [k ->], Hz as [k' Ek]; [|lia..]. rewrite Ek in *.
  assert (k' = k) as -> by nia. done.
Qed.

Lemma MAX_eq a b : MAX a b = Z.max a b.
Proof. unfold MAX. destruct (Z.gtb_spec a b); lia. Qed.
Lemma MIN_eq a b : MIN a b = Z.min a b.
Proof. unfold MIN. destruct (Z.ltb_spec a b); lia. Qed.
Lemma IS_BIT_SET_eq var pos : 0 <= pos -> IS_BIT_SET var pos = Z.b2z (Z.testbit var pos).
Proof.
  intros Hp. unfold IS_BIT_SET. rewrite Z.testbit_spec' by done.
  change 1 with (Z.ones 1). rewrite Z.land_ones, Z.shiftr_div_pow2 by lia. done.
Qed.
