(* ===== verification/Bitmap.v ===== *)
(** * include/bitmap.h: a bitmap of flags in byte memory *)
From S2P Require Import Prelude Machine.

Section bitmap.
Context `{HasMachine St}.

Definition bitmap_test (bitmap bit : Z) : M St bool :=
  let byte_index := bit `div` 8 in
  let bit_mask := u8 (Z.shiftl 1 (bit `mod` 8)) in
  b ← load 1 (bitmap + byte_index);
  mret (negb (Z.land b bit_mask =? 0)).

Definition bitmap_on (bitmap bit : Z) : M St unit :=
  b ← load 1 (bitmap + bit `div` 8);
  store 1 (bitmap + bit `div` 8) (Z.lor b (Z.shiftl 1 (bit `mod` 8))).

Definition bitmap_off (bitmap bit : Z) : M St unit :=
  b ← load 1 (bitmap + bit `div` 8);
  store 1 (bitmap + bit `div` 8) (Z.land b (Z.lnot (Z.shiftl 1 (bit `mod` 8)))).
End bitmap.

(** ** The flags a memory holds *)

(** Flag [bit] of the bitmap at [p], and the memory with that flag written. *)
Definition flag (m : memory) (p bit : Z) : bool :=
  Z.testbit (byte_at (p + bit `div` 8) m) (bit `mod` 8).
Definition flag_on (p bit : Z) (m : memory) : memory :=
  wr 1 (p + bit `div` 8)
     (Z.lor (rd 1 (p + bit `div` 8) m) (Z.shiftl 1 (bit `mod` 8))) m.
Definition flag_off (p bit : Z) (m : memory) : memory :=
  wr 1 (p + bit `div` 8)
     (Z.land (rd 1 (p + bit `div` 8) m) (Z.lnot (Z.shiftl 1 (bit `mod` 8)))) m.

Lemma bit_mask_u8 bit : u8 (Z.shiftl 1 (bit `mod` 8)) = Z.shiftl 1 (bit `mod` 8).
Proof.
  apply u8_small. rewrite Z.shiftl_1_l. split; [apply Z.pow_nonneg; lia|].
  apply Z.pow_lt_mono_r; [lia|lia|]. apply Z.mod_pos_bound. lia.
Qed.

Lemma flag_index_eq i j : i `div` 8 = j `div` 8 -> i `mod` 8 = j `mod` 8 -> i = j.
Proof. intros. rewrite (Z.div_mod i 8), (Z.div_mod j 8) by lia. congruence. Qed.

(** Writing one flag: the byte written, and its effect on every flag. *)
Lemma flag_wr1 p i v m j :
  0 <= j ->
  (forall n, 0 <= n < 8 -> n <> i `mod` 8 ->
     Z.testbit v n = Z.testbit (byte_at (p + i `div` 8) m) n) ->
  flag (wr 1 (p + i `div` 8) v m) p j =
    if decide (j = i) then Z.testbit v (i `mod` 8) else flag m p j.
Proof.
  intros Hj Hv. unfold flag. rewrite wr_1.
  pose proof (Z.mod_pos_bound i 8). pose proof (Z.mod_pos_bound j 8).
  assert (Hb : forall n, 0 <= n < 8 -> Z.testbit (v `mod` 256) n = Z.testbit v n).
  { intros n Hn. change 256 with (2 ^ 8). rewrite Z.mod_pow2_bits_low; [done|lia]. }
  destruct (decide (j `div` 8 = i `div` 8)) as [E|E].
  - rewrite E, byte_at_insert_eq, Hb by lia. case_decide as D.
    + by subst.
    + rewrite Hv; [done|lia|]. intros F. by apply D, flag_index_eq.
  - rewrite byte_at_insert_ne by lia. rewrite decide_False; [done|]. by intros ->.
Qed.

Lemma flag_on_spec m p i j :
  0 <= i -> 0 <= j -> flag (flag_on p i m) p j = bool_decide (j = i) || flag m p j.
Proof.
  intros Hi Hj. unfold flag_on. rewrite rd_1. pose proof (Z.mod_pos_bound i 8).
  rewrite flag_wr1; [|done|].
  - rewrite Z.lor_spec, testbit_one_shift, bool_decide_eq_true_2, orb_true_r by lia.
    case_decide; case_bool_decide; done.
  - intros n Hn Hne. rewrite Z.lor_spec, testbit_one_shift, bool_decide_eq_false_2 by lia.
    by rewrite orb_false_r.
Qed.

Lemma flag_off_spec m p i j :
  0 <= i -> 0 <= j -> flag (flag_off p i m) p j = bool_decide (j <> i) && flag m p j.
Proof.
  intros Hi Hj. unfold flag_off. rewrite rd_1. pose proof (Z.mod_pos_bound i 8).
  rewrite flag_wr1; [|done|].
  - rewrite Z.land_spec, Z.lnot_spec, testbit_one_shift, bool_decide_eq_true_2 by lia.
    rewrite andb_false_r. case_decide; case_bool_decide; try done; congruence.
  - intros n Hn Hne.
    rewrite Z.land_spec, Z.lnot_spec, testbit_one_shift, bool_decide_eq_false_2 by lia.
    by rewrite andb_true_r.
Qed.

(** Flags only depend on the bytes of their own bitmap. *)
Lemma flag_wr_ne m p bit n a v :
  ~ (a <= p + bit `div` 8 < a + Z.of_nat n) -> flag (wr n a v m) p bit = flag m p bit.
Proof. intros. unfold flag. by rewrite byte_at_wr_ne. Qed.

Section bitmap_facts.
Context `{HasMachine St}.
Implicit Type s : St.

Lemma bitmap_test_ok p bit s :
  region (p + bit `div` 8) 1 (smem s) -> bitmap_test p bit s = Ret (flag (smem s) p bit) s.
Proof.
  intros Hr. unfold bitmap_test. cbv zeta.
  rewrite (bind_ret_eq _ _ _ _ _ (load_ok 1 _ s Hr)), rd_1. mred. f_equal.
  rewrite bit_mask_u8, land_bit_nonzero, negb_involutive by (apply Z.mod_pos_bound; lia). done.
Qed.

Lemma bitmap_on_ok p bit s :
  region (p + bit `div` 8) 1 (smem s) ->
  bitmap_on p bit s = Ret tt (set_mem (flag_on p bit (smem s)) s).
Proof.
  intros Hr. unfold bitmap_on. rewrite (bind_ret_eq _ _ _ _ _ (load_ok 1 _ s Hr)).
  by apply (store_ok 1).
Qed.

Lemma bitmap_off_ok p bit s :
  region (p + bit `div` 8) 1 (smem s) ->
  bitmap_off p bit s = Ret tt (set_mem (flag_off p bit (smem s)) s).
Proof.
  intros Hr. unfold bitmap_off. rewrite (bind_ret_eq _ _ _ _ _ (load_ok 1 _ s Hr)).
  by apply (store_ok 1).
Qed.
End bitmap_facts.
