(* ===== verification/Atomic.v ===== *)
(** * include/atomic.h: the test-and-set spinlock

    The sequential operations used by the other components, and a step
    relation for any number of CPUs contending for one lock. *)
From S2P Require Import Prelude Machine.

(** ** The operations *)

Section spinlock.
Context {St : Type}.

(** [__sync_lock_test_and_set(&lock, 1)] on a lock kept in a global. *)
Definition tas_global (get : St -> Z) (set : Z -> St -> St) : M St Z :=
  fun s => Ret (get s) (set 1 s).

(** [while (__sync_lock_test_and_set(&lock, 1)) {}]: if the lock is taken the
    caller spins, since only another CPU could release it. *)
Definition spinlock_lock (test_and_set : M St Z) : M St unit :=
  old ← test_and_set;
  if old =? 0 then mret tt else spin.
Definition spinlock_unlock (set : Z -> St -> St) : M St unit := modify (set 0).

(** The same on a lock byte in memory. *)
Context `{HasMachine St}.
Definition tas_mem (a : Z) : M St Z :=
  old ← load 1 a; store 1 a 1 ;; mret old.
Definition spinlock_unlock_mem (a : Z) : M St unit := store 1 a 0.
End spinlock.

(** ** Contending CPUs *)

(** Where a CPU is: outside, in the [while] loop of [spinlock_lock], or
    between [spinlock_lock] and [spinlock_unlock]. *)
Inductive phase := Outside | Waiting | Critical.
#[export] Instance phase_eq_dec : EqDecision phase.
Proof. solve_decision. Defined.

Record contention := Contention { c_lock : Z; c_cpus : list phase }.

(** One atomic step of CPU [i].  The exchange always writes 1. *)
Inductive lock_step (i : nat) : contention -> contention -> Prop :=
  | ls_call l cs :
      cs !! i = Some Outside ->
      lock_step i (Contention l cs) (Contention l (<[i := Waiting]> cs))
  | ls_tas l cs :
      cs !! i = Some Waiting ->
      lock_step i (Contention l cs)
        (Contention 1 (if l =? 0 then <[i := Critical]> cs else cs))
  | ls_unlock l cs :
      cs !! i = Some Critical ->
      lock_step i (Contention l cs) (Contention 0 (<[i := Outside]> cs)).

Definition any_step (c c' : contention) : Prop := exists i, lock_step i c c'.
Definition lock_init (n : nat) : contention := Contention 0 (replicate n Outside).

Definition critical_at (c : contention) (i : nat) : Prop := c_cpus c !! i = Some Critical.

(** The lock byte is 1 exactly when one CPU, and only one, is critical. *)
Definition lock_inv (c : contention) : Prop :=
  (c_lock c = 0 /\ forall i, ~ critical_at c i) \/
  (c_lock c = 1 /\ exists i, critical_at c i /\ forall j, critical_at c j -> j = i).

(** ** Facts *)

Lemma lock_init_inv n : lock_inv (lock_init n).
Proof.
  left. split; [done|]. intros i. unfold critical_at, lock_init. simpl.
  intros [? _]%lookup_replicate. done.
Qed.

Lemma critical_insert cs i x j l :
  x <> Critical -> critical_at (Contention l (<[i := x]> cs)) j ->
  j <> i /\ critical_at (Contention l cs) j.
Proof.
  unfold critical_at. simpl. intros Hx Hj.
  apply list_lookup_insert_Some in Hj as [(-> & ? & ?)|[? ?]]; done.
Qed.

Lemma critical_insert_ne cs i x j l l' :
  j <> i -> critical_at (Contention l cs) j -> critical_at (Contention l' (<[i := x]> cs)) j.
Proof. unfold critical_at. simpl. intros. by rewrite list_lookup_insert_ne. Qed.

Lemma lock_step_inv i c c' : lock_step i c c' -> lock_inv c -> lock_inv c'.
Proof.
  intros Hs Hinv. destruct Hs as [l cs Hi|l cs Hi|l cs Hi].
  - destruct Hinv as [[Hl Hn]|[Hl (k & Hk & Hu)]]; [left|right]; (split; [done|]).
    + intros j [_ Hj]%critical_insert; [by apply (Hn j)|done].
    + assert (k <> i) by (intros ->; unfold critical_at in Hk; simpl in *; congruence).
      exists k. split; [by eapply critical_insert_ne|].
      intros j [_ Hj]%critical_insert; [by apply Hu|done].
  - destruct Hinv as [[Hl Hn]|[Hl (k & Hk & Hu)]]; simpl in Hl; subst l; simpl.
    + right. split; [done|]. exists i. split.
      * unfold critical_at. simpl. apply list_lookup_insert_eq. by eapply lookup_lt_Some.
      * intros j Hj. unfold critical_at in Hj. simpl in Hj.
        apply list_lookup_insert_Some in Hj as [(-> & ? & ?)|[? ?]]; [done|]. by destruct (Hn j).
    + right. split; [done|]. by exists k.
  - left. split; [done|]. intros j [Hne Hj]%critical_insert; [|done].
    destruct Hinv as [[_ Hn]|[_ (k & Hk & Hu)]]; [by apply (Hn j)|].
    apply Hne. rewrite (Hu j Hj). symmetry. by apply Hu.
Qed.

Lemma lock_reachable_inv n c : rtc any_step (lock_init n) c -> lock_inv c.
Proof.
  intros Hr. remember (lock_init n) as c0 eqn:E.
  assert (lock_inv c0) as H0 by (rewrite E; apply lock_init_inv). clear E.
  induction Hr as [|c0 c1 c2 [i Hs] _ IH]; [done|]. by apply IH, (lock_step_inv i c0).
Qed.

(** Every CPU in the loop can take the lock as soon as its holder leaves, and
    the lock is never taken without a holder. *)
Lemma lock_inv_progress c i :
  lock_inv c -> c_cpus c !! i = Some Waiting ->
  (exists c', lock_step i c c' /\ critical_at c' i) \/
  (exists k c', critical_at c k /\ lock_step k c c' /\ c_lock c' = 0 /\ c_cpus c' !! i = Some Waiting).
Proof.
  intros Hinv Hw. destruct c as [l cs]. simpl in *.
  destruct Hinv as [[Hl _]|[Hl (k & Hk & _)]]; simpl in Hl; subst l.
  - left. eexists. split; [by apply ls_tas|]. unfold critical_at. simpl.
    apply list_lookup_insert_eq. by eapply lookup_lt_Some.
  - right. exists k. eexists. split; [done|]. split; [by apply ls_unlock|]. split; [done|].
    simpl. rewrite list_lookup_insert_ne; [done|]. intros ->.
    unfold critical_at in Hk. simpl in Hk. congruence.
Qed.

Section spinlock_facts.
Context {St : Type} (get : St -> Z) (set : Z -> St -> St).

Lemma spinlock_lock_free s :
  get s = 0 -> spinlock_lock (tas_global get set) s = Ret tt (set 1 s).
Proof. intros E. unfold spinlock_lock, tas_global. mred. by rewrite E. Qed.
Lemma spinlock_lock_held s :
  get s <> 0 -> spinlock_lock (tas_global get set) s = Spin (set 1 s).
Proof.
  intros E. unfold spinlock_lock, tas_global. mred.
  by rewrite (proj2 (Z.eqb_neq _ _) E).
Qed.
End spinlock_facts.
