(* ===== verification/MemLib.v ===== *)
(** * mem.c: memcpy, memset, memmove, memcmp and the memory dumps

    Byte loops over memory, as the C library mandates them. *)
From S2P Require Import Prelude Machine.

Section memlib.
Context `{HasMachine St}.

(** pdest[i] = psrc[i] *)
Definition copy_byte (dest src i : Z) : M St unit :=
  b ← load 1 (src + i); store 1 (dest + i) b.

Definition memcpy (dest src n : Z) : M St Z :=
  for_range 0 n (fun i => copy_byte dest src i) ;;
  mret dest.

Definition memset (s c n : Z) : M St Z :=
  for_range 0 n (fun i => store 1 (s + i) (u8 c)) ;;
  mret s.

(** The second loop counts [i] down from [n] to 1. *)
Definition memmove (dest src n : Z) : M St Z :=
  (if src >? dest then for_range 0 n (fun i => copy_byte dest src i)
   else if src <? dest then for_range 0 n (fun k => copy_byte dest src (n - k - 1))
   else mret tt) ;;
  mret dest.

Fixpoint memcmp_loop (k : nat) (s1 s2 i : Z) : M St Z :=
  match k with
  | O => mret 0
  | S k' =>
      b1 ← load 1 (s1 + i);
      b2 ← load 1 (s2 + i);
      if negb (b1 =? b2) then mret (if b1 <? b2 then -1 else 1)
      else memcmp_loop k' s1 s2 (i + 1)
  end.
Definition memcmp (s1 s2 n : Z) : M St Z := memcmp_loop (Z.to_nat n) s1 s2 0.

(** A [char] argument is promoted to [int]. *)
Definition memdumps (location len_bytes : Z) : M St unit :=
  for_range 0 len_bytes (fun i =>
    b ← load 1 (location + i); kprintf "%c" [KNum (s8 b)]) ;;
  kprintf nl [].
Definition memdumpx32 (location len_bytes : Z) : M St unit :=
  for_range 0 (len_bytes `div` 4) (fun i =>
    w ← load 4 (location + 4 * i); kprintf "0x%X " [KNum w]) ;;
  kprintf nl [].
Definition memdumpx64 (location len_bytes : Z) : M St unit :=
  for_range 0 (len_bytes `div` 8) (fun i =>
    w ← load 8 (location + 8 * i); kprintf "0x%X " [KNum w]) ;;
  kprintf nl [].
End memlib.

(** ** Facts *)

Section memlib_facts.
Context `{HasMachine St}.
Implicit Type s : St.

Lemma copy_byte_ok dest src i s :
  region (src + i) 1 (smem s) -> region (dest + i) 1 (smem s) ->
  copy_byte dest src i s =
    Ret tt (set_mem (<[dest + i := byte_at (src + i) (smem s)]> (smem s)) s).
Proof.
  intros Hs Hd. unfold copy_byte. rewrite (bind_ret_eq _ _ _ _ _ (load_ok 1 _ s Hs)).
  rewrite (store_ok 1 _ _ s Hd), rd_1, wr_1.
  do 3 f_equal. apply Z.mod_small, byte_at_range.
Qed.

(** [m'] is [m] with the [n] bytes at [dest] replaced by [val 0 .. val (n-1)]. *)
Definition overwritten (dest n : Z) (val : Z -> Z) (m m' : memory) : Prop :=
  forall x, m' !! x = if decide (dest <= x < dest + n) then Some (val (x - dest)) else m !! x.

Lemma overwritten_0 dest val m : overwritten dest 0 val m m.
Proof. intros x. by rewrite decide_False by lia. Qed.

Lemma overwritten_region dest n val m m' a len :
  overwritten dest n val m m' -> region a len m -> region a len m'.
Proof. intros Ho Hr x Hx. rewrite Ho. case_decide; eauto. Qed.

Lemma overwritten_byte_at dest n val m m' x :
  overwritten dest n val m m' ->
  byte_at x m' = if decide (dest <= x < dest + n) then val (x - dest) `mod` 256 else byte_at x m.
Proof. intros Ho. unfold byte_at. rewrite Ho. by case_decide. Qed.

(** Writing the next byte upwards and the next byte downwards. *)
Lemma overwritten_up dest n val m m' :
  0 <= n -> overwritten dest n val m m' ->
  overwritten dest (n + 1) val m (<[dest + n := val n]> m').
Proof.
  intros Hn Ho x. destruct (decide (x = dest + n)) as [->|].
  - rewrite lookup_insert_eq, decide_True by lia. do 2 f_equal. lia.
  - rewrite lookup_insert_ne, Ho by lia. repeat case_decide; try lia; done.
Qed.

Lemma memset_ok p c n s :
  0 <= n -> region p n (smem s) ->
  exists m', memset p c n s = Ret p (set_mem m' s) /\ overwritten p n (fun _ => u8 c) (smem s) m'.
Proof.
  intros Hn Hr.
  destruct (for_range_inv (fun i => store 1 (p + i) (u8 c))
    (fun i s' => exists m', s' = set_mem m' s /\ overwritten p i (fun _ => u8 c) (smem s) m') 0 n s)
    as (s' & E & m' & -> & Ho).
  - done.
  - intros i s1 Hi (m1 & -> & Ho).
    rewrite (store_ok 1) by (autorewrite with memory;
      apply (overwritten_region _ _ _ _ _ _ _ Ho), (region_sub _ _ _ _ _ Hr); lia).
    autorewrite with memory. eexists. split; [done|]. eexists. split; [done|]. rewrite wr_1.
    replace (u8 c `mod` 256) with (u8 c) by word_lia. apply (overwritten_up p i _ _ m1); [lia|done].
  - exists (smem s). autorewrite with memory. split; [done|]. apply overwritten_0.
  - exists m'. split; [|done]. unfold memset. by rewrite (bind_ret_eq _ _ _ _ _ E).
Qed.

(** The upward byte loop copies the original source whenever no source byte
    lies at or above a destination byte it has already written. *)
Lemma copy_up_ok dest src n s :
  0 <= n -> dest <= src \/ src + n <= dest ->
  region src n (smem s) -> region dest n (smem s) ->
  exists m', for_range 0 n (copy_byte dest src) s = Ret tt (set_mem m' s) /\
    overwritten dest n (fun i => byte_at (src + i) (smem s)) (smem s) m'.
Proof.
  intros Hn Hov Hs Hd.
  destruct (for_range_inv (copy_byte dest src) (fun i s' => exists m', s' = set_mem m' s /\
    overwritten dest i (fun i => byte_at (src + i) (smem s)) (smem s) m') 0 n s)
    as (s' & E & m' & -> & Ho); [done| | |by exists m'].
  - intros i s1 Hi (m1 & -> & Ho).
    rewrite copy_byte_ok; autorewrite with memory.
    2: by apply (overwritten_region _ _ _ _ _ _ _ Ho), (region_sub _ _ _ _ _ Hs); lia.
    2: by apply (overwritten_region _ _ _ _ _ _ _ Ho), (region_sub _ _ _ _ _ Hd); lia.
    eexists. split; [done|]. eexists. split; [done|].
    rewrite (overwritten_byte_at _ _ _ _ _ (src + i) Ho), decide_False by lia.
    apply (overwritten_up dest i (fun i => byte_at (src + i) (smem s))); [lia|done].
  - exists (smem s). autorewrite with memory. split; [done|]. apply overwritten_0.
Qed.

(** The downward loop, when the destination is above the source. *)
Lemma copy_down_ok dest src n s :
  0 <= n -> src <= dest ->
  region src n (smem s) -> region dest n (smem s) ->
  exists m', for_range 0 n (fun k => copy_byte dest src (n - k - 1)) s = Ret tt (set_mem m' s) /\
    overwritten dest n (fun i => byte_at (src + i) (smem s)) (smem s) m'.
Proof.
  intros Hn Hov Hs Hd.
  destruct (for_range_inv (fun k => copy_byte dest src (n - k - 1))
    (fun k s' => exists m', s' = set_mem m' s /\
       overwritten (dest + n - k) k (fun i => byte_at (src + n - k + i) (smem s)) (smem s) m') 0 n s)
    as (s' & E & m' & -> & Ho); [done| | |].
  - intros k s1 Hk (m1 & -> & Ho).
    rewrite copy_byte_ok; autorewrite with memory.
    2: by apply (overwritten_region _ _ _ _ _ _ _ Ho), (region_sub _ _ _ _ _ Hs); lia.
    2: by apply (overwritten_region _ _ _ _ _ _ _ Ho), (region_sub _ _ _ _ _ Hd); lia.
    eexists. split; [done|]. eexists. split; [done|].
    rewrite (overwritten_byte_at _ _ _ _ _ (src + _) Ho), decide_False by lia. intros x.
    destruct (decide (x = dest + (n - k - 1))) as [->|].
    + rewrite lookup_insert_eq, decide_True by lia. do 2 f_equal. lia.
    + rewrite lookup_insert_ne, Ho by lia. repeat case_decide; try lia; [|done].
      do 2 f_equal. lia.
  - exists (smem s). autorewrite with memory. split; [done|]. apply overwritten_0.
  - exists m'. split; [done|]. intros x. rewrite Ho. repeat case_decide; try lia; [|done].
    do 2 f_equal. lia.
Qed.
End memlib_facts.
