(* ===== verification/Pmm.v ===== *)
(** * mem.c: the physical memory manager

    The page bitmap and the entry map live in byte memory, reached through
    the higher-half direct map; every other global is a field of [pmm]. *)
From S2P Require Import Prelude Machine Math Bitmap Atomic MemLib.

Definition PAGE_SIZE : Z := 4096.
Definition LIMINE_MEMMAP_USABLE : Z := 0.

(** [struct limine_memmap_entry]. *)
Record memmap_entry := MemmapEntry { me_base : Z; me_length : Z; me_type : Z }.

(** The globals of mem.c.  [memmap] is the array the Limine response points
    to, which the manager itself edits. *)
Record pmm := Pmm {
  pmm_mach : machine;
  pmm_lock : Z;
  max_pages_available : Z;
  total_memory_bytes : Z;
  memmap : list memmap_entry;
  highest_address : Z;
  lowest_address : Z;
  num_pages_in_map : Z;
  page_bitmap : Z;
  vmm_higher_half_offset : Z;
  allocation_cursor : Z;
  num_pages_available : Z;
  entry_map : Z
}.

Definition set_pmm_mach (v : machine) (s : pmm) : pmm :=
  Pmm v (pmm_lock s) (max_pages_available s) (total_memory_bytes s) (memmap s) (highest_address s)
    (lowest_address s) (num_pages_in_map s) (page_bitmap s) (vmm_higher_half_offset s)
    (allocation_cursor s) (num_pages_available s) (entry_map s).
Definition set_pmm_lock (v : Z) (s : pmm) : pmm :=
  Pmm (pmm_mach s) v (max_pages_available s) (total_memory_bytes s) (memmap s) (highest_address s)
    (lowest_address s) (num_pages_in_map s) (page_bitmap s) (vmm_higher_half_offset s)
    (allocation_cursor s) (num_pages_available s) (entry_map s).
Definition set_max_pages_available (v : Z) (s : pmm) : pmm :=
  Pmm (pmm_mach s) (pmm_lock s) v (total_memory_bytes s) (memmap s) (highest_address s)
    (lowest_address s) (num_pages_in_map s) (page_bitmap s) (vmm_higher_half_offset s)
    (allocation_cursor s) (num_pages_available s) (entry_map s).
Definition set_total_memory_bytes (v : Z) (s : pmm) : pmm :=
  Pmm (pmm_mach s) (pmm_lock s) (max_pages_available s) v (memmap s) (highest_address s)
    (lowest_address s) (num_pages_in_map s) (page_bitmap s) (vmm_higher_half_offset s)
    (allocation_cursor s) (num_pages_available s) (entry_map s).
Definition set_memmap (v : list memmap_entry) (s : pmm) : pmm :=
  Pmm (pmm_mach s) (pmm_lock s) (max_pages_available s) (total_memory_bytes s) v (highest_address
    s) (lowest_address s) (num_pages_in_map s) (page_bitmap s) (vmm_higher_half_offset s)
    (allocation_cursor s) (num_pages_available s) (entry_map s).
Definition set_highest_address (v : Z) (s : pmm) : pmm :=
  Pmm (pmm_mach s) (pmm_lock s) (max_pages_available s) (total_memory_bytes s) (memmap s) v
    (lowest_address s) (num_pages_in_map s) (page_bitmap s) (vmm_higher_half_offset s)
    (allocation_cursor s) (num_pages_available s) (entry_map s).
Definition set_lowest_address (v : Z) (s : pmm) : pmm :=
  Pmm (pmm_mach s) (pmm_lock s) (max_pages_available s) (total_memory_bytes s) (memmap s)
    (highest_address s) v (num_pages_in_map s) (page_bitmap s) (vmm_higher_half_offset s)
    (allocation_cursor s) (num_pages_available s) (entry_map s).
Definition set_num_pages_in_map (v : Z) (s : pmm) : pmm :=
  Pmm (pmm_mach s) (pmm_lock s) (max_pages_available s) (total_memory_bytes s) (memmap s)
    (highest_address s) (lowest_address s) v (page_bitmap s) (vmm_higher_half_offset s)
    (allocation_cursor s) (num_pages_available s) (entry_map s).
Definition set_page_bitmap (v : Z) (s : pmm) : pmm :=
  Pmm (pmm_mach s) (pmm_lock s) (max_pages_available s) (total_memory_bytes s) (memmap s)
    (highest_address s) (lowest_address s) (num_pages_in_map s) v (vmm_higher_half_offset s)
    (allocation_cursor s) (num_pages_available s) (entry_map s).
Definition set_vmm_higher_half_offset (v : Z) (s : pmm) : pmm :=
  Pmm (pmm_mach s) (pmm_lock s) (max_pages_available s) (total_memory_bytes s) (memmap s)
    (highest_address s) (lowest_address s) (num_pages_in_map s) (page_bitmap s) v
    (allocation_cursor s) (num_pages_available s) (entry_map s).
Definition set_allocation_cursor (v : Z) (s : pmm) : pmm :=
  Pmm (pmm_mach s) (pmm_lock s) (max_pages_available s) (total_memory_bytes s) (memmap s)
    (highest_address s) (lowest_address s) (num_pages_in_map s) (page_bitmap s)
    (vmm_higher_half_offset s) v (num_pages_available s) (entry_map s).
Definition set_num_pages_available (v : Z) (s : pmm) : pmm :=
  Pmm (pmm_mach s) (pmm_lock s) (max_pages_available s) (total_memory_bytes s) (memmap s)
    (highest_address s) (lowest_address s) (num_pages_in_map s) (page_bitmap s)
    (vmm_higher_half_offset s) (allocation_cursor s) v (entry_map s).
Definition set_entry_map (v : Z) (s : pmm) : pmm :=
  Pmm (pmm_mach s) (pmm_lock s) (max_pages_available s) (total_memory_bytes s) (memmap s)
    (highest_address s) (lowest_address s) (num_pages_in_map s) (page_bitmap s)
    (vmm_higher_half_offset s) (allocation_cursor s) (num_pages_available s) v.

#[export] Program Instance pmm_machine : HasMachine pmm := {|
  get_mach := pmm_mach; set_mach := set_pmm_mach |}.
Next Obligation. done. Qed.
Next Obligation. by intros []. Qed.
Next Obligation. done. Qed.

(** ** Printing the bitmap *)

Definition _print_bitmap (start len : Z) : M pmm unit :=
  kprintf "Bitmap (%d-%d): " [KNum start; KNum (start +64 len)] ;;
  for_range start (start +64 len) (fun i =>
    bm ← gets page_bitmap;
    b ← bitmap_test bm i;
    kprintf (if (b : bool) then "1" else "0") []) ;;
  kprintf nl [].

(** ** Building the map at boot *)

Definition is_usable (e : memmap_entry) : bool := me_type e =? LIMINE_MEMMAP_USABLE.

(** entry->length -= size; entry->base += size; max_pages_available -= ...;
    the three lines common to the places that carve memory out of an entry. *)
Definition carve_entry (i : nat) (e : memmap_entry) (size : Z) : M pmm unit :=
  modify (fun s => set_memmap
    (<[i := MemmapEntry (me_base e +64 size) (me_length e -64 size) (me_type e)]> (memmap s)) s) ;;
  modify (fun s => set_max_pages_available (max_pages_available s -64 size `div` PAGE_SIZE) s).

(** The [for] loop of memmap_alloc over the entries from index [i] on. *)
Fixpoint memmap_alloc_loop (size : Z) (i : nat) (es : list memmap_entry) : M pmm Z :=
  match es with
  | [] => kprintf "Couldn't allocate memory!" [] ;; hcf
  | e :: es' =>
      if negb (is_usable e) then memmap_alloc_loop size (S i) es'
      else if me_length e >=? size then
        hhdm ← gets vmm_higher_half_offset;
        let pData := me_base e +64 hhdm in
        memset pData 0 size ;;
        carve_entry i e size ;;
        mret pData
      else memmap_alloc_loop size (S i) es'
  end.
Definition memmap_alloc (length : Z) : M pmm Z :=
  let size := ALIGN_UP length PAGE_SIZE in
  es ← gets memmap;
  memmap_alloc_loop size 0 es.

(** Unlike memmap_alloc, no entry that fits is not an error here. *)
Fixpoint create_entry_map_loop (map_size : Z) (i : nat) (es : list memmap_entry) : M pmm unit :=
  match es with
  | [] => mret tt
  | e :: es' =>
      if negb (is_usable e) then create_entry_map_loop map_size (S i) es'
      else if me_length e >=? map_size then
        hhdm ← gets vmm_higher_half_offset;
        modify (set_entry_map (me_base e +64 hhdm)) ;;
        memset (me_base e +64 hhdm) 0 map_size ;;
        carve_entry i e map_size
      else create_entry_map_loop map_size (S i) es'
  end.
Definition _create_entry_map : M pmm unit :=
  n ← gets num_pages_in_map;
  let map_size := ALIGN_UP (4 *64 n) PAGE_SIZE in
  kprintf ("PageEntry Size: %lu bytes" +:+ nl) [KNum map_size] ;;
  es ← gets memmap;
  create_entry_map_loop map_size 0 es.

Fixpoint create_page_bitmap_loop (bitmap_size : Z) (i : nat) (es : list memmap_entry)
    : M pmm unit :=
  match es with
  | [] => mret tt
  | e :: es' =>
      if negb (is_usable e) then create_page_bitmap_loop bitmap_size (S i) es'
      else if me_length e >=? bitmap_size then
        hhdm ← gets vmm_higher_half_offset;
        modify (set_page_bitmap (me_base e +64 hhdm)) ;;
        memset (me_base e +64 hhdm) 255 bitmap_size ;;
        carve_entry i e bitmap_size
      else create_page_bitmap_loop bitmap_size (S i) es'
  end.
Definition _create_page_bitmap : M pmm unit :=
  n ← gets num_pages_in_map;
  let bitmap_size := ALIGN_UP (n `div` 8) PAGE_SIZE in
  kprintf ("Page Bitmap Size: %lu Kib" +:+ nl) [KNum (bitmap_size `div` 1024)] ;;
  kprintf ("Locating space for bitmap..." +:+ nl) [] ;;
  es ← gets memmap;
  create_page_bitmap_loop bitmap_size 0 es.

(** One usable entry of the statistics loop of _init_stats. *)
Definition init_stats_entry (e : memmap_entry) : M pmm unit :=
  if is_usable e then
    modify (fun s => set_total_memory_bytes (total_memory_bytes s +64 me_length e) s) ;;
    modify (fun s => set_max_pages_available
      (max_pages_available s +64 me_length e `div` PAGE_SIZE) s) ;;
    modify (fun s => set_highest_address
      (MAX (highest_address s) (me_base e +64 me_length e)) s) ;;
    modify (fun s => set_lowest_address
      (if lowest_address s =? 0 then me_base e else MIN (lowest_address s) (me_base e)) s)
  else mret tt.
Fixpoint init_stats_loop (es : list memmap_entry) : M pmm unit :=
  match es with
  | [] => mret tt
  | e :: es' => init_stats_entry e ;; init_stats_loop es'
  end.
(** The arguments are the responses of the boot loader to [memmap_request]
    and [hhdm_request]. *)
Definition _init_stats (memmap_response : list memmap_entry) (hhdm_offset : Z) : M pmm unit :=
  modify (set_memmap memmap_response) ;;
  modify (set_vmm_higher_half_offset hhdm_offset) ;;
  init_stats_loop memmap_response ;;
  modify (fun s => set_num_pages_in_map
    ((highest_address s -64 lowest_address s) `div` PAGE_SIZE) s).

(** One entry of the loop of _get_free_pages. *)
Definition get_free_pages_entry (e : memmap_entry) : M pmm unit :=
  if negb (is_usable e) then
    kprintf ("Memory Region Unusable: type %d, %d pages (%d mb)" +:+ nl)
      [KNum (me_type e); KNum (me_length e `div` PAGE_SIZE);
       KNum ((me_length e `div` 1024) `div` 1024)]
  else
    kprintf ("Memory Region Usable: %d pages (%d mb)" +:+ nl)
      [KNum (me_length e `div` PAGE_SIZE); KNum ((me_length e `div` 1024) `div` 1024)] ;;
    lowest ← gets lowest_address;
    let start_bit := (me_base e -64 lowest) `div` PAGE_SIZE in
    let pages_free := me_length e `div` PAGE_SIZE in
    for_range start_bit (start_bit +64 pages_free) (fun i =>
      bm ← gets page_bitmap;
      bitmap_off bm i ;;
      modify (fun s => set_num_pages_available (num_pages_available s +64 1) s)).
Fixpoint get_free_pages_loop (es : list memmap_entry) : M pmm unit :=
  match es with
  | [] => mret tt
  | e :: es' => get_free_pages_entry e ;; get_free_pages_loop es'
  end.
Definition _get_free_pages : M pmm unit :=
  kprintf ("Searching for free memory pages..." +:+ nl) [] ;;
  es ← gets memmap;
  get_free_pages_loop es.

Definition kmem_init (memmap_response : list memmap_entry) (hhdm_offset : Z) : M pmm unit :=
  kprintf ("Initialzing PMM..." +:+ nl) [] ;;
  _init_stats memmap_response hhdm_offset ;;
  s ← gets id;
  kprintf ("Total Memory: %lu Mib" +:+ nl) [KNum ((total_memory_bytes s `div` 1024) `div` 1024)] ;;
  kprintf ("Total Map Pages: %lu" +:+ nl) [KNum (num_pages_in_map s)] ;;
  kprintf ("Total Pages Available: %lu" +:+ nl) [KNum (max_pages_available s)] ;;
  kprintf ("Lowest Memory Addr: 0x%X" +:+ nl) [KNum (lowest_address s)] ;;
  _create_page_bitmap ;;
  n ← gets num_pages_in_map;
  em ← memmap_alloc (ALIGN_UP (4 *64 n) PAGE_SIZE);
  modify (set_entry_map em) ;;
  _get_free_pages ;;
  kprintf ("PMM initialized." +:+ nl) [].

(** ** Allocation *)

Definition _get_addr_from_page (page : Z) : M pmm Z :=
  s ← gets id;
  mret (lowest_address s +64 page *64 PAGE_SIZE +64 vmm_higher_half_offset s).
Definition _get_page_from_addr (addr : Z) : M pmm Z :=
  s ← gets id;
  mret ((addr -64 lowest_address s -64 vmm_higher_half_offset s) `div` PAGE_SIZE).

Definition _reserve_pages (startPage pages : Z) : M pmm unit :=
  for_range startPage (startPage +64 pages) (fun i =>
    bm ← gets page_bitmap; bitmap_on bm i).

(** entry_map[page].pages_allocated, a packed [uint32_t]. *)
Definition entry_addr (s : pmm) (page : Z) : Z := entry_map s + 4 * page.

(** The locals of kalloc that survive an iteration of its [while (true)]. *)
Record kalloc_locals := KallocLocals {
  start_alloc_page : Z; allocated_pages : Z; looped : bool; allocating : bool }.

(** The state of the search after looking at the page under the cursor. *)
Definition kalloc_look (page_state : bool) (cursor : Z) (l : kalloc_locals) : kalloc_locals :=
  if negb (allocating l) then
    if negb page_state then KallocLocals cursor 1 (looped l) true else l
  else if page_state then
    KallocLocals (start_alloc_page l) (allocated_pages l) (looped l) false
  else KallocLocals (start_alloc_page l) (allocated_pages l +64 1) (looped l) true.

(** Enough pages were found: the body of that [if]. *)
Definition kalloc_commit (l : kalloc_locals) : M pmm Z :=
  modify (fun s => set_allocation_cursor (allocation_cursor s +64 1) s) ;;
  modify (fun s => if allocation_cursor s =? max_pages_available s
                   then set_allocation_cursor 0 s else s) ;;
  _reserve_pages (start_alloc_page l) (allocated_pages l) ;;
  a ← gets (fun s => entry_addr s (start_alloc_page l));
  store 4 a (allocated_pages l) ;;
  modify (fun s => set_num_pages_available (num_pages_available s -64 allocated_pages l) s) ;;
  spinlock_unlock set_pmm_lock ;;
  _get_addr_from_page (start_alloc_page l).

(** One iteration; leaving with [None] is the [break]. *)
Definition kalloc_iter (pages_to_alloc : Z) (l : kalloc_locals)
    : M pmm (kalloc_locals + option Z) :=
  s ← gets id;
  page_state ← bitmap_test (page_bitmap s) (allocation_cursor s);
  let l := kalloc_look page_state (allocation_cursor s) l in
  if allocated_pages l =? pages_to_alloc then
    p ← kalloc_commit l; mret (inr (Some p))
  else
    modify (fun s => set_allocation_cursor (allocation_cursor s +64 1) s) ;;
    s ← gets id;
    if allocation_cursor s =? max_pages_available s then
      modify (set_allocation_cursor 0) ;;
      if looped l then mret (inr None)
      else mret (inl (KallocLocals (start_alloc_page l) (allocated_pages l) true false))
    else mret (inl l).

(** The search visits every page at most twice, which bounds the loop. *)
Definition kalloc_fuel (s : pmm) : nat := S (Z.to_nat (2 * max_pages_available s)).

Definition kalloc (numBytes : Z) : M pmm Z :=
  spinlock_lock (tas_global pmm_lock set_pmm_lock) ;;
  let pages_to_alloc := DIV_ROUNDUP numBytes PAGE_SIZE in
  fuel ← gets kalloc_fuel;
  r ← loop fuel (kalloc_iter pages_to_alloc) (KallocLocals 0 0 false false);
  match r with
  | Some p => mret p
  | None =>
      spinlock_unlock set_pmm_lock ;;
      kprintf ("PMM Allocation failed." +:+ nl) [] ;;
      mret 0
  end.

Definition kpalloc (numPages : Z) : M pmm Z := kalloc (PAGE_SIZE *64 numPages).

(** ** Release *)

(** One test of [i < page_index + entry_map[page_index].pages_allocated] and
    the iteration it guards. *)
Definition kfree_iter (page_index i : Z) : M pmm (Z + unit) :=
  a ← gets (fun s => entry_addr s page_index);
  n ← load 4 a;
  if i <? page_index +64 n then
    bm ← gets page_bitmap;
    bitmap_off bm i ;;
    mret (inl (i +64 1))
  else mret (inr tt).

(** An entry never counts more pages than there are. *)
Definition kfree_fuel (s : pmm) : nat := S (Z.to_nat (max_pages_available s)).

Definition kfree (ptr : Z) : M pmm unit :=
  spinlock_lock (tas_global pmm_lock set_pmm_lock) ;;
  page_index ← _get_page_from_addr ptr;
  mx ← gets max_pages_available;
  if page_index >=? mx then
    kprintf ("*FATAL*: Page index lookup resulted in out of bounds value of %lu from address 0x%X."
             +:+ nl) [KNum page_index; KNum ptr] ;;
    hcf
  else
    fuel ← gets kfree_fuel;
    loop fuel (kfree_iter page_index) page_index ;;
    a ← gets (fun s => entry_addr s page_index);
    store 4 a 0 ;;
    spinlock_unlock set_pmm_lock.

(** ** What the manager's memory says about the pages

    [used s i] is bit [i] of the page bitmap, [entry s i] the number of pages
    recorded for an allocation that starts at page [i]. *)

Definition used (s : pmm) (i : Z) : bool := flag (smem s) (page_bitmap s) i.
Definition entry (s : pmm) (i : Z) : Z := rd 4 (entry_addr s i) (smem s).
Definition page_addr (s : pmm) (page : Z) : Z :=
  lowest_address s +64 page *64 PAGE_SIZE +64 vmm_higher_half_offset s.

(** Bytes of bitmap that the first [n] pages need. *)
Definition bitmap_bytes (n : Z) : Z := (n + 7) `div` 8.
Definition in_bitmap (s : pmm) (x : Z) : Prop :=
  page_bitmap s <= x < page_bitmap s + bitmap_bytes (max_pages_available s).
Definition in_entry_map (s : pmm) (x : Z) : Prop :=
  entry_map s <= x < entry_map s + 4 * max_pages_available s.

(** The tables of the managed pages are mapped and do not overlap.  2^32
    pages (16 TiB) is where the [uint32_t] entries would wrap. *)
Record layout (s : pmm) : Prop := {
  lay_max : 0 < max_pages_available s < 2 ^ 32;
  lay_cursor : 0 <= allocation_cursor s < max_pages_available s;
  lay_bitmap : region (page_bitmap s) (bitmap_bytes (max_pages_available s)) (smem s);
  lay_entries : region (entry_map s) (4 * max_pages_available s) (smem s);
  lay_disjoint : forall x, in_bitmap s x -> ~ in_entry_map s x
}.

(** The recorded allocations are runs of used pages inside the managed range
    and do not overlap. *)
Record alloc_inv (s : pmm) : Prop := {
  ai_used : forall i k, 0 <= i < max_pages_available s -> i <= k < i + entry s i ->
    k < max_pages_available s /\ used s k = true;
  ai_disjoint : forall i j, 0 <= i -> i < j < max_pages_available s ->
    0 < entry s i -> 0 < entry s j -> i + entry s i <= j
}.

Record pmm_inv (s : pmm) : Prop := {
  pi_layout : layout s;
  pi_lock : pmm_lock s = 0;
  pi_alloc : alloc_inv s
}.

(** A run of [n] free pages of the managed range from page [p] on. *)
Definition free_run (s : pmm) (p n : Z) : Prop :=
  0 <= p /\ p + n <= max_pages_available s /\ forall k, p <= k < p + n -> used s k = false.

(** Same configuration and at least the same mapped memory; only the bitmap
    and the entry map may differ. *)
Record same_config (s s' : pmm) : Prop := {
  sc_max : max_pages_available s' = max_pages_available s;
  sc_memmap : memmap s' = memmap s;
  sc_lowest : lowest_address s' = lowest_address s;
  sc_hhdm : vmm_higher_half_offset s' = vmm_higher_half_offset s;
  sc_bitmap : page_bitmap s' = page_bitmap s;
  sc_entries : entry_map s' = entry_map s;
  sc_mapped : forall x, is_Some (smem s !! x) -> is_Some (smem s' !! x);
  sc_frame : forall x, ~ in_bitmap s x -> ~ in_entry_map s x -> smem s' !! x = smem s !! x
}.

(** [s'] is [s] with the free run of [n] pages at [start] handed out. *)
Record allocated (s s' : pmm) (start n : Z) : Prop := {
  al_config : same_config s s';
  al_lock : pmm_lock s' = 0;
  al_cursor : 0 <= allocation_cursor s' < max_pages_available s;
  al_count : num_pages_available s' = num_pages_available s -64 n;
  al_used : forall j, 0 <= j < max_pages_available s ->
    used s' j = bool_decide (start <= j < start + n) || used s j;
  al_entry : forall j, 0 <= j < max_pages_available s ->
    entry s' j = if decide (j = start) then n else entry s j;
  al_log : klog (pmm_mach s') = klog (pmm_mach s)
}.

(** [s'] is [s] with the allocation recorded at [page] given back. *)
Record released (s s' : pmm) (page : Z) : Prop := {
  re_config : same_config s s';
  re_lock : pmm_lock s' = 0;
  re_cursor : allocation_cursor s' = allocation_cursor s;
  re_count : num_pages_available s' = num_pages_available s;
  re_used : forall j, 0 <= j < max_pages_available s ->
    used s' j = bool_decide (~ page <= j < page + entry s page) && used s j;
  re_entry : forall j, 0 <= j < max_pages_available s ->
    entry s' j = if decide (j = page) then 0 else entry s j;
  re_log : klog (pmm_mach s') = klog (pmm_mach s)
}.

(** ** Clients: any sequence of calls *)

Inductive pmm_op := Kalloc (numBytes : Z) | Kfree (ptr : Z).
Definition run_op (o : pmm_op) : M pmm unit :=
  match o with
  | Kalloc numBytes => kalloc numBytes ;; mret tt
  | Kfree ptr => kfree ptr
  end.
Fixpoint run_ops (os : list pmm_op) : M pmm unit :=
  match os with
  | [] => mret tt
  | o :: os' => run_op o ;; run_ops os'
  end.

(** Requests of at least one byte whose rounding does not wrap; any pointer
    may be freed. *)
Definition op_ok (o : pmm_op) : Prop :=
  match o with
  | Kalloc numBytes => 1 <= numBytes /\ numBytes + PAGE_SIZE <= 2 ^ 64
  | Kfree _ => True
  end.
