(* ===== verification/PmmProofs.v ===== *)
(** * mem.c: facts about the physical memory manager *)
From S2P Require Import Prelude Machine Math Bitmap Atomic MemLib Pmm.

(** ** Pages and addresses *)

Lemma bitmap_byte_in s i :
  0 <= i < max_pages_available s -> in_bitmap s (page_bitmap s + i `div` 8).
Proof. unfold in_bitmap, bitmap_bytes. intros. Z.to_euclidean_division_equations. lia. Qed.

Lemma entry_addr_in s i x :
  0 <= i < max_pages_available s -> entry_addr s i <= x < entry_addr s i + 4 -> in_entry_map s x.
Proof. unfold in_entry_map, entry_addr. lia. Qed.

Lemma layout_bitmap_byte s i :
  layout s -> 0 <= i < max_pages_available s -> region (page_bitmap s + i `div` 8) 1 (smem s).
Proof.
  intros L Hi. apply (region_sub _ _ _ _ _ (lay_bitmap s L));
    pose proof (bitmap_byte_in s i Hi); unfold in_bitmap in *; lia.
Qed.

Lemma layout_entry s i :
  layout s -> 0 <= i < max_pages_available s -> region (entry_addr s i) 4 (smem s).
Proof.
  intros L Hi. apply (region_sub _ _ _ _ _ (lay_entries s L)); unfold entry_addr; lia.
Qed.

Lemma entry_range s i : 0 <= entry s i < 2 ^ 32.
Proof. unfold entry. pose proof (rd_range 4 (entry_addr s i) (smem s)). lia. Qed.

Lemma page_addr_inv s page :
  0 <= page < 2 ^ 52 ->
  (page_addr s page -64 lowest_address s -64 vmm_higher_half_offset s) `div` PAGE_SIZE = page.
Proof.
  intros Hp. unfold page_addr, PAGE_SIZE.
  replace (_ -64 _ -64 _) with (page * 4096) by word_lia.
  apply Z.div_mul. lia.
Qed.

(** ** Updates of the bitmap and of the entry map *)

(** [m'] differs from [m] only in the bitmap of [s], whose flags are [f]. *)
Record bits_written (s : pmm) (f : Z -> bool) (m m' : memory) : Prop := {
  bw_flag : forall j, 0 <= j < max_pages_available s -> flag m' (page_bitmap s) j = f j;
  bw_frame : forall x, ~ in_bitmap s x -> m' !! x = m !! x;
  bw_mapped : forall x, is_Some (m !! x) -> is_Some (m' !! x)
}.

Lemma bits_written_refl s m : bits_written s (flag m (page_bitmap s)) m m.
Proof. by split. Qed.

Lemma bits_written_wr s f g i v m m' :
  0 <= i < max_pages_available s ->
  bits_written s f m m' ->
  (forall j, 0 <= j < max_pages_available s ->
     flag (wr 1 (page_bitmap s + i `div` 8) v m') (page_bitmap s) j = g j) ->
  bits_written s g m (wr 1 (page_bitmap s + i `div` 8) v m').
Proof.
  intros Hi [Hf Hfr Hm] Hg. split; [done| |].
  - intros x Hx. rewrite wr_lookup_ne; [by apply Hfr|].
    pose proof (bitmap_byte_in s i Hi). intros ?. apply Hx. unfold in_bitmap in *. lia.
  - intros x Hx. by apply wr_is_Some, Hm.
Qed.

Lemma bits_written_entry s f m m' i :
  layout s -> 0 <= i < max_pages_available s -> bits_written s f m m' ->
  rd 4 (entry_addr s i) m' = rd 4 (entry_addr s i) m.
Proof.
  intros L Hi B. apply rd_ext. intros x Hx. unfold byte_at. rewrite (bw_frame _ _ _ _ B); [done|].
  intros Hb. eapply (lay_disjoint s L x Hb), entry_addr_in; [done|]. simpl in Hx. lia.
Qed.

Lemma flag_entry_wr s i v m j :
  layout s -> 0 <= i < max_pages_available s -> 0 <= j < max_pages_available s ->
  flag (wr 4 (entry_addr s i) v m) (page_bitmap s) j = flag m (page_bitmap s) j.
Proof.
  intros L Hi Hj. apply flag_wr_ne. intros Hx.
  apply (lay_disjoint s L (page_bitmap s + j `div` 8)); [by apply bitmap_byte_in|].
  apply (entry_addr_in s i); [done|]. change (Z.of_nat 4) with 4 in Hx. lia.
Qed.

Lemma entry_entry_wr s i j v m :
  rd 4 (entry_addr s j) (wr 4 (entry_addr s i) v m) =
    if decide (j = i) then v `mod` 2 ^ 32 else rd 4 (entry_addr s j) m.
Proof.
  case_decide as D; [subst; by rewrite rd_wr_eq|].
  apply rd_wr_ne. unfold entry_addr. change (Z.of_nat 4) with 4. lia.
Qed.

(** [_reserve_pages] sets the bits of its pages. *)
Lemma _reserve_pages_ok s start n :
  layout s -> 0 <= start -> 0 <= n -> start + n <= max_pages_available s ->
  exists m', _reserve_pages start n s = Ret tt (set_mem m' s) /\
    bits_written s (fun j => bool_decide (start <= j < start + n) || used s j) (smem s) m'.
Proof.
  intros L Hs Hn Hm. unfold _reserve_pages. pose proof (lay_max s L).
  rewrite (u64_small (start + n)) by lia.
  destruct (for_range_inv (fun i => bm ← gets page_bitmap; bitmap_on bm i)
    (fun i s' => exists m', s' = set_mem m' s /\
       bits_written s (fun j => bool_decide (start <= j < i) || used s j) (smem s) m')
    start (start + n) s) as (s' & E & m' & -> & B); [lia| | |by exists m'].
  - intros i s1 Hi (m1 & -> & B).
    change ((bm ← gets page_bitmap; bitmap_on bm i) (set_mem m1 s))
      with (bitmap_on (page_bitmap s) i (set_mem m1 s)).
    rewrite bitmap_on_ok; rewrite smem_set_mem.
    2: { intros x Hx. apply (bw_mapped _ _ _ _ B), (layout_bitmap_byte s i); [done|lia|done]. }
    rewrite set_mem_set_mem. eexists. split; [done|]. eexists. split; [done|].
    eapply bits_written_wr; [lia|done|]. intros j Hj.
    change (wr 1 _ _ m1) with (flag_on (page_bitmap s) i m1).
    rewrite flag_on_spec, (bw_flag _ _ _ _ B) by lia.
    destruct (used s j); repeat case_bool_decide; try done; lia.
  - exists (smem s). rewrite set_mem_smem. split; [done|]. split; [|done|done].
    intros j Hj. rewrite bool_decide_eq_false_2 by lia. done.
Qed.

(** ** The pieces of kalloc *)

Lemma layout_set_cursor s c :
  layout s -> 0 <= c < max_pages_available s -> layout (set_allocation_cursor c s).
Proof. by intros [? ? ? ? ?] Hc. Qed.

(** The tables after a write to the bitmap and one entry of [s]. *)
Lemma same_config_written s s' f m i (v : Z) :
  layout s -> 0 <= i < max_pages_available s -> bits_written s f (smem s) m ->
  max_pages_available s' = max_pages_available s -> memmap s' = memmap s ->
  lowest_address s' = lowest_address s ->
  vmm_higher_half_offset s' = vmm_higher_half_offset s ->
  page_bitmap s' = page_bitmap s -> entry_map s' = entry_map s ->
  smem s' = wr 4 (entry_addr s i) v m -> same_config s s'.
Proof.
  intros L Hi B ? ? ? ? ? ? Hm. split; try done; rewrite Hm.
  - intros x Hx. by apply wr_is_Some, (bw_mapped _ _ _ _ B).
  - intros x Hb He. rewrite wr_lookup_ne; [by apply (bw_frame _ _ _ _ B)|].
    intros Hx. by apply He, (entry_addr_in s i).
Qed.

Lemma kalloc_commit_ok s l :
  layout s -> 0 <= start_alloc_page l -> 1 <= allocated_pages l ->
  start_alloc_page l + allocated_pages l <= max_pages_available s ->
  exists s', kalloc_commit l s = Ret (page_addr s (start_alloc_page l)) s' /\
    allocated s s' (start_alloc_page l) (allocated_pages l).
Proof.
  intros L Hs Hn Hm. destruct l as [start n lp al]. simpl in *.
  pose proof (lay_max s L). pose proof (lay_cursor s L).
  set (c := if allocation_cursor s + 1 =? max_pages_available s then 0 else allocation_cursor s + 1).
  assert (Hc : 0 <= c < max_pages_available s) by (unfold c; destruct (Z.eqb_spec (allocation_cursor s + 1) (max_pages_available s)); lia).
  destruct (_reserve_pages_ok (set_allocation_cursor c s) start n) as (m' & E & B);
    [by apply layout_set_cursor|cbn; lia..|].
  eexists. split.
  - unfold kalloc_commit. erewrite bind_ret_eq; [|done].
    erewrite bind_ret_eq.
    2: { instantiate (1 := set_allocation_cursor c s). instantiate (1 := tt). unfold modify.
         cbn [allocation_cursor set_allocation_cursor max_pages_available].
         rewrite u64_small by lia. unfold c. by destruct (_ =? _). }
    rewrite (bind_ret_eq _ _ _ _ _ E). erewrite bind_ret_eq; [|done].
    rewrite (bind_ret_eq _ _ _ _ _ (store_ok 4 _ _ _ ltac:(
      rewrite smem_set_mem; intros x Hx; apply (bw_mapped _ _ _ _ B), (layout_entry s start L);
      [lia|exact Hx]))).
    erewrite bind_ret_eq; [|done]. erewrite bind_ret_eq; [|done]. done.
  - assert (B' : bits_written s (fun j => bool_decide (start <= j < start + n) || used s j) (smem s) m')
      by (destruct B; by split).
    split; try done.
    + eapply (same_config_written s _ _ m' start n L); try done; lia.
    + intros j Hj.
      lazymatch goal with |- _ = ?r =>
        change (flag (wr 4 (entry_addr s start) n m') (page_bitmap s) j = r) end.
      rewrite (flag_entry_wr s start n m' j) by (done || lia).
      by rewrite (bw_flag _ _ _ _ B').
    + intros j Hj.
      lazymatch goal with |- _ = ?r =>
        change (rd 4 (entry_addr s j) (wr 4 (entry_addr s start) n m') = r) end.
      rewrite entry_entry_wr.
      case_decide; [by rewrite Z.mod_small by lia|]. by rewrite (bits_written_entry s _ _ _ j L Hj B').
Qed.

(** ** The search of kalloc

    [search_inv s n seg c l]: with the cursor at [c], the search has looked at
    pages [seg .. c-1] in this pass, found no run of [n] free pages among
    them, and [l] describes the free pages just below the cursor. *)
Record search_inv (s : pmm) (n seg c : Z) (l : kalloc_locals) : Prop := {
  si_range : 0 <= seg <= c /\ c <= max_pages_available s;
  si_count : 0 <= allocated_pages l < n;
  si_windows : forall j, seg <= j -> j + n <= c -> exists k, j <= k < j + n /\ used s k = true;
  si_allocating : allocating l = true ->
    seg <= start_alloc_page l /\ start_alloc_page l + allocated_pages l = c /\
    1 <= allocated_pages l /\
    (forall k, start_alloc_page l <= k < c -> used s k = false) /\
    (start_alloc_page l = seg \/ used s (start_alloc_page l - 1) = true);
  si_seeking : allocating l = false -> c = seg \/ used s (c - 1) = true
}.

Lemma search_inv_start s n c b k :
  0 <= c <= max_pages_available s -> 0 <= k < n -> forall st, search_inv s n c c (KallocLocals st k b false).
Proof. intros Hc Hk st. split; simpl; try done; [lia|intros; lia|]. by left. Qed.

(** Looking at one more page: the run is complete, or the invariant moves on. *)
Lemma kalloc_look_inv s n seg c l l1 :
  layout s -> search_inv s n seg c l -> c < max_pages_available s ->
  l1 = kalloc_look (used s c) c l ->
  looped l1 = looped l /\
  ((allocated_pages l1 = n /\ free_run s (start_alloc_page l1) n) \/
   (allocated_pages l1 <> n /\ search_inv s n seg (c + 1) l1)).
Proof.
  intros L [Hr Hn Hw Ha Hs] Hc ->. pose proof (lay_max s L).
  (* a window ending at c contains c or the used page below the current run *)
  assert (Hend : forall e,
    used s c = true \/ (seg <= e <= c /\ c + 1 - e < n /\ (e = seg \/ used s (e - 1) = true)) ->
    forall j, seg <= j -> j + n <= c + 1 -> exists k, j <= k < j + n /\ used s k = true).
  { intros e He j Hj Hjn. destruct (decide (j + n <= c)); [by apply Hw|].
    destruct He as [He|(He & Hlt & Hu)]; [exists c; split; [lia|done]|].
    destruct Hu as [->|Hu]; [lia|]. exists (e - 1). split; [lia|done]. }
  unfold kalloc_look. destruct l as [st k lp al]. simpl in *.
  destruct al; simpl; destruct (used s c) eqn:Eu; simpl; (split; [done|]).
  - right. split; [lia|]. split; simpl; try done; [lia| |].
    + apply (Hend c). by left.
    + right. by rewrite Z.add_simpl_r.
  - destruct (Ha eq_refl) as (H1 & H2 & H3 & H4 & H5). rewrite u64_small by lia.
    destruct (decide (k + 1 = n)) as [E|E]; [left|right]; (split; [lia|]).
    + split; [lia|]. split; [lia|]. intros j Hj. destruct (decide (j = c)) as [->|]; [done|].
      apply H4. lia.
    + split; simpl; try done; [lia|lia| |].
      * apply (Hend st). right. split_and!; [lia|lia|lia|done].
      * intros _. split_and!; [lia|lia|lia| |done]. intros j Hj.
        destruct (decide (j = c)) as [->|]; [done|]. apply H4. lia.
  - right. split; [lia|]. split; simpl; try done; [lia| |].
    + apply (Hend c). by left.
    + right. by rewrite Z.add_simpl_r.
  - destruct (decide (1 = n)) as [E|E]; [left|right]; (split; [lia|]).
    + split; [lia|]. split; [lia|]. intros j Hj. by replace j with c by lia.
    + split; simpl; try done; [lia|lia| |].
      * apply (Hend c). right. split_and!; [lia|lia|lia|by apply Hs].
      * intros _. split_and!; [lia|lia|lia| |by apply Hs].
        intros j Hj. by replace j with c by lia.
Qed.

Lemma kalloc_iter_eq s n c l l1 :
  layout s -> 0 <= c < max_pages_available s -> l1 = kalloc_look (used s c) c l ->
  kalloc_iter n l (set_allocation_cursor c s) =
    if allocated_pages l1 =? n
    then (p ← kalloc_commit l1; mret (inr (Some p))) (set_allocation_cursor c s)
    else if c + 1 =? max_pages_available s then
      if looped l1 then Ret (inr None) (set_allocation_cursor 0 s)
      else Ret (inl (KallocLocals (start_alloc_page l1) (allocated_pages l1) true false))
             (set_allocation_cursor 0 s)
    else Ret (inl l1) (set_allocation_cursor (c + 1) s).
Proof.
  intros L Hc ->. unfold kalloc_iter. erewrite bind_ret_eq; [|done].
  rewrite (bind_ret_eq _ _ _ (used s c) (set_allocation_cursor c s))
    by exact (bitmap_test_ok (page_bitmap s) c (set_allocation_cursor c s)
                (layout_bitmap_byte (set_allocation_cursor c s) c (layout_set_cursor s c L Hc) Hc)).
  change (allocation_cursor (id _)) with c.
  cbv zeta. case_match; [done|]. erewrite bind_ret_eq; [|done]. erewrite bind_ret_eq; [|done].
  pose proof (lay_max s L).
  cbn [allocation_cursor max_pages_available set_allocation_cursor id]. unfold id.
  cbn [allocation_cursor max_pages_available set_allocation_cursor].
  rewrite u64_small by lia. case_match; [|done].
  erewrite bind_ret_eq; [|done]. by case_match.
Qed.

(** The whole loop: it ends with a free run of [n] pages below the cursor,
    or it has seen every page and no run of [n] free pages exists. *)
Lemma kalloc_loop_ok s n fuel seg c l :
  layout s -> search_inv s n seg c l -> c < max_pages_available s ->
  (looped l = true -> seg = 0) ->
  (if looped l then max_pages_available s else 2 * max_pages_available s) - c <= Z.of_nat fuel ->
  (exists c' l', 0 <= c' < max_pages_available s /\ allocated_pages l' = n /\
     free_run s (start_alloc_page l') n /\
     loop fuel (kalloc_iter n) l (set_allocation_cursor c s) =
       (p ← kalloc_commit l'; mret (Some p)) (set_allocation_cursor c' s)) \/
  ((forall p, ~ free_run s p n) /\
   loop fuel (kalloc_iter n) l (set_allocation_cursor c s) = Ret None (set_allocation_cursor 0 s)).
Proof.
  intros L. revert seg c l. induction fuel as [|fuel IH]; intros seg c l Hi Hc Hseg Hf.
  { pose proof (lay_max s L). destruct (looped l); lia. }
  destruct (si_range _ _ _ _ _ Hi) as [Hr _].
  set (l1 := kalloc_look (used s c) c l).
  destruct (kalloc_look_inv s n seg c l l1 L Hi Hc eq_refl) as [Hl1 Hcase].
  cbn [loop]. unfold mbind at 1 3, M_bind at 1 3.
  rewrite (kalloc_iter_eq s n c l l1 L ltac:(lia) eq_refl).
  destruct Hcase as [[E Hrun]|[E Hi1]].
  { left. exists c, l1. split_and!; try done; [lia|].
    rewrite (proj2 (Z.eqb_eq _ _) E). unfold mbind, M_bind.
    by destruct (kalloc_commit l1 (set_allocation_cursor c s)). }
  rewrite (proj2 (Z.eqb_neq _ _) E).
  destruct (Z.eqb_spec (c + 1) (max_pages_available s)) as [Ew|Ew].
  - rewrite Hl1. destruct (looped l) eqn:Elp.
    + right. split; [|done]. intros p (Hp & Hpn & Hfree). rewrite (Hseg eq_refl) in Hi1.
      destruct (si_windows _ _ _ _ _ Hi1 p) as (k & Hk & Hu); [lia|lia|].
      rewrite Hfree in Hu by lia. done.
    + apply (IH 0); simpl; [|pose proof (lay_max s L); lia|done|lia].
      apply search_inv_start; [pose proof (lay_max s L); lia|].
      apply (si_count _ _ _ _ _ Hi1).
  - apply (IH seg); [done|lia|by rewrite Hl1|rewrite Hl1; destruct (looped l); lia].
Qed.

(** ** kalloc as a whole *)

(** The state inside kalloc's critical section. *)
Lemma layout_set_lock s v : layout s -> layout (set_pmm_lock v s).
Proof. by intros [? ? ? ? ?]. Qed.

Lemma allocated_set_lock s s' v c start n :
  allocated (set_allocation_cursor c (set_pmm_lock v s)) s' start n -> allocated s s' start n.
Proof.
  intros [[] ? ? ? ? ? ?]. by split.
Qed.

(** What kalloc does for a request of at least one page. *)
Lemma kalloc_ok s bytes :
  layout s -> pmm_lock s = 0 -> 1 <= bytes -> bytes + PAGE_SIZE <= 2 ^ 64 ->
  let n := DIV_ROUNDUP bytes PAGE_SIZE in
  (exists start s', free_run s start n /\
     kalloc bytes s = Ret (page_addr s start) s' /\ allocated s s' start n) \/
  ((forall p, ~ free_run s p n) /\
   kalloc bytes s = (kprintf ("PMM Allocation failed." +:+ nl) [] ;; mret 0)
     (set_allocation_cursor 0 s)).
Proof.
  intros L Hl Hb Ho n. pose proof (lay_max s L). pose proof (lay_cursor s L).
  assert (Hn : 1 <= n).
  { pose proof (DIV_ROUNDUP_bounds bytes PAGE_SIZE ltac:(done) ltac:(lia) Ho).
    fold n in H1. unfold PAGE_SIZE in *. lia. }
  assert (L1 : layout (set_pmm_lock 1 s)) by by apply layout_set_lock.
  unfold kalloc. fold n. rewrite (bind_ret_eq _ _ _ _ _ (spinlock_lock_free _ _ _ Hl)).
  cbv zeta. erewrite bind_ret_eq; [|done].
  replace (set_pmm_lock 1 s) with (set_allocation_cursor (allocation_cursor s) (set_pmm_lock 1 s))
    by by destruct s.
  destruct (kalloc_loop_ok (set_pmm_lock 1 s) n (kalloc_fuel (set_pmm_lock 1 s))
    (allocation_cursor s) (allocation_cursor s) (KallocLocals 0 0 false false))
    as [(c' & l' & Hc' & Hln & Hrun & E)|[Hno E]]; [done|by apply search_inv_start; cbn; lia|cbn; lia|
      done|unfold kalloc_fuel; cbn; lia| |].
  - left. destruct Hrun as (Hr1 & Hr2 & Hr3).
    destruct (kalloc_commit_ok (set_allocation_cursor c' (set_pmm_lock 1 s)) l')
      as (s' & Ec & Ha); [by apply layout_set_cursor|done|lia|by rewrite Hln|].
    exists (start_alloc_page l'), s'. split; [by split_and!|]. split.
    + change (kalloc_fuel _) with (kalloc_fuel (set_pmm_lock 1 s)).
      unfold mbind at 1, M_bind at 1. rewrite E.
      by rewrite (bind_ret_eq _ _ _ _ _ Ec).
    + rewrite <- Hln. by eapply allocated_set_lock.
  - right. split; [exact Hno|]. change (kalloc_fuel _) with (kalloc_fuel (set_pmm_lock 1 s)).
    rewrite (bind_ret_eq _ _ _ _ _ E). cbv iota. erewrite bind_ret_eq; [|done].
    do 2 f_equal. destruct s. simpl in *. by subst.
Qed.

(** ** kfree *)

Lemma entry_in_range s i :
  alloc_inv s -> 0 <= i < max_pages_available s -> i + entry s i <= max_pages_available s.
Proof.
  intros A Hi. pose proof (entry_range s i).
  destruct (decide (entry s i = 0)) as [->|]; [lia|].
  destruct (ai_used s A i (i + entry s i - 1)); lia.
Qed.

Lemma kfree_loop_ok s page fuel i m :
  layout s -> 0 <= page < max_pages_available s ->
  page + entry s page <= max_pages_available s ->
  page <= i <= page + entry s page -> page + entry s page - i < Z.of_nat fuel ->
  bits_written s (fun j => bool_decide (~ page <= j < i) && used s j) (smem s) m ->
  exists m', loop fuel (kfree_iter page) i (set_mem m s) = Ret tt (set_mem m' s) /\
    bits_written s (fun j => bool_decide (~ page <= j < page + entry s page) && used s j) (smem s) m'.
Proof.
  intros L Hp He. revert i m. induction fuel as [|fuel IH]; intros i m Hi Hf B; [lia|].
  pose proof (lay_max s L).
  cbn [loop]. unfold mbind at 1, M_bind at 1.
  assert (E : kfree_iter page i (set_mem m s) =
    if i <? page + entry s page
    then (bitmap_off (page_bitmap s) i ;; mret (inl (i + 1))) (set_mem m s)
    else Ret (inr tt) (set_mem m s)).
  { unfold kfree_iter. erewrite bind_ret_eq; [|done].
    rewrite (bind_ret_eq _ _ _ (entry s page) (set_mem m s)).
    2: { change (gets _ _) with (@Ret pmm Z (entry_addr s page) (set_mem m s)).
         rewrite load_ok; rewrite smem_set_mem.
         - f_equal. by apply (bits_written_entry s _ _ _ _ L Hp B).
         - intros x Hx. apply (bw_mapped _ _ _ _ B), (layout_entry s page L Hp). exact Hx. }
    rewrite !u64_small by lia. by case_match. }
  rewrite E. destruct (Z.ltb_spec i (page + entry s page)) as [Hlt|Hge].
  - rewrite (bind_ret_eq _ _ _ _ _ (bitmap_off_ok (page_bitmap s) i (set_mem m s) ltac:(
      rewrite smem_set_mem; intros x Hx; apply (bw_mapped _ _ _ _ B), (layout_bitmap_byte s i L);
      [lia|exact Hx]))).
    rewrite smem_set_mem, set_mem_set_mem. cbv [mret M_ret]. apply IH; [lia|lia|].
    eapply bits_written_wr; [lia|done|]. intros j Hj.
    change (wr 1 _ _ m) with (flag_off (page_bitmap s) i m).
    rewrite flag_off_spec, (bw_flag _ _ _ _ B) by lia.
    destruct (used s j); repeat case_bool_decide; try done; lia.
  - exists m. split; [done|]. by replace (page + entry s page) with i by lia.
Qed.

Lemma kfree_ok s ptr page :
  layout s -> pmm_lock s = 0 ->
  (ptr -64 lowest_address s -64 vmm_higher_half_offset s) `div` PAGE_SIZE = page ->
  page < max_pages_available s -> page + entry s page <= max_pages_available s ->
  exists s', kfree ptr s = Ret tt s' /\ released s s' page.
Proof.
  intros L Hl Hpg Hp He. pose proof (lay_max s L). pose proof (entry_range s page).
  assert (H0p : 0 <= page) by (rewrite <- Hpg; unfold PAGE_SIZE; word_lia).
  destruct (kfree_loop_ok (set_pmm_lock 1 s) page (kfree_fuel s) page
    (smem (set_pmm_lock 1 s))) as (m & E & B).
  { by apply layout_set_lock. }
  1-4: change (entry (set_pmm_lock 1 s) page) with (entry s page);
    change (max_pages_available (set_pmm_lock 1 s)) with (max_pages_available s);
    unfold kfree_fuel; lia.
  { split; [|done|done]. intros j Hj. by rewrite bool_decide_eq_true_2 by lia. }
  rewrite set_mem_smem in E. change (entry (set_pmm_lock 1 s) page) with (entry s page) in B.
  assert (B' : bits_written s (fun j => bool_decide (~ page <= j < page + entry s page) && used s j)
    (smem s) m) by (destruct B; by split).
  eexists. split.
  - unfold kfree. rewrite (bind_ret_eq _ _ _ _ _ (spinlock_lock_free _ _ _ Hl)).
    erewrite bind_ret_eq; [|done]. erewrite bind_ret_eq; [|done].
    cbn [lowest_address vmm_higher_half_offset set_pmm_lock max_pages_available id]. unfold id.
    cbn [lowest_address vmm_higher_half_offset set_pmm_lock max_pages_available].
    rewrite Hpg. rewrite Z.geb_leb, (proj2 (Z.leb_gt _ _) Hp).
    erewrite bind_ret_eq; [|done]. change (kfree_fuel _) with (kfree_fuel s).
    rewrite (bind_ret_eq _ _ _ _ _ E). erewrite bind_ret_eq; [|done].
    rewrite (bind_ret_eq _ _ _ _ _ (store_ok 4 _ _ _ ltac:(
      rewrite smem_set_mem; intros x Hx; apply (bw_mapped _ _ _ _ B'), (layout_entry s page L);
      [lia|exact Hx]))).
    done.
  - split; try done.
    + by eapply (same_config_written s _ _ m page 0 L).
    + intros j Hj. lazymatch goal with |- _ = ?r =>
        change (flag (wr 4 (entry_addr s page) 0 m) (page_bitmap s) j = r) end.
      rewrite (flag_entry_wr s page 0 m j) by (done || lia). by rewrite (bw_flag _ _ _ _ B').
    + intros j Hj. lazymatch goal with |- _ = ?r =>
        change (rd 4 (entry_addr s j) (wr 4 (entry_addr s page) 0 m) = r) end.
      rewrite entry_entry_wr. case_decide; [done|].
      by rewrite (bits_written_entry s _ _ _ j L Hj B').
Qed.

(** ** The allocation invariant *)

Lemma same_config_layout s s' :
  layout s -> same_config s s' -> 0 <= allocation_cursor s' < max_pages_available s -> layout s'.
Proof.
  intros [L1 L2 L3 L4 L5] [C1 C2 C3 C4 C5 C6 C7 C8] Hc. split; unfold in_bitmap, in_entry_map.
  all: rewrite ?C1, ?C5, ?C6; try done.
  - intros x Hx. by apply C7, L3.
  - intros x Hx. by apply C7, L4.
Qed.

Lemma allocated_alloc_inv s s' start n :
  alloc_inv s -> 1 <= n -> free_run s start n -> allocated s s' start n -> alloc_inv s'.
Proof.
  intros A Hn1 (Hs & Hn & Hf) [C _ _ _ Hu He _].
  assert (Hclash : forall i, 0 <= i < max_pages_available s ->
    (exists k, i <= k < i + entry s i /\ start <= k < start + n) -> False).
  { intros i Hi (k & Hk & Hr). destruct (ai_used s A i k Hi Hk) as [_ Hku].
    rewrite Hf in Hku by done. done. }
  split; rewrite (sc_max _ _ C).
  - intros i k Hi Hk. rewrite He in Hk by done. case_decide as D.
    + subst. split; [lia|]. rewrite Hu by lia. by rewrite bool_decide_eq_true_2 by lia.
    + destruct (ai_used s A i k Hi Hk). split; [done|]. rewrite Hu by lia.
      by apply orb_true_intro; right.
  - intros i j Hi Hj. rewrite !He by lia. repeat case_decide; subst; try lia.
    + intros _ Hp. destruct (decide (j < start + n)) as [Hlt|]; [|lia].
      exfalso. apply (Hclash j); [lia|]. exists j. lia.
    + intros Hp _. destruct (decide (start < i + entry s i)) as [Hlt|]; [|lia].
      exfalso. apply (Hclash i); [lia|]. exists start. lia.
    + by apply (ai_disjoint s A).
Qed.

Lemma released_alloc_inv s s' page :
  alloc_inv s -> 0 <= page < max_pages_available s -> released s s' page -> alloc_inv s'.
Proof.
  intros A Hp [C _ _ _ Hu He _]. split; rewrite (sc_max _ _ C).
  - intros i k Hi Hk. rewrite He in Hk by done. case_decide as D; [lia|].
    destruct (ai_used s A i k Hi Hk) as [Hkm Hku]. split; [done|]. rewrite Hu, Hku by lia.
    rewrite bool_decide_eq_true_2; [done|]. intros Hin.
    destruct (decide (i < page)).
    + pose proof (ai_disjoint s A i page ltac:(lia) ltac:(lia)). lia.
    + pose proof (ai_disjoint s A page i ltac:(lia) ltac:(lia)). lia.
  - intros i j Hi Hj. rewrite !He by lia. repeat case_decide; subst; try lia.
    by apply (ai_disjoint s A).
Qed.

Lemma DIV_ROUNDUP_pages_pos bytes :
  1 <= bytes -> bytes + PAGE_SIZE <= 2 ^ 64 -> 1 <= DIV_ROUNDUP bytes PAGE_SIZE.
Proof.
  intros Hb Ho. pose proof (DIV_ROUNDUP_bounds bytes PAGE_SIZE ltac:(done) ltac:(lia) Ho).
  unfold PAGE_SIZE in *. lia.
Qed.

Lemma allocated_pmm_inv s s' start n :
  pmm_inv s -> 1 <= n -> free_run s start n -> allocated s s' start n -> pmm_inv s'.
Proof.
  intros [L Hl A] Hn Hr Ha. split; [|apply Ha|by eapply allocated_alloc_inv].
  by eapply same_config_layout; [done|apply Ha..].
Qed.

Lemma released_pmm_inv s s' page :
  pmm_inv s -> 0 <= page < max_pages_available s -> released s s' page -> pmm_inv s'.
Proof.
  intros [L Hl A] Hp Hr. split; [|apply Hr|by eapply released_alloc_inv].
  eapply same_config_layout; [done|apply Hr|]. rewrite (re_cursor _ _ _ Hr). apply L.
Qed.

(** The state after a failed search. *)
Definition kalloc_failed (s : pmm) : pmm :=
  set_pmm_mach (Machine (smem s) (Log ("PMM Allocation failed." +:+ nl) [] :: klog (pmm_mach s)))
    (set_allocation_cursor 0 s).

Lemma kalloc_failed_inv s : pmm_inv s -> pmm_inv (kalloc_failed s).
Proof. intros [[] ? []]. split; [split|done|split]; try done; cbn; lia. Qed.

Lemma page_index_nonneg s ptr :
  0 <= (ptr -64 lowest_address s -64 vmm_higher_half_offset s) `div` PAGE_SIZE.
Proof. unfold PAGE_SIZE. word_lia. Qed.

Lemma kfree_bad s ptr :
  pmm_lock s = 0 ->
  max_pages_available s <= (ptr -64 lowest_address s -64 vmm_higher_half_offset s) `div` PAGE_SIZE ->
  exists s', kfree ptr s = Halted s' /\ pmm_lock s' = 1 /\ smem s' = smem s /\ same_config s s'.
Proof.
  intros Hl Hge. eexists. split; [|split; [|split]].
  - unfold kfree. rewrite (bind_ret_eq _ _ _ _ _ (spinlock_lock_free _ _ _ Hl)).
    erewrite bind_ret_eq; [|done]. erewrite bind_ret_eq; [|done].
    cbn [lowest_address vmm_higher_half_offset set_pmm_lock max_pages_available id]. unfold id.
    cbn [lowest_address vmm_higher_half_offset set_pmm_lock max_pages_available].
    rewrite Z.geb_leb, (proj2 (Z.leb_le _ _) Hge). done.
  - done.
  - done.
  - by split.
Qed.

Lemma run_op_inv s o :
  pmm_inv s -> op_ok o ->
  match run_op o s with
  | Ret _ s' => pmm_inv s'
  | Halted s' => pmm_lock s' = 1 /\ smem s' = smem s
  | _ => False
  end.
Proof.
  intros I Ho. destruct o as [bytes|ptr]; simpl.
  - destruct Ho as [Hb Ho].
    destruct (kalloc_ok s bytes (pi_layout s I) (pi_lock s I) Hb Ho)
      as [(st & s' & Hr & E & Ha)|[Hno E]].
    + rewrite (bind_ret_eq _ _ _ _ _ E). cbv [mret M_ret].
      eapply allocated_pmm_inv; [done| |done|done]. by apply DIV_ROUNDUP_pages_pos.
    + unfold mbind, M_bind. rewrite E. by apply (kalloc_failed_inv s).
  - set (page := (ptr -64 lowest_address s -64 vmm_higher_half_offset s) `div` PAGE_SIZE).
    pose proof (page_index_nonneg s ptr). fold page in H.
    destruct (decide (page < max_pages_available s)) as [Hp|Hp].
    + destruct (kfree_ok s ptr page (pi_layout s I) (pi_lock s I) eq_refl Hp) as (s' & E & Hr).
      * apply entry_in_range; [apply I|lia].
      * rewrite E. by eapply released_pmm_inv.
    + destruct (kfree_bad s ptr) as (s' & E & ? & ? & _); [apply I|lia|]. by rewrite E.
Qed.

Lemma same_config_trans s1 s2 s3 : same_config s1 s2 -> same_config s2 s3 -> same_config s1 s3.
Proof.
  intros [A1 A2 A3 A4 A5 A6 A7 A8] [B1 B2 B3 B4 B5 B6 B7 B8]. split; try congruence.
  - intros x Hx. by apply B7, A7.
  - intros x Hb He. unfold in_bitmap, in_entry_map in *. rewrite A1, A5, A6 in B8.
    rewrite B8 by done. by apply A8.
Qed.

(** kalloc_commit with no pages at all. *)
Lemma kalloc_commit_zero_ok s l :
  layout s -> allocated_pages l = 0 -> 0 <= start_alloc_page l < max_pages_available s ->
  exists s', kalloc_commit l s = Ret (page_addr s (start_alloc_page l)) s' /\
    entry s' (start_alloc_page l) = 0 /\
    (forall j, 0 <= j < max_pages_available s -> used s' j = used s j) /\
    (forall j, j <> start_alloc_page l -> entry s' j = entry s j).
Proof.
  intros L Hn Hs. destruct l as [start n lp al]. simpl in *. subst n.
  pose proof (lay_max s L).
  set (s1 := if allocation_cursor s +64 1 =? max_pages_available s
             then set_allocation_cursor 0 (set_allocation_cursor (allocation_cursor s +64 1) s)
             else set_allocation_cursor (allocation_cursor s +64 1) s).
  assert (Hm : smem s1 = smem s) by (unfold s1; by case_match).
  assert (He : entry_addr s1 start = entry_addr s start) by (unfold s1; by case_match).
  assert (Hb : page_bitmap s1 = page_bitmap s) by (unfold s1; by case_match).
  assert (Hx : entry_map s1 = entry_map s) by (unfold s1; by case_match).
  assert (Hp : page_addr s1 start = page_addr s start) by (unfold s1; by case_match).
  eexists. split; [|split; [|split]].
  - unfold kalloc_commit. erewrite bind_ret_eq; [|done].
    rewrite (bind_ret_eq _ _ _ tt s1) by done. rewrite (bind_ret_eq _ _ _ tt s1).
    2: { unfold _reserve_pages. apply for_range_empty. rewrite u64_small; simpl; lia. }
    erewrite bind_ret_eq; [|done].
    rewrite (bind_ret_eq _ _ _ _ _ (store_ok 4 (entry_addr s1 start) 0 s1 ltac:(
      rewrite He, Hm; exact (layout_entry s start L Hs)))).
    erewrite bind_ret_eq; [|done]. erewrite bind_ret_eq; [|done].
    rewrite <- Hp. done.
  - change (rd 4 (entry_map s1 + 4 * start) (wr 4 (entry_addr s1 start) 0 (smem s1)) = 0).
    rewrite He, Hx. change (entry_map s + 4 * start) with (entry_addr s start). by rewrite rd_wr_eq.
  - intros j Hj. change (flag (wr 4 (entry_addr s1 start) 0 (smem s1)) (page_bitmap s1) j = used s j).
    rewrite He, Hb, Hm. by rewrite flag_entry_wr.
  - intros j Hj. change (rd 4 (entry_map s1 + 4 * j) (wr 4 (entry_addr s1 start) 0 (smem s1)) = entry s j).
    rewrite He, Hx, Hm. change (entry_map s + 4 * j) with (entry_addr s j).
    rewrite entry_entry_wr. by rewrite decide_False.
Qed.
