(* ===== verification/PmmProps.v ===== *)
(** * mem.c: the properties of the physical memory manager *)
From S2P Require Import Prelude Machine Math Bitmap Atomic MemLib Pmm PmmProofs.

(** A manager of eight free pages at 0x100000, its tables at 0x1000 and 0x2000
    of the direct map at 2^47. *)
Definition demo : pmm :=
  Pmm (Machine (zeros (2 ^ 47 + 4096) 1 ∪ zeros (2 ^ 47 + 8192) 32) []) 0 8 32768
    [MemmapEntry 1048576 32768 0] 1081344 1048576 8 (2 ^ 47 + 4096) (2 ^ 47) 6 8 (2 ^ 47 + 8192).

Lemma demo_all_zero : all_zero (smem demo).
Proof. apply all_zero_union; apply all_zero_zeros. Qed.
Lemma demo_unused i : used demo i = false.
Proof. unfold used, flag. by rewrite demo_all_zero, Z.bits_0. Qed.
Lemma demo_entry i : entry demo i = 0.
Proof. apply all_zero_rd, demo_all_zero. Qed.
Lemma demo_inv : pmm_inv demo.
Proof.
  split; [|done|].
  - split; cbn; [lia|lia| | |].
    + apply region_union_l, region_zeros.
    + apply region_union_r, region_zeros.
    + unfold in_bitmap, in_entry_map.
      change (bitmap_bytes (max_pages_available demo)) with 1.
      cbn [demo page_bitmap entry_map max_pages_available]. intros x. lia.
  - split; intros i; rewrite !demo_entry; lia.
Qed.
Lemma demo_run p n : 0 <= p -> p + n <= 8 -> free_run demo p n.
Proof. intros. split_and!; [done|done|]. intros. apply demo_unused. Qed.

(** C1: whenever some run of the requested number of contiguous free pages
    exists, kalloc returns the address of such a run; exactly its pages become
    used, its length is recorded at its first page, no other page, record or
    memory byte changes, the lock is free again, and the manager's invariant
    still holds. *)
Theorem kalloc_allocates s bytes :
  pmm_inv s -> 1 <= bytes -> bytes + PAGE_SIZE <= 2 ^ 64 ->
  (exists p, free_run s p (DIV_ROUNDUP bytes PAGE_SIZE)) ->
  exists start s',
    kalloc bytes s = Ret (page_addr s start) s' /\
    free_run s start (DIV_ROUNDUP bytes PAGE_SIZE) /\
    allocated s s' start (DIV_ROUNDUP bytes PAGE_SIZE) /\ pmm_inv s'.
Proof.
  intros I Hb Ho [p Hp].
  destruct (kalloc_ok s bytes (pi_layout s I) (pi_lock s I) Hb Ho)
    as [(st & s' & Hr & E & Ha)|[Hno _]]; [|by destruct (Hno p)].
  exists st, s'. split_and!; try done.
  eapply allocated_pmm_inv; [done| |done|done]. by apply DIV_ROUNDUP_pages_pos.
Qed.

Lemma kalloc_allocates_witness :
  exists start s', kalloc 12288 demo = Ret (page_addr demo start) s' /\
    free_run demo start 3 /\ allocated demo s' start 3 /\ pmm_inv s'.
Proof.
  apply (kalloc_allocates demo 12288 demo_inv); [lia|unfold PAGE_SIZE; lia|].
  exists 0. apply demo_run; [lia|done].
Defined.

(** C27: if no run of that many contiguous free pages exists, kalloc terminates
    with NULL; apart from the cursor (back at page 0) and the log message the
    state is the one before the call, lock included. *)
Theorem kalloc_exhausted s bytes :
  pmm_inv s -> 1 <= bytes -> bytes + PAGE_SIZE <= 2 ^ 64 ->
  (forall p, ~ free_run s p (DIV_ROUNDUP bytes PAGE_SIZE)) ->
  kalloc bytes s = Ret 0 (kalloc_failed s) /\ pmm_inv (kalloc_failed s).
Proof.
  intros I Hb Ho Hno. split; [|by apply kalloc_failed_inv].
  destruct (kalloc_ok s bytes (pi_layout s I) (pi_lock s I) Hb Ho)
    as [(st & s' & Hr & _)|[_ E]]; [by destruct (Hno st)|]. exact E.
Qed.

Lemma kalloc_exhausted_witness :
  kalloc 36864 demo = Ret 0 (kalloc_failed demo) /\ pmm_inv (kalloc_failed demo).
Proof.
  apply (kalloc_exhausted demo 36864 demo_inv); [lia|unfold PAGE_SIZE; lia|].
  intros p (Hp & Hn & _). revert Hn. change (DIV_ROUNDUP 36864 PAGE_SIZE) with 9. cbn. lia.
Defined.

(** C15: safety of every sequence of calls. However kalloc (of at least one
    byte) and kfree (of any pointer at all) are interleaved, the manager never
    faults, never spins and never runs out of steps: it keeps the invariant
    that recorded allocations are in range, used and pairwise disjoint, or it
    halts on a pointer outside the managed pages, with its tables intact. *)
Theorem pmm_ops_safe os : forall s,
  pmm_inv s -> Forall op_ok os ->
  match run_ops os s with
  | Ret _ s' => pmm_inv s'
  | Halted s' => exists s1, pmm_inv s1 /\ smem s' = smem s1 /\ pmm_lock s' = 1
  | _ => False
  end.
Proof.
  induction os as [|o os IH]; intros s I Hos; cbn [run_ops]; [done|].
  apply Forall_cons in Hos as [Ho Hos]. pose proof (run_op_inv s o I Ho) as H.
  unfold mbind, M_bind. destruct (run_op o s) as [[] s'|s'|s'|f|]; try done.
  - by apply IH.
  - destruct H. eauto.
Qed.

Lemma pmm_ops_safe_witness :
  match run_ops [Kalloc 5000; Kalloc 1; Kfree 0] demo with
  | Ret _ s' => pmm_inv s'
  | Halted s' => exists s1, pmm_inv s1 /\ smem s' = smem s1 /\ pmm_lock s' = 1
  | _ => False
  end.
Proof.
  apply pmm_ops_safe; [apply demo_inv|]. repeat constructor; unfold PAGE_SIZE; lia.
Defined.

(** C25: round trip. Freeing what kalloc returned restores every page bit and
    every entry, so the same request can succeed again; the statistic
    num_pages_available alone is not restored, it stays short by the number of
    pages. *)
Theorem kalloc_kfree_roundtrip s bytes :
  pmm_inv s -> 1 <= bytes -> bytes + PAGE_SIZE <= 2 ^ 64 ->
  (exists p, free_run s p (DIV_ROUNDUP bytes PAGE_SIZE)) ->
  exists p s1 s2,
    kalloc bytes s = Ret p s1 /\ kfree p s1 = Ret tt s2 /\ same_config s s2 /\ pmm_inv s2 /\
    (forall j, 0 <= j < max_pages_available s -> used s2 j = used s j /\ entry s2 j = entry s j) /\
    num_pages_available s2 = num_pages_available s -64 DIV_ROUNDUP bytes PAGE_SIZE.
Proof.
  intros I Hb Ho [p Hp]. pose proof (lay_max s (pi_layout s I)) as Hmax.
  destruct (kalloc_ok s bytes (pi_layout s I) (pi_lock s I) Hb Ho)
    as [(st & s1 & (Hr1 & Hr2 & Hr3) & E & Ha)|[Hno _]]; [|by destruct (Hno p)].
  assert (Hn : 1 <= DIV_ROUNDUP bytes PAGE_SIZE) by by apply DIV_ROUNDUP_pages_pos.
  set (n := DIV_ROUNDUP bytes PAGE_SIZE) in *.
  assert (I1 : pmm_inv s1) by by apply (allocated_pmm_inv s s1 st n).
  destruct Ha as [C _ _ Hcount Hu He _].
  assert (Hst : entry s1 st = n) by (rewrite He by lia; by rewrite decide_True).
  assert (Hst0 : entry s st = 0).
  { pose proof (entry_range s st). destruct (decide (entry s st = 0)); [done|].
    destruct (ai_used s (pi_alloc s I) st st) as [_ Hbad]; [lia|lia|]. rewrite Hr3 in Hbad by lia. done. }
  destruct (kfree_ok s1 (page_addr s st) st (pi_layout s1 I1) (pi_lock s1 I1)) as (s2 & E2 & R).
  { rewrite (sc_lowest _ _ C), (sc_hhdm _ _ C). apply page_addr_inv. lia. }
  { rewrite (sc_max _ _ C). lia. }
  { rewrite (sc_max _ _ C), Hst. lia. }
  exists (page_addr s st), s1, s2. split; [done|]. split; [done|].
  assert (I2 : pmm_inv s2) by (eapply released_pmm_inv; [done| |done]; rewrite (sc_max _ _ C); lia).
  destruct R as [C2 _ _ Hcount2 Hu2 He2 _]. rewrite Hst in Hu2. rewrite (sc_max _ _ C) in Hu2, He2.
  split; [by eapply same_config_trans|]. split; [done|]. split.
  - intros j Hj. rewrite Hu2, Hu, He2, He by done. split.
    + destruct (decide (st <= j < st + n)) as [Hin|]; [rewrite (Hr3 j Hin)|];
        destruct (used s j); repeat case_bool_decide; tauto.
    + case_decide; [by subst|done].
  - by rewrite Hcount2.
Qed.

Lemma kalloc_kfree_roundtrip_witness :
  exists p s1 s2, kalloc 5000 demo = Ret p s1 /\ kfree p s1 = Ret tt s2 /\
    same_config demo s2 /\ pmm_inv s2 /\
    (forall j, 0 <= j < 8 -> used s2 j = used demo j /\ entry s2 j = entry demo j) /\
    num_pages_available s2 = 6.
Proof.
  apply (kalloc_kfree_roundtrip demo 5000 demo_inv); [lia|unfold PAGE_SIZE; lia|].
  exists 0. apply demo_run; [lia|done].
Defined.

(** Kfree never touches memory it does not manage: a pointer whose page
    index is past the managed pages (NULL included) halts the machine, with
    the lock still held and memory unchanged. *)
Theorem kfree_out_of_bounds_halts s ptr :
  pmm_lock s = 0 ->
  max_pages_available s <= (ptr -64 lowest_address s -64 vmm_higher_half_offset s) `div` PAGE_SIZE ->
  exists s', kfree ptr s = Halted s' /\ pmm_lock s' = 1 /\ smem s' = smem s /\ same_config s s'.
Proof. apply kfree_bad. Qed.

Lemma kfree_out_of_bounds_halts_witness :
  exists s', kfree 0 demo = Halted s' /\ pmm_lock s' = 1 /\ smem s' = smem demo /\ same_config demo s'.
Proof. apply (kfree_out_of_bounds_halts demo 0); [done|]. by vm_compute. Defined.

(** A request of zero bytes is not harmless. When the page under the
    cursor is taken, kalloc(0) reserves nothing, returns the address of page 0
    whoever owns it, and erases the length recorded for page 0, so that the
    owner's kfree will release no page. *)
Theorem kalloc_zero_forgets_page0 s :
  pmm_inv s -> used s (allocation_cursor s) = true ->
  exists s', kalloc 0 s = Ret (page_addr s 0) s' /\ entry s' 0 = 0 /\
    (forall j, 0 <= j < max_pages_available s -> used s' j = used s j) /\
    (forall j, 0 < j < max_pages_available s -> entry s' j = entry s j).
Proof.
  intros [L Hl A] Hu. pose proof (lay_max s L). pose proof (lay_cursor s L).
  destruct (kalloc_commit_zero_ok (set_pmm_lock 1 s) (KallocLocals 0 0 false false))
    as (s' & E & H1 & H2 & H3); [by apply layout_set_lock|done|cbn; lia|].
  exists s'. split; [|split; [done|split; [done|intros j Hj; apply H3; simpl; lia]]].
  assert (Et : set_allocation_cursor (allocation_cursor s) (set_pmm_lock 1 s) = set_pmm_lock 1 s)
    by by destruct s.
  assert (Ei : kalloc_iter 0 (KallocLocals 0 0 false false) (set_pmm_lock 1 s) =
    Ret (inr (Some (page_addr s 0))) s').
  { rewrite <- Et at 1.
    rewrite (kalloc_iter_eq (set_pmm_lock 1 s) 0 _ _ _ (layout_set_lock s 1 L) (lay_cursor s L) eq_refl).
    change (used (set_pmm_lock 1 s) (allocation_cursor s)) with (used s (allocation_cursor s)).
    rewrite Hu, Et. exact (bind_ret_eq _ _ _ _ _ E). }
  unfold kalloc. rewrite (bind_ret_eq _ _ _ _ _ (spinlock_lock_free _ _ _ Hl)).
  cbv zeta. erewrite bind_ret_eq; [|done].
  change (kalloc_fuel _) with (S (Z.to_nat (2 * max_pages_available s))).
  change (DIV_ROUNDUP 0 PAGE_SIZE) with 0. cbn [loop].
  unfold mbind, M_bind. by rewrite Ei.
Qed.

(** The demo manager after two requests, its cursor on a page it handed out. *)
Definition demo_taken : pmm := set_mem (flag_on (2 ^ 47 + 4096) 6 (smem demo)) demo.

Lemma demo_taken_inv : pmm_inv demo_taken.
Proof.
  assert (He : forall i, 0 <= i < 8 -> entry demo_taken i = 0).
  { intros i Hi. change (rd 4 (entry_addr demo i)
      (wr 1 (2 ^ 47 + 4096 + 6 `div` 8) (Z.lor 0 (Z.shiftl 1 6)) (smem demo)) = 0).
    rewrite rd_wr_ne; [apply demo_entry|]. right. unfold entry_addr.
    change (6 `div` 8) with 0. cbn [demo entry_map]. lia. }
  destruct demo_inv as [[L1 L2 L3 L4 L5] Hl A].
  split; [split; [exact L1|exact L2|by apply region_wr|by apply region_wr|exact L5]|exact Hl|].
  split; change (max_pages_available demo_taken) with 8.
  - intros i k Hi Hk. rewrite He in Hk by lia. lia.
  - intros i j Hi Hj. rewrite !He by lia. lia.
Qed.

Lemma kalloc_zero_forgets_page0_witness :
  exists s', kalloc 0 demo_taken = Ret (page_addr demo_taken 0) s' /\ entry s' 0 = 0 /\
    (forall j, 0 <= j < 8 -> used s' j = used demo_taken j) /\
    (forall j, 0 < j < 8 -> entry s' j = entry demo_taken j).
Proof.
  apply (kalloc_zero_forgets_page0 demo_taken demo_taken_inv).
  change (flag (flag_on (2 ^ 47 + 4096) 6 (smem demo)) (2 ^ 47 + 4096) 6 = true).
  rewrite flag_on_spec by lia. reflexivity.
Defined.
