(* ===== verification/PmmInit.v ===== *)
(** * mem.c: what kmem_init builds from the boot loader's memory map *)
From S2P Require Import Prelude Machine Math Bitmap Atomic MemLib Pmm PmmProofs.

(** ** Memory maps *)

Definition me_end (e : memmap_entry) : Z := me_base e + me_length e.

(** Address [a] lies in a usable entry. *)
Definition in_usable (es : list memmap_entry) (a : Z) : Prop :=
  exists e, e ∈ es /\ is_usable e = true /\ me_base e <= a < me_end e.

#[export] Instance in_usable_dec es a : Decision (in_usable es a).
Proof.
  refine (cast_if (decide (Exists (fun e => is_usable e = true /\ me_base e <= a < me_end e) es)));
    abstract (unfold in_usable; by rewrite <- Exists_exists).
Defined.

(** The pages of the usable entries. *)
Definition usable_pages (es : list memmap_entry) : Z :=
  foldr (fun e n => if is_usable e then me_length e `div` PAGE_SIZE + n else n) 0 es.

Lemma usable_pages_cons e es :
  usable_pages (e :: es) =
    if is_usable e then me_length e `div` PAGE_SIZE + usable_pages es else usable_pages es.
Proof. done. Qed.

(** What the Limine protocol says of a memory map (usable entries are page
    aligned, sorted, disjoint and not at address 0) and of the direct map (it
    covers them). *)
Record memmap_ok (hhdm : Z) (m : memory) (es : list memmap_entry) : Prop := {
  mo_aligned : forall e, e ∈ es -> is_usable e = true ->
    me_base e `mod` PAGE_SIZE = 0 /\ me_length e `mod` PAGE_SIZE = 0;
  mo_range : forall e, e ∈ es -> is_usable e = true ->
    0 < me_base e /\ 0 <= me_length e /\ me_end e + hhdm < 2 ^ 64;
  mo_order : forall i j e e', (i < j)%nat -> es !! i = Some e -> es !! j = Some e' ->
    is_usable e = true -> is_usable e' = true -> me_end e <= me_base e';
  mo_mapped : forall e, e ∈ es -> is_usable e = true -> region (me_base e + hhdm) (me_length e) m
}.

Lemma memmap_ok_cons hhdm m e es : memmap_ok hhdm m (e :: es) -> memmap_ok hhdm m es.
Proof.
  intros [A R O Mp].
  split; try (intros e' He'; [> apply A || apply R || apply Mp]; apply elem_of_cons; by right).
  intros i j e1 e2 Hij H1 H2. apply (O (S i) (S j)); [lia|done|done].
Qed.

Lemma memmap_ok_mem hhdm m m' es :
  (forall x, is_Some (m !! x) -> is_Some (m' !! x)) -> memmap_ok hhdm m es -> memmap_ok hhdm m' es.
Proof. intros Hm [A R O Mp]. split; try done. intros e He Hu x Hx. apply Hm. by apply (Mp e). Qed.

(** In a map the usable entries after the head start past its end. *)
Lemma memmap_ok_above hhdm m e es e' :
  memmap_ok hhdm m (e :: es) -> is_usable e = true -> e' ∈ es -> is_usable e' = true ->
  me_end e <= me_base e'.
Proof.
  intros K Hu (j & Hj)%list_elem_of_lookup Hu'. by apply (mo_order _ _ _ K 0 (S j)); [lia|..].
Qed.

(** The usable pages fit between the lowest and the highest usable address. *)
Lemma usable_pages_nonneg hhdm m es : memmap_ok hhdm m es -> 0 <= usable_pages es.
Proof.
  induction es as [|e es IH]; intros K; [done|]. cbn [usable_pages foldr].
  specialize (IH (memmap_ok_cons _ _ _ _ K)). fold (usable_pages es).
  destruct (is_usable e) eqn:Hu; [|done].
  destruct (mo_range _ _ _ K e) as (_ & Hl & _); [apply elem_of_cons; by left|done|].
  pose proof (Z.div_pos (me_length e) PAGE_SIZE). unfold PAGE_SIZE in *. lia.
Qed.

Lemma usable_pages_span hhdm m es lo hi :
  memmap_ok hhdm m es -> lo <= hi ->
  (forall e, e ∈ es -> is_usable e = true -> lo <= me_base e /\ me_end e <= hi) ->
  PAGE_SIZE * usable_pages es <= hi - lo.
Proof.
  revert lo. induction es as [|e es IH]; intros lo K Hle Hin; [cbn; lia|].
  cbn [usable_pages foldr]. fold (usable_pages es). pose proof (memmap_ok_cons _ _ _ _ K) as K'.
  destruct (is_usable e) eqn:Hu.
  - destruct (Hin e) as [H1 H2]; [apply elem_of_cons; by left|done|].
    destruct (mo_range _ _ _ K e) as (_ & Hl & _); [apply elem_of_cons; by left|done|].
    assert (PAGE_SIZE * usable_pages es <= hi - me_end e).
    { apply IH; [done|done|]. intros e' He' Hu'.
      split; [by apply (memmap_ok_above _ _ _ _ _ K)|]. apply Hin; [apply elem_of_cons; by right|done]. }
    pose proof (Z.mul_div_le (me_length e) PAGE_SIZE). unfold me_end, PAGE_SIZE in *. lia.
  - apply IH; [done|done|]. intros e' He'. apply Hin. apply elem_of_cons. by right.
Qed.

(** ** Carving a table out of an entry *)

Definition carved (e : memmap_entry) (size : Z) : memmap_entry :=
  MemmapEntry (me_base e +64 size) (me_length e -64 size) (me_type e).

Section carve.
Context (hhdm : Z) (m : memory) (es : list memmap_entry) (j : nat) (e : memmap_entry) (size : Z).
Context (K : memmap_ok hhdm m es) (Hj : es !! j = Some e) (Hu : is_usable e = true).
Context (Hh : 0 <= hhdm) (Hs : 0 <= size <= me_length e) (Ha : size `mod` PAGE_SIZE = 0).

Lemma carve_range : 0 < me_base e /\ 0 <= me_length e /\ me_end e + hhdm < 2 ^ 64.
Proof. apply (mo_range _ _ _ K); [by eapply list_elem_of_lookup_2|done]. Qed.

Lemma carved_eq : carved e size = MemmapEntry (me_base e + size) (me_length e - size) (me_type e).
Proof. unfold carved. pose proof carve_range. unfold me_end in *. f_equal; apply u64_small; lia. Qed.

Lemma carved_lookup i e' :
  <[j := carved e size]> es !! i = Some e' ->
  (i = j /\ e' = carved e size) \/ (i <> j /\ es !! i = Some e').
Proof.
  intros Hi. destruct (decide (i = j)) as [->|].
  - rewrite list_lookup_insert_eq in Hi by by eapply lookup_lt_Some. left. by simplify_eq.
  - rewrite list_lookup_insert_ne in Hi by done. by right.
Qed.

(** The entry of the new map at an index lies within the old one there. *)
Lemma carved_within i e' :
  <[j := carved e size]> es !! i = Some e' -> is_usable e' = true ->
  exists e0, es !! i = Some e0 /\ is_usable e0 = true /\ me_base e0 <= me_base e' /\
    me_end e' = me_end e0 /\ 0 <= me_length e' /\
    me_base e' `mod` PAGE_SIZE = 0 /\ me_length e' `mod` PAGE_SIZE = 0.
Proof.
  intros Hi Hu'. apply carved_lookup in Hi as [[-> ->]|[_ Hi]].
  - exists e. rewrite carved_eq. destruct (mo_aligned _ _ _ K e) as [Hb Hl];
      [by eapply list_elem_of_lookup_2|done|].
    pose proof Ha as Ha'. unfold me_end, PAGE_SIZE in *. cbn.
    split_and!; try done; [lia..| |].
    + by rewrite Z.add_mod, Hb, Ha' by lia.
    + by rewrite Zminus_mod, Hl, Ha'.
  - exists e'. pose proof (mo_range _ _ _ K e' ltac:(by eapply list_elem_of_lookup_2) Hu').
    destruct (mo_aligned _ _ _ K e') as [? ?]; [by eapply list_elem_of_lookup_2|done|].
    split_and!; try done; lia.
Qed.

Lemma memmap_ok_carve : memmap_ok hhdm m (<[j := carved e size]> es).
Proof.
  assert (W : forall e', e' ∈ <[j := carved e size]> es -> is_usable e' = true ->
    exists e0, e0 ∈ es /\ is_usable e0 = true /\ me_base e0 <= me_base e' /\
    me_end e' = me_end e0 /\ 0 <= me_length e' /\
    me_base e' `mod` PAGE_SIZE = 0 /\ me_length e' `mod` PAGE_SIZE = 0).
  { intros e' (i & Hi)%list_elem_of_lookup Hu'.
    destruct (carved_within i e' Hi Hu') as (e0 & He0 & H). exists e0.
    split; [by eapply list_elem_of_lookup_2|done]. }
  split.
  - intros e' He' Hu'. by destruct (W e' He' Hu') as (e0 & ? & ? & ? & ? & ? & ? & ?).
  - intros e' He' Hu'. destruct (W e' He' Hu') as (e0 & H1 & H2 & ? & ? & ? & _).
    pose proof (mo_range _ _ _ K e0 H1 H2). split_and!; lia.
  - intros i k e1 e2 Hik H1 H2 U1 U2.
    destruct (carved_within i e1 H1 U1) as (e3 & E3 & U3 & ? & ? & _).
    destruct (carved_within k e2 H2 U2) as (e4 & E4 & U4 & ? & ? & _).
    pose proof (mo_order _ _ _ K i k e3 e4 Hik E3 E4 U3 U4). lia.
  - intros e' He' Hu'. destruct (W e' He' Hu') as (e0 & H1 & H2 & ? & ? & ? & _).
    apply (region_sub _ _ _ _ _ (mo_mapped _ _ _ K e0 H1 H2)); unfold me_end in *; lia.
Qed.

Lemma carve_span a b :
  (forall e, e ∈ es -> is_usable e = true -> a <= me_base e /\ me_end e <= b) ->
  forall e', e' ∈ <[j := carved e size]> es -> is_usable e' = true -> a <= me_base e' /\ me_end e' <= b.
Proof.
  intros H e' (i & Hi)%list_elem_of_lookup Hu'.
  destruct (carved_within i e' Hi Hu') as (e0 & E0%list_elem_of_lookup_2 & U0 & ? & ? & _).
  destruct (H e0 E0 U0). lia.
Qed.

Lemma carved_pages :
  me_length (carved e size) `div` PAGE_SIZE = me_length e `div` PAGE_SIZE - size `div` PAGE_SIZE.
Proof.
  rewrite carved_eq. cbn [me_length]. unfold PAGE_SIZE in *.
  rewrite (Z.div_mod size 4096), Ha, Z.add_0_r by lia.
  replace (me_length e - 4096 * (size `div` 4096))
    with (me_length e + (- (size `div` 4096)) * 4096) by lia.
  rewrite Z.div_add, (Z.mul_comm 4096), Z.div_mul by lia. lia.
Qed.

Lemma usable_pages_carve :
  usable_pages (<[j := carved e size]> es) = usable_pages es - size `div` PAGE_SIZE.
Proof.
  pose proof carved_pages as Hc. clear K. revert j Hj.
  induction es as [|e1 es1 IH]; intros k Hk; [done|].
  destruct k as [|k].
  - injection Hk as ->. change (<[0%nat := carved e size]> (e :: es1)) with (carved e size :: es1).
    rewrite !usable_pages_cons, Hc. change (is_usable (carved e size)) with (is_usable e).
    rewrite Hu. lia.
  - change (<[S k := carved e size]> (e1 :: es1)) with (e1 :: <[k := carved e size]> es1).
    rewrite !usable_pages_cons, (IH k Hk). case_match; lia.
Qed.

(** What is carved is no longer usable, everything else is as before. *)
Lemma in_usable_carve a :
  in_usable (<[j := carved e size]> es) a <->
  in_usable es a /\ ~ (me_base e <= a < me_base e + size).
Proof.
  pose proof carve_range as Rg. split.
  - intros (e' & (i & Hi)%list_elem_of_lookup & Hu' & Hin).
    destruct (carved_within i e' Hi Hu') as (e0 & E0 & U0 & H1 & H2 & _). split.
    + exists e0. split; [by eapply list_elem_of_lookup_2|]. split; [done|lia].
    + intros Hc. destruct (carved_lookup i e' Hi) as [[-> ->]|[Hne _]].
      * rewrite carved_eq in Hin. unfold me_end in *. cbn in Hin. lia.
      * destruct (decide (i < j)%nat).
        -- pose proof (mo_order _ _ _ K i j e0 e ltac:(lia) E0 Hj U0 Hu). lia.
        -- pose proof (mo_order _ _ _ K j i e e0 ltac:(lia) Hj E0 Hu U0). unfold me_end in *. lia.
  - intros [(e' & (i & Hi)%list_elem_of_lookup & Hu' & Hin) Hnc].
    destruct (decide (i = j)) as [->|].
    + simplify_eq. exists (carved e size). split.
      * apply (list_elem_of_lookup_2 _ j). apply list_lookup_insert_eq. by eapply lookup_lt_Some.
      * split; [done|]. rewrite carved_eq. unfold me_end in *. cbn. lia.
    + exists e'. split; [|done]. apply (list_elem_of_lookup_2 _ i). by rewrite list_lookup_insert_ne.
Qed.
End carve.

(** ** First fit in the map *)

Definition fits (size : Z) (e : memmap_entry) : Prop := is_usable e = true /\ size <= me_length e.
#[export] Instance fits_dec size e : Decision (fits size e).
Proof. unfold fits. apply _. Defined.

Lemma fits_branch {A} size e (a b c : A) :
  (if negb (is_usable e) then a else if me_length e >=? size then b else c) =
  if decide (fits size e) then b else if is_usable e then c else a.
Proof.
  case_decide as D; unfold fits in D; destruct (is_usable e), (Z.geb_spec (me_length e) size);
    simpl; try done; exfalso; intuition; lia.
Qed.

(** Both table searches stop at the first entry that fits. *)
Lemma create_page_bitmap_loop_at size es j e s : forall i,
  list_find (fits size) es = Some (j, e) ->
  create_page_bitmap_loop size i es s =
    (hhdm ← gets vmm_higher_half_offset;
     modify (set_page_bitmap (me_base e +64 hhdm)) ;;
     memset (me_base e +64 hhdm) 255 size ;;
     carve_entry (i + j) e size) s.
Proof.
  revert j. induction es as [|e0 es IH]; intros j i H; [done|]. simpl in H.
  cbn [create_page_bitmap_loop]. rewrite fits_branch. case_decide as D.
  - injection H as <- <-. by rewrite Nat.add_0_r.
  - destruct (list_find (fits size) es) as [[j' e']|]; [|done]. simpl in H. injection H as <- <-.
    assert (E : (i + S j' = S i + j')%nat) by lia. rewrite E. case_match; by apply IH.
Qed.

Lemma memmap_alloc_loop_at size es j e s : forall i,
  list_find (fits size) es = Some (j, e) ->
  memmap_alloc_loop size i es s =
    (hhdm ← gets vmm_higher_half_offset;
     memset (me_base e +64 hhdm) 0 size ;;
     carve_entry (i + j) e size ;;
     mret (me_base e +64 hhdm)) s.
Proof.
  revert j. induction es as [|e0 es IH]; intros j i H; [done|]. simpl in H.
  cbn [memmap_alloc_loop]. rewrite fits_branch. case_decide as D.
  - injection H as <- <-. by rewrite Nat.add_0_r.
  - destruct (list_find (fits size) es) as [[j' e']|]; [|done]. simpl in H. injection H as <- <-.
    assert (E : (i + S j' = S i + j')%nat) by lia. rewrite E. case_match; by apply IH.
Qed.

Lemma fits_found size es e : e ∈ es -> fits size e ->
  exists j e', list_find (fits size) es = Some (j, e') /\ es !! j = Some e' /\ fits size e'.
Proof.
  intros He Hf. destruct (list_find_elem_of (fits size) es e He Hf) as [[j e'] E].
  exists j, e'. split; [done|]. apply list_find_Some in E as (? & ? & _). done.
Qed.

(** ** The phases of kmem_init *)

Lemma init_stats_entry_usable e s : is_usable e = true ->
  init_stats_entry e s = Ret tt
    (set_lowest_address (if lowest_address s =? 0 then me_base e else MIN (lowest_address s) (me_base e))
    (set_highest_address (MAX (highest_address s) (me_base e +64 me_length e))
    (set_max_pages_available (max_pages_available s +64 me_length e `div` PAGE_SIZE)
    (set_total_memory_bytes (total_memory_bytes s +64 me_length e) s)))).
Proof. intros Hu. unfold init_stats_entry. by rewrite Hu. Qed.

Lemma init_stats_loop_ok hhdm m es : forall s,
  memmap_ok hhdm m es -> 0 <= hhdm -> 0 <= max_pages_available s ->
  max_pages_available s + usable_pages es < 2 ^ 64 ->
  (lowest_address s = 0 /\ highest_address s = 0) \/
  (0 < lowest_address s <= highest_address s /\ lowest_address s `mod` PAGE_SIZE = 0 /\
   forall e, e ∈ es -> is_usable e = true -> highest_address s <= me_base e) ->
  exists t lo hi,
    init_stats_loop es s =
      Ret tt (set_total_memory_bytes t (set_max_pages_available (max_pages_available s + usable_pages es)
        (set_highest_address hi (set_lowest_address lo s)))) /\
    lo `mod` PAGE_SIZE = 0 /\ 0 <= lo <= hi /\ (lowest_address s <> 0 -> lo = lowest_address s) /\
    highest_address s <= hi /\
    (hi = highest_address s \/ exists e, e ∈ es /\ is_usable e = true /\ hi = me_end e) /\
    (forall e, e ∈ es -> is_usable e = true -> lo <= me_base e /\ me_end e <= hi) /\
    (lowest_address s = 0 -> forall e, e ∈ es -> is_usable e = true ->
       exists e', e' ∈ es /\ is_usable e' = true /\ lo = me_base e').
Proof.
  induction es as [|e es IH]; intros s K Hh Hmx Hsum Hst.
  - exists (total_memory_bytes s), (lowest_address s), (highest_address s).
    cbn [usable_pages foldr]. rewrite Z.add_0_r.
    assert (Hal : lowest_address s `mod` PAGE_SIZE = 0)
      by (by destruct Hst as [[-> _]|(_ & ? & _)]).
    split; [by destruct s|]. split; [done|]. split; [lia|]. split; [done|]. split; [lia|].
    split; [by left|]. split; [by intros e ?%not_elem_of_nil|]. by intros _ e ?%not_elem_of_nil.
  - pose proof (memmap_ok_cons _ _ _ _ K) as K'. rewrite usable_pages_cons in *.
    cbn [init_stats_loop]. destruct (is_usable e) eqn:Hu.
    + assert (He : e ∈ e :: es) by (apply elem_of_cons; by left).
      destruct (mo_range _ _ _ K e He Hu) as (Hb & Hl & Hend).
      pose proof (Z.div_pos (me_length e) PAGE_SIZE Hl ltac:(done)) as Hd.
      pose proof (usable_pages_nonneg _ _ _ K') as Hn.
      assert (Hhi : MAX (highest_address s) (me_base e +64 me_length e) = me_end e).
      { rewrite MAX_eq, u64_small by (unfold me_end in *; lia).
        destruct Hst as [[_ ->]|(_ & _ & H)]; [|specialize (H e He Hu)]; unfold me_end in *; lia. }
      set (lo1 := if lowest_address s =? 0 then me_base e else MIN (lowest_address s) (me_base e)).
      assert (Hlo : 0 < lo1 <= me_base e /\ lo1 `mod` PAGE_SIZE = 0 /\
                    (lowest_address s <> 0 -> lo1 = lowest_address s)).
      { unfold lo1. rewrite MIN_eq. destruct (mo_aligned _ _ _ K e He Hu) as [Ha _].
        destruct Hst as [[-> _]|(H1 & H2 & H)]; [cbn; split_and!; try done; lia|].
        specialize (H e He Hu). destruct (Z.eqb_spec (lowest_address s) 0); [lia|].
        rewrite Z.min_l by lia. split_and!; try done; lia. }
      destruct Hlo as (Hlo1 & Hlo2 & Hlo3).
      edestruct (IH (set_lowest_address lo1 (set_highest_address (me_end e)
        (set_max_pages_available (max_pages_available s + me_length e `div` PAGE_SIZE)
        (set_total_memory_bytes (total_memory_bytes s +64 me_length e) s)))))
        as (t & lo & hi & E & H1 & H2 & H3 & H4 & H5 & H6 & H7); [done|done|cbn; lia|cbn; lia| |].
      { right. cbn. split_and!; try done; [unfold me_end; lia..|].
        intros e' He' Hu'. by apply (memmap_ok_above _ _ _ _ _ K). }
      cbn in H3, H4, H5. exists t, lo, hi. split.
      { rewrite (bind_ret_eq _ _ _ _ _ (init_stats_entry_usable e s Hu)), Hhi, (u64_small (_ + _ `div` _)) by lia.
        fold lo1. rewrite Z.add_assoc. exact E. }
      split; [done|]. split; [done|]. split; [intros Hne; rewrite <- Hlo3 by done; apply H3; lia|].
      split; [unfold me_end in *; destruct Hst as [[_ ->]|(_ & _ & H)]; [|specialize (H e He Hu)]; lia|].
      split.
      { right. destruct H5 as [->|(e' & ? & ? & ->)]; [by exists e|]. exists e'.
        split; [apply elem_of_cons; by right|done]. }
      split; [intros e' [->|He']%elem_of_cons Hu'; [|by apply H6]; rewrite H3 by lia; lia|].
      intros Hz _ _ _. exists e. split; [done|]. split; [done|]. rewrite H3 by lia. unfold lo1. by rewrite Hz.
    + destruct (IH s) as (t & lo & hi & E & H1 & H2 & H3 & H4 & H5 & H6 & H7); try done.
      { destruct Hst as [?|(? & ? & H)]; [by left|right]. split_and!; try done.
        - lia.
        - lia.
        - intros e' He'. apply H. apply elem_of_cons. by right. }
      exists t, lo, hi. split; [unfold init_stats_entry; by rewrite Hu|].
      split; [done|]. split; [done|]. split; [done|]. split; [done|].
      split; [|split; [intros e' [->|He']%elem_of_cons Hu'; [congruence|by apply H6]|]].
      2: { intros Hz e' [->|He']%elem_of_cons Hu'; [congruence|].
           destruct (H7 Hz e' He' Hu') as (e2 & ? & ? & ?). exists e2.
           split; [apply elem_of_cons; by right|done]. }
      destruct H5 as [?|(e' & ? & ? & ->)]; [by left|right]. exists e'.
      split; [apply elem_of_cons; by right|done].
Qed.

(** The memory of [s], and the map and page count, after a table was carved. *)
Definition carve_state (j : nat) (e : memmap_entry) (size : Z) (mc : machine) (s : pmm) : pmm :=
  set_max_pages_available (max_pages_available s -64 size `div` PAGE_SIZE)
    (set_memmap (<[j := carved e size]> (memmap s)) (set_pmm_mach mc s)).

Section tables.
Context (hhdm : Z) (s : pmm) (size : Z) (e : memmap_entry).
Context (K : memmap_ok hhdm (smem s) (memmap s)) (Hh : 0 <= hhdm).
Context (Hv : vmm_higher_half_offset s = hhdm) (Hs : 0 <= size).
Context (He : e ∈ memmap s) (Hf : fits size e).

Lemma table_addr j e' : memmap s !! j = Some e' -> fits size e' ->
  me_base e' +64 hhdm = me_base e' + hhdm /\ region (me_base e' + hhdm) size (smem s).
Proof.
  intros Hj%list_elem_of_lookup_2 [Hu Hl]. pose proof (mo_range _ _ _ K e' Hj Hu) as R.
  unfold me_end in R. split; [apply u64_small; lia|].
  apply (region_sub _ _ _ _ _ (mo_mapped _ _ _ K e' Hj Hu)); lia.
Qed.

Lemma create_page_bitmap_loop_ok :
  exists j e' mc, memmap s !! j = Some e' /\ fits size e' /\ 
    create_page_bitmap_loop size 0 (memmap s) s =
      Ret tt (set_page_bitmap (me_base e' + hhdm) (carve_state j e' size mc s)) /\
    overwritten (me_base e' + hhdm) size (fun _ => 255) (smem s) (mem mc).
Proof.
  destruct (fits_found size _ e He Hf) as (j & e' & F & Hj & Hf').
  destruct (table_addr j e' Hj Hf') as [Ha Hr].
  destruct (memset_ok (me_base e' + hhdm) 255 size (set_page_bitmap (me_base e' + hhdm) s) Hs ltac:(exact Hr))
    as (m' & E & Ho).
  exists j, e', (Machine m' (klog (pmm_mach s))). split; [done|]. split; [done|]. split; [|done].
  rewrite (create_page_bitmap_loop_at _ _ _ _ _ _ F). cbn [Nat.add].
  erewrite bind_ret_eq; [|done]. rewrite Hv, Ha.
  erewrite bind_ret_eq; [|done]. rewrite (bind_ret_eq _ _ _ _ _ E). done.
Qed.

Lemma memmap_alloc_loop_ok :
  exists j e' mc, memmap s !! j = Some e' /\ fits size e' /\
    memmap_alloc_loop size 0 (memmap s) s =
      Ret (me_base e' + hhdm) (carve_state j e' size mc s) /\
    overwritten (me_base e' + hhdm) size (fun _ => 0) (smem s) (mem mc).
Proof.
  destruct (fits_found size _ e He Hf) as (j & e' & F & Hj & Hf').
  destruct (table_addr j e' Hj Hf') as [Ha Hr].
  destruct (memset_ok (me_base e' + hhdm) 0 size s Hs Hr) as (m' & E & Ho).
  exists j, e', (Machine m' (klog (pmm_mach s))). split; [done|]. split; [done|]. split; [|done].
  rewrite (memmap_alloc_loop_at _ _ _ _ _ _ F). cbn [Nat.add].
  erewrite bind_ret_eq; [|done]. rewrite Hv, Ha.
  rewrite (bind_ret_eq _ _ _ _ _ E). done.
Qed.
End tables.

(** ** Marking the free pages *)

(** [m'] is [m] with the flags [j < n] of the bitmap at [p] set to [f j]. *)
Record bits_set (p n : Z) (f : Z -> bool) (m m' : memory) : Prop := {
  bs_flag : forall j, 0 <= j < n -> flag m' p j = f j;
  bs_frame : forall x, ~ (p <= x < p + bitmap_bytes n) -> m' !! x = m !! x;
  bs_mapped : forall x, is_Some (m !! x) -> is_Some (m' !! x)
}.

Lemma bits_set_trans p n f g m1 m2 m3 :
  bits_set p n f m1 m2 -> bits_set p n g m2 m3 -> bits_set p n g m1 m3.
Proof.
  intros [F1 R1 M1] [F2 R2 M2]. split; [done| |].
  - intros x Hx. by rewrite R2, R1.
  - intros x Hx. by apply M2, M1.
Qed.

Lemma bits_set_off p n f m m' i :
  bits_set p n f m m' -> 0 <= i < n ->
  bits_set p n (fun j => bool_decide (j <> i) && f j) m (flag_off p i m').
Proof.
  intros [F R Mp] Hi. split.
  - intros j Hj. rewrite flag_off_spec, F by lia. done.
  - intros x Hx. unfold flag_off. rewrite wr_lookup_ne; [by apply R|].
    intros Hin. apply Hx. unfold bitmap_bytes. Z.to_euclidean_division_equations. lia.
  - intros x Hx. by apply wr_is_Some, Mp.
Qed.

(** Page [j] counted from [lo] lies in entry [e]. *)
Lemma page_in_entry lo e j :
  lo `mod` PAGE_SIZE = 0 -> me_base e `mod` PAGE_SIZE = 0 -> me_length e `mod` PAGE_SIZE = 0 ->
  (me_base e - lo) `div` PAGE_SIZE <= j < (me_base e - lo) `div` PAGE_SIZE + me_length e `div` PAGE_SIZE
  <-> me_base e <= lo + PAGE_SIZE * j < me_end e.
Proof.
  unfold me_end, PAGE_SIZE. intros A B C.
  apply Z.mod_divide in A as [a ->], B as [b ->], C as [c ->]; [|lia..].
  rewrite <- Z.mul_sub_distr_r, !Z.div_mul by lia. lia.
Qed.

Section marking.
Context (lo n : Z) (Hlo : 0 <= lo) (Halign : lo `mod` PAGE_SIZE = 0) (Hn : 0 <= n < 2 ^ 52).

Lemma mark_entry_ok s e :
  lowest_address s = lo -> is_usable e = true ->
  me_base e `mod` PAGE_SIZE = 0 -> me_length e `mod` PAGE_SIZE = 0 -> 0 <= me_length e ->
  lo <= me_base e -> me_end e <= lo + PAGE_SIZE * n -> lo + PAGE_SIZE * n < 2 ^ 64 ->
  region (page_bitmap s) (bitmap_bytes n) (smem s) ->
  0 <= num_pages_available s -> num_pages_available s + me_length e `div` PAGE_SIZE < 2 ^ 64 ->
  exists mc, get_free_pages_entry e s =
      Ret tt (set_num_pages_available (num_pages_available s + me_length e `div` PAGE_SIZE)
                (set_pmm_mach mc s)) /\
    bits_set (page_bitmap s) n
      (fun j => bool_decide (~ me_base e <= lo + PAGE_SIZE * j < me_end e) &&
                flag (smem s) (page_bitmap s) j) (smem s) (mem mc).
Proof.
  intros Hl Hu B L Hlen Hge Hend H64 Hr Hc0 Hc. unfold get_free_pages_entry. rewrite Hu. cbn [negb].
  erewrite bind_ret_eq; [|done]. erewrite bind_ret_eq; [|done].
  lazymatch goal with |- context [for_range _ _ _ ?t] => set (s1 := t) end.
  change (lowest_address _) with (lowest_address s). rewrite Hl.
  set (start := (me_base e - lo) `div` PAGE_SIZE).
  set (k := me_length e `div` PAGE_SIZE).
  assert (Hpages : 0 <= start /\ 0 <= k /\ start + k <= n).
  { unfold start, k, me_end in *. unfold PAGE_SIZE in *.
    apply Z.mod_divide in Halign as [a Ea], B as [b Eb], L as [c Ec]; [|lia..].
    rewrite Ea, Eb, Ec in *. rewrite <- Z.mul_sub_distr_r, !Z.div_mul by lia. lia. }
  unfold me_end in Hend. rewrite (u64_small (me_base e - lo)) by (unfold PAGE_SIZE in *; lia).
  fold start. rewrite (u64_small (start + k)) by lia.
  edestruct (for_range_inv (fun i => bm ← gets page_bitmap; bitmap_off bm i ;;
      modify (fun s => set_num_pages_available (num_pages_available s +64 1) s))
    (fun i s' => exists mc, s' = set_num_pages_available (num_pages_available s + (i - start))
                                  (set_pmm_mach mc s) /\
      bits_set (page_bitmap s) n (fun j => bool_decide (~ start <= j < i) && flag (smem s) (page_bitmap s) j)
        (smem s) (mem mc)) start (start + k) s1) as (s' & E & mc & -> & Hb); [lia| | |].
  - intros i s2 Hi (mc & -> & Hb). eexists. split.
    + erewrite bind_ret_eq; [|done]. erewrite bind_ret_eq.
      2: { apply bitmap_off_ok. intros x Hx. apply (bs_mapped _ _ _ _ _ Hb).
           apply Hr. change (page_bitmap _) with (page_bitmap s) in Hx.
           unfold bitmap_bytes. Z.to_euclidean_division_equations. lia. }
      reflexivity.
    + exists (Machine (flag_off (page_bitmap s) i (mem mc)) (klog mc)).
      split.
      * change (num_pages_available (set_mem _ _)) with (num_pages_available s + (i - start)).
        rewrite u64_small by lia.
        replace (num_pages_available s + (i - start) + 1) with (num_pages_available s + (i + 1 - start)) by lia.
        done.
      * destruct (bits_set_off _ _ _ _ _ i Hb ltac:(lia)) as [F1 R1 M1]. split; [|done|done].
        intros j Hj. cbn [mem]. rewrite F1 by done.
        destruct (flag (smem s) (page_bitmap s) j); repeat case_bool_decide; try done; lia.
  - exists (pmm_mach s1). rewrite Z.sub_diag, Z.add_0_r. split; [by destruct s|]. split; [|done|done].
    intros j Hj. rewrite bool_decide_eq_true_2 by lia. done.
  - exists mc. split.
    + rewrite E. do 2 f_equal. lia.
    + destruct Hb as [F R M1]. split; [|done|done]. intros j Hj. rewrite F by done. f_equal.
      apply bool_decide_ext. unfold start, k. by rewrite page_in_entry.
Qed.
End marking.

Lemma in_usable_cons e es a :
  in_usable (e :: es) a <-> (is_usable e = true /\ me_base e <= a < me_end e) \/ in_usable es a.
Proof.
  unfold in_usable. split.
  - intros (e' & [->|He]%elem_of_cons & Hu & Ha); [by left|right; by exists e'].
  - intros [[Hu Ha]|(e' & He & Hu & Ha)].
    + exists e. split; [apply elem_of_cons; by left|done].
    + exists e'. split; [apply elem_of_cons; by right|done].
Qed.

Lemma get_free_pages_loop_ok hhdm m lo n es : forall s,
  memmap_ok hhdm m es -> 0 <= lo -> lo `mod` PAGE_SIZE = 0 -> 0 <= n < 2 ^ 52 ->
  lo + PAGE_SIZE * n < 2 ^ 64 -> lowest_address s = lo ->
  (forall e, e ∈ es -> is_usable e = true -> lo <= me_base e /\ me_end e <= lo + PAGE_SIZE * n) ->
  region (page_bitmap s) (bitmap_bytes n) (smem s) ->
  0 <= num_pages_available s -> num_pages_available s + usable_pages es < 2 ^ 64 ->
  exists mc f, get_free_pages_loop es s =
      Ret tt (set_num_pages_available (num_pages_available s + usable_pages es) (set_pmm_mach mc s)) /\
    bits_set (page_bitmap s) n f (smem s) (mem mc) /\
    forall j, 0 <= j < n -> f j = true <->
      flag (smem s) (page_bitmap s) j = true /\ ~ in_usable es (lo + PAGE_SIZE * j).
Proof.
  induction es as [|e es IH]; intros s K Hlo Ha Hn H64 Hl Hin Hr Hc0 Hc; cbn [get_free_pages_loop].
  - exists (pmm_mach s), (flag (smem s) (page_bitmap s)). cbn [usable_pages foldr]. rewrite Z.add_0_r.
    split; [by destruct s|]. split; [by split|]. intros j Hj.
    split; [|by intros [? _]]. intros Hf. split; [done|]. by intros (e & ?%not_elem_of_nil & _).
  - pose proof (memmap_ok_cons _ _ _ _ K) as K'. rewrite usable_pages_cons in *.
    assert (He : e ∈ e :: es) by (apply elem_of_cons; by left).
    assert (Hin' : forall e', e' ∈ es -> is_usable e' = true ->
      lo <= me_base e' /\ me_end e' <= lo + PAGE_SIZE * n).
    { intros e' He'. apply Hin. apply elem_of_cons. by right. }
    destruct (is_usable e) eqn:Hu.
    + destruct (mo_aligned _ _ _ K e He Hu) as [Hb Hlen].
      destruct (mo_range _ _ _ K e He Hu) as (_ & Hl0 & _). destruct (Hin e He Hu) as [Hge Hle].
      pose proof (usable_pages_nonneg _ _ _ K') as Hnn.
      pose proof (Z.div_pos (me_length e) PAGE_SIZE Hl0 ltac:(done)) as Hd.
      destruct (mark_entry_ok lo n Hlo Ha Hn s e) as (mc & E & B); [done..|lia|].
      destruct (IH (set_num_pages_available (num_pages_available s + me_length e `div` PAGE_SIZE)
                     (set_pmm_mach mc s))) as (mc' & f & E' & B' & Hf); try done.
      { intros x Hx. apply (bs_mapped _ _ _ _ _ B). by apply Hr. }
      { cbn. lia. }
      { cbn. lia. }
      exists mc', f. rewrite (bind_ret_eq _ _ _ _ _ E), E'. cbn [num_pages_available set_num_pages_available].
      split; [by rewrite Z.add_assoc|]. split; [by eapply bits_set_trans|].
      intros j Hj. rewrite Hf, in_usable_cons, Hu by done.
      change (smem (set_num_pages_available _ _)) with (mem mc).
      change (page_bitmap (set_num_pages_available _ _)) with (page_bitmap s).
      rewrite (bs_flag _ _ _ _ _ B), andb_true_iff, bool_decide_eq_true by done. tauto.
    + destruct (IH (set_pmm_mach (Machine (smem s) (Log ("Memory Region Unusable: type %d, %d pages (%d mb)" +:+ nl)
      [KNum (me_type e); KNum (me_length e `div` PAGE_SIZE);
       KNum ((me_length e `div` 1024) `div` 1024)] :: klog (pmm_mach s))) s)) as (mc & f & E & B & Hf); try done.
      exists mc, f. split.
      { erewrite bind_ret_eq; [exact E|]. unfold get_free_pages_entry. by rewrite Hu. }
      split; [done|]. intros j Hj. rewrite Hf, in_usable_cons, Hu by done.
      change (smem (set_pmm_mach _ s)) with (smem s). change (page_bitmap (set_pmm_mach _ s)) with (page_bitmap s).
      split; intros [Hj1 Hj2]; (split; [done|]); [by intros [[? _]|?]; [|apply Hj2]|].
      intros ?. apply Hj2. by right.
Qed.

(** ** kmem_init *)

(** The globals of mem.c before the boot processor runs kmem_init. *)
Record boot (s : pmm) : Prop := {
  bo_max : max_pages_available s = 0; bo_highest : highest_address s = 0;
  bo_lowest : lowest_address s = 0; bo_cursor : allocation_cursor s = 0;
  bo_count : num_pages_available s = 0; bo_lock : pmm_lock s = 0
}.

Lemma _init_stats_ok hhdm es s lo hi :
  boot s -> memmap_ok hhdm (smem s) es -> 0 <= hhdm -> lo ∈ es -> hi ∈ es ->
  is_usable lo = true -> is_usable hi = true ->
  (forall e, e ∈ es -> is_usable e = true -> me_base lo <= me_base e /\ me_end e <= me_end hi) ->
  exists t, _init_stats es hhdm s =
    Ret tt (set_num_pages_in_map ((me_end hi - me_base lo) `div` PAGE_SIZE)
      (set_total_memory_bytes t (set_max_pages_available (usable_pages es)
        (set_highest_address (me_end hi) (set_lowest_address (me_base lo)
          (set_vmm_higher_half_offset hhdm (set_memmap es s))))))).
Proof.
  intros B K Hh Hlo Hhi Ulo Uhi Hb.
  destruct (mo_range _ _ _ K lo Hlo Ulo) as (L1 & L2 & L3).
  destruct (mo_range _ _ _ K hi Hhi Uhi) as (R1 & R2 & R3).
  destruct (Hb hi Hhi Uhi) as [Hle _].
  pose proof (usable_pages_span _ _ _ (me_base lo) (me_end hi) K ltac:(unfold me_end; lia) Hb) as Hsp.
  unfold PAGE_SIZE in Hsp.
  destruct (init_stats_loop_ok hhdm (smem s) es (set_vmm_higher_half_offset hhdm (set_memmap es s)))
    as (t & l & h & E & H1 & H2 & H3 & H4 & H5 & H6 & H7); try done.
  { cbn. rewrite (bo_max _ B). lia. }
  { cbn. rewrite (bo_max _ B). lia. }
  { left. cbn. by rewrite (bo_lowest _ B), (bo_highest _ B). }
  cbn in H4, H5, H7. rewrite (bo_highest _ B), (bo_lowest _ B) in *.
  assert (l = me_base lo) as ->.
  { destruct (H7 eq_refl lo Hlo Ulo) as (e & He & Ue & ->). destruct (Hb e He Ue), (H6 lo Hlo Ulo). lia. }
  assert (h = me_end hi) as ->.
  { destruct (H6 hi Hhi Uhi). destruct H5 as [->|(e & He & Ue & ->)]; [unfold me_end in *; lia|].
    destruct (Hb e He Ue). lia. }
  exists t. unfold _init_stats. erewrite bind_ret_eq; [|done]. erewrite bind_ret_eq; [|done].
  rewrite (bind_ret_eq _ _ _ _ _ E). unfold modify. cbn -[u64 PAGE_SIZE].
  rewrite (bo_max _ B), u64_small by (unfold me_end in *; lia). done.
Qed.

(** Bytes of page bitmap and of entry map for a map of [n] pages. *)
Definition bitmap_size (n : Z) : Z := ALIGN_UP (n `div` 8) PAGE_SIZE.
Definition map_size (n : Z) : Z := ALIGN_UP (4 *64 n) PAGE_SIZE.

Lemma table_sizes n : 0 <= n < 2 ^ 32 ->
  0 <= bitmap_size n < 2 ^ 62 /\ bitmap_size n `mod` PAGE_SIZE = 0 /\
  0 <= 4 * n <= map_size n /\ map_size n < 2 ^ 62 /\ map_size n `mod` PAGE_SIZE = 0 /\
  ALIGN_UP (map_size n) PAGE_SIZE = map_size n.
Proof.
  intros Hn. unfold bitmap_size, map_size. rewrite (u64_small (4 * n)) by lia.
  assert (0 <= n `div` 8 < 2 ^ 32) by (Z.to_euclidean_division_equations; lia).
  destruct (ALIGN_UP_bounds (n `div` 8) PAGE_SIZE) as [? ?]; [unfold PAGE_SIZE; lia..|].
  destruct (ALIGN_UP_bounds (4 * n) PAGE_SIZE) as [? ?]; [unfold PAGE_SIZE; lia..|].
  unfold PAGE_SIZE in *. split_and!; try done; try lia.
  apply ALIGN_UP_multiple; lia.
Qed.

(** The manager is ready: what kmem_init promises of its tables. *)
Record kmem_ready (hhdm : Z) (es : list memmap_entry) (s s' : pmm) : Prop := {
  kr_hhdm : vmm_higher_half_offset s' = hhdm;
  kr_max : max_pages_available s' = usable_pages (memmap s');
  kr_count : num_pages_available s' = usable_pages (memmap s');
  kr_span : max_pages_available s' <= num_pages_in_map s';
  kr_free : forall i, 0 <= i < num_pages_in_map s' ->
    used s' i = false <-> in_usable (memmap s') (lowest_address s' + PAGE_SIZE * i);
  kr_entries : forall i, 0 <= i < num_pages_in_map s' -> entry s' i = 0;
  kr_map : forall a, in_usable (memmap s') a <->
    in_usable es a /\ ~ (page_bitmap s' <= a + hhdm < page_bitmap s' + bitmap_size (num_pages_in_map s'))
      /\ ~ (entry_map s' <= a + hhdm < entry_map s' + map_size (num_pages_in_map s'));
  kr_frame : forall a, in_usable (memmap s') a -> smem s' !! (a + hhdm) = smem s !! (a + hhdm);
  kr_ok : memmap_ok hhdm (smem s') (memmap s');
  kr_bits : num_pages_in_map s' <= 8 * bitmap_size (num_pages_in_map s')
}.

Section after_tables.
Context (hhdm : Z) (m : memory) (es : list memmap_entry) (n : Z).
Context (K : memmap_ok hhdm m es) (Hh : 0 <= hhdm) (Hn : 0 <= n < 2 ^ 32).
Context (Hbits : n <= 8 * bitmap_size n).
Context (j1 : nat) (e1 : memmap_entry) (Hj1 : es !! j1 = Some e1) (F1 : fits (bitmap_size n) e1).
Let es1 := <[j1 := carved e1 (bitmap_size n)]> es.
Context (j2 : nat) (e2 : memmap_entry) (Hj2 : es1 !! j2 = Some e2) (F2 : fits (map_size n) e2).
Let es2 := <[j2 := carved e2 (map_size n)]> es1.

Lemma tables_ok1 : memmap_ok hhdm m es1.
Proof.
  destruct (table_sizes n Hn) as ([A _] & B & _), F1 as [U1 L1]. by apply memmap_ok_carve.
Qed.
Lemma tables_ok2 : memmap_ok hhdm m es2.
Proof.
  destruct (table_sizes n Hn) as (_ & _ & A & _ & B & _), F2 as [U2 L2].
  apply memmap_ok_carve; [apply tables_ok1|done|done|done|lia|done].
Qed.
Lemma tables_span a b :
  (forall e, e ∈ es -> is_usable e = true -> a <= me_base e /\ me_end e <= b) ->
  forall e', e' ∈ es2 -> is_usable e' = true -> a <= me_base e' /\ me_end e' <= b.
Proof.
  destruct (table_sizes n Hn) as ([A _] & B & C & _ & D & _), F1 as [U1 L1], F2 as [U2 L2]. intros H.
  apply (carve_span hhdm m es1 j2 e2 (map_size n) tables_ok1 Hj2 U2 Hh ltac:(lia) D).
  by apply (carve_span hhdm m es j1 e1 (bitmap_size n) K Hj1 U1 Hh ltac:(lia) B).
Qed.
Lemma tables_in_usable1 a :
  in_usable es1 a <-> in_usable es a /\ ~ (me_base e1 <= a < me_base e1 + bitmap_size n).
Proof.
  destruct (table_sizes n Hn) as ([A _] & B & _), F1 as [U1 L1]. by apply (in_usable_carve hhdm m).
Qed.
Lemma tables_in_usable2 a :
  in_usable es2 a <-> in_usable es a /\ ~ (me_base e1 <= a < me_base e1 + bitmap_size n) /\
                      ~ (me_base e2 <= a < me_base e2 + map_size n).
Proof.
  destruct (table_sizes n Hn) as (_ & _ & A & _ & B & _), F2 as [U2 L2]. unfold es2.
  rewrite (in_usable_carve hhdm m es1 j2 e2 (map_size n) tables_ok1 Hj2 U2 Hh ltac:(lia) B).
  rewrite tables_in_usable1. tauto.
Qed.
Lemma tables_pages :
  usable_pages es2 = usable_pages es - bitmap_size n `div` PAGE_SIZE - map_size n `div` PAGE_SIZE.
Proof.
  destruct (table_sizes n Hn) as ([A _] & B & C & _ & D & _), F1 as [U1 L1], F2 as [U2 L2]. unfold es2.
  rewrite (usable_pages_carve hhdm m es1 j2 e2 (map_size n) tables_ok1 Hj2 U2 Hh ltac:(lia) D).
  unfold es1. by rewrite (usable_pages_carve hhdm m es j1 e1 (bitmap_size n) K Hj1 U1 Hh ltac:(lia) B).
Qed.
(** The entry map was carved out of what was still usable. *)
Lemma tables_apart a :
  me_base e2 <= a < me_base e2 + map_size n -> ~ (me_base e1 <= a < me_base e1 + bitmap_size n).
Proof.
  intros Ha. destruct F2 as [U2 L2]. apply tables_in_usable1. exists e2.
  split; [by eapply list_elem_of_lookup_2|]. split; [done|]. unfold me_end. lia.
Qed.
End after_tables.

Lemma _create_page_bitmap_ok hhdm s e :
  memmap_ok hhdm (smem s) (memmap s) -> 0 <= hhdm -> vmm_higher_half_offset s = hhdm ->
  0 <= num_pages_in_map s < 2 ^ 32 -> e ∈ memmap s -> fits (bitmap_size (num_pages_in_map s)) e ->
  exists j e' mc, memmap s !! j = Some e' /\ fits (bitmap_size (num_pages_in_map s)) e' /\
    _create_page_bitmap s = Ret tt (set_page_bitmap (me_base e' + hhdm)
      (carve_state j e' (bitmap_size (num_pages_in_map s)) mc s)) /\
    overwritten (me_base e' + hhdm) (bitmap_size (num_pages_in_map s)) (fun _ => 255) (smem s) (mem mc).
Proof.
  intros K Hh Hv Hn He Hf. destruct (table_sizes _ Hn) as ([A _] & _).
  unfold _create_page_bitmap. erewrite bind_ret_eq; [|done]. cbv zeta.
  fold (bitmap_size (num_pages_in_map s)).
  do 3 (erewrite bind_ret_eq; [|reflexivity]).
  lazymatch goal with |- context [create_page_bitmap_loop _ _ _ ?t] => set (s1 := t) end.
  destruct (create_page_bitmap_loop_ok hhdm s1 (bitmap_size (num_pages_in_map s)) e)
    as (j & e' & mc & Hj & Hf' & E & Ho); try done.
  exists j, e', mc. done.
Qed.

Lemma memmap_alloc_ok hhdm s e :
  memmap_ok hhdm (smem s) (memmap s) -> 0 <= hhdm -> vmm_higher_half_offset s = hhdm ->
  0 <= num_pages_in_map s < 2 ^ 32 -> e ∈ memmap s -> fits (map_size (num_pages_in_map s)) e ->
  exists j e' mc, memmap s !! j = Some e' /\ fits (map_size (num_pages_in_map s)) e' /\
    memmap_alloc (map_size (num_pages_in_map s)) s = Ret (me_base e' + hhdm)
      (carve_state j e' (map_size (num_pages_in_map s)) mc s) /\
    overwritten (me_base e' + hhdm) (map_size (num_pages_in_map s)) (fun _ => 0) (smem s) (mem mc).
Proof.
  intros K Hh Hv Hn He Hf. destruct (table_sizes _ Hn) as (_ & _ & A & _ & _ & Ei).
  unfold memmap_alloc. cbv zeta. rewrite Ei. erewrite bind_ret_eq; [|done].
  eapply memmap_alloc_loop_ok; try done. lia.
Qed.

(** An entry with room for both tables still has room for the second once the
    first was carved, wherever that was. *)
Lemma fits_after_carve (es : list memmap_entry) (j : nat) e e' sz1 sz2 :
  e ∈ es -> fits (sz1 + sz2) e -> es !! j = Some e' -> fits sz1 e' ->
  0 <= sz1 -> 0 <= sz2 -> me_length e' < 2 ^ 64 ->
  exists e2, e2 ∈ <[j := carved e' sz1]> es /\ fits sz2 e2.
Proof.
  intros (i & Hi)%list_elem_of_lookup [U L] Hj [U' L'] H1 H2 H3. destruct (decide (i = j)) as [->|Hne].
  - simplify_eq. exists (carved e sz1). split.
    + apply (list_elem_of_lookup_2 _ j), list_lookup_insert_eq. by eapply lookup_lt_Some.
    + split; [done|]. cbn. rewrite u64_small by lia. lia.
  - exists e. split; [|split; [done|lia]]. apply (list_elem_of_lookup_2 _ i).
    by rewrite list_lookup_insert_ne.
Qed.

Section kmem_init.
Context (hhdm : Z) (es : list memmap_entry) (lo hi room : memmap_entry) (s : pmm).
Let n := (me_end hi - me_base lo) `div` PAGE_SIZE.
Context (B : boot s) (K : memmap_ok hhdm (smem s) es) (Hh : 0 <= hhdm).
Context (Hlo : lo ∈ es) (Ulo : is_usable lo = true) (Hhi : hi ∈ es) (Uhi : is_usable hi = true).
Context (Hspan : forall e, e ∈ es -> is_usable e = true -> me_base lo <= me_base e /\ me_end e <= me_end hi).
Context (Hn : n < 2 ^ 32) (Hbits : n <= 8 * bitmap_size n).
Context (Hroom : room ∈ es) (Froom : fits (bitmap_size n + map_size n) room).
Context (Hpages : bitmap_size n `div` PAGE_SIZE + map_size n `div` PAGE_SIZE < usable_pages es).

Lemma kmem_init_pages : PAGE_SIZE * usable_pages es <= me_end hi - me_base lo /\ 0 <= n /\
  usable_pages es <= n /\ me_base lo + PAGE_SIZE * n = me_end hi /\ me_end hi < 2 ^ 64 /\ 0 < me_base lo.
Proof.
  destruct (mo_range _ _ _ K lo Hlo Ulo) as (L1 & L2 & L3).
  destruct (mo_range _ _ _ K hi Hhi Uhi) as (R1 & R2 & R3). destruct (Hspan hi Hhi Uhi) as [H1 _].
  pose proof (usable_pages_span _ _ _ (me_base lo) (me_end hi) K ltac:(unfold me_end; lia) Hspan).
  destruct (mo_aligned _ _ _ K lo Hlo Ulo) as [A _], (mo_aligned _ _ _ K hi Hhi Uhi) as [C D].
  unfold n, me_end, PAGE_SIZE in *. clear - A C D L1 L2 L3 R1 R2 R3 H1 H Hh.
  apply Z.mod_divide in A as [a Ea], C as [c Ec], D as [d Ed]; [|lia..]. rewrite Ea, Ec, Ed in *.
  replace (c * 4096 + d * 4096 - a * 4096) with ((c + d - a) * 4096) in * by lia.
  rewrite Z.div_mul by lia. split_and!; lia.
Qed.

Lemma kmem_init_runs : exists j1 e1 mc1 j2 e2 mc2 mc3 f t,
  let es1 := <[j1 := carved e1 (bitmap_size n)]> es in
  let es2 := <[j2 := carved e2 (map_size n)]> es1 in
  let bm := me_base e1 + hhdm in
  es !! j1 = Some e1 /\ fits (bitmap_size n) e1 /\ es1 !! j2 = Some e2 /\ fits (map_size n) e2 /\
  overwritten bm (bitmap_size n) (fun _ => 255) (smem s) (mem mc1) /\
  overwritten (me_base e2 + hhdm) (map_size n) (fun _ => 0) (mem mc1) (mem mc2) /\
  bits_set bm n f (mem mc2) (mem mc3) /\
  (forall j, 0 <= j < n -> f j = true <->
     flag (mem mc2) bm j = true /\ ~ in_usable es2 (me_base lo + PAGE_SIZE * j)) /\
  kmem_init es hhdm s = Ret tt (Pmm mc3 0 (usable_pages es2) t es2 (me_end hi) (me_base lo) n bm hhdm 0
    (usable_pages es2) (me_base e2 + hhdm)).
Proof.
  destruct kmem_init_pages as (P1 & P2 & P3 & P4 & P5 & P6).
  destruct (table_sizes n ltac:(lia)) as ([A1 A2] & A3 & A4 & A5 & A6 & A7).
  unfold kmem_init. erewrite bind_ret_eq; [|reflexivity].
  lazymatch goal with |- context [(_init_stats _ _ ≫= _) ?t] => set (s0 := t) end.
  assert (B0 : boot s0) by by destruct B.
  destruct (_init_stats_ok hhdm es s0 lo hi B0 K Hh Hlo Hhi Ulo Uhi Hspan) as [t E1]. fold n in E1.
  rewrite (bind_ret_eq _ _ _ _ _ E1). do 5 (erewrite bind_ret_eq; [|reflexivity]).
  lazymatch goal with |- context [(_create_page_bitmap ≫= _) ?t] => set (s1 := t) end.
  destruct (_create_page_bitmap_ok hhdm s1 room) as (j1 & e1 & mc1 & Hj1 & F1 & E2 & O1); try done.
  { destruct Froom. split; [done|]. change (num_pages_in_map s1) with n. lia. }
  change (num_pages_in_map s1) with n in *. change (memmap s1) with es in *.
  rewrite (bind_ret_eq _ _ _ _ _ E2). erewrite bind_ret_eq; [|reflexivity].
  lazymatch goal with |- context [(memmap_alloc _ ≫= _) ?t] => set (s2 := t) end.
  assert (K1 : memmap_ok hhdm (smem s) (<[j1 := carved e1 (bitmap_size n)]> es))
    by (eapply tables_ok1; try done; lia).
  destruct (mo_range _ _ _ K e1) as (_ & _ & R1); [by eapply list_elem_of_lookup_2|by destruct F1|].
  pose proof (mo_range _ _ _ K e1) as R2. 
  destruct (fits_after_carve es j1 room e1 (bitmap_size n) (map_size n)) as (room2 & Hr2 & Fr2); try done.
  { lia. }
  { unfold me_end in R1. specialize (R2 ltac:(by eapply list_elem_of_lookup_2) ltac:(by destruct F1)). lia. }
  assert (K2 : memmap_ok hhdm (mem mc1) (<[j1 := carved e1 (bitmap_size n)]> es)).
  { apply (memmap_ok_mem hhdm (smem s)); [|done]. intros x Hx. rewrite O1. case_decide; eauto. }
  destruct (memmap_alloc_ok hhdm s2 room2) as (j2 & e2 & mc2 & Hj2 & F2 & E3 & O2); try done.
  change (num_pages_in_map s2) with n in *.
  change (memmap s2) with (<[j1 := carved e1 (bitmap_size n)]> es) in *.
  erewrite bind_ret_eq; [|exact E3]. erewrite bind_ret_eq; [|reflexivity].
  set (es2 := <[j2 := carved e2 (map_size n)]> (<[j1 := carved e1 (bitmap_size n)]> es)).
  assert (Hpg : usable_pages es2 = usable_pages es - bitmap_size n `div` PAGE_SIZE - map_size n `div` PAGE_SIZE)
    by (eapply tables_pages; try done; lia).
  assert (K3 : memmap_ok hhdm (smem s) es2) by (eapply tables_ok2; try done; lia).
  lazymatch goal with |- context [(_get_free_pages ≫= _) ?t] => set (s3 := t) end.
  destruct (get_free_pages_loop_ok hhdm (smem s) (me_base lo) n es2
    (set_pmm_mach (Machine (mem mc2) (Log ("Searching for free memory pages..." +:+ nl) [] :: klog mc2)) s3))
    as (mc3 & f & E4 & B3 & Hf); try done.
  - lia.
  - by apply (mo_aligned _ _ _ K lo).
  - lia.
  - lia.
  - rewrite P4. apply (tables_span hhdm (smem s) es n K Hh ltac:(lia) j1 e1 Hj1 F1 j2 e2 Hj2 F2 _ _ Hspan).
  - intros x Hx. change (is_Some (mem mc2 !! x)). rewrite O2. case_decide; [eauto|].
    change (is_Some (mem mc1 !! x)). rewrite O1. case_decide as D; [eauto|]. exfalso. apply D.
    change (me_base e1 + hhdm <= x < me_base e1 + hhdm + bitmap_bytes n) in Hx.
    unfold bitmap_bytes in Hx. Z.to_euclidean_division_equations. lia.
  - cbn. rewrite (bo_count _ B). lia.
  - cbn. rewrite (bo_count _ B), Hpg. pose proof (usable_pages_nonneg _ _ _ K3). 
    pose proof (Z.div_pos (bitmap_size n) PAGE_SIZE). pose proof (Z.div_pos (map_size n) PAGE_SIZE). 
    unfold PAGE_SIZE in *. lia.
  - erewrite bind_ret_eq; [|exact E4].
    exists j1, e1, mc1, j2, e2, mc2,
      (Machine (mem mc3) (Log ("PMM initialized." +:+ nl) [] :: klog mc3)), f, t.
    cbv zeta. fold es2. do 8 (split; [done|]).
    transitivity (Ret tt (Pmm (Machine (mem mc3) (Log ("PMM initialized." +:+ nl) [] :: klog mc3))
      (pmm_lock s)
      (usable_pages es -64 bitmap_size n `div` PAGE_SIZE -64 map_size n `div` PAGE_SIZE) t es2
      (me_end hi) (me_base lo) n (me_base e1 + hhdm) hhdm (allocation_cursor s)
      (num_pages_available s + usable_pages es2) (me_base e2 + hhdm))); [reflexivity|].
    rewrite (bo_count _ B), (bo_lock _ B), (bo_cursor _ B), Hpg.
    pose proof (Z.div_pos (bitmap_size n) PAGE_SIZE). pose proof (Z.div_pos (map_size n) PAGE_SIZE).
    unfold PAGE_SIZE in *. rewrite (u64_small (usable_pages es - _)), u64_small by lia. done.
Qed.

Lemma kmem_init_ok : exists s', kmem_init es hhdm s = Ret tt s' /\
  kmem_ready hhdm es s s' /\ pmm_inv s' /\ num_pages_in_map s' = n /\ lowest_address s' = me_base lo.
Proof.
  destruct kmem_init_pages as (P1 & P2 & P3 & P4 & P5 & P6).
  destruct (table_sizes n ltac:(lia)) as ([A1 A2] & A3 & A4 & A5 & A6 & A7).
  destruct kmem_init_runs as (j1 & e1 & mc1 & j2 & e2 & mc2 & mc3 & f & t & R).
  cbv zeta in R. destruct R as (Hj1 & F1 & Hj2 & F2 & O1 & O2 & B3 & Hf & E).
  set (es1 := <[j1 := carved e1 (bitmap_size n)]> es) in *.
  set (es2 := <[j2 := carved e2 (map_size n)]> es1) in *.
  assert (Hpg : usable_pages es2 = usable_pages es - bitmap_size n `div` PAGE_SIZE - map_size n `div` PAGE_SIZE)
    by (eapply tables_pages; try done; lia).
  assert (Hap : forall a, me_base e2 <= a < me_base e2 + map_size n ->
      ~ (me_base e1 <= a < me_base e1 + bitmap_size n))
    by (eapply tables_apart; try done; lia).
  assert (Hin : forall a, in_usable es2 a <-> in_usable es a /\
      ~ (me_base e1 <= a < me_base e1 + bitmap_size n) /\ ~ (me_base e2 <= a < me_base e2 + map_size n))
    by (eapply tables_in_usable2; try done; lia).
  assert (Hbb : bitmap_bytes n <= bitmap_size n)
    by (unfold bitmap_bytes; Z.to_euclidean_division_equations; lia).
  assert (Hd1 : 0 <= bitmap_size n `div` PAGE_SIZE) by (apply Z.div_pos; [lia|done]).
  assert (Hd2 : 0 <= map_size n `div` PAGE_SIZE) by (apply Z.div_pos; [lia|done]).
  assert (Hbm : bitmap_bytes (usable_pages es2) <= bitmap_bytes n)
    by (unfold bitmap_bytes; apply Z.div_le_mono; lia).
  (* the tables, byte by byte *)
  assert (Hent : forall x, me_base e2 + hhdm <= x < me_base e2 + hhdm + map_size n -> mem mc3 !! x = Some 0).
  { intros x Hx. rewrite (bs_frame _ _ _ _ _ B3), O2, decide_True; [done|lia|].
    intros Hb. apply (Hap (x - hhdm)); lia. }
  assert (Hbit : region (me_base e1 + hhdm) (bitmap_size n) (mem mc3)).
  { intros x Hx. apply (bs_mapped _ _ _ _ _ B3). rewrite O2. case_decide; [eauto|].
    rewrite O1, decide_True by lia. eauto. }
  eexists. split; [exact E|].
  match goal with |- context [kmem_ready _ _ _ ?t] => set (s' := t) end.
  assert (Hzero : forall i, 0 <= i < n -> entry s' i = 0).
  { intros i Hi. apply rd_zero_bytes. intros x Hx. unfold byte_at.
    change (default 0 (mem mc3 !! x) `mod` 256 = 0). rewrite Hent; [done|].
    unfold entry_addr in Hx. cbn [s' entry_map] in Hx. lia. }
  split_and!; try done.
  - split; cbn -[usable_pages]; try done.
    + lia.
    + intros i Hi. change (flag (mem mc3) (me_base e1 + hhdm) i = false <-> in_usable es2 (me_base lo + PAGE_SIZE * i)).
      rewrite (bs_flag _ _ _ _ _ B3) by done. specialize (Hf i Hi).
      assert (Hfull : flag (mem mc2) (me_base e1 + hhdm) i = true).
      { unfold flag. pose proof (Z.mod_pos_bound i 8 ltac:(lia)).
        assert (0 <= i `div` 8 < bitmap_size n) by (Z.to_euclidean_division_equations; lia).
        rewrite (overwritten_byte_at _ _ _ _ _ _ O2), decide_False.
        - rewrite (overwritten_byte_at _ _ _ _ _ _ O1), decide_True by lia.
          change (255 `mod` 256) with (Z.ones 8). apply Z.ones_spec_low. lia.
        - intros Hb. apply (Hap (me_base e1 + i `div` 8)); lia. }
      rewrite Hfull in Hf. destruct (f i).
      * split; [done|]. intros Hu. by apply Hf in Hu.
      * split; [|done]. intros _. destruct (decide (in_usable es2 (me_base lo + PAGE_SIZE * i))) as [|Hnu];
          [done|]. by discriminate (proj2 Hf (conj eq_refl Hnu)).
    + intros a. rewrite Hin. split; intros (? & ? & ?); split_and!; try done; lia.
    + intros a Ha. apply Hin in Ha as (_ & Ha1 & Ha2).
      change (mem mc3 !! (a + hhdm) = smem s !! (a + hhdm)).
      by rewrite (bs_frame _ _ _ _ _ B3), O2, decide_False, O1, decide_False by lia.
    + apply (memmap_ok_mem hhdm (smem s)); [|eapply tables_ok2; try done; lia].
      intros x Hx. apply (bs_mapped _ _ _ _ _ B3). rewrite O2. case_decide; [eauto|]. rewrite O1. case_decide; eauto.
  - split; [split|done|split]; cbn -[usable_pages].
    + lia.
    + lia.
    + intros x Hx. apply Hbit. lia.
    + intros x Hx. exists 0. apply Hent. lia.
    + intros x Hx1 Hx2. apply (Hap (x - hhdm)).
      * unfold in_entry_map in Hx2. cbn -[usable_pages] in Hx2. lia.
      * unfold in_bitmap in Hx1. cbn -[usable_pages] in Hx1. lia.
    + intros i k Hi Hk. rewrite Hzero in Hk by lia. lia.
    + intros i j Hi Hj. rewrite Hzero by lia. lia.
Qed.
End kmem_init.

(** C6: kmem_init establishes the manager. On a memory map as the Limine
    protocol describes it (usable entries page aligned, sorted, disjoint, in
    the direct map), spanning [n] pages that the truncating size computation
    covers, with one usable entry that has room for both tables, kmem_init
    returns; the manager's invariant holds; among the [n] pages exactly those
    still in a usable entry are free; both tables were carved out of the
    usable entries, so that no byte of either belongs to a free page; every
    record is zero, both counters are the number of usable pages left, and no
    byte of a free page was written. *)
Theorem kmem_init_establishes hhdm es lo hi room s :
  let n := (me_end hi - me_base lo) `div` PAGE_SIZE in
  boot s -> memmap_ok hhdm (smem s) es -> 0 <= hhdm ->
  lo ∈ es -> is_usable lo = true -> hi ∈ es -> is_usable hi = true ->
  (forall e, e ∈ es -> is_usable e = true -> me_base lo <= me_base e /\ me_end e <= me_end hi) ->
  n < 2 ^ 32 -> n <= 8 * bitmap_size n ->
  room ∈ es -> fits (bitmap_size n + map_size n) room ->
  bitmap_size n `div` PAGE_SIZE + map_size n `div` PAGE_SIZE < usable_pages es ->
  exists s', kmem_init es hhdm s = Ret tt s' /\ kmem_ready hhdm es s s' /\ pmm_inv s' /\
    num_pages_in_map s' = n /\ lowest_address s' = me_base lo.
Proof. intros n. by apply kmem_init_ok. Qed.

(** A machine with 16 usable pages at 1 MiB and a reserved range above. *)
Definition boot_map : list memmap_entry := [MemmapEntry 1048576 65536 0; MemmapEntry 4026531840 4096 1].
Definition boot_state : pmm := Pmm (Machine (zeros (2 ^ 47 + 1048576) 65536) []) 0 0 0 [] 0 0 0 0 0 0 0 0.

Lemma boot_map_ok m : region (2 ^ 47 + 1048576) 65536 m -> memmap_ok (2 ^ 47) m boot_map.
Proof.
  intros Hr. split.
  - intros e [->|[->|[]%elem_of_nil]%elem_of_cons]%elem_of_cons; done.
  - intros e [->|[->|[]%elem_of_nil]%elem_of_cons]%elem_of_cons; [|done].
    unfold me_end. cbn. intros _. lia.
  - intros [|[|i]] [|[|j]] e e' Hij Hi Hj; simpl in Hi, Hj; simplify_eq; try lia; done.
  - intros e [->|[->|[]%elem_of_nil]%elem_of_cons]%elem_of_cons; [|done]. intros _. exact Hr.
Qed.

Lemma kmem_init_establishes_witness :
  exists s', kmem_init boot_map (2 ^ 47) boot_state = Ret tt s' /\
    kmem_ready (2 ^ 47) boot_map boot_state s' /\ pmm_inv s' /\
    num_pages_in_map s' = 16 /\ lowest_address s' = 1048576.
Proof.
  assert (K : memmap_ok (2 ^ 47) (smem boot_state) boot_map) by apply boot_map_ok, region_zeros.
  assert (B : boot boot_state) by done.
  revert K B. generalize boot_state. intros s K B.
  set (e := MemmapEntry 1048576 65536 0).
  assert (He : e ∈ boot_map) by (apply elem_of_cons; by left).
  apply (kmem_init_establishes (2 ^ 47) boot_map e e e s B K); try done.
  intros e' [->|[->|[]%elem_of_nil]%elem_of_cons]%elem_of_cons; done.
Defined.
