(* ===== verification/Regions.v ===== *)
(** * Address ranges: disjointness of memory blocks, by counting

    A block is a pair (address, length).  [cover x bs] counts the blocks that
    contain address [x]; blocks are disjoint when no address is counted twice,
    which is stable under permutation, splitting and shrinking. *)
From S2P Require Import Prelude Machine.

Abbreviation block := (Z * Z)%type.

Definition inside (x : Z) (b : block) : Prop := fst b <= x < fst b + snd b.
#[export] Instance inside_dec x b : Decision (inside x b).
Proof. unfold inside. apply _. Defined.

Fixpoint cover (x : Z) (bs : list block) : nat :=
  match bs with
  | [] => 0
  | b :: bs' => (if decide (inside x b) then 1 else 0) + cover x bs'
  end.

Definition disjoint_blocks (bs : list block) : Prop := forall x, (cover x bs <= 1)%nat.
(** The block is mapped and lies in the 64-bit address space, below its last byte. *)
Definition block_ok (m : memory) (b : block) : Prop :=
  0 <= fst b /\ 0 <= snd b /\ fst b + snd b < 2 ^ 64 /\ region (fst b) (snd b) m.

Lemma cover_app x bs bs' : cover x (bs ++ bs') = (cover x bs + cover x bs')%nat.
Proof. induction bs; simpl; lia. Qed.

Lemma cover_perm x bs bs' : bs ≡ₚ bs' -> cover x bs = cover x bs'.
Proof. induction 1; simpl; lia. Qed.

Lemma cover_in x b bs : b ∈ bs -> inside x b -> (1 <= cover x bs)%nat.
Proof.
  intros Hb Hx. induction bs as [|b' bs IH]; [by apply not_elem_of_nil in Hb|].
  simpl. apply elem_of_cons in Hb as [<-|Hb]; [rewrite decide_True by done; lia|].
  specialize (IH Hb). lia.
Qed.

Lemma cover_pos x bs : (1 <= cover x bs)%nat -> exists b, b ∈ bs /\ inside x b.
Proof.
  induction bs as [|b bs IH]; simpl; [lia|]. case_decide as D.
  - intros _. exists b. split; [apply elem_of_cons; by left|done].
  - intros (b' & ? & ?)%IH. exists b'. split; [apply elem_of_cons; by right|done].
Qed.

Lemma cover_zero x bs : (forall b, b ∈ bs -> ~ inside x b) -> cover x bs = 0%nat.
Proof.
  intros H. destruct (cover x bs) eqn:E; [done|].
  destruct (cover_pos x bs) as (b & Hb & Hx); [lia|]. by destruct (H b Hb).
Qed.

#[export] Instance disjoint_blocks_proper : Proper ((≡ₚ) ==> iff) disjoint_blocks.
Proof.
  intros bs bs' E. unfold disjoint_blocks.
  split; intros H x; [rewrite <- (cover_perm x _ _ E)|rewrite (cover_perm x _ _ E)]; apply H.
Qed.

(** Blocks covered no more than [bs] covers are disjoint too. *)
Lemma disjoint_blocks_le bs bs' :
  disjoint_blocks bs -> (forall x, (cover x bs' <= cover x bs)%nat) -> disjoint_blocks bs'.
Proof. intros H Hle x. specialize (H x). specialize (Hle x). lia. Qed.

(** Two different blocks of a disjoint list share no address. *)
Lemma disjoint_blocks_cons x b bs b' :
  disjoint_blocks (b :: bs) -> b' ∈ bs -> inside x b -> ~ inside x b'.
Proof.
  intros H Hb Hx Hx'. specialize (H x). simpl in H. rewrite decide_True in H by done.
  pose proof (cover_in x b' bs Hb Hx'). lia.
Qed.

Lemma disjoint_blocks_tail b bs : disjoint_blocks (b :: bs) -> disjoint_blocks bs.
Proof. intros H. apply (disjoint_blocks_le _ _ H). intros x. simpl. lia. Qed.

(** Splitting a block in two changes no count. *)
Lemma cover_split x a k n bs :
  0 <= k -> 0 <= n -> cover x ((a, k + n) :: bs) = cover x ((a, k) :: (a + k, n) :: bs).
Proof.
  intros Hk Hn. simpl. unfold inside. simpl. repeat case_decide; try done; lia.
Qed.

(** Shrinking a block lowers no count. *)
Lemma cover_shrink x a n a' n' bs :
  a <= a' -> a' + n' <= a + n -> (cover x ((a', n') :: bs) <= cover x ((a, n) :: bs))%nat.
Proof. intros. simpl. unfold inside. simpl. repeat case_decide; try lia. Qed.

(** Reading a block that lies outside everything that was written. *)
Lemma rd_outside n a m m' :
  (forall x, a <= x < a + Z.of_nat n -> m' !! x = m !! x) -> rd n a m' = rd n a m.
Proof. intros H. apply rd_ext. intros x Hx. unfold byte_at. by rewrite H. Qed.

(** Disjoint non-empty blocks start at different addresses, so there are at
    most as many of them as mapped bytes. *)
Lemma disjoint_blocks_NoDup bs :
  disjoint_blocks bs -> Forall (fun b => 0 < snd b) bs -> NoDup (fst <$> bs).
Proof.
  induction bs as [|b bs IH]; intros Hd Hp; simpl; [constructor|].
  apply Forall_cons in Hp as [Hb Hp]. constructor.
  - intros (b' & E & Hin)%list_elem_of_fmap.
    apply (disjoint_blocks_cons (fst b) _ _ _ Hd Hin); unfold inside; [lia|].
    rewrite Forall_forall in Hp. specialize (Hp b' Hin). lia.
  - by apply IH; [eapply disjoint_blocks_tail|].
Qed.

Lemma blocks_le_size bs m :
  disjoint_blocks bs -> Forall (fun b => 0 < snd b) bs -> Forall (block_ok m) bs ->
  (length bs <= size m)%nat.
Proof.
  intros Hd Hp Hok.
  assert (Hsub : list_to_set (fst <$> bs) ⊆@{gset Z} dom m).
  { intros x Hx. apply elem_of_list_to_set, list_elem_of_fmap in Hx as (b & -> & Hb).
    rewrite Forall_forall in Hp, Hok. apply elem_of_dom.
    destruct (Hok b Hb) as (_ & _ & _ & Hr). apply Hr. specialize (Hp b Hb). lia. }
  apply subseteq_size in Hsub. rewrite size_list_to_set in Hsub by by apply disjoint_blocks_NoDup.
  by rewrite length_fmap, size_dom in Hsub.
Qed.
