(* ===== verification/Heap.v ===== *)
(** * include/alloc.h: what malloc promises to its clients

    The interface the clients of the kernel heap (the queue, the PCI scan) are
    verified against; [SlobProofs] shows that the SLOB allocator, the one
    alloc.c selects, implements it. *)
From S2P Require Import Prelude Machine Regions.

Class Heap (St : Type) `{HasMachine St} := {
  h_malloc : Z -> M St Z;

  (** [heap live s]: the allocator's own data is consistent and [live] are the
      blocks handed out and not yet freed. *)
  heap : list block -> St -> Prop;

  (** Live blocks are mapped, inside the address space, and disjoint. *)
  heap_live live s : heap live s ->
    disjoint_blocks live /\ Forall (block_ok (smem s)) live;

  (** The heap survives whatever its clients write into their blocks, and any
      logging. *)
  heap_frame live s mach : heap live s ->
    (forall x, cover x live = 0%nat -> mem mach !! x = smem s !! x) ->
    (forall x, is_Some (smem s !! x) -> is_Some (mem mach !! x)) ->
    heap live (set_mach mach s);

  (** malloc returns NULL, or a new block disjoint from every live one; it
      writes to no live block. *)
  malloc_ok live s n : heap live s -> 0 <= n -> n + 8 < 2 ^ 64 ->
    exists p s', h_malloc n s = Ret p s' /\
      (p = 0 /\ heap live s' \/ p <> 0 /\ heap ((p, n) :: live) s') /\
      (forall x, (1 <= cover x live)%nat -> smem s' !! x = smem s !! x)
}.
