(* ===== verification/Slob.v ===== *)
(** * alloc/slob.c and alloc/alloc.c: the SLOB heap

    Free-list nodes, block headers and free memory are all bytes of the
    machine's memory; addresses are virtual (higher-half direct map). *)
From S2P Require Import Prelude Machine Math Pmm Regions.

(** struct SlobEntry { pNext; base; length } and struct SlobHeader { length },
    both packed. *)
Definition sizeof_SlobEntry : Z := 24.
Definition sizeof_SlobHeader : Z := 8.
Definition off_pNext : Z := 0.
Definition off_base : Z := 8.
Definition off_length : Z := 16.

(** The globals of slob.c, on top of those of mem.c. *)
Record slob := Slob { slob_pmm : pmm; _init : Z; pHead : Z }.
Definition set_slob_pmm (v : pmm) (s : slob) : slob :=
  Slob v (_init s) (pHead s).
Definition set__init (v : Z) (s : slob) : slob :=
  Slob (slob_pmm s) v (pHead s).
Definition set_pHead (v : Z) (s : slob) : slob :=
  Slob (slob_pmm s) (_init s) v.

#[export] Program Instance slob_machine : HasMachine slob := {|
  get_mach s := pmm_mach (slob_pmm s);
  set_mach m s := set_slob_pmm (set_pmm_mach m (slob_pmm s)) s |}.
Next Obligation. done. Qed.
Next Obligation. by intros [[] ? ?]. Qed.
Next Obligation. done. Qed.

Definition in_pmm {A} : M pmm A -> M slob A := zoom slob_pmm set_slob_pmm.
Definition hhdm_offset : M slob Z := gets (fun s => vmm_higher_half_offset (slob_pmm s)).

(** ** slob_init *)

Fixpoint count_usable (es : list memmap_entry) : Z :=
  match es with
  | [] => 0
  | e :: es' => (if is_usable e then 1 else 0) + count_usable es'
  end.

(** The initialisation loop from entry index [entryIndex] on. *)
Fixpoint slob_init_loop (numEntries entryIndex : Z) (es : list memmap_entry) : M slob unit :=
  match es with
  | [] => mret tt
  | e :: es' =>
      if is_usable e then
        head ← gets pHead;
        let node := head + sizeof_SlobEntry * entryIndex in
        store 8 (node + off_length) (me_length e) ;;
        store 8 (node + off_base) (me_base e) ;;
        store 8 (node + off_pNext)
          (if entryIndex <? numEntries - 1 then node + sizeof_SlobEntry else 0) ;;
        slob_init_loop numEntries (entryIndex + 1) es'
      else slob_init_loop numEntries entryIndex es'
  end.

Definition slob_init : M slob unit :=
  es ← gets (fun s => memmap (slob_pmm s));
  let numEntries := count_usable es in
  p ← in_pmm (memmap_alloc (sizeof_SlobEntry *64 numEntries));
  modify (set_pHead p) ;;
  es ← gets (fun s => memmap (slob_pmm s));
  slob_init_loop numEntries 0 es.

(** ** slob_malloc *)

(** One iteration of [while (pNext != 0)]. *)
Definition slob_iter (size pNext : Z) : M slob (Z + option Z) :=
  if pNext =? 0 then mret (inr None)
  else
    len ← load 8 (pNext + off_length);
    if size +64 sizeof_SlobHeader <=? len then
      let totalSize := sizeof_SlobHeader +64 size in
      hhdm ← hhdm_offset;
      base ← load 8 (pNext + off_base);
      let pHeader := base +64 hhdm in
      store 8 pHeader totalSize ;;
      base ← load 8 (pNext + off_base);
      let pAlloc := base +64 sizeof_SlobHeader +64 hhdm in
      base ← load 8 (pNext + off_base);
      store 8 (pNext + off_base) (base +64 totalSize) ;;
      len ← load 8 (pNext + off_length);
      store 8 (pNext + off_length) (len -64 totalSize) ;;
      mret (inr (Some pAlloc))
    else
      next ← load 8 (pNext + off_pNext);
      mret (inl next).

(** A well-formed list has no more nodes than there are mapped bytes. *)
Definition slob_fuel (s : slob) : nat := S (size (smem s)).

(** The part of slob_malloc after the lazy initialisation. *)
Definition slob_search (sz : Z) : M slob Z :=
  head ← gets pHead;
  fuel ← gets slob_fuel;
  r ← loop fuel (slob_iter sz) head;
  match r with
  | Some pAlloc => mret pAlloc
  | None => kprintf ("No memory available!" +:+ nl) [] ;; mret 0
  end.

Definition slob_malloc (sz : Z) : M slob Z :=
  init ← gets _init;
  (if init =? 0 then slob_init ;; modify (set__init 1) else mret tt) ;;
  slob_search sz.

(** ** slob_free *)

Definition slob_free (ptr : Z) : M slob unit :=
  let pHeader := ptr -64 sizeof_SlobHeader in
  pEntry ← slob_malloc sizeof_SlobEntry;
  hhdm ← hhdm_offset;
  store 8 (pEntry + off_base) (pHeader -64 hhdm) ;;
  length ← load 8 pHeader;
  store 8 (pEntry + off_length) length ;;
  head ← gets pHead;
  store 8 (pEntry + off_pNext) head ;;
  modify (set_pHead pEntry).

(** alloc.c with ALLOC_USESLOB, the configuration alloc.h selects. *)
Definition malloc (sz : Z) : M slob Z := slob_malloc sz.
Definition free (ptr : Z) : M slob unit := slob_free ptr.

(** ** The free list in memory *)

(** A free-list node and the free memory it stands for. *)
Record node := Node { nd_addr : Z; nd_base : Z; nd_length : Z }.
#[export] Instance node_eq_dec : EqDecision node.
Proof. solve_decision. Defined.

Definition node_at (m : memory) (n : node) (next : Z) : Prop :=
  nd_addr n <> 0 /\ rd 8 (nd_addr n + off_pNext) m = next /\
  rd 8 (nd_addr n + off_base) m = nd_base n /\ rd 8 (nd_addr n + off_length) m = nd_length n.

(** [chain m p ns]: following pNext from [p] visits exactly [ns]. *)
Fixpoint chain (m : memory) (p : Z) (ns : list node) : Prop :=
  match ns with
  | [] => p = 0
  | n :: ns' => p = nd_addr n /\ exists next, node_at m n next /\ chain m next ns'
  end.

(** The memory the allocator owns: the node itself and its free region. *)
Definition node_cell (n : node) : block := (nd_addr n, sizeof_SlobEntry).
Definition node_free (hhdm : Z) (n : node) : block := (nd_base n + hhdm, nd_length n).
(** A live block with its header. *)
Definition with_header (b : block) : block := (fst b - sizeof_SlobHeader, sizeof_SlobHeader + snd b).

Definition slob_blocks (hhdm : Z) (ns : list node) (live : list block) : list block :=
  (node_cell <$> ns) ++ (node_free hhdm <$> ns) ++ (with_header <$> live).

(** The heap invariant of an initialised allocator. *)
Record slob_heap_ns (ns : list node) (live : list block) (s : slob) : Prop := {
  sh_init : _init s = 1;
  sh_hhdm : 0 < vmm_higher_half_offset (slob_pmm s) < 2 ^ 64;
  sh_chain : chain (smem s) (pHead s) ns;
  sh_base : Forall (fun n => 0 <= nd_base n /\ 0 <= nd_length n) ns;
  sh_live : Forall (fun b => 0 <= snd b /\
    vmm_higher_half_offset (slob_pmm s) + sizeof_SlobHeader <= fst b) live;
  sh_disjoint : disjoint_blocks (slob_blocks (vmm_higher_half_offset (slob_pmm s)) ns live);
  sh_ok : Forall (block_ok (smem s)) (slob_blocks (vmm_higher_half_offset (slob_pmm s)) ns live);
  sh_header : Forall (fun b => rd 8 (fst b - sizeof_SlobHeader) (smem s) = sizeof_SlobHeader + snd b) live
}.
Definition slob_heap (live : list block) (s : slob) : Prop := exists ns, slob_heap_ns ns live s.

(** Bytes on the free list. *)
Fixpoint free_bytes (ns : list node) : Z :=
  match ns with
  | [] => 0
  | n :: ns' => nd_length n + free_bytes ns'
  end.

(** The abstract first-fit search: the first node with room for [total]
    bytes, and the list with those bytes cut off its front. *)
Fixpoint first_fit (total : Z) (ns : list node) : option (node * list node) :=
  match ns with
  | [] => None
  | n :: ns' =>
      if total <=? nd_length n
      then Some (n, Node (nd_addr n) (nd_base n + total) (nd_length n - total) :: ns')
      else '(f, r) ← first_fit total ns'; Some (f, n :: r)
  end.
