(* ===== verification/SlobProofs.v ===== *)
(** * alloc/slob.c: facts about the SLOB heap *)
From S2P Require Import Prelude Machine Math Pmm Regions Heap Slob.

(** ** The blocks of the allocator *)

Lemma slob_blocks_middle hhdm pre n post live :
  slob_blocks hhdm (pre ++ n :: post) live ≡ₚ
    node_cell n :: node_free hhdm n :: slob_blocks hhdm (pre ++ post) live.
Proof.
  unfold slob_blocks. rewrite !fmap_app, !fmap_cons, <- !app_assoc. simpl.
  rewrite <- (Permutation_middle (node_cell <$> pre)). constructor.
  rewrite (app_assoc (node_cell <$> pre)), (app_assoc (node_cell <$> pre)).
  rewrite (app_assoc _ (node_free hhdm <$> pre)).
  rewrite <- Permutation_middle. constructor. by rewrite <- !app_assoc.
Qed.

Lemma slob_blocks_cons hhdm n ns live :
  slob_blocks hhdm (n :: ns) live ≡ₚ
    node_cell n :: node_free hhdm n :: slob_blocks hhdm ns live.
Proof. apply (slob_blocks_middle hhdm [] n ns live). Qed.

Lemma slob_blocks_live hhdm ns b live :
  slob_blocks hhdm ns (b :: live) ≡ₚ with_header b :: slob_blocks hhdm ns live.
Proof.
  unfold slob_blocks. rewrite fmap_cons, !app_assoc. by rewrite <- Permutation_middle.
Qed.

Lemma cover_slob_live x hhdm ns b live :
  cover x (slob_blocks hhdm ns (b :: live)) =
    ((if decide (inside x (with_header b)) then 1 else 0) + cover x (slob_blocks hhdm ns live))%nat.
Proof. by rewrite (cover_perm _ _ _ (slob_blocks_live _ _ _ _)). Qed.
Lemma cover_slob_cons x hhdm n ns live :
  cover x (slob_blocks hhdm (n :: ns) live) =
    ((if decide (inside x (node_cell n)) then 1 else 0) +
     ((if decide (inside x (node_free hhdm n)) then 1 else 0) + cover x (slob_blocks hhdm ns live)))%nat.
Proof. by rewrite (cover_perm _ _ _ (slob_blocks_cons _ _ _ _)). Qed.

Lemma node_cell_in hhdm n ns live : n ∈ ns -> node_cell n ∈ slob_blocks hhdm ns live.
Proof. intros H. apply elem_of_app. left. by apply list_elem_of_fmap_2. Qed.
Lemma node_free_in hhdm n ns live : n ∈ ns -> node_free hhdm n ∈ slob_blocks hhdm ns live.
Proof. intros H. apply elem_of_app. right. apply elem_of_app. left. by apply list_elem_of_fmap_2. Qed.
Lemma with_header_in hhdm b ns live : b ∈ live -> with_header b ∈ slob_blocks hhdm ns live.
Proof. intros H. apply elem_of_app. right. apply elem_of_app. right. by apply list_elem_of_fmap_2. Qed.

(** ** First fit *)

Lemma first_fit_Some total ns n ns' :
  first_fit total ns = Some (n, ns') ->
  exists pre post, ns = pre ++ n :: post /\
    ns' = pre ++ Node (nd_addr n) (nd_base n + total) (nd_length n - total) :: post /\
    total <= nd_length n /\ Forall (fun k => nd_length k < total) pre.
Proof.
  revert ns'. induction ns as [|k ns IH]; intros ns' E; simpl in E; [done|].
  destruct (Z.leb_spec total (nd_length k)).
  - simplify_eq. exists [], ns. by split_and!.
  - destruct (first_fit total ns) as [[f r]|] eqn:Ef; simplify_eq/=.
    destruct (IH r eq_refl) as (pre & post & -> & -> & Hf & Hp).
    exists (k :: pre), post. split_and!; try done. by constructor.
Qed.

Lemma first_fit_None total ns :
  first_fit total ns = None <-> Forall (fun k => nd_length k < total) ns.
Proof.
  induction ns as [|k ns IH]; simpl; [done|].
  destruct (Z.leb_spec total (nd_length k)).
  - split; [done|]. intros [? _]%Forall_cons. lia.
  - rewrite Forall_cons, <- IH. destruct (first_fit total ns) as [[f r]|]; simpl; (split;
      [intros; by simplify_eq|by intros [? ?]; simplify_eq]).
Qed.

Lemma first_fit_bytes total ns n ns' :
  first_fit total ns = Some (n, ns') -> free_bytes ns = free_bytes ns' + total.
Proof.
  intros (pre & post & -> & -> & _)%first_fit_Some.
  induction pre; simpl; lia.
Qed.

(** ** The list in memory *)

(** [m'] agrees with [m] outside the cell and the free region of [n]. *)
Definition outside_same (hhdm : Z) (n : node) (m m' : memory) : Prop :=
  forall x, ~ inside x (node_cell n) -> ~ inside x (node_free hhdm n) -> m' !! x = m !! x.

Lemma node_at_same m m' n next :
  (forall x, inside x (node_cell n) -> m' !! x = m !! x) -> node_at m n next -> node_at m' n next.
Proof.
  unfold inside, node_cell, node_at, off_pNext, off_base, off_length, sizeof_SlobEntry. simpl.
  intros H (H0 & <- & <- & <-). split; [done|].
  split_and!; apply rd_outside; intros x Hx; apply H; lia.
Qed.

Lemma chain_same m m' p ns :
  (forall n x, n ∈ ns -> inside x (node_cell n) -> m' !! x = m !! x) ->
  chain m p ns -> chain m' p ns.
Proof.
  revert p. induction ns as [|n ns IH]; intros p H; simpl; [done|].
  intros (-> & next & Hn & Hc). split; [done|]. exists next. split.
  - eapply node_at_same; [|done]. intros x Hx. apply (H n); [apply elem_of_cons; by left|done].
  - apply IH; [|done]. intros k x Hk. apply H. apply elem_of_cons. by right.
Qed.

(** Replacing one node of the chain by one with the same address and link. *)
Lemma chain_replace m m' p pre n n' post :
  nd_addr n' = nd_addr n ->
  (forall k x, k ∈ pre ++ post -> inside x (node_cell k) -> m' !! x = m !! x) ->
  (forall next, node_at m n next -> node_at m' n' next) ->
  chain m p (pre ++ n :: post) -> chain m' p (pre ++ n' :: post).
Proof.
  intros Ha. revert p. induction pre as [|k pre IH]; intros p H Hn; simpl.
  - intros (-> & next & Hat & Hc). split; [done|]. exists next. split; [by apply Hn|].
    eapply chain_same; [|done]. done.
  - intros (-> & next & Hat & Hc). split; [done|]. exists next. split.
    + eapply node_at_same; [|done]. intros x. apply H. apply elem_of_cons. by left.
    + apply IH; [|done|done]. intros j x Hj. apply H. apply elem_of_cons. by right.
Qed.

(** ** One step of the search *)

Section search.
Implicit Type s : slob.

Lemma cell_region m n off :
  block_ok m (node_cell n) -> 0 <= off <= 16 -> region (nd_addr n + off) 8 m.
Proof.
  intros (_ & _ & _ & Hr) Ho. unfold node_cell, sizeof_SlobEntry in Hr. simpl in Hr.
  apply (region_sub _ _ _ _ _ Hr); lia.
Qed.

Lemma slob_iter_skip s size n next :
  0 <= size -> size + 8 < 2 ^ 64 ->
  node_at (smem s) n next -> block_ok (smem s) (node_cell n) -> nd_length n < size + 8 ->
  slob_iter size (nd_addr n) s = Ret (inl next) s.
Proof.
  intros Hs Hs' (H0 & H1 & H2 & H3) Hok Hlt. unfold slob_iter, sizeof_SlobHeader.
  rewrite (proj2 (Z.eqb_neq _ _) H0).
  rewrite (bind_ret_eq _ _ _ _ _ (load_ok 8 _ s (cell_region _ _ off_length Hok ltac:(by split)))).
  rewrite H3, u64_small by lia. rewrite (proj2 (Z.leb_gt _ _)) by lia.
  rewrite (bind_ret_eq _ _ _ _ _ (load_ok 8 _ s (cell_region _ _ off_pNext Hok ltac:(by split)))).
  by rewrite H1.
Qed.

(** The memory after cutting [total] bytes off the front of [n]'s region. *)
Definition taken (hhdm : Z) (n : node) (total : Z) (m : memory) : memory :=
  wr 8 (nd_addr n + off_length) (nd_length n - total)
    (wr 8 (nd_addr n + off_base) (nd_base n + total)
      (wr 8 (nd_base n + hhdm) total m)).

Lemma slob_iter_take s size n next :
  let hhdm := vmm_higher_half_offset (slob_pmm s) in
  0 <= size -> 0 < hhdm -> 0 <= nd_base n ->
  node_at (smem s) n next -> block_ok (smem s) (node_cell n) ->
  block_ok (smem s) (node_free hhdm n) ->
  disjoint_blocks [node_cell n; node_free hhdm n] -> size + 8 <= nd_length n ->
  slob_iter size (nd_addr n) s =
    Ret (inr (Some (nd_base n + hhdm + 8))) (set_mem (taken hhdm n (size + 8) (smem s)) s).
Proof.
  intros hhdm Hs Hh Hb (H0 & H1 & H2 & H3) Hok Hfree Hdis Hle.
  pose proof Hfree as (Hf1 & Hf2 & Hf3 & Hf4). unfold node_free in Hf1, Hf2, Hf3, Hf4. simpl in *.
  assert (Hr : region (nd_base n + hhdm) 8 (smem s)) by (apply (region_sub _ _ _ _ _ Hf4); lia).
  assert (Hne : nd_addr n + 24 <= nd_base n + hhdm \/ nd_base n + nd_length n + hhdm <= nd_addr n).
  { destruct (decide (nd_addr n + 24 <= nd_base n + hhdm)) as [|Hx]; [by left|right].
    apply Znot_gt_le. intros Hg. set (x := Z.max (nd_addr n) (nd_base n + hhdm)).
    apply (disjoint_blocks_cons x _ _ (node_free hhdm n) Hdis);
      [by apply elem_of_cons; left|unfold inside, node_cell, sizeof_SlobEntry, x; simpl; lia|
       unfold inside, node_free, x; simpl; lia]. }
  assert (Ho : forall off m, 0 <= off <= 16 ->
    rd 8 (nd_addr n + off) (wr 8 (nd_base n + hhdm) (size + 8) m) = rd 8 (nd_addr n + off) m).
  { intros off m Hoff. apply rd_wr_ne. lia. }
  unfold slob_iter, sizeof_SlobHeader, hhdm_offset. rewrite (proj2 (Z.eqb_neq _ _) H0).
  rewrite (bind_ret_eq _ _ _ _ _ (load_ok 8 _ s (cell_region _ _ off_length Hok ltac:(by split)))).
  rewrite H3, u64_small by lia. rewrite (proj2 (Z.leb_le _ _)) by lia. cbv zeta.
  erewrite bind_ret_eq; [|done].
  rewrite (bind_ret_eq _ _ _ _ _ (load_ok 8 _ s (cell_region _ _ off_base Hok ltac:(by split)))).
  rewrite H2. fold hhdm. rewrite !(u64_small (nd_base n + hhdm)), (Z.add_comm 8 size), !(u64_small (size + 8)) by lia.
  rewrite (bind_ret_eq _ _ _ _ _ (store_ok 8 _ _ s Hr)).
  set (m1 := wr 8 (nd_base n + hhdm) (size + 8) (smem s)).
  assert (Hok1 : block_ok m1 (node_cell n)).
  { destruct Hok as (?&?&?&?). split_and!; try done. by apply region_wr. }
  rewrite (bind_ret_eq _ _ _ (nd_base n) (set_mem m1 s)).
  2: { rewrite load_ok; rewrite smem_set_mem; [|by apply (cell_region _ _ off_base Hok1)].
       f_equal. unfold m1. by rewrite Ho. }
  rewrite (bind_ret_eq _ _ _ (nd_base n) (set_mem m1 s)).
  2: { rewrite load_ok; rewrite smem_set_mem; [|by apply (cell_region _ _ off_base Hok1)].
       f_equal. unfold m1. by rewrite Ho. }
  rewrite (u64_small (nd_base n + (size + 8))) by lia.
  rewrite (bind_ret_eq _ _ _ _ _ (store_ok 8 _ _ (set_mem m1 s) ltac:(
    rewrite smem_set_mem; by apply (cell_region _ _ off_base Hok1)))).
  rewrite smem_set_mem, set_mem_set_mem. set (m2 := wr 8 (nd_addr n + off_base) _ m1).
  assert (Hok2 : block_ok m2 (node_cell n)).
  { destruct Hok1 as (?&?&?&?). split_and!; try done. by apply region_wr. }
  rewrite (bind_ret_eq _ _ _ (nd_length n) (set_mem m2 s)).
  2: { rewrite load_ok; rewrite smem_set_mem; [|by apply (cell_region _ _ off_length Hok2)].
       f_equal. unfold m2, m1. rewrite rd_wr_ne by (unfold off_base, off_length; lia). by rewrite Ho. }
  rewrite (u64_small (nd_length n - (size + 8))) by lia.
  rewrite (bind_ret_eq _ _ _ _ _ (store_ok 8 _ _ (set_mem m2 s) ltac:(
    rewrite smem_set_mem; by apply (cell_region _ _ off_length Hok2)))).
  rewrite smem_set_mem, set_mem_set_mem. unfold mret, M_ret. do 3 f_equal.
  rewrite (u64_small (nd_base n + 8)), u64_small by lia. lia.
Qed.
End search.

(** ** The whole search *)

Lemma slob_loop_ok (s : slob) size fuel : forall ns p,
  let hhdm := vmm_higher_half_offset (slob_pmm s) in
  0 <= size -> size + 8 < 2 ^ 64 -> 0 < hhdm ->
  chain (smem s) p ns -> Forall (fun n => 0 <= nd_base n /\ 0 <= nd_length n) ns ->
  Forall (fun n => block_ok (smem s) (node_cell n) /\ block_ok (smem s) (node_free hhdm n) /\
                   disjoint_blocks [node_cell n; node_free hhdm n]) ns ->
  (length ns < fuel)%nat ->
  loop fuel (slob_iter size) p s =
    match first_fit (size + 8) ns with
    | None => Ret None s
    | Some (n, _) =>
        Ret (Some (nd_base n + hhdm + 8)) (set_mem (taken hhdm n (size + 8) (smem s)) s)
    end.
Proof.
  induction fuel as [|fuel IH]; intros ns p hhdm Hs Hs' Hh Hc Hb Hok Hf; [lia|].
  cbn [loop]. unfold mbind at 1, M_bind at 1. destruct ns as [|n ns]; simpl in Hc.
  { subst p. done. }
  destruct Hc as (-> & next & Hat & Hc). cbn [first_fit].
  apply Forall_cons in Hb as [[Hb Hl] Hbs]. apply Forall_cons in Hok as [(O1 & O2 & O3) Hoks].
  destruct (Z.leb_spec (size + 8) (nd_length n)) as [Hle|Hlt].
  - by rewrite (slob_iter_take s size n next).
  - rewrite (slob_iter_skip s size n next) by done. rewrite (IH ns) by (done || (simpl in Hf; lia)).
    by destruct (first_fit (size + 8) ns) as [[f r]|].
Qed.

Section heap_facts.
Variables (ns : list node) (live : list block) (s : slob).
Hypothesis Hheap : slob_heap_ns ns live s.
Let hhdm := vmm_higher_half_offset (slob_pmm s).

Lemma heap_block_ok b : b ∈ slob_blocks hhdm ns live -> block_ok (smem s) b.
Proof. intros Hb. pose proof (sh_ok _ _ _ Hheap) as H. rewrite Forall_forall in H. by apply H. Qed.

Lemma heap_middle pre n post :
  ns = pre ++ n :: post ->
  disjoint_blocks (node_cell n :: node_free hhdm n :: slob_blocks hhdm (pre ++ post) live).
Proof. intros E. rewrite <- slob_blocks_middle, <- E. apply Hheap. Qed.

Lemma heap_cell_free_disjoint n : n ∈ ns -> disjoint_blocks [node_cell n; node_free hhdm n].
Proof.
  intros (pre & post & E)%list_elem_of_split.
  apply (disjoint_blocks_le _ _ (heap_middle pre n post E)). intros x. simpl. lia.
Qed.

Lemma heap_length : (length ns <= size (smem s))%nat.
Proof.
  rewrite <- (length_fmap node_cell ns). apply blocks_le_size.
  - apply (disjoint_blocks_le _ _ (sh_disjoint _ _ _ Hheap)). intros x.
    unfold slob_blocks. rewrite cover_app. lia.
  - apply Forall_forall. intros b (n & -> & _)%list_elem_of_fmap. done.
  - apply Forall_forall. intros b (n & -> & Hn)%list_elem_of_fmap.
    by apply heap_block_ok, node_cell_in.
Qed.

(** The search is first fit on the abstract list. *)
Lemma slob_search_ok size :
  0 <= size -> size + 8 < 2 ^ 64 ->
  slob_search size s =
    match first_fit (size + 8) ns with
    | None => (kprintf ("No memory available!" +:+ nl) [] ;; mret 0) s
    | Some (n, _) =>
        Ret (nd_base n + hhdm + 8) (set_mem (taken hhdm n (size + 8) (smem s)) s)
    end.
Proof.
  intros Hs Hs'. unfold slob_search. erewrite bind_ret_eq; [|done]. erewrite bind_ret_eq; [|done].
  unfold mbind at 1, M_bind at 1. rewrite (slob_loop_ok s size (slob_fuel s) ns).
  - by destruct (first_fit (size + 8) ns) as [[f r]|].
  - done.
  - done.
  - apply Hheap.
  - apply Hheap.
  - apply Hheap.
  - apply Forall_forall. intros n Hn. split_and!.
    + by apply heap_block_ok, node_cell_in.
    + by apply heap_block_ok, node_free_in.
    + by apply heap_cell_free_disjoint.
  - unfold slob_fuel. pose proof heap_length. lia.
Qed.

Lemma taken_outside n total m :
  8 <= total <= nd_length n -> outside_same hhdm n m (taken hhdm n total m).
Proof.
  intros Ht x. unfold inside, node_cell, node_free, sizeof_SlobEntry. simpl. intros H1 H2.
  unfold taken, off_length, off_base. rewrite !wr_lookup_ne; [done|lia..].
Qed.

Lemma taken_node n total m next :
  block_ok m (node_cell n) -> block_ok m (node_free hhdm n) ->
  disjoint_blocks [node_cell n; node_free hhdm n] -> 8 <= total <= nd_length n ->
  0 < hhdm -> 0 <= nd_base n ->
  node_at m n next ->
  node_at (taken hhdm n total m) (Node (nd_addr n) (nd_base n + total) (nd_length n - total)) next.
Proof.
  intros Hok Hfree Hdis Ht Hh Hb (H0 & H1 & H2 & H3). split; [done|]. simpl.
  destruct Hfree as (Hf1 & Hf2 & Hf3 & _). simpl in *.
  assert (Hne : forall x, inside x (node_cell n) -> ~ (nd_base n + hhdm <= x < nd_base n + hhdm + 8)).
  { intros x Hx Hx'. apply (disjoint_blocks_cons x _ _ (node_free hhdm n) Hdis);
      [by apply elem_of_cons; left|done|unfold inside, node_free; simpl; lia]. }
  unfold inside, node_cell, sizeof_SlobEntry in Hne. simpl in Hne.
  unfold taken, off_length, off_base, off_pNext in *.
  split_and!.
  - rewrite !rd_wr_ne by lia. rewrite <- H1. apply rd_outside. intros x Hx. apply wr_lookup_ne.
    apply Hne. lia.
  - rewrite rd_wr_ne by lia. rewrite rd_wr_eq. apply Z.mod_small. lia.
  - rewrite rd_wr_eq. apply Z.mod_small. lia.
Qed.
End heap_facts.

(** ** The heap invariant *)

Section malloc_facts.
Variables (ns : list node) (live : list block) (s : slob).
Hypothesis Hheap : slob_heap_ns ns live s.
Let hhdm := vmm_higher_half_offset (slob_pmm s).
Variables (size : Z) (n : node) (ns' : list node).
Hypothesis Hsize : 0 <= size.
Hypothesis Hfit : first_fit (size + 8) ns = Some (n, ns').

(** Outside the chosen node nothing is written. *)
Lemma taken_rest_same pre post x b :
  ns = pre ++ n :: post -> size + 8 <= nd_length n ->
  b ∈ slob_blocks hhdm (pre ++ post) live -> inside x b ->
  taken hhdm n (size + 8) (smem s) !! x = smem s !! x.
Proof.
  intros E Hle Hb Hx. pose proof (heap_middle ns live s Hheap pre n post E) as Hd.
  apply taken_outside; [lia| |]; intros Hin.
  - apply (disjoint_blocks_cons x _ _ b Hd); [by apply elem_of_cons; right|done|done].
  - apply disjoint_blocks_tail in Hd. by apply (disjoint_blocks_cons x _ _ b Hd).
Qed.

Lemma taken_blocks_cover pre post x :
  size + 8 <= nd_length n ->
  cover x (slob_blocks hhdm
    (pre ++ Node (nd_addr n) (nd_base n + (size + 8)) (nd_length n - (size + 8)) :: post)
    ((nd_base n + hhdm + 8, size) :: live)) =
  cover x (slob_blocks hhdm (pre ++ n :: post) live).
Proof.
  intros Hle.
  rewrite (cover_perm _ _ _ (slob_blocks_live _ _ _ _)).
  cbn [cover]. rewrite !(cover_perm _ _ _ (slob_blocks_middle _ _ _ _ _)). cbn [cover].
  unfold inside, node_cell, node_free, with_header, sizeof_SlobHeader. simpl.
  repeat case_decide; lia.
Qed.

Lemma slob_taken_heap :
  slob_heap_ns ns' ((nd_base n + hhdm + 8, size) :: live)
    (set_mem (taken hhdm n (size + 8) (smem s)) s).
Proof.
  destruct (first_fit_Some _ _ _ _ Hfit) as (pre & post & E & -> & Hle & _).
  pose proof (sh_hhdm _ _ _ Hheap) as Hh.
  assert (Hn : n ∈ ns) by (rewrite E; apply elem_of_app; right; by apply elem_of_cons; left).
  assert (Hb : 0 <= nd_base n /\ 0 <= nd_length n).
  { pose proof (sh_base _ _ _ Hheap) as H. rewrite Forall_forall in H. by apply H. }
  pose proof (heap_block_ok ns live s Hheap _ (node_cell_in _ _ _ _ Hn)) as Hcell.
  pose proof (heap_block_ok ns live s Hheap _ (node_free_in _ _ _ live Hn)) as Hfree.
  fold hhdm in Hfree.
  assert (Hmap : forall b, block_ok (smem s) b -> block_ok (taken hhdm n (size + 8) (smem s)) b).
  { intros b (?&?&?&Hr). split_and!; try done. unfold taken. by repeat apply region_wr. }
  split; rewrite ?smem_set_mem; change (vmm_higher_half_offset (slob_pmm (set_mem ?m s))) with hhdm.
  - apply Hheap.
  - done.
  - apply (chain_replace (smem s) _ _ pre n); [done| | |].
    + intros k x Hk Hx. by apply (taken_rest_same pre post x (node_cell k)); [| |apply node_cell_in|].
    + intros next Hat. apply taken_node; try done; try lia.
      by apply (heap_cell_free_disjoint ns live s Hheap).
    + rewrite <- E. apply Hheap.
  - pose proof (sh_base _ _ _ Hheap) as H. rewrite E in H.
    apply Forall_app in H as [H1 H2]. apply Forall_cons in H2 as [H2 H3].
    apply Forall_app. split; [done|]. constructor; [simpl; lia|done].
  - constructor; [unfold sizeof_SlobHeader; simpl; lia|apply Hheap].
  - apply (disjoint_blocks_le (slob_blocks hhdm ns live)); [apply Hheap|].
    intros x. rewrite taken_blocks_cover, <- E by done. done.
  - pose proof (sh_ok _ _ _ Hheap) as H. fold hhdm in H. rewrite E in H.
    rewrite slob_blocks_middle in H. rewrite slob_blocks_live, slob_blocks_middle.
    apply Forall_cons in H as [_ H]. apply Forall_cons in H as [_ H].
    destruct Hcell as (C1 & C2 & C3 & C4), Hfree as (F1 & F2 & F3 & F4). simpl in *.
    repeat apply Forall_cons_2.
    + apply Hmap. unfold block_ok, with_header, sizeof_SlobHeader. simpl. split_and!; try lia.
      apply (region_sub _ _ _ _ _ F4); lia.
    + apply Hmap. by split_and!.
    + apply Hmap. unfold block_ok, node_free. simpl. split_and!; try lia.
      apply (region_sub _ _ _ _ _ F4); lia.
    + eapply Forall_impl; [exact H|]. done.
  - constructor.
    + simpl. unfold sizeof_SlobHeader, taken, off_base, off_length.
      replace (nd_base n + hhdm + 8 - 8) with (nd_base n + hhdm) by lia.
      pose proof (heap_cell_free_disjoint ns live s Hheap n Hn) as Hd.
      assert (Hne : forall x, nd_addr n <= x < nd_addr n + 24 -> ~ (nd_base n + hhdm <= x < nd_base n + hhdm + 8)).
      { intros x Hx Hx'. apply (disjoint_blocks_cons x _ _ (node_free hhdm n) Hd);
          [by apply elem_of_cons; left|done|unfold inside, node_free; simpl; lia]. }
      rewrite (rd_outside 8 (nd_base n + hhdm) (wr 8 (nd_base n + hhdm) (size + 8) (smem s))).
      * rewrite rd_wr_eq. destruct Hfree as (F1 & F2 & F3 & F4). simpl in *. rewrite Z.mod_small; lia.
      * intros x Hx. simpl in Hx. rewrite 2!wr_lookup_ne; [done| |];
          intros ?; apply (Hne x); simpl in *; lia.
    + pose proof (sh_header _ _ _ Hheap) as H. rewrite Forall_forall in H |- *. intros b Hb'.
      rewrite <- (H b Hb'). apply rd_outside. intros x Hx.
      apply (taken_rest_same pre post x (with_header b)); try done; [by apply with_header_in|].
      pose proof (sh_live _ _ _ Hheap) as Hsz. rewrite Forall_forall in Hsz. specialize (Hsz b Hb').
      unfold inside, with_header, sizeof_SlobHeader in *. simpl in *. lia.
Qed.

(** A live block, header included, is never written. *)
Lemma slob_taken_live x :
  (1 <= cover x (with_header <$> live))%nat ->
  taken hhdm n (size + 8) (smem s) !! x = smem s !! x.
Proof.
  intros (b & Hb & Hx)%cover_pos.
  destruct (first_fit_Some _ _ _ _ Hfit) as (pre & post & E & _ & Hle & _).
  apply (taken_rest_same pre post x b); try done.
  apply elem_of_app. right. apply elem_of_app. by right.
Qed.
End malloc_facts.

(** ** Clients, headers and payloads *)

Lemma cover_with_header x live :
  Forall (fun b => 0 <= snd b) live -> (cover x live <= cover x (with_header <$> live))%nat.
Proof.
  induction live as [|b live IH]; [done|]. intros [Hb Hl]%Forall_cons. specialize (IH Hl).
  rewrite fmap_cons. cbn [cover].
  assert (inside x b -> inside x (with_header b)).
  { unfold inside, with_header, sizeof_SlobHeader. simpl. lia. }
  repeat case_decide; try lia. tauto.
Qed.

Lemma slob_live_sizes ns live s : slob_heap_ns ns live s -> Forall (fun b => 0 <= snd b) live.
Proof. intros H. eapply Forall_impl; [apply (sh_live _ _ _ H)|]. simpl. tauto. Qed.

(** Node cells and headers lie outside every payload. *)
Lemma slob_own_not_live ns live s x b :
  slob_heap_ns ns live s -> inside x b ->
  b ∈ node_cell <$> ns \/ (exists l, l ∈ live /\ b = (fst l - sizeof_SlobHeader, sizeof_SlobHeader)) ->
  cover x live = 0%nat.
Proof.
  intros H Hx Hb. pose proof (sh_disjoint _ _ _ H x) as Hd. unfold slob_blocks in Hd.
  rewrite !cover_app in Hd. pose proof (slob_live_sizes _ _ _ H) as Hsz.
  pose proof (cover_with_header x live Hsz). destruct Hb as [Hb|(l & Hl & ->)].
  - pose proof (cover_in x b _ Hb Hx). lia.
  - apply list_elem_of_split in Hl as (l1 & l2 & ->).
    rewrite (cover_perm x _ _ (Permutation_sym (Permutation_middle l1 l2 l))).
    rewrite fmap_app, fmap_cons in Hd.
    rewrite (cover_perm x _ _ (Permutation_sym (Permutation_middle (with_header <$> l1) _ _))) in Hd.
    rewrite <- fmap_app in Hd. cbn [cover] in *.
    apply Forall_app in Hsz as [Hs1 Hs2]. apply Forall_cons in Hs2 as [Hs Hs2].
    pose proof (cover_with_header x (l1 ++ l2) ltac:(by apply Forall_app)).
    unfold inside, with_header, sizeof_SlobHeader in *. simpl in *. repeat case_decide; lia.
Qed.

Lemma slob_heap_frame ns live s mach :
  slob_heap_ns ns live s ->
  (forall x, cover x live = 0%nat -> mem mach !! x = smem s !! x) ->
  (forall x, is_Some (smem s !! x) -> is_Some (mem mach !! x)) ->
  slob_heap_ns ns live (set_mach mach s).
Proof.
  intros H Hsame Hmap.
  assert (Hs : smem (set_mach mach s) = mem mach) by done.
  split; rewrite ?Hs; try apply H.
  - eapply chain_same; [|apply H]. intros n x Hn Hx. apply Hsame.
    eapply (slob_own_not_live ns live s x (node_cell n)); [done|done|left].
    by apply list_elem_of_fmap_2.
  - eapply Forall_impl; [apply (sh_ok _ _ _ H)|]. intros b (?&?&?&Hr). split_and!; try done.
    intros x Hx. by apply Hmap, Hr.
  - pose proof (sh_header _ _ _ H) as Hh. rewrite Forall_forall in Hh |- *. intros b Hb.
    rewrite <- (Hh b Hb). apply rd_outside. intros x Hx. apply Hsame.
    apply (slob_own_not_live ns live s x (fst b - sizeof_SlobHeader, sizeof_SlobHeader)); [done| |].
    + unfold inside. simpl in *. unfold sizeof_SlobHeader in *. lia.
    + right. by exists b.
Qed.

(** Memory outside the heap's own blocks does not matter to it. *)
Lemma slob_heap_outside ns live s mach :
  slob_heap_ns ns live s ->
  (forall x, (1 <= cover x (slob_blocks (vmm_higher_half_offset (slob_pmm s)) ns live))%nat -> mem mach !! x = smem s !! x) ->
  (forall x, is_Some (smem s !! x) -> is_Some (mem mach !! x)) ->
  slob_heap_ns ns live (set_mach mach s).
Proof.
  intros H Hsame Hmap. set (hhdm := vmm_higher_half_offset (slob_pmm s)) in *.
  assert (Hs : smem (set_mach mach s) = mem mach) by done.
  split; rewrite ?Hs; try apply H.
  - eapply chain_same; [|apply H]. intros n x Hn Hx. apply Hsame.
    exact (cover_in x _ _ (node_cell_in hhdm n ns live Hn) Hx).
  - eapply Forall_impl; [apply (sh_ok _ _ _ H)|]. intros b (?&?&?&Hr). split_and!; try done.
    intros x Hx. by apply Hmap, Hr.
  - pose proof (sh_header _ _ _ H) as Hh. rewrite Forall_forall in Hh |- *. intros b Hb.
    rewrite <- (Hh b Hb). apply rd_outside. intros x Hx. apply Hsame.
    pose proof (slob_live_sizes _ _ _ H) as Hsz. rewrite Forall_forall in Hsz. specialize (Hsz b Hb).
    apply (cover_in x (with_header b)); [by apply with_header_in|].
    unfold inside, with_header, sizeof_SlobHeader in *. cbn [fst snd] in *. lia.
Qed.

Lemma slob_malloc_init_eq s size : _init s = 1 -> slob_malloc size s = slob_search size s.
Proof. intros E. unfold slob_malloc. erewrite bind_ret_eq; [|done]. by rewrite E. Qed.

(** A request that fits, exactly. *)
Lemma slob_malloc_takes ns live s size n ns' :
  slob_heap_ns ns live s -> 0 <= size -> size + 8 < 2 ^ 64 -> first_fit (size + 8) ns = Some (n, ns') ->
  let hhdm := vmm_higher_half_offset (slob_pmm s) in
  slob_malloc size s = Ret (nd_base n + hhdm + 8) (set_mem (taken hhdm n (size + 8) (smem s)) s).
Proof.
  intros H Hs Hs' Ef hhdm. rewrite (slob_malloc_init_eq s size (sh_init _ _ _ H)).
  rewrite (slob_search_ok ns live s H size Hs Hs'). by rewrite Ef.
Qed.

(** What malloc does on an initialised heap. *)
Lemma slob_malloc_ok ns live s size :
  slob_heap_ns ns live s -> 0 <= size -> size + 8 < 2 ^ 64 ->
  match first_fit (size + 8) ns with
  | None => exists s', slob_malloc size s = Ret 0 s' /\ smem s' = smem s /\ slob_heap_ns ns live s'
  | Some (n, ns') =>
      let p := nd_base n + vmm_higher_half_offset (slob_pmm s) + 8 in
      exists s', slob_malloc size s = Ret p s' /\
        slob_heap_ns ns' ((p, size) :: live) s' /\
        vmm_higher_half_offset (slob_pmm s') = vmm_higher_half_offset (slob_pmm s) /\
        (forall x, (1 <= cover x (with_header <$> live))%nat \/ smem s !! x = None ->
          smem s' !! x = smem s !! x)
  end.
Proof.
  intros H Hs Hs'. pose proof (slob_search_ok ns live s H size Hs Hs') as E.
  rewrite (slob_malloc_init_eq s size (sh_init _ _ _ H)).
  destruct (first_fit (size + 8) ns) as [[n ns']|] eqn:Ef.
  - eexists. split; [exact E|]. split; [by apply (slob_taken_heap ns)|]. split; [done|].
    intros x [Hx|Hx]; rewrite smem_set_mem; [by apply (slob_taken_live ns live s H size n ns')|].
    destruct (first_fit_Some _ _ _ _ Ef) as (pre & post & -> & _ & Hle & _).
    apply taken_outside; [lia| |]; intros Hin.
    + destruct (heap_block_ok _ _ _ H (node_cell n)) as (_ & _ & _ & Hr).
      * apply node_cell_in, elem_of_app. right. apply elem_of_cons. by left.
      * destruct (Hr x Hin). congruence.
    + destruct (heap_block_ok _ _ _ H (node_free (vmm_higher_half_offset (slob_pmm s)) n))
        as (_ & _ & _ & Hr).
      * apply node_free_in, elem_of_app. right. apply elem_of_cons. by left.
      * destruct (Hr x Hin). congruence.
  - rewrite E. eexists. split; [done|]. split; [done|]. by apply slob_heap_frame.
Qed.

#[export] Program Instance slob_heap_instance : Heap slob := {|
  h_malloc := malloc; heap := slob_heap |}.
Next Obligation.
  intros live s (ns & H). split.
  - apply (disjoint_blocks_le _ _ (sh_disjoint _ _ _ H)). intros x.
    pose proof (cover_with_header x live (slob_live_sizes _ _ _ H)).
    unfold slob_blocks. rewrite !cover_app. lia.
  - pose proof (sh_ok _ _ _ H) as Hok. pose proof (sh_live _ _ _ H) as Hl.
    rewrite Forall_forall in *. intros b Hb. destruct (Hl b Hb) as [Hsz Hp].
    destruct (Hok (with_header b)) as (H1 & H2 & H3 & H4); [by apply with_header_in|].
    unfold with_header, sizeof_SlobHeader in *. simpl in *. pose proof (sh_hhdm _ _ _ H).
    split_and!; try lia. apply (region_sub _ _ _ _ _ H4); lia.
Qed.
Next Obligation. intros live s mach (ns & H) ??. exists ns. by apply slob_heap_frame. Qed.
Next Obligation.
  intros live s n (ns & H) Hn Hn'. pose proof (slob_malloc_ok ns live s n H Hn Hn') as Hm.
  pose proof (sh_hhdm _ _ _ H) as Hh.
  destruct (first_fit (n + 8) ns) as [[k ns']|] eqn:Ef.
  - destruct Hm as (s' & E & Hs & _ & Hsame). eexists _, s'. split; [exact E|]. split.
    + right. split; [|by exists ns'].
      apply first_fit_Some in Ef as (pre & post & Ek & _).
      pose proof (sh_base _ _ _ H) as Hb. rewrite Ek in Hb.
      apply Forall_app in Hb as [_ [Hb _]%Forall_cons]. lia.
    + intros x Hx. apply Hsame. left. pose proof (cover_with_header x live (slob_live_sizes _ _ _ H)). lia.
  - destruct Hm as (s' & E & Hmem & Hs). exists 0, s'. split; [exact E|]. split.
    + left. split; [done|]. by exists ns.
    + intros x _. by rewrite Hmem.
Qed.

Lemma slob_heap_live ns live s :
  slob_heap_ns ns live s -> disjoint_blocks live /\ Forall (block_ok (smem s)) live.
Proof. intros H. apply heap_live. by exists ns. Qed.

(** ** slob_free *)

(** Live payloads never meet the cells or headers of the allocator. *)
Lemma slob_own_outside_live ns live s x b l :
  slob_heap_ns ns live s -> l ∈ live -> inside x l ->
  b ∈ node_cell <$> ns \/ (exists k, k ∈ live /\ b = (fst k - sizeof_SlobHeader, sizeof_SlobHeader)) ->
  ~ inside x b.
Proof.
  intros H Hl Hx Hb Hin. pose proof (slob_own_not_live ns live s x b H Hin Hb).
  pose proof (cover_in x l live Hl Hx). lia.
Qed.

(** The memory after the freed block [(p, size)] became the node at [q]. *)
Definition freed (hhdm q p L head : Z) (m : memory) : memory :=
  wr 8 (q + off_pNext) head (wr 8 (q + off_length) L (wr 8 (q + off_base) (p - 8 - hhdm) m)).

Lemma freed_same hhdm q p L head m x :
  ~ inside x (q, sizeof_SlobEntry) -> freed hhdm q p L head m !! x = m !! x.
Proof.
  unfold inside, sizeof_SlobEntry. simpl. intros Hx. unfold freed, off_pNext, off_length, off_base.
  rewrite !wr_lookup_ne; [done|lia..].
Qed.

Lemma freed_node hhdm q p L head m :
  q <> 0 -> 0 <= p - 8 - hhdm < 2 ^ 64 -> 0 <= L < 2 ^ 64 -> 0 <= head < 2 ^ 64 ->
  node_at (freed hhdm q p L head m) (Node q (p - 8 - hhdm) L) head.
Proof.
  intros Hq Hb HL Hh. unfold node_at, freed, off_pNext, off_length, off_base. simpl.
  split; [done|]. split_and!.
  - rewrite rd_wr_eq. by apply Z.mod_small.
  - rewrite !rd_wr_ne by lia. rewrite rd_wr_eq. by apply Z.mod_small.
  - rewrite rd_wr_ne by lia. rewrite rd_wr_eq. by apply Z.mod_small.
Qed.

Lemma chain_head_range ns live s : slob_heap_ns ns live s -> 0 <= pHead s < 2 ^ 64.
Proof.
  intros H. pose proof (sh_chain _ _ _ H) as Hc. destruct ns as [|n ns]; simpl in Hc; [lia|].
  destruct Hc as [-> _].
  destruct (heap_block_ok _ _ _ H (node_cell n)) as (? & _ & ? & _).
  - apply node_cell_in, elem_of_cons. by left.
  - simpl in *. unfold sizeof_SlobEntry in *. lia.
Qed.

(** Turning two live blocks, a 24-byte one and the one to free, into a node. *)
Lemma slob_freed_heap ns live s q p size :
  let hhdm := vmm_higher_half_offset (slob_pmm s) in
  slob_heap_ns ns ((q, sizeof_SlobEntry) :: (p, size) :: live) s ->
  slob_heap_ns (Node q (p - 8 - hhdm) (size + 8) :: ns) live
    (set_pHead q (set_mem (freed hhdm q p (size + 8) (pHead s) (smem s)) s)).
Proof.
  intros hhdm H. set (m' := freed hhdm q p (size + 8) (pHead s) (smem s)).
  pose proof (sh_hhdm _ _ _ H) as Hh. fold hhdm in Hh.
  pose proof (sh_live _ _ _ H) as Hlive. apply Forall_cons in Hlive as [[_ Hq] Hlive].
  apply Forall_cons in Hlive as [[Hsz Hp] Hlive]. fold hhdm in Hq, Hp.
  unfold sizeof_SlobHeader in Hq, Hp. simpl in Hq, Hp, Hsz.
  pose proof (sh_ok _ _ _ H) as Hok. fold hhdm in Hok. rewrite !slob_blocks_live in Hok.
  apply Forall_cons in Hok as [Hokq Hok]. apply Forall_cons in Hok as [Hokp Hok].
  assert (Hsame : forall x b, inside x b ->
    b ∈ node_cell <$> ns \/ (exists k, k ∈ (q, sizeof_SlobEntry) :: (p, size) :: live /\
      b = (fst k - sizeof_SlobHeader, sizeof_SlobHeader)) -> m' !! x = smem s !! x).
  { intros x b Hx Hb. apply freed_same. intros Hin.
    eapply (slob_own_outside_live _ _ _ x b (q, sizeof_SlobEntry) H); [|done|done|done].
    apply elem_of_cons. by left. }
  destruct Hokp as (P1 & P2 & P3 & P4), Hokq as (Q1 & Q2 & Q3 & Q4).
  unfold with_header, sizeof_SlobHeader, sizeof_SlobEntry in *. simpl in P1, P2, P3, P4, Q1, Q2, Q3, Q4.
  assert (Hmap : forall b, block_ok (smem s) b -> block_ok m' b).
  { intros b (?&?&?&Hr). split_and!; try done. unfold m', freed. by repeat apply region_wr. }
  split; change (smem (set_pHead q (set_mem m' s))) with (smem (set_mem m' s)); rewrite ?smem_set_mem;
    change (vmm_higher_half_offset (slob_pmm (set_pHead q (set_mem m' s)))) with hhdm.
  - apply H.
  - done.
  - split; [done|]. exists (pHead s). split.
    + apply freed_node; try lia. by eapply chain_head_range.
    + eapply chain_same; [|apply H]. intros n x Hn Hx. apply (Hsame x (node_cell n)); [done|left].
      by apply list_elem_of_fmap_2.
  - constructor; [simpl; lia|apply H].
  - done.
  - apply (disjoint_blocks_le _ _ (sh_disjoint _ _ _ H)). intros x. fold hhdm.
    rewrite !cover_slob_live, cover_slob_cons.
    unfold inside, node_cell, node_free, with_header, sizeof_SlobEntry, sizeof_SlobHeader. simpl.
    repeat case_decide; lia.
  - rewrite slob_blocks_cons. repeat apply Forall_cons_2.
    + apply Hmap. unfold block_ok, node_cell, sizeof_SlobEntry. simpl. split_and!; try lia.
      apply (region_sub _ _ _ _ _ Q4); lia.
    + apply Hmap. unfold block_ok, node_free. simpl. split_and!; try lia.
      apply (region_sub _ _ _ _ _ P4); lia.
    + eapply Forall_impl; [exact Hok|]. done.
  - pose proof (sh_header _ _ _ H) as Hhd. apply Forall_cons in Hhd as [_ Hhd].
    apply Forall_cons in Hhd as [_ Hhd]. rewrite Forall_forall in Hhd |- *. intros b Hb.
    rewrite <- (Hhd b Hb). apply rd_outside. intros x Hx.
    apply (Hsame x (fst b - sizeof_SlobHeader, sizeof_SlobHeader)).
    + unfold inside, sizeof_SlobHeader in *. simpl in *. lia.
    + right. exists b. split; [|done]. apply elem_of_cons. right. apply elem_of_cons. by right.
Qed.

Lemma slob_free_ok ns live s p size n ns' :
  let hhdm := vmm_higher_half_offset (slob_pmm s) in
  let q := nd_base n + hhdm + 8 in
  slob_heap_ns ns ((p, size) :: live) s -> first_fit (24 + 8) ns = Some (n, ns') ->
  exists s', slob_free p s = Ret tt s' /\
    slob_heap_ns (Node q (p - 8 - hhdm) (size + 8) :: ns') live s' /\
    (forall x, (1 <= cover x live)%nat \/ smem s !! x = None -> smem s' !! x = smem s !! x).
Proof.
  intros hhdm q H Hfit.
  pose proof (slob_malloc_ok ns _ s 24 H ltac:(lia) ltac:(lia)) as Hm. rewrite Hfit in Hm.
  destruct Hm as (s1 & E1 & H1 & Hhh & Hsame). fold hhdm in Hhh, E1, H1. fold q in E1, H1.
  pose proof (slob_freed_heap ns' live s1 q p size H1) as Hf. rewrite Hhh in Hf. fold hhdm in Hf.
  pose proof (sh_hhdm _ _ _ H1) as Hh. rewrite Hhh in Hh.
  pose proof (sh_live _ _ _ H1) as Hlive. apply Forall_cons in Hlive as [[_ Hq] Hlive].
  apply Forall_cons in Hlive as [[Hsz Hp] Hlive]. rewrite Hhh in Hq, Hp.
  pose proof (sh_ok _ _ _ H1) as Hok. rewrite !slob_blocks_live in Hok.
  apply Forall_cons in Hok as [(Q1 & Q2 & Q3 & Q4) Hok].
  apply Forall_cons in Hok as [(P1 & P2 & P3 & P4) _].
  unfold with_header, sizeof_SlobHeader in *. simpl in *.
  assert (Hreg : forall off, 0 <= off <= 16 -> region (q + off) 8 (smem s1)).
  { intros off Ho. apply (region_sub _ _ _ _ _ Q4); lia. }
  assert (Hhdr : rd 8 (p - 8) (smem s1) = size + 8).
  { pose proof (sh_header _ _ _ H1) as Hx. apply Forall_cons in Hx as [_ Hx].
    apply Forall_cons in Hx as [Hx _]. unfold sizeof_SlobHeader in Hx. simpl in Hx. lia. }
  eexists. split; [|split; [exact Hf|]].
  - unfold slob_free. cbv zeta. unfold sizeof_SlobHeader, sizeof_SlobEntry.
    rewrite (u64_small (p - 8)) by lia. rewrite (bind_ret_eq _ _ _ _ _ E1).
    erewrite bind_ret_eq; [|done]. rewrite Hhh, u64_small by lia.
    rewrite (bind_ret_eq _ _ _ _ _ (store_ok 8 _ _ s1 (Hreg off_base ltac:(by split)))).
    set (m1 := wr 8 (q + off_base) (p - 8 - hhdm) (smem s1)).
    rewrite (bind_ret_eq _ _ _ (size + 8) (set_mem m1 s1)).
    2: { rewrite load_ok; rewrite smem_set_mem.
         - f_equal. rewrite <- Hhdr. apply rd_outside. intros x Hx. unfold m1.
           apply wr_lookup_ne. intros Hin.
           eapply (slob_own_outside_live _ _ _ x (p - 8, 8) (q, sizeof_SlobEntry) H1).
           + apply elem_of_cons. by left.
           + unfold inside, sizeof_SlobEntry, off_base in *. simpl in *. lia.
           + right. exists (p, size). split; [|done]. apply elem_of_cons. right.
             apply elem_of_cons. by left.
           + unfold inside. simpl in *. lia.
         - apply region_wr. apply (region_sub _ _ _ _ _ P4); lia. }
    rewrite (bind_ret_eq _ _ _ _ _ (store_ok 8 (q + off_length) _ (set_mem m1 s1) ltac:(
      rewrite smem_set_mem; apply region_wr, Hreg; by split))).
    rewrite smem_set_mem, set_mem_set_mem. erewrite bind_ret_eq; [|done].
    cbv beta. change (pHead (set_mem _ s1)) with (pHead s1).
    rewrite (bind_ret_eq _ _ _ _ _ (store_ok 8 (q + off_pNext) _
      (set_mem (wr 8 (q + off_length) (size + 8) m1) s1) ltac:(
      rewrite smem_set_mem; do 2 apply region_wr; apply Hreg; by split))).
    rewrite smem_set_mem, set_mem_set_mem. done.
  - intros x Hx. change (freed hhdm q p (size + 8) (pHead s1) (smem s1) !! x = smem s !! x).
    rewrite freed_same.
    + apply Hsame. destruct Hx as [Hx|Hx]; [left|by right].
      pose proof (cover_with_header x live ltac:(eapply Forall_impl; [exact Hlive|]; simpl; tauto)) as Hc.
      eapply Nat.le_trans; [exact Hx|]. eapply Nat.le_trans; [exact Hc|]. apply Nat.le_add_l.
    + intros Hin. destruct Hx as [Hx|Hx].
      * pose proof (heap_live _ s1 (ex_intro _ ns' H1)) as [Hd _]. specialize (Hd x).
        cbn [cover] in Hd. unfold sizeof_SlobEntry in Hin. rewrite decide_True in Hd by done. lia.
      * assert (E0 : smem s1 !! x = None).
        { rewrite <- Hx. apply Hsame. by right. }
        destruct (Q4 x); [|congruence]. unfold inside, sizeof_SlobEntry in Hin. simpl in Hin. lia.
Qed.

(** The order in which the live blocks are listed is immaterial. *)
Lemma slob_heap_perm ns live live' s :
  live ≡ₚ live' -> slob_heap_ns ns live s -> slob_heap_ns ns live' s.
Proof.
  intros P H. assert (PB : slob_blocks (vmm_higher_half_offset (slob_pmm s)) ns live ≡ₚ
                           slob_blocks (vmm_higher_half_offset (slob_pmm s)) ns live').
  { unfold slob_blocks. by rewrite P. }
  split; try apply H; rewrite <- ?P; try apply H.
  - apply (disjoint_blocks_le _ _ (sh_disjoint _ _ _ H)). intros x. by rewrite (cover_perm x _ _ PB).
  - rewrite <- PB. apply H.
Qed.

(** With no room for a 24-byte node, slob_free writes through a NULL entry. *)
Lemma slob_free_none ns live s p :
  slob_heap_ns ns live s -> first_fit (24 + 8) ns = None -> smem s !! 8 = None ->
  slob_free p s = Fault (Unmapped 8).
Proof.
  intros H Hfit H8.
  pose proof (slob_malloc_ok ns live s 24 H ltac:(lia) ltac:(lia)) as Hm. rewrite Hfit in Hm.
  destruct Hm as (s' & E & Hmem & _). unfold slob_free. cbv zeta.
  change sizeof_SlobEntry with 24. rewrite (bind_ret_eq _ _ _ _ _ E).
  erewrite bind_ret_eq; [|done]. change (0 + off_base) with 8.
  unfold mbind, M_bind, store. rewrite (proj1 (not_true_iff_false (mapped 8 8 (smem s')))); [done|].
  rewrite mapped_spec. intros Hr. destruct (Hr 8); [lia|]. rewrite Hmem in *. congruence.
Qed.
