(* ===== verification/SlobProps.v ===== *)
(** * alloc/slob.c: the properties of the kernel heap *)
From S2P Require Import Prelude Machine Math Pmm Regions Heap Slob SlobProofs.

(** ** A client of the heap *)

(** What the rest of the kernel does with the heap: allocate, free a block it
    holds (by its position in the list of blocks held), and write bytes into a
    block it holds. *)
Inductive heap_op := HMalloc (n : Z) | HFree (i : nat) | HWrite (i : nat) (off v : Z).

Definition run_heap_op (o : heap_op) (live : list block) : M slob (list block) :=
  match o with
  | HMalloc n => p ← malloc n; mret (if decide (p = 0) then live else (p, n) :: live)
  | HFree i =>
      match live !! i with
      | Some b => free (fst b) ;; mret (delete i live)
      | None => mret live
      end
  | HWrite i off v =>
      match live !! i with
      | Some b => if decide (0 <= off < snd b)
                  then store 1 (fst b + off) v ;; mret live else mret live
      | None => mret live
      end
  end.
Fixpoint run_heap (os : list heap_op) (live : list block) : M slob (list block) :=
  match os with
  | [] => mret live
  | o :: os' => live' ← run_heap_op o live; run_heap os' live'
  end.
Definition heap_op_ok (o : heap_op) : Prop :=
  match o with HMalloc n => 0 <= n /\ n + 8 < 2 ^ 64 | _ => True end.

(** Every byte the heap accounts for: free ones, those of live blocks with
    their headers, and 32 for each free-list node (24 and its header). *)
Fixpoint live_bytes (live : list block) : Z :=
  match live with
  | [] => 0
  | b :: live' => sizeof_SlobHeader + snd b + live_bytes live'
  end.
Definition heap_bytes (ns : list node) (live : list block) : Z :=
  free_bytes ns + live_bytes live + (sizeof_SlobEntry + sizeof_SlobHeader) * Z.of_nat (length ns).

Lemma live_bytes_perm live live' : live ≡ₚ live' -> live_bytes live = live_bytes live'.
Proof. induction 1; cbn [live_bytes]; lia. Qed.
Lemma first_fit_length total ns n ns' : first_fit total ns = Some (n, ns') -> length ns' = length ns.
Proof.
  intros (pre & post & -> & -> & _)%first_fit_Some. by rewrite !length_app.
Qed.

(** What one client operation does to a well-formed heap. *)
Lemma run_heap_op_ok o ns live s :
  slob_heap_ns ns live s -> smem s !! 8 = None -> heap_op_ok o ->
  match run_heap_op o live s with
  | Ret live' s' => smem s' !! 8 = None /\
      exists ns', slob_heap_ns ns' live' s' /\ heap_bytes ns' live' = heap_bytes ns live
  | Fault f => f = Unmapped 8 /\ exists i, o = HFree i /\ first_fit 32 ns = None
  | _ => False
  end.
Proof.
  intros H H8 Hok. destruct o as [n|i|i off v]; cbn [run_heap_op].
  - destruct Hok as [Hn Hn']. pose proof (slob_malloc_ok ns live s n H Hn Hn') as Hm.
    destruct (first_fit (n + 8) ns) as [[k ns']|] eqn:Ef.
    + destruct Hm as (s' & E & Hs & _ & Hsame). unfold malloc.
      rewrite (bind_ret_eq _ _ _ _ _ E). cbn [mret M_ret]. rewrite decide_False.
      * split; [rewrite Hsame by (by right); done|]. exists ns'. split; [done|].
        unfold heap_bytes. rewrite (first_fit_bytes _ _ _ _ Ef), (first_fit_length _ _ _ _ Ef).
        cbn [live_bytes snd]. unfold sizeof_SlobHeader. lia.
      * apply first_fit_Some in Ef as (pre & post & -> & _).
        pose proof (sh_base _ _ _ H) as [_ [[Hb _] _]%Forall_cons]%Forall_app.
        pose proof (sh_hhdm _ _ _ H). lia.
    + destruct Hm as (s' & E & Hmem & Hs). unfold malloc. rewrite (bind_ret_eq _ _ _ _ _ E).
      cbn [mret M_ret]. rewrite decide_True by done. split; [by rewrite Hmem|]. by exists ns.
  - destruct (live !! i) as [[p size]|] eqn:Ei; [|split; [done|]; by exists ns].
    pose proof (delete_Permutation live i _ Ei) as P.
    pose proof (slob_heap_perm ns _ _ s P H) as H'. cbn [fst].
    destruct (first_fit (24 + 8) ns) as [[k ns']|] eqn:Ef.
    + destruct (slob_free_ok ns _ s p size k ns' H' Ef) as (s' & E & Hs & Hsame).
      unfold free. rewrite (bind_ret_eq _ _ _ _ _ E). cbn [mret M_ret].
      split; [rewrite Hsame by (by right); done|]. eexists. split; [exact Hs|].
      unfold heap_bytes. rewrite (live_bytes_perm _ _ P), (first_fit_bytes _ _ _ _ Ef).
      cbn [free_bytes live_bytes nd_length length snd].
      rewrite (first_fit_length _ _ _ _ Ef). unfold sizeof_SlobHeader, sizeof_SlobEntry. lia.
    + unfold free, mbind, M_bind. rewrite (slob_free_none ns _ s p H' Ef H8). eauto.
  - destruct (live !! i) as [[p size]|] eqn:Ei; [|split; [done|]; by exists ns].
    cbn [fst snd]. case_decide as D; [|split; [done|]; by exists ns].
    destruct (slob_heap_live ns live s H) as [_ Hl].
    rewrite Forall_forall in Hl. destruct (Hl (p, size)) as (_ & _ & _ & Hr);
      [by apply list_elem_of_lookup_2 in Ei|]. cbn [fst snd] in Hr.
    erewrite bind_ret_eq; [|apply store_ok; apply (region_sub _ _ _ _ _ Hr); lia].
    cbn [mret M_ret].
    assert (Hi : inside (p + off) (p, size)) by (unfold inside; simpl; lia).
    split.
    + rewrite smem_set_mem, wr_lookup_ne; [done|]. intros Hx. assert (p + off = 8) by lia.
      destruct (Hr 8); [unfold inside in Hi; simpl in Hi; lia|congruence].
    + exists ns. split; [|done]. apply slob_heap_frame; [done| |].
      * intros x Hx. cbn [mem]. apply wr_lookup_ne. intros Hx'.
        assert (x = p + off) as -> by lia.
        pose proof (cover_in _ _ live (list_elem_of_lookup_2 _ _ _ Ei) Hi) as Hc. rewrite Hx in Hc. lia.
      * intros x Hx. cbn [mem]. by apply wr_is_Some.
Qed.

(** ** A concrete heap: one node at 0x2000 of the direct map, 1000 free bytes *)
Definition demo_mem : memory :=
  wr 8 (2 ^ 47 + 8192 + 16) 1000 (wr 8 (2 ^ 47 + 8192 + 8) 65536
    (zeros (2 ^ 47 + 8192) 24 ∪ zeros (2 ^ 47 + 65536) 1000)).
Definition demo_with (m : memory) : slob :=
  Slob (Pmm (Machine m []) 0 0 0 [] 0 0 0 0 (2 ^ 47) 0 0 0) 1 (2 ^ 47 + 8192).
Definition demo : slob := demo_with demo_mem.
Definition demo_nodes : list node := [Node (2 ^ 47 + 8192) 65536 1000].

Lemma demo_heap_with m :
  node_at m (Node (2 ^ 47 + 8192) 65536 1000) 0 ->
  region (2 ^ 47 + 8192) 24 m -> region (65536 + 2 ^ 47) 1000 m ->
  slob_heap_ns demo_nodes [] (demo_with m).
Proof.
  intros Hn H1 H2. split; try done.
  - split; [done|]. by exists 0.
  - by repeat constructor.
  - intros x. change (slob_blocks _ _ _) with [(2 ^ 47 + 8192, 24); (65536 + 2 ^ 47, 1000)].
    cbn [cover]. unfold inside. cbn [fst snd]. repeat case_decide; lia.
  - by repeat constructor.
Qed.
Lemma demo_node : node_at demo_mem (Node (2 ^ 47 + 8192) 65536 1000) 0.
Proof. split_and!; vm_compute; done. Qed.
Lemma demo_regions :
  region (2 ^ 47 + 8192) 24 demo_mem /\ region (65536 + 2 ^ 47) 1000 demo_mem.
Proof.
  split; apply region_wr, region_wr; [apply region_union_l|apply region_union_r]; apply region_zeros.
Qed.
Lemma demo_heap : slob_heap_ns demo_nodes [] demo.
Proof. apply demo_heap_with; [apply demo_node|apply demo_regions|apply demo_regions]. Qed.
Lemma demo_null : smem demo !! 8 = None.
Proof. vm_compute. reflexivity. Qed.

(** ** Properties *)

(** C28: first fit. On a well-formed heap slob_malloc(size) returns the front of
    the first free-list node with size + 8 bytes, cut off that node behind an
    8-byte header: the new block is disjoint from all live ones, whose bytes
    are unchanged, and the heap is well formed again with size + 8 bytes less
    on the free list; when no node is that large it returns NULL and memory is
    unchanged. *)
Theorem slob_malloc_first_fit ns live s size :
  slob_heap_ns ns live s -> 0 <= size -> size + 8 < 2 ^ 64 ->
  match first_fit (size + 8) ns with
  | None => exists s', slob_malloc size s = Ret 0 s' /\ smem s' = smem s /\ slob_heap_ns ns live s'
  | Some (n, ns') =>
      let p := nd_base n + vmm_higher_half_offset (slob_pmm s) + 8 in
      exists s', slob_malloc size s = Ret p s' /\ slob_heap_ns ns' ((p, size) :: live) s' /\
        (forall b, b ∈ live -> forall x, inside x b -> ~ inside x (p, size)) /\
        (forall b x, b ∈ live -> inside x b -> smem s' !! x = smem s !! x) /\
        free_bytes ns' = free_bytes ns - (size + 8)
  end.
Proof.
  intros H Hs Hs'. pose proof (slob_malloc_ok ns live s size H Hs Hs') as Hm.
  destruct (first_fit (size + 8) ns) as [[n ns']|] eqn:Ef; [|done].
  destruct Hm as (s' & E & Hheap & _ & Hsame). exists s'. split; [exact E|]. split; [done|].
  split_and!.
  - intros b Hb x Hx Hx'. destruct (slob_heap_live _ _ s' Hheap) as [Hd _].
    by apply (disjoint_blocks_cons x _ _ b Hd Hb).
  - intros b x Hb Hx. apply Hsame. left.
    pose proof (cover_with_header x live (slob_live_sizes _ _ _ H)).
    pose proof (cover_in x b live Hb Hx). lia.
  - rewrite (first_fit_bytes _ _ _ _ Ef). lia.
Qed.

Lemma slob_malloc_first_fit_witness :
  let p := 65536 + 2 ^ 47 + 8 in
  exists s', slob_malloc 100 demo = Ret p s' /\
    slob_heap_ns [Node (2 ^ 47 + 8192) (65536 + 108) 892] [(p, 100)] s' /\
    (forall b, b ∈ @nil block -> forall x, inside x b -> ~ inside x (p, 100)) /\
    (forall b x, b ∈ @nil block -> inside x b -> smem s' !! x = smem demo !! x) /\
    free_bytes [Node (2 ^ 47 + 8192) (65536 + 108) 892] = free_bytes demo_nodes - 108.
Proof. apply (slob_malloc_first_fit demo_nodes [] demo 100 demo_heap); lia. Defined.

(** C2: heap safety and accounting. However a client allocates, frees blocks it
    holds and writes inside blocks it holds, the heap stays well formed (free
    list, headers and live blocks pairwise disjoint and mapped) and no byte is
    lost or counted twice, where every node on the free list costs 32 bytes.
    The only possible failure is a fault at address 8: slob_free does not check
    the node it gets from slob_malloc for NULL. *)
Theorem slob_client_safe os : forall ns live s,
  slob_heap_ns ns live s -> smem s !! 8 = None -> Forall heap_op_ok os ->
  match run_heap os live s with
  | Ret live' s' =>
      exists ns', slob_heap_ns ns' live' s' /\ heap_bytes ns' live' = heap_bytes ns live
  | Fault f => f = Unmapped 8 /\ exists i, HFree i ∈ os
  | _ => False
  end.
Proof.
  induction os as [|o os IH]; intros ns live s H H8 Hos; cbn [run_heap]; [by exists ns|].
  apply Forall_cons in Hos as [Ho Hos]. pose proof (run_heap_op_ok o ns live s H H8 Ho) as Hop.
  unfold mbind, M_bind. destruct (run_heap_op o live s) as [live1 s1|s1|s1|f|]; try done.
  - destruct Hop as (H81 & ns1 & H1 & <-). specialize (IH ns1 live1 s1 H1 H81 Hos).
    destruct (run_heap os live1 s1); try done. destruct IH as (-> & i & Hi).
    split; [done|]. exists i. apply elem_of_cons. by right.
  - destruct Hop as (-> & i & -> & _). split; [done|]. exists i. apply elem_of_cons. by left.
Qed.

Lemma slob_client_safe_witness :
  match run_heap [HMalloc 100; HMalloc 5; HWrite 1 99 7; HFree 1; HFree 0] [] demo with
  | Ret live' s' =>
      exists ns', slob_heap_ns ns' live' s' /\ heap_bytes ns' live' = heap_bytes demo_nodes []
  | Fault f => f = Unmapped 8 /\
      exists i, HFree i ∈ [HMalloc 100; HMalloc 5; HWrite 1 99 7; HFree 1; HFree 0]
  | _ => False
  end.
Proof.
  apply (slob_client_safe _ demo_nodes [] demo demo_heap demo_null).
  repeat constructor; lia.
Defined.

(** malloc(size) followed by free of the result succeeds whenever 24 + 8
    more bytes are left for the new node, and the free list then holds 32 bytes
    less than before, under a node that was not there: each such cycle leaks 32
    bytes, and neighbouring free regions are never merged. *)
Theorem slob_malloc_free_leaks ns live s size n ns1 :
  slob_heap_ns ns live s -> 0 <= size -> size + 8 < 2 ^ 64 ->
  first_fit (size + 8) ns = Some (n, ns1) ->
  is_Some (first_fit 32 ns1) ->
  exists p s1 s2 ns2,
    malloc size s = Ret p s1 /\ free p s1 = Ret tt s2 /\ slob_heap_ns ns2 live s2 /\
    free_bytes ns2 = free_bytes ns - 32 /\ length ns2 = S (length ns).
Proof.
  intros H Hs Hs' Ef [[k ns2] Ef2].
  pose proof (slob_malloc_ok ns live s size H Hs Hs') as Hm. rewrite Ef in Hm.
  destruct Hm as (s1 & E1 & H1 & _ & _).
  destruct (slob_free_ok ns1 live s1 _ size k ns2 H1 Ef2) as (s2 & E2 & H2 & _).
  eexists _, s1, s2, _. split; [exact E1|]. split; [exact E2|]. split; [exact H2|].
  cbn [free_bytes nd_length length].
  rewrite (first_fit_bytes _ _ _ _ Ef), (first_fit_bytes _ _ _ _ Ef2).
  rewrite (first_fit_length _ _ _ _ Ef2), (first_fit_length _ _ _ _ Ef). split; [lia|done].
Qed.

Lemma slob_malloc_free_leaks_witness :
  exists p s1 s2 ns2,
    malloc 100 demo = Ret p s1 /\ free p s1 = Ret tt s2 /\ slob_heap_ns ns2 [] s2 /\
    free_bytes ns2 = free_bytes demo_nodes - 32 /\ length ns2 = S (length demo_nodes).
Proof.
  eapply (slob_malloc_free_leaks demo_nodes [] demo 100);
    [apply demo_heap|lia|lia|reflexivity|eexists; reflexivity].
Defined.
