(* ===== verification/SlobInit.v ===== *)
(** * alloc/slob.c: slob_init, and what the heap shares with the page allocator *)
From S2P Require Import Prelude Machine Math Bitmap MemLib Pmm PmmProofs PmmInit Regions Heap Slob SlobProofs.

(** The free list slob_init writes: a node per usable entry, from [a] on. *)
Fixpoint init_nodes (a : Z) (es : list memmap_entry) : list node :=
  match es with
  | [] => []
  | e :: es' => if is_usable e then Node a (me_base e) (me_length e) :: init_nodes (a + sizeof_SlobEntry) es'
                else init_nodes a es'
  end.
Definition first_node (a : Z) (es : list memmap_entry) : Z := if count_usable es =? 0 then 0 else a.

Lemma count_usable_nonneg es : 0 <= count_usable es.
Proof. induction es as [|e es IH]; cbn [count_usable]; [done|]. case_match; lia. Qed.
Lemma count_usable_pos e es : e ∈ es -> is_usable e = true -> 0 < count_usable es.
Proof.
  intros He Hu. induction es as [|e1 es IH]; [by apply not_elem_of_nil in He|]. cbn [count_usable].
  pose proof (count_usable_nonneg es). apply elem_of_cons in He as [<-|He]; [rewrite Hu; lia|].
  specialize (IH He). case_match; lia.
Qed.

(** ** The blocks of the new list *)

Lemma cover_cells x es : forall a,
  (cover x (node_cell <$> init_nodes a es) <= if decide (a <= x < a + sizeof_SlobEntry * count_usable es)%Z then 1 else 0)%nat.
Proof.
  unfold sizeof_SlobEntry. induction es as [|e es IH]; intros a; cbn [init_nodes count_usable]; [cbn; lia|].
  pose proof (count_usable_nonneg es). destruct (is_usable e).
  - rewrite fmap_cons. cbn [cover]. specialize (IH (a + 24)). unfold inside, node_cell, sizeof_SlobEntry in *. cbn [fst snd nd_addr] in *.
    repeat case_decide; lia.
  - specialize (IH a). repeat case_decide; lia.
Qed.

Section free.
Context (hhdm : Z).

Lemma free_usable x es : forall a,
  (1 <= cover x (node_free hhdm <$> init_nodes a es))%nat <-> in_usable es (x - hhdm).
Proof.
  induction es as [|e es IH]; intros a; cbn [init_nodes].
  - split; [cbn; lia|]. intros (e & He & _). by apply not_elem_of_nil in He.
  - rewrite in_usable_cons. destruct (is_usable e) eqn:Hu.
    + rewrite fmap_cons. cbn [cover]. rewrite <- (IH (a + sizeof_SlobEntry)).
      unfold inside, node_free, me_end. cbn [fst snd nd_base nd_length]. case_decide as D.
      * split; [intros _; left; split; [done|lia]|lia].
      * split; [intros; right; lia|]. intros [[_ ?]|?]; lia.
    + rewrite (IH a). split; [by right|]. intros [[? _]|?]; done.
Qed.

(** The usable entries do not overlap, so neither do the free regions. *)
Lemma cover_free m x es : memmap_ok hhdm m es -> forall a,
  (cover x (node_free hhdm <$> init_nodes a es) <= 1)%nat.
Proof.
  induction es as [|e es IH]; intros K a; cbn [init_nodes]; [cbn; lia|].
  specialize (IH (memmap_ok_cons _ _ _ _ K)). destruct (is_usable e) eqn:Hu; [|apply IH].
  rewrite fmap_cons. cbn [cover]. specialize (IH (a + sizeof_SlobEntry)). case_decide as D; [|lia].
  destruct (cover x (node_free hhdm <$> init_nodes (a + sizeof_SlobEntry) es)) eqn:E; [lia|]. exfalso.
  destruct (proj1 (free_usable x es (a + sizeof_SlobEntry)) ltac:(lia)) as (e' & He' & Hu' & Hx).
  pose proof (memmap_ok_above _ _ _ _ _ K Hu He' Hu').
  unfold inside, node_free in D. cbn [fst snd nd_base nd_length] in D. unfold me_end in *. lia.
Qed.

(** The chain the loop writes. *)
Lemma slob_init_loop_ok N es : forall k s,
  memmap_ok hhdm (smem s) es -> 0 <= hhdm -> 0 <= k -> k + count_usable es = N ->
  0 < pHead s -> pHead s + sizeof_SlobEntry * N < 2 ^ 64 ->
  region (pHead s) (sizeof_SlobEntry * N) (smem s) ->
  exists m', slob_init_loop N k es s = Ret tt (set_mem m' s) /\
    chain m' (first_node (pHead s + sizeof_SlobEntry * k) es) (init_nodes (pHead s + sizeof_SlobEntry * k) es) /\
    (forall x, ~ (pHead s + sizeof_SlobEntry * k <= x < pHead s + sizeof_SlobEntry * N) -> m' !! x = smem s !! x) /\
    (forall x, is_Some (smem s !! x) -> is_Some (m' !! x)).
Proof.
  unfold sizeof_SlobEntry. induction es as [|e es IH]; intros k s K Hh Hk Hc Hp Hb Hr.
  - exists (smem s). rewrite set_mem_smem. by split_and!.
  - cbn [slob_init_loop init_nodes count_usable] in *. unfold first_node. cbn [count_usable].
    pose proof (count_usable_nonneg es) as Hnn. destruct (is_usable e) eqn:Hu.
    2: { rewrite Z.add_0_l in Hc |- *. apply IH; try done. by eapply memmap_ok_cons. }
    destruct (mo_range _ _ _ K e ltac:(apply elem_of_cons; by left) Hu) as (R1 & R2 & R3). unfold me_end in R3.
    erewrite bind_ret_eq; [|reflexivity]. unfold sizeof_SlobEntry. set (nd := pHead s + 24 * k).
    set (next := if k <? N - 1 then nd + 24 else 0).
    set (m1 := wr 8 (nd + off_pNext) next (wr 8 (nd + off_base) (me_base e) (wr 8 (nd + off_length) (me_length e) (smem s)))).
    assert (Hreg : forall o m, 0 <= o <= 16 -> (forall x, is_Some (smem s !! x) -> is_Some (m !! x)) -> region (nd + o) 8 m).
    { intros o m Ho Hm x Hx. apply Hm, Hr. unfold nd in Hx. lia. }
    rewrite (bind_ret_eq _ _ _ _ _ (store_ok 8 (nd + off_length) (me_length e) s (Hreg 16 _ ltac:(lia) (fun _ H => H)))).
    erewrite bind_ret_eq; [|apply store_ok, (Hreg 8); [lia|intros x Hx; rewrite smem_set_mem; by apply wr_is_Some]].
    erewrite bind_ret_eq; [|apply store_ok, (Hreg 0); [lia|intros x Hx; rewrite !smem_set_mem; by do 2 apply wr_is_Some]].
    rewrite !smem_set_mem, !set_mem_set_mem. fold next m1.
    assert (Hm1 : forall x, is_Some (smem s !! x) -> is_Some (m1 !! x)) by (intros x Hx; by do 3 apply wr_is_Some).
    destruct (IH (k + 1) (set_mem m1 s)) as (m' & E & C & F & Mp).
    + rewrite smem_set_mem. apply (memmap_ok_mem _ (smem s)); [done|]. by eapply memmap_ok_cons.
    + done.
    + lia.
    + lia.
    + exact Hp.
    + exact Hb.
    + rewrite smem_set_mem. intros x Hx. by apply Hm1, Hr.
    + change (pHead (set_mem m1 s)) with (pHead s) in *. rewrite smem_set_mem in F, Mp.
      rewrite set_mem_set_mem in E. exists m'. split; [exact E|].
      replace (pHead s + 24 * (k + 1)) with (nd + 24) in * by (unfold nd; lia).
      rewrite (proj2 (Z.eqb_neq (1 + count_usable es) 0)) by lia. split_and!.
      * split; [done|]. exists next. split.
        -- assert (Hsame : forall o, 0 <= o <= 16 -> rd 8 (nd + o) m' = rd 8 (nd + o) m1).
           { intros o Ho. apply rd_ext. intros x Hx. unfold byte_at. rewrite F; [done|]. lia. }
           unfold node_at. cbn [nd_addr nd_base nd_length]. split; [unfold nd; lia|].
           rewrite !Hsame by (unfold off_pNext, off_base, off_length; lia). unfold m1, off_pNext, off_base, off_length.
           change (256 ^ Z.of_nat 8) with (2 ^ 64). split_and!.
           ++ rewrite rd_wr_eq. change (256 ^ Z.of_nat 8) with (2 ^ 64). apply Z.mod_small. unfold next, nd. case_match; lia.
           ++ rewrite rd_wr_ne by lia. rewrite rd_wr_eq. change (256 ^ Z.of_nat 8) with (2 ^ 64). apply Z.mod_small. lia.
           ++ rewrite !rd_wr_ne by lia. rewrite rd_wr_eq. change (256 ^ Z.of_nat 8) with (2 ^ 64). apply Z.mod_small. lia.
        -- unfold first_node in C. unfold next. destruct (Z.ltb_spec k (N - 1)).
           ++ rewrite (proj2 (Z.eqb_neq _ _)) in C by lia. exact C.
           ++ rewrite (proj2 (Z.eqb_eq _ _)) in C by lia. exact C.
      * intros x Hx. rewrite F by lia. unfold m1, off_pNext, off_base, off_length. rewrite !wr_lookup_ne by lia. done.
      * intros x Hx. by apply Mp, Hm1.
Qed.
End free.

Lemma init_nodes_in n es : forall a, n ∈ init_nodes a es ->
  (exists e, e ∈ es /\ is_usable e = true /\ nd_base n = me_base e /\ nd_length n = me_length e) /\
  a <= nd_addr n /\ nd_addr n + sizeof_SlobEntry <= a + sizeof_SlobEntry * count_usable es.
Proof.
  unfold sizeof_SlobEntry. induction es as [|e es IH]; intros a; cbn [init_nodes count_usable].
  - by intros H%not_elem_of_nil.
  - pose proof (count_usable_nonneg es). destruct (is_usable e) eqn:Hu.
    + intros [->|Hn]%elem_of_cons.
      * cbn. split; [|lia]. exists e. split; [apply elem_of_cons; by left|done].
      * unfold sizeof_SlobEntry in Hn. destruct (IH _ Hn) as ((e' & He' & H') & H1 & H2). split; [|lia].
        exists e'. split; [apply elem_of_cons; by right|done].
    + intros Hn. destruct (IH _ Hn) as ((e' & He' & H') & H1 & H2). split; [|lia].
      exists e'. split; [apply elem_of_cons; by right|done].
Qed.

Lemma count_usable_carve es e size : forall j, es !! j = Some e ->
  count_usable (<[j := carved e size]> es) = count_usable es.
Proof.
  induction es as [|e1 es IH]; intros [|j] Hj; try done.
  - injection Hj as ->. done.
  - change (<[S j := carved e size]> (e1 :: es)) with (e1 :: <[j := carved e size]> es). cbn [count_usable].
    by rewrite IH.
Qed.

Lemma free_bytes_pages hhdm m es : memmap_ok hhdm m es -> forall a,
  free_bytes (init_nodes a es) = PAGE_SIZE * usable_pages es.
Proof.
  induction es as [|e es IH]; intros K a; [done|]. rewrite usable_pages_cons. cbn [init_nodes].
  specialize (IH (memmap_ok_cons _ _ _ _ K)). destruct (is_usable e) eqn:Hu; [|apply IH].
  cbn [free_bytes nd_length]. rewrite IH. destruct (mo_aligned _ _ _ K e ltac:(apply elem_of_cons; by left) Hu) as [_ Hl].
  unfold PAGE_SIZE in *. pose proof (Z.div_mod (me_length e) 4096). lia.
Qed.

(** The list is a well-formed heap with nothing handed out. *)
Lemma init_heap hhdm P es (s : slob) :
  memmap_ok hhdm (smem s) es -> 0 < hhdm < 2 ^ 64 -> vmm_higher_half_offset (slob_pmm s) = hhdm ->
  pHead s = P -> 0 < P -> P + sizeof_SlobEntry * count_usable es < 2 ^ 64 ->
  region P (sizeof_SlobEntry * count_usable es) (smem s) ->
  (forall a, in_usable es a -> ~ (P <= a + hhdm < P + sizeof_SlobEntry * count_usable es)) ->
  chain (smem s) (first_node P es) (init_nodes P es) -> 0 < count_usable es ->
  slob_heap_ns (init_nodes P es) [] (set__init 1 s).
Proof.
  intros K Hh Hv HP HP0 HPb Hr Hout Hc Hn.
  assert (Hsm : smem (set__init 1 s) = smem s) by done.
  assert (Hfree : forall n, n ∈ init_nodes P es -> 0 < nd_base n /\ 0 <= nd_length n /\
    nd_base n + nd_length n + hhdm < 2 ^ 64 /\ region (nd_base n + hhdm) (nd_length n) (smem s)).
  { intros n Hin. destruct (init_nodes_in n es P Hin) as ((e & He & Hu & -> & ->) & _).
    destruct (mo_range _ _ _ K e He Hu) as (R1 & R2 & R3). unfold me_end in R3.
    split_and!; try done; try lia. by apply (mo_mapped _ _ _ K). }
  split; cbn [slob_pmm set__init _init pHead]; rewrite ?Hsm, ?Hv; try done.
  - rewrite HP. unfold first_node in Hc. by rewrite (proj2 (Z.eqb_neq _ _)) in Hc by lia.
  - apply Forall_forall. intros n Hin. destruct (Hfree n Hin). lia.
  - intros x. unfold slob_blocks. cbn [fmap list_fmap]. rewrite !cover_app. cbn [cover].
    pose proof (cover_cells x es P) as Hcl. pose proof (cover_free hhdm (smem s) x es K P) as Hfr.
    case_decide as D; [|lia].
    assert (cover x (node_free hhdm <$> init_nodes P es) = 0%nat); [|lia].
    destruct (cover x (node_free hhdm <$> init_nodes P es)) eqn:E; [done|]. exfalso.
    apply (Hout (x - hhdm)); [|replace (x - hhdm + hhdm) with x by lia; exact D].
    apply (free_usable hhdm x es P). lia.
  - unfold slob_blocks. rewrite app_nil_r. apply Forall_app. split; apply Forall_fmap, Forall_forall; intros n Hin.
    + destruct (init_nodes_in n es P Hin) as (_ & H1 & H2). unfold block_ok, compose, node_cell. cbn [fst snd].
      unfold sizeof_SlobEntry in *. split_and!; try lia. apply (region_sub _ _ _ _ _ Hr); lia.
    + destruct (Hfree n Hin) as (? & ? & ? & ?). unfold block_ok, compose, node_free. cbn [fst snd]. split_and!; (done || lia).
Qed.

(** What memmap_alloc takes for [n] nodes. *)
Definition table_bytes (n : Z) : Z := ALIGN_UP (sizeof_SlobEntry *64 n) PAGE_SIZE.

Lemma table_bytes_ok n : 0 <= n < 2 ^ 32 ->
  0 <= sizeof_SlobEntry * n <= table_bytes n /\ table_bytes n < 2 ^ 62 /\ table_bytes n `mod` PAGE_SIZE = 0.
Proof.
  intros Hn. unfold table_bytes, sizeof_SlobEntry. rewrite u64_small by lia.
  destruct (ALIGN_UP_bounds (24 * n) PAGE_SIZE) as [? ?]; unfold PAGE_SIZE in *; lia.
Qed.

Section init.
Context (hhdm : Z) (s : slob) (room : memmap_entry).
Let es := memmap (slob_pmm s).
Let N := count_usable es.
Context (K : memmap_ok hhdm (smem s) es) (Hh : 0 < hhdm < 2 ^ 64).
Context (Hv : vmm_higher_half_offset (slob_pmm s) = hhdm).
Context (Hn : N < 2 ^ 32) (He : room ∈ es) (Hf : fits (table_bytes N) room).

Lemma slob_init_ok : exists j e mc,
  es !! j = Some e /\ fits (table_bytes N) e /\
  let es' := <[j := carved e (table_bytes N)]> es in
  let s' := Slob (carve_state j e (table_bytes N) mc (slob_pmm s)) (_init s) (me_base e + hhdm) in
  slob_init s = Ret tt s' /\ slob_heap_ns (init_nodes (me_base e + hhdm) es') [] (set__init 1 s') /\
  memmap_ok hhdm (mem mc) es' /\
  forall x, ~ (me_base e + hhdm <= x < me_base e + hhdm + table_bytes N) -> mem mc !! x = smem s !! x.
Proof.
  pose proof (count_usable_nonneg es) as HN. fold N in HN. destruct (table_bytes_ok N ltac:(lia)) as ([T0 T1] & T2 & T3).
  assert (HN1 : 0 < N) by (destruct Hf; by eapply count_usable_pos).
  destruct (memmap_alloc_loop_ok hhdm (slob_pmm s) (table_bytes N) room K ltac:(lia) Hv ltac:(lia) He Hf)
    as (j & e & mc & Hj & Fe & E & O). fold es in Hj, E.
  pose proof Fe as [Ue Le]. pose proof (list_elem_of_lookup_2 _ _ _ Hj) as Hin.
  destruct (mo_range _ _ _ K e Hin Ue) as (R1 & R2 & R3). unfold me_end in R3.
  set (es' := <[j := carved e (table_bytes N)]> es). set (P := me_base e + hhdm).
  set (s1 := Slob (carve_state j e (table_bytes N) mc (slob_pmm s)) (_init s) P).
  assert (Hcount : count_usable es' = N) by by apply count_usable_carve.
  assert (Kc : memmap_ok hhdm (smem s) es') by (apply memmap_ok_carve; (done || lia)).
  assert (K1 : memmap_ok hhdm (smem s1) es').
  { apply (memmap_ok_mem hhdm (smem s)); [|done]. intros x Hx. change (is_Some (mem mc !! x)). rewrite O.
    case_decide; [eauto|exact Hx]. }
  assert (Hr : region P (sizeof_SlobEntry * N) (smem s1)).
  { intros x Hx. change (is_Some (mem mc !! x)). rewrite O, decide_True by (unfold P in *; lia). eauto. }
  destruct (slob_init_loop_ok hhdm N es' 0 s1 K1 ltac:(lia) ltac:(lia) ltac:(lia)) as (m' & El & C & F & Mp);
    [cbn; unfold P; lia|cbn; unfold P in *; lia|exact Hr|].
  change (pHead s1) with P in C, F. rewrite Z.mul_0_r, Z.add_0_r in C, F.
  exists j, e, (Machine m' (klog mc)). split; [done|]. split; [done|]. fold es' P. cbv zeta.
  set (s' := Slob (carve_state j e (table_bytes N) (Machine m' (klog mc)) (slob_pmm s)) (_init s) P).
  assert (Es' : set_mem m' s1 = s') by done. assert (Em' : smem s' = m') by done.
  split_and!.
  - unfold slob_init. erewrite bind_ret_eq; [|reflexivity]. fold es. fold N.
    erewrite bind_ret_eq; [|unfold in_pmm, zoom, memmap_alloc; fold (table_bytes N);
      erewrite bind_ret_eq; [|reflexivity]; fold es; rewrite E; reflexivity].
    erewrite bind_ret_eq; [|reflexivity]. erewrite bind_ret_eq; [|reflexivity].
    rewrite <- Es'. exact El.
  - apply (init_heap hhdm); rewrite ?Em', ?Hcount; try done.
    + apply (memmap_ok_mem hhdm (smem s1)); done.
    + unfold P. lia.
    + unfold P. lia.
    + intros x Hx. by apply Mp, Hr.
    + intros a Ha. apply (in_usable_carve hhdm (smem s) es j e (table_bytes N)) in Ha as [_ Ha]; try done; unfold P; lia.
  - by apply (memmap_ok_mem hhdm (smem s1)).
  - intros x Hx. change (m' !! x = smem s !! x). rewrite F by (unfold P; lia).
    change (mem mc !! x = smem s !! x). by rewrite O, decide_False.
Qed.
End init.

(** A flag of the bitmap, read where the bytes are the same. *)
Lemma used_same p p' i : page_bitmap p' = page_bitmap p ->
  smem p' !! (page_bitmap p + i `div` 8) = smem p !! (page_bitmap p + i `div` 8) -> used p' i = used p i.
Proof. intros E Hm. unfold used, flag, byte_at. by rewrite E, Hm. Qed.

(** C14: the heap starts well formed, on the page allocator's own pages. After
    kmem_init, with one usable entry that has room for the nodes, slob_init
    returns; once malloc has noted it, the heap is well formed with nothing
    handed out; its free list holds exactly the bytes of the usable entries
    left in the map, from which the nodes' pages were carved. But the page
    bitmap is as it was: every page of a usable entry is still free for kalloc
    after slob_init, those on the heap's free list and those the nodes lie in
    alike. *)
Theorem slob_init_shares_pages hhdm es0 s0 (s : slob) room :
  let es := memmap (slob_pmm s) in
  let size := table_bytes (count_usable es) in
  kmem_ready hhdm es0 s0 (slob_pmm s) -> 0 < hhdm < 2 ^ 64 -> num_pages_in_map (slob_pmm s) < 2 ^ 32 ->
  count_usable es < 2 ^ 32 -> room ∈ es -> fits size room ->
  exists s' ns, slob_init s = Ret tt s' /\ slob_heap_ns ns [] (set__init 1 s') /\
    (forall a, (exists n, n ∈ ns /\ inside (a + hhdm) (node_free hhdm n)) <-> in_usable (memmap (slob_pmm s')) a) /\
    (forall a, in_usable (memmap (slob_pmm s')) a <->
       in_usable es a /\ ~ (pHead s' <= a + hhdm < pHead s' + size)) /\
    free_bytes ns = PAGE_SIZE * usable_pages (memmap (slob_pmm s')) /\
    forall i, 0 <= i < num_pages_in_map (slob_pmm s) ->
      in_usable es (lowest_address (slob_pmm s) + PAGE_SIZE * i) -> used (slob_pmm s') i = false.
Proof.
  intros es size Hk Hh Hp Hn He Hf. pose proof (kr_ok _ _ _ _ Hk) as K. pose proof (kr_hhdm _ _ _ _ Hk) as Hv.
  destruct (slob_init_ok hhdm s room K Hh Hv Hn He Hf) as (j & e & mc & Hj & [Ue Le] & E & Hheap & K' & F).
  fold es in Hj, Le, E, Hheap, K', F |- *. fold size in Le, E, Hheap, K', F |- *.
  pose proof (count_usable_nonneg es). destruct (table_bytes_ok (count_usable es) ltac:(lia)) as ([T0 T1] & T2 & T3).
  fold size in T1, T3. eexists _, _. split; [exact E|]. split; [exact Hheap|].
  cbn [slob_pmm pHead carve_state set_max_pages_available set_memmap memmap]. fold es.
  assert (Hcut : forall a, in_usable (<[j := carved e size]> es) a <-> in_usable es a /\ ~ (me_base e <= a < me_base e + size))
    by (intros a; apply (in_usable_carve hhdm (smem s) es j e size); (done || lia)).
  split_and!.
  - intros a. pose proof (free_usable hhdm (a + hhdm) (<[j := carved e size]> es) (me_base e + hhdm)) as Hfu.
    rewrite Z.add_simpl_r in Hfu. rewrite <- Hfu. split.
    + intros (n & Hin & Hx). apply (cover_in _ (node_free hhdm n)); [by apply list_elem_of_fmap_2|done].
    + intros (b & Hb & Hx)%cover_pos. apply list_elem_of_fmap in Hb as (n & -> & Hin). by exists n.
  - intros a. rewrite Hcut. split; intros [? ?]; (split; [done|lia]).
  - by apply (free_bytes_pages hhdm (mem mc)).
  - intros i Hi Hu. rewrite <- (proj2 (kr_free _ _ _ _ Hk i Hi)) by exact Hu. apply used_same; [done|].
    change (mem mc !! (page_bitmap (slob_pmm s) + i `div` 8) = smem s !! (page_bitmap (slob_pmm s) + i `div` 8)).
    apply F. intros Hin. pose proof (kr_bits _ _ _ _ Hk) as Hbits.
    set (a := page_bitmap (slob_pmm s) + i `div` 8 - hhdm).
    assert (Ha : in_usable es a).
    { exists e. split; [by eapply list_elem_of_lookup_2|]. split; [done|]. unfold me_end, a. lia. }
    apply (kr_map _ _ _ _ Hk) in Ha as (_ & Hb & _). apply Hb. unfold a.
    Z.to_euclidean_division_equations. lia.
Qed.

(** The machine of the page allocator's example: two pages for its tables, then
    one for the nodes. *)
Definition boot_map_left : list memmap_entry := [MemmapEntry 1056768 57344 0; MemmapEntry 4026531840 4096 1].
Lemma boot_map_after s0 : memmap_ok (2 ^ 47) (smem s0) boot_map -> boot s0 ->
  exists s1, kmem_ready (2 ^ 47) boot_map s0 s1 /\ num_pages_in_map s1 = 16 /\
    lowest_address s1 = 1048576 /\ memmap s1 = boot_map_left.
Proof.
  intros K B. set (e := MemmapEntry 1048576 65536 0). assert (He : e ∈ boot_map) by (apply elem_of_cons; by left).
  assert (Hspan : forall e', e' ∈ boot_map -> is_usable e' = true -> me_base e <= me_base e' /\ me_end e' <= me_end e).
  { intros e' [->|[->|[]%elem_of_nil]%elem_of_cons]%elem_of_cons; done. }
  destruct (kmem_init_ok (2 ^ 47) boot_map e e e s0 B K) as (s1 & E & Hk & _ & Hn & Hl); try done.
  destruct (kmem_init_runs (2 ^ 47) boot_map e e e s0 B K) as (j1 & e1 & mc1 & j2 & e2 & mc2 & mc3 & f & t & R); try done.
  cbv zeta in R. destruct R as (Hj1 & [U1 _] & Hj2 & [U2 _] & _ & _ & _ & _ & E'). rewrite E in E'.
  exists s1. split; [done|]. split; [exact Hn|]. split; [exact Hl|]. injection E' as ->. cbn [memmap].
  destruct j1 as [|[|j1]]; simpl in Hj1; simplify_eq.
  destruct j2 as [|[|j2]]; simpl in Hj2; simplify_eq. vm_compute. reflexivity.
Qed.

Lemma slob_init_shares_pages_witness :
  exists s s' ns, slob_init s = Ret tt s' /\ slob_heap_ns ns [] (set__init 1 s') /\
    free_bytes ns = 4096 * usable_pages (memmap (slob_pmm s')) /\ used (slob_pmm s') 5 = false.
Proof.
  assert (K : memmap_ok (2 ^ 47) (smem boot_state) boot_map) by apply boot_map_ok, region_zeros.
  destruct (boot_map_after boot_state K) as (s1 & Hk & Hn & Hl & Hm); [done|].
  revert Hk. clear K. generalize boot_state. intros s0 Hk.
  destruct (slob_init_shares_pages (2 ^ 47) boot_map s0 (Slob s1 0 0) (MemmapEntry 1056768 57344 0))
    as (s' & ns & Ei & Hh & _ & _ & Hb & Hu); cbn [slob_pmm]; rewrite ?Hm, ?Hn.
  - exact Hk.
  - lia.
  - lia.
  - cbn. lia.
  - apply elem_of_cons. by left.
  - split; [done|]. vm_compute. discriminate.
  - exists (Slob s1 0 0), s', ns. split; [exact Ei|]. split; [exact Hh|]. split; [exact Hb|].
    cbn [slob_pmm] in Hu. rewrite Hn, Hm, Hl in Hu. apply (Hu 5); [done|].
    exists (MemmapEntry 1056768 57344 0). split; [apply elem_of_cons; by left|]. split; [done|].
    unfold me_end, PAGE_SIZE. cbn. lia.
Defined.
