(* ===== verification/SlobBoot.v ===== *)
(** * alloc/slob.c: the heap from kernel_main's slob_init to the first malloc

    kernel_main calls slob_init, which leaves [_init] at zero, so the first
    malloc runs slob_init a second time. *)
From S2P Require Import Prelude Machine Math Bitmap MemLib Pmm PmmProofs PmmInit Regions Heap Slob SlobProofs SlobInit.

Section boot.
Context (hhdm : Z) (s : slob) (room : memmap_entry).
Let es := memmap (slob_pmm s).
Let N := count_usable es.
Let size := table_bytes N.
Context (K : memmap_ok hhdm (smem s) es) (Hh : 0 < hhdm < 2 ^ 64).
Context (Hv : vmm_higher_half_offset (slob_pmm s) = hhdm).
Context (Hn : N < 2 ^ 32) (He : room ∈ es) (Hf : fits (2 * size) room).

Lemma table_size : 0 <= size < 2 ^ 62 /\ size `mod` PAGE_SIZE = 0 /\ sizeof_SlobEntry * N <= size.
Proof.
  pose proof (count_usable_nonneg es). destruct (table_bytes_ok N ltac:(lia)) as ([T0 T1] & T2 & T3).
  fold size in T1, T2, T3. split_and!; (done || lia).
Qed.

(** slob_init twice in a row: the second table is carved behind what the first
    left, and the heap is the second one. *)
Lemma slob_init_twice_ok :
  exists s1 s2 ns, slob_init s = Ret tt s1 /\ slob_init s1 = Ret tt s2 /\
    slob_heap_ns ns [] (set__init 1 s2) /\ _init s1 = _init s /\
    vmm_higher_half_offset (slob_pmm s2) = hhdm /\
    usable_pages (memmap (slob_pmm s2)) = usable_pages es - 2 * (size `div` PAGE_SIZE) /\
    free_bytes ns = PAGE_SIZE * usable_pages (memmap (slob_pmm s2)) /\
    in_usable es (pHead s1 - hhdm) /\
    forall x, pHead s1 <= x < pHead s1 + size -> cover x (slob_blocks hhdm ns []) = 0%nat.
Proof.
  destruct table_size as (Ts & Ta & Tn). pose proof (count_usable_pos room es He (proj1 Hf)) as HN. fold N in HN.
  unfold sizeof_SlobEntry in *.
  destruct (slob_init_ok hhdm s room K Hh Hv Hn He ltac:(destruct Hf; split; [done|fold es N size; lia]))
    as (j & e & mc & Hj & Fe & E1 & _ & K1 & _).
  fold es N size in Hj, Fe, E1, K1. pose proof Fe as [Ue Le].
  destruct (mo_range _ _ _ K e (list_elem_of_lookup_2 _ _ _ Hj) Ue) as (R1 & R2 & R3). unfold me_end in R3.
  destruct (fits_after_carve es j room e size size He ltac:(destruct Hf; split; [done|lia]) Hj Fe) as (room' & He' & Hf'); [lia..|].
  set (es1 := <[j := carved e size]> es) in *. set (s1 := Slob (carve_state j e size mc (slob_pmm s)) (_init s) (me_base e + hhdm)) in *.
  assert (Hc1 : count_usable es1 = N) by (by apply count_usable_carve).
  assert (Em1 : memmap (slob_pmm s1) = es1) by reflexivity.
  assert (HH := slob_init_ok hhdm s1 room' K1 Hh Hv). change (memmap (slob_pmm s1)) with es1 in HH.
  rewrite Hc1 in HH. fold size in HH. destruct HH as (j2 & e2 & mc2 & Hj2 & Fe2 & E2 & Hheap & K2 & _); [done..|].
  pose proof Fe2 as [Ue2 Le2].
  set (es2 := <[j2 := carved e2 size]> es1) in *.
  set (s2 := Slob (carve_state j2 e2 size mc2 (slob_pmm s1)) (_init s1) (me_base e2 + hhdm)) in *.
  exists s1, s2, (init_nodes (me_base e2 + hhdm) es2). split; [exact E1|]. split; [exact E2|]. split; [exact Hheap|]. split; [done|]. split; [exact Hv|].
  assert (Hin2 : forall a, in_usable es2 a <-> in_usable es1 a /\ ~ (me_base e2 <= a < me_base e2 + size))
    by (intros a; apply (in_usable_carve hhdm (mem mc) es1 j2 e2 size); (done || lia)).
  assert (Hin1 : forall a, in_usable es1 a <-> in_usable es a /\ ~ (me_base e <= a < me_base e + size))
    by (intros a; apply (in_usable_carve hhdm (smem s) es j e size); (done || lia)).
  split_and!.
  - change (memmap (slob_pmm s2)) with es2.
    pose proof (usable_pages_carve hhdm (mem mc) es1 j2 e2 size K1 Hj2 Ue2 ltac:(lia) ltac:(lia) Ta) as P2.
    pose proof (usable_pages_carve hhdm (smem s) es j e size K Hj Ue ltac:(lia) ltac:(lia) Ta) as P1.
    fold es2 in P2. fold es1 in P1. lia.
  - by apply (free_bytes_pages hhdm (mem mc2)).
  - exists e. split; [by apply list_elem_of_lookup_2 in Hj|]. split; [done|]. cbn [pHead s1]. unfold me_end. lia.
  - intros x Hx. cbn [pHead s1] in Hx.
    assert (Hno : ~ in_usable es1 (x - hhdm)) by (rewrite Hin1; intros [_ Hout]; apply Hout; lia).
    unfold slob_blocks. rewrite !cover_app. cbn [fmap list_fmap cover].
    pose proof (cover_cells x es2 (me_base e2 + hhdm)) as Hcells.
    assert (Hc2 : count_usable es2 = N) by (unfold es2; by rewrite (count_usable_carve es1 e2 size j2 Hj2)).
    rewrite Hc2 in Hcells. unfold sizeof_SlobEntry in Hcells. rewrite decide_False in Hcells.
    + assert (Hfree : cover x (node_free hhdm <$> init_nodes (me_base e2 + hhdm) es2) = 0%nat); [|lia].
      destruct (cover x (node_free hhdm <$> init_nodes (me_base e2 + hhdm) es2)) eqn:E; [done|]. exfalso. apply Hno, Hin2.
      apply (free_usable hhdm x es2 (me_base e2 + hhdm)). lia.
    + intros Hin. apply Hno. exists e2. split; [by apply list_elem_of_lookup_2 in Hj2|]. split; [done|].
      unfold me_end. lia.
Qed.
End boot.

(** C29: the first malloc builds the heap again. kernel_main's slob_init leaves
    [_init] at zero, so the first request carves a second table of free-list
    nodes and rebuilds the list behind it. With one usable entry that has room
    for both tables, the request is then served first fit from the second list
    and leaves a well-formed heap that has handed out that one block, or returns
    NULL on a heap with nothing handed out. The heap has lost the pages of two
    tables instead of one: the bytes of the first, which are usable memory of
    the map, belong to no node, free region or block any more. *)
Theorem first_malloc_builds_again hhdm (s : slob) room n :
  let es := memmap (slob_pmm s) in
  let size := table_bytes (count_usable es) in
  memmap_ok hhdm (smem s) es -> 0 < hhdm < 2 ^ 64 -> vmm_higher_half_offset (slob_pmm s) = hhdm ->
  count_usable es < 2 ^ 32 -> room ∈ es -> fits (2 * size) room ->
  _init s = 0 -> 0 <= n -> n + 8 < 2 ^ 64 ->
  exists s1 s2 ns, slob_init s = Ret tt s1 /\
    free_bytes ns = PAGE_SIZE * (usable_pages es - 2 * (size `div` PAGE_SIZE)) /\
    (in_usable es (pHead s1 - hhdm) /\
     forall x, pHead s1 <= x < pHead s1 + size -> cover x (slob_blocks hhdm ns []) = 0%nat) /\
    match first_fit (n + 8) ns with
    | None => malloc n s1 = Ret 0 s2 /\ slob_heap_ns ns [] s2
    | Some (k, ns') =>
        let p := nd_base k + hhdm + 8 in
        malloc n s1 = Ret p s2 /\ slob_heap_ns ns' [(p, n)] s2
    end.
Proof.
  intros es size K Hh Hv Hn He Hf Hi Hn0 Hn1.
  destruct (slob_init_twice_ok hhdm s room K Hh Hv Hn He Hf) as (s1 & s2 & ns & E1 & E2 & Hheap & Hi1 & Hv2 & Hu & Hb & Hin & Hleak).
  assert (Em : malloc n s1 = slob_malloc n (set__init 1 s2)).
  { rewrite (slob_malloc_init_eq (set__init 1 s2)) by done. unfold malloc, slob_malloc.
    erewrite bind_ret_eq; [|reflexivity]. rewrite Hi1, Hi. cbn [Z.eqb].
    erewrite bind_ret_eq; [reflexivity|]. erewrite bind_ret_eq; [|exact E2]. reflexivity. }
  pose proof (slob_malloc_ok ns [] (set__init 1 s2) n Hheap Hn0 Hn1) as Hm.
  destruct (first_fit (n + 8) ns) as [[k ns']|] eqn:Ef.
  - destruct Hm as (s3 & E3 & Hs3 & _). change (vmm_higher_half_offset (slob_pmm (set__init 1 s2))) with (vmm_higher_half_offset (slob_pmm s2)) in E3, Hs3.
    rewrite Hv2 in E3, Hs3.
    exists s1, s3, ns. rewrite Ef. cbv zeta. rewrite Em, Hb, Hu. split_and!; done.
  - destruct Hm as (s3 & E3 & _ & Hs3).
    exists s1, s3, ns. rewrite Ef. cbv zeta. rewrite Em, Hb, Hu. split_and!; done.
Qed.

(** The example machine's map has room for both tables; a device record of 37
    bytes is the first request. *)
Lemma first_malloc_builds_again_witness :
  exists s s1 s2 ns p, slob_init s = Ret tt s1 /\ free_bytes ns = 4096 * 12 /\
    malloc 37 s1 = Ret p s2 /\ (p <> 0 -> exists ns', slob_heap_ns ns' [(p, 37)] s2).
Proof.
  assert (K : memmap_ok (2 ^ 47) (smem boot_state) boot_map) by apply boot_map_ok, region_zeros.
  destruct (boot_map_after boot_state K) as (s0 & Hk & _ & _ & Hm); [done|].
  revert Hk. clear K. generalize boot_state. intros b0 Hk.
  destruct (first_malloc_builds_again (2 ^ 47) (Slob s0 0 0) (MemmapEntry 1056768 57344 0) 37)
    as (s1 & s2 & ns & E1 & Hb & _ & Hf); cbn [slob_pmm]; rewrite ?Hm.
  - rewrite <- Hm. exact (kr_ok _ _ _ _ Hk).
  - lia.
  - exact (kr_hhdm _ _ _ _ Hk).
  - cbn. lia.
  - apply elem_of_cons. by left.
  - split; [done|]. vm_compute. discriminate.
  - done.
  - lia.
  - lia.
  - cbn [slob_pmm] in Hb. rewrite Hm in Hb. exists (Slob s0 0 0), s1, s2, ns.
    destruct (first_fit (37 + 8) ns) as [[k ns']|].
    + destruct Hf as [Ef Hh]. exists (nd_base k + 2 ^ 47 + 8). split; [exact E1|]. split; [rewrite Hb; vm_compute; reflexivity|].
      split; [exact Ef|]. intros _. by exists ns'.
    + destruct Hf as [Ef Hh]. exists 0. split; [exact E1|]. split; [rewrite Hb; vm_compute; reflexivity|].
      split; [exact Ef|]. done.
Defined.
