(* ===== verification/Queue.v ===== *)
(** * lib/queue.c: the circular queue

    The queue is a packed struct and its buffer, next to each other in one
    block of the kernel heap; the heap is used through its interface. *)
From S2P Require Import Prelude Machine Atomic Regions Heap.

(** CQueue_t, packed. *)
Definition off_read_i : Z := 0.
Definition off_write_i : Z := 4.
Definition off_buff : Z := 8.
Definition off_len : Z := 16.
Definition off_num_items : Z := 20.
Definition off_lock : Z := 24.
Definition sizeof_CQueue : Z := 25.

Section queue.
Context `{HasMachine St}.

Definition cqueue_create `{!Heap St} (len : Z) : M St Z :=
  q ← h_malloc (sizeof_CQueue +64 (4 *64 len));
  let buff := q +64 sizeof_CQueue in
  store 8 (q + off_buff) buff ;;
  store 4 (q + off_len) len ;;
  store 4 (q + off_read_i) 0 ;;
  store 4 (q + off_write_i) 0 ;;
  store 4 (q + off_num_items) 0 ;;
  mret q.

Definition cqueue_write (q val : Z) : M St bool :=
  spinlock_lock (tas_mem (q + off_lock)) ;;
  num_items ← load 4 (q + off_num_items);
  len ← load 4 (q + off_len);
  if num_items =? len then
    spinlock_unlock_mem (q + off_lock) ;;
    mret false
  else
    buff ← load 8 (q + off_buff);
    write_i ← load 4 (q + off_write_i);
    store 4 (buff + 4 * write_i) val ;;
    write_i ← load 4 (q + off_write_i);
    store 4 (q + off_write_i) (write_i +32 1) ;;
    write_i ← load 4 (q + off_write_i);
    len ← load 4 (q + off_len);
    (if write_i =? len then store 4 (q + off_write_i) 0 else mret tt) ;;
    spinlock_unlock_mem (q + off_lock) ;;
    num_items ← load 4 (q + off_num_items);
    store 4 (q + off_num_items) (num_items +32 1) ;;
    mret true.

Definition cqueue_read (q : Z) : M St Z :=
  spinlock_lock (tas_mem (q + off_lock)) ;;
  num_items ← load 4 (q + off_num_items);
  if num_items =? 0 then
    kprintf "FATAL: Attempted to dequeue without first checking 'num_items' > 0." [] ;;
    hcf
  else
    buff ← load 8 (q + off_buff);
    read_i ← load 4 (q + off_read_i);
    val ← load 4 (buff + 4 * read_i);
    read_i ← load 4 (q + off_read_i);
    store 4 (q + off_read_i) (read_i +32 1) ;;
    read_i ← load 4 (q + off_read_i);
    len ← load 4 (q + off_len);
    (if read_i =? len then store 4 (q + off_read_i) 0 else mret tt) ;;
    num_items ← load 4 (q + off_num_items);
    store 4 (q + off_num_items) (num_items -32 1) ;;
    spinlock_unlock_mem (q + off_lock) ;;
    mret val.
End queue.

(** ** The abstract queue a block of memory represents *)

(** [queue_at m q len items]: the block at [q] is a well-formed, unlocked queue
    of capacity [len] holding [items], oldest first. *)
Record queue_at (m : memory) (q len : Z) (items : list Z) : Prop := {
  qa_q : 0 < q /\ q + sizeof_CQueue + 4 * len < 2 ^ 64;
  qa_region : region q (sizeof_CQueue + 4 * len) m;
  qa_len : 0 < len < 2 ^ 32 /\ rd 4 (q + off_len) m = len;
  qa_buff : rd 8 (q + off_buff) m = q + sizeof_CQueue;
  qa_num : Z.of_nat (length items) <= len /\ rd 4 (q + off_num_items) m = Z.of_nat (length items);
  qa_read : rd 4 (q + off_read_i) m < len;
  qa_write : rd 4 (q + off_write_i) m =
    (rd 4 (q + off_read_i) m + Z.of_nat (length items)) `mod` len;
  qa_items : forall i v, items !! i = Some v ->
    rd 4 (q + sizeof_CQueue + 4 * ((rd 4 (q + off_read_i) m + Z.of_nat i) `mod` len)) m = v;
  qa_lock : rd 1 (q + off_lock) m = 0
}.

(** ** Facts *)

Lemma mod_wrap x len : 0 <= x < 2 * len -> x `mod` len = if x <? len then x else x - len.
Proof.
  intros Hx. destruct (Z.ltb_spec x len); [apply Z.mod_small; lia|].
  symmetry. apply Z.mod_unique with 1; lia.
Qed.

Ltac unfold_offs :=
  unfold off_read_i, off_write_i, off_buff, off_len, off_num_items, off_lock, sizeof_CQueue in *.

Section queue_facts.
Context `{HasMachine St}.
Implicit Type s : St.

(** [n] bytes at [a] outside the queue's block. *)
Definition off_queue (q len x : Z) : Prop := x < q \/ q + sizeof_CQueue + 4 * len <= x.

Lemma tas_mem_ok a s :
  region a 1 (smem s) ->
  spinlock_lock (tas_mem a) s =
    if rd 1 a (smem s) =? 0 then Ret tt (set_mem (wr 1 a 1 (smem s)) s)
    else Spin (set_mem (wr 1 a 1 (smem s)) s).
Proof.
  intros Hr. unfold spinlock_lock, tas_mem.
  erewrite bind_ret_eq; [|erewrite bind_ret_eq; [|by apply load_ok];
    erewrite bind_ret_eq; [|by apply store_ok]; reflexivity].
  by destruct (rd 1 a (smem s) =? 0).
Qed.

Context (q len : Z) (items : list Z).

(** The lock is taken at the start of every operation. *)
Lemma queue_lock_ok m s :
  smem s = m -> queue_at m q len items ->
  spinlock_lock (tas_mem (q + off_lock)) s = Ret tt (set_mem (wr 1 (q + off_lock) 1 m) s).
Proof.
  intros <- H1. pose proof (qa_lock _ _ _ _ H1) as Hl. pose proof (qa_region _ _ _ _ H1) as Hr.
  pose proof (qa_len _ _ _ _ H1) as [? _]. unfold_offs.
  rewrite tas_mem_ok by mregion. by rewrite Hl.
Qed.

Lemma cqueue_write_full val s :
  queue_at (smem s) q len items -> Z.of_nat (length items) = len ->
  exists s', cqueue_write q val s = Ret false s' /\ queue_at (smem s') q len items /\
    (forall x, off_queue q len x -> smem s' !! x = smem s !! x).
Proof.
  intros Hqa Hfull. unfold cqueue_write.
  rewrite (bind_ret_eq _ _ _ _ _ (queue_lock_ok _ s eq_refl Hqa)).
  destruct Hqa as [[Hq0 Hq] Hr [Hl Hlen] Hbuff [Hn Hnum] Hri Hwi Hit Hlock].
  pose proof (rd_range 4 (q + off_read_i) (smem s)) as Hri0.
  unfold spinlock_unlock_mem. unfold_offs.
  do 2 mstep. rdsimp. rewrite Hnum, Hlen, Hfull, Z.eqb_refl.
  mstep. eexists. split; [done|]. rewrite smem_set_mem. split.
  - split; unfold_offs; rdsimp; try done.
    + by do 2 apply region_wr.
    + intros i v Hi. rewrite <- (Hit i v Hi). apply lookup_lt_Some in Hi.
      rewrite mod_wrap by lia.
      destruct (Z.ltb_spec (rd 4 (q + 0) (smem s) + Z.of_nat i) len); by rdsimp.
  - intros x Hx. unfold off_queue in Hx. unfold_offs. rewrite !wr_lookup_ne by lia. done.
Qed.

Lemma cqueue_write_room val s :
  queue_at (smem s) q len items -> Z.of_nat (length items) < len -> is_u32 val ->
  exists s', cqueue_write q val s = Ret true s' /\ queue_at (smem s') q len (items ++ [val]) /\
    (forall x, off_queue q len x -> smem s' !! x = smem s !! x).
Proof.
  intros Hqa Hroom Hval. unfold cqueue_write.
  rewrite (bind_ret_eq _ _ _ _ _ (queue_lock_ok _ s eq_refl Hqa)).
  destruct Hqa as [[Hq0 Hq] Hr [Hl Hlen] Hbuff [Hn Hnum] Hri Hwi Hit Hlock].
  pose proof (rd_range 4 (q + off_read_i) (smem s)) as [Hri0 _].
  unfold spinlock_unlock_mem. unfold_offs.
  do 2 mstep. rdsimp. rewrite Hnum, Hlen. rewrite (proj2 (Z.eqb_neq _ _)) by lia.
  mstep. mstep. rdsimp. rewrite Hbuff.
  set (r := rd 4 (q + 0) (smem s)) in *. set (n := Z.of_nat (length items)) in *.
  set (w := rd 4 (q + 4) (smem s)) in *.
  assert (Hw : w = if r + n <? len then r + n else r + n - len) by (rewrite Hwi; apply mod_wrap; lia).
  assert (Hw' : 0 <= w < len) by (rewrite Hwi; apply Z.mod_pos_bound; lia).
  mstep. mstep. rdsimp. fold w. mstep. rewrite u32_small by lia.
  mstep. rdsimp. change (256 ^ Z.of_nat 4) with (2 ^ 32). rewrite (Z.mod_small (w + 1)) by lia.
  mstep. rdsimp. rewrite Hlen.
  set (w' := if w + 1 =? len then 0 else w + 1).
  set (m1 := wr 4 (q + 25 + 4 * w) val (wr 1 (q + 24) 1 (smem s))).
  rewrite (bind_ret_eq _ _ _ tt (set_mem (wr 4 (q + 4) w' m1) s)).
  2: { unfold w'. destruct (w + 1 =? len); [|done].
       rewrite store_ok by (unfold m1; mregion). by rewrite smem_set_mem, set_mem_set_mem, wr_wr_eq. }
  assert (Hr1 : region q (25 + 4 * len) m1) by (unfold m1; by do 2 apply region_wr).
  mstep. mstep. unfold m1. rdsimp. rewrite Hnum. fold m1. mstep. rewrite u32_small by lia.
  eexists. split; [done|]. rewrite smem_set_mem.
  assert (Hw2 : w' = (r + (n + 1)) `mod` len).
  { rewrite mod_wrap by lia. unfold w'. destruct (Z.ltb_spec (r + (n + 1)) len);
      destruct (Z.eqb_spec (w + 1) len); destruct (Z.ltb_spec (r + n) len); lia. }
  split.
  - unfold m1. split; unfold_offs; rdsimp; try done.
    + by do 3 apply region_wr.
    + rewrite length_app. cbn [length]. fold n. change (256 ^ Z.of_nat 4) with (2 ^ 32).
      split; [lia|]. rewrite Z.mod_small; lia.
    + rewrite length_app. cbn [length]. fold r.
      replace (Z.of_nat (length items + 1)) with (n + 1) by lia. rewrite <- Hw2.
      change (256 ^ Z.of_nat 4) with (2 ^ 32). apply Z.mod_small. unfold w'. destruct (Z.eqb_spec (w + 1) len); lia.
    + fold r. intros i v Hi. apply lookup_app_Some in Hi as [Hi|[Hi Hv]].
      * rewrite <- (Hit i v Hi). apply lookup_lt_Some in Hi.
        assert (Hx : (r + Z.of_nat i) `mod` len <> w /\ 0 <= (r + Z.of_nat i) `mod` len < len).
        { split; [|apply Z.mod_pos_bound; lia]. rewrite mod_wrap by lia.
          destruct (Z.ltb_spec (r + Z.of_nat i) len), (Z.ltb_spec (r + n) len); lia. }
        by rdsimp.
      * apply list_lookup_singleton_Some in Hv as [Hi0 <-].
        replace (Z.of_nat i) with n by lia. rewrite <- Hwi. rdsimp.
        change (256 ^ Z.of_nat 4) with (2 ^ 32). by apply Z.mod_small.
  - intros x Hx. unfold m1, off_queue in *. unfold_offs. by rewrite !wr_lookup_ne by lia.
Qed.

Lemma cqueue_read_ok v s :
  queue_at (smem s) q len (v :: items) ->
  exists s', cqueue_read q s = Ret v s' /\ queue_at (smem s') q len items /\
    (forall x, off_queue q len x -> smem s' !! x = smem s !! x).
Proof.
  intros Hqa. unfold cqueue_read.
  assert (Elock : spinlock_lock (tas_mem (q + off_lock)) s =
    Ret tt (set_mem (wr 1 (q + off_lock) 1 (smem s)) s)).
  { rewrite tas_mem_ok.
    - by rewrite (qa_lock _ _ _ _ Hqa).
    - pose proof (qa_region _ _ _ _ Hqa). pose proof (qa_len _ _ _ _ Hqa). unfold_offs. mregion. }
  rewrite (bind_ret_eq _ _ _ _ _ Elock).
  destruct Hqa as [[Hq0 Hq] Hr [Hl Hlen] Hbuff [Hn Hnum] Hri Hwi Hit Hlock].
  pose proof (rd_range 4 (q + off_read_i) (smem s)) as [Hri0 _].
  unfold spinlock_unlock_mem. unfold_offs. cbn [length] in *.
  mstep. rdsimp. rewrite Hnum. rewrite (proj2 (Z.eqb_neq _ _)) by lia.
  mstep. mstep. rdsimp. rewrite Hbuff.
  set (r := rd 4 (q + 0) (smem s)) in *. set (n := Z.of_nat (length items)) in *.
  mstep. rdsimp. mstep. rdsimp. fold r. mstep. rewrite u32_small by lia.
  mstep. rdsimp. change (256 ^ Z.of_nat 4) with (2 ^ 32). rewrite (Z.mod_small (r + 1)) by lia.
  mstep. rdsimp. rewrite Hlen.
  set (r' := if r + 1 =? len then 0 else r + 1).
  set (m1 := wr 1 (q + 24) 1 (smem s)).
  rewrite (bind_ret_eq _ _ _ tt (set_mem (wr 4 (q + 0) r' m1) s)).
  2: { unfold r'. destruct (r + 1 =? len); [|done].
       rewrite store_ok by (unfold m1; mregion). by rewrite smem_set_mem, set_mem_set_mem, wr_wr_eq. }
  assert (Hr1 : region q (25 + 4 * len) m1) by (unfold m1; by apply region_wr).
  mstep. unfold m1. rdsimp. rewrite Hnum. fold m1. rewrite u32_small by lia. mstep. mstep.
  assert (Hr2 : r' = (r + 1) `mod` len).
  { rewrite mod_wrap by lia. unfold r'.
    destruct (Z.ltb_spec (r + 1) len), (Z.eqb_spec (r + 1) len); lia. }
  assert (Hr3 : 0 <= r' < len) by (rewrite Hr2; apply Z.mod_pos_bound; lia).
  assert (Hshift : forall k, (r' + k) `mod` len = (r + (k + 1)) `mod` len).
  { intros k. rewrite Hr2, Z.add_mod_idemp_l by lia. f_equal. lia. }
  eexists. split.
  - cbn [mret M_ret]. f_equal. rewrite <- (Hit O v eq_refl). rewrite Z.add_0_r, Z.mod_small by lia. done.
  - rewrite smem_set_mem. split.
    + unfold m1. split; unfold_offs; rdsimp; try done.
      * by do 4 apply region_wr.
      * fold n. change (256 ^ Z.of_nat 4) with (2 ^ 32). split; [lia|]. rewrite Z.mod_small; lia.
      * change (256 ^ Z.of_nat 4) with (2 ^ 32). rewrite Z.mod_small; lia.
      * change (256 ^ Z.of_nat 4) with (2 ^ 32). rewrite (Z.mod_small r') by lia.
        fold n. rewrite Hshift, Hwi. do 2 f_equal. lia.
      * change (256 ^ Z.of_nat 4) with (2 ^ 32). rewrite (Z.mod_small r') by lia.
        intros i x Hi. specialize (Hit (S i) x Hi). rewrite Hshift.
        replace (Z.of_nat i + 1) with (Z.of_nat (S i)) by lia. rewrite <- Hit.
        assert (0 <= (r + Z.of_nat (S i)) `mod` len < len) by (apply Z.mod_pos_bound; lia).
        by rdsimp.
    + intros x Hx. unfold m1, off_queue in *. unfold_offs. by rewrite !wr_lookup_ne by lia.
Qed.

Lemma cqueue_read_empty s :
  queue_at (smem s) q len [] -> exists s', cqueue_read q s = Halted s'.
Proof.
  intros Hqa. unfold cqueue_read.
  erewrite bind_ret_eq.
  2: { rewrite tas_mem_ok.
       - by rewrite (qa_lock _ _ _ _ Hqa).
       - pose proof (qa_region _ _ _ _ Hqa). pose proof (qa_len _ _ _ _ Hqa). unfold_offs. mregion. }
  destruct Hqa as [_ Hr [Hl _] _ [_ Hnum] _ _ _ _]. unfold_offs. cbn [length] in *.
  mstep. rdsimp. rewrite Hnum. eexists. reflexivity.
Qed.

(** Whoever finds the lock byte set spins. *)
Lemma cqueue_locked s :
  region (q + off_lock) 1 (smem s) -> rd 1 (q + off_lock) (smem s) <> 0 ->
  (forall v, exists s', cqueue_write q v s = Spin s') /\ exists s', cqueue_read q s = Spin s'.
Proof.
  intros Hr Hl. pose proof (tas_mem_ok (q + off_lock) s Hr) as E.
  rewrite (proj2 (Z.eqb_neq _ _) Hl) in E.
  split; [intros v|]; eexists; unfold cqueue_write, cqueue_read; unfold mbind at 1, M_bind at 1;
    rewrite E; reflexivity.
Qed.
End queue_facts.

(** ** The abstract specification: a bounded first-in first-out list *)

Inductive queue_op := QWrite (v : Z) | QRead.
Inductive queue_result := QWrote (ok : bool) | QGot (v : Z).

(** [None]: the operation stops the machine. *)
Definition spec_op (cap : Z) (o : queue_op) (items : list Z) : option (queue_result * list Z) :=
  match o, items with
  | QWrite v, _ => if Z.of_nat (length items) =? cap then Some (QWrote false, items)
                   else Some (QWrote true, items ++ [v])
  | QRead, [] => None
  | QRead, v :: items' => Some (QGot v, items')
  end.
Fixpoint spec_run (cap : Z) (os : list queue_op) (items : list Z)
    : option (list queue_result * list Z) :=
  match os with
  | [] => Some ([], items)
  | o :: os' =>
      '(r, items1) ← spec_op cap o items;
      '(rs, items2) ← spec_run cap os' items1;
      Some (r :: rs, items2)
  end.

Section queue_run.
Context `{HasMachine St}.

Definition queue_do (q : Z) (o : queue_op) : M St queue_result :=
  match o with
  | QWrite v => b ← cqueue_write q v; mret (QWrote b)
  | QRead => v ← cqueue_read q; mret (QGot v)
  end.
Fixpoint queue_run (q : Z) (os : list queue_op) : M St (list queue_result) :=
  match os with
  | [] => mret []
  | o :: os' => r ← queue_do q o; rs ← queue_run q os'; mret (r :: rs)
  end.
Definition queue_op_ok (o : queue_op) : Prop :=
  match o with QWrite v => is_u32 v | QRead => True end.

Lemma queue_do_ok q len items o (s : St) :
  queue_at (smem s) q len items -> queue_op_ok o ->
  match spec_op len o items with
  | Some (r, items') => exists s', queue_do q o s = Ret r s' /\
      queue_at (smem s') q len items' /\
      (forall x, off_queue q len x -> smem s' !! x = smem s !! x)
  | None => exists s', queue_do q o s = Halted s'
  end.
Proof.
  intros Hq Ho. destruct o as [v|]; cbn [spec_op queue_do].
  - destruct (Z.eqb_spec (Z.of_nat (length items)) len) as [Hf|Hf].
    + destruct (cqueue_write_full q len items v s Hq Hf) as (s' & E & ?).
      exists s'. by rewrite (bind_ret_eq _ _ _ _ _ E).
    + pose proof (proj1 (qa_num _ _ _ _ Hq)).
      destruct (cqueue_write_room q len items v s Hq) as (s' & E & ?); [lia|done|].
      exists s'. by rewrite (bind_ret_eq _ _ _ _ _ E).
  - destruct items as [|v items].
    + destruct (cqueue_read_empty q len s Hq) as (s' & E). exists s'.
      unfold mbind, M_bind. by rewrite E.
    + destruct (cqueue_read_ok q len items v s Hq) as (s' & E & ?).
      exists s'. by rewrite (bind_ret_eq _ _ _ _ _ E).
Qed.

(** A new queue, before its lock byte is known. *)
Lemma cqueue_create_ok `{!Heap St} live (len q : Z) (s s1 : St) :
  heap live s -> 0 < len < 2 ^ 32 ->
  h_malloc (sizeof_CQueue + 4 * len) s = Ret q s1 -> q <> 0 ->
  exists s', cqueue_create len s = Ret q s' /\ heap ((q, sizeof_CQueue + 4 * len) :: live) s' /\
    region q (sizeof_CQueue + 4 * len) (smem s') /\
    (rd 1 (q + off_lock) (smem s') = 0 -> queue_at (smem s') q len []) /\
    rd 1 (q + off_lock) (smem s') = rd 1 (q + off_lock) (smem s1) /\
    s' = set_mem (smem s') s1 /\ (forall x, off_queue q len x -> smem s' !! x = smem s1 !! x) /\
    (forall x, is_Some (smem s1 !! x) -> is_Some (smem s' !! x)).
Proof.
  intros Hh Hlen E Hq. unfold sizeof_CQueue in *.
  destruct (malloc_ok live s (25 + 4 * len) Hh) as (q0 & s0 & E0 & Hcase & _); [lia|lia|].
  rewrite E in E0. injection E0 as <- <-.
  destruct Hcase as [[-> _]|[_ Hh1]]; [done|].
  destruct (heap_live _ _ Hh1) as [Hd Hok]. apply Forall_cons in Hok as [(Q1 & Q2 & Q3 & Hr) _].
  cbn [fst snd] in *.
  unfold cqueue_create. unfold_offs. rewrite !u64_small by (try rewrite u64_small by lia; lia).
  rewrite (bind_ret_eq _ _ _ _ _ E). rewrite u64_small by lia.
  do 5 mstep. eexists. split; [done|]. set (m := wr 4 (q + 20) 0 _).
  assert (Hsame : forall x, ~ inside x (q, 25 + 4 * len) -> m !! x = smem s1 !! x).
  { unfold inside. cbn [fst snd]. intros x Hx. unfold m. by rewrite !wr_lookup_ne by lia. }
  split_and!.
  - apply (heap_frame _ s1 (Machine m (klog (get_mach s1)))); [done| |].
    + intros x Hx. apply Hsame. intros Hin. cbn [cover] in Hx.
      rewrite decide_True in Hx by done. lia.
    + intros x Hx. unfold m. by repeat apply wr_is_Some.
  - rewrite smem_set_mem. unfold m. by repeat apply region_wr.
  - rewrite smem_set_mem. intros Hl. unfold m in *.
    split; unfold_offs; rdsimp; change (0 `mod` 256 ^ Z.of_nat 4) with 0; cbn [length].
    + lia.
    + by repeat apply region_wr.
    + split; [done|]. apply Z.mod_small. lia.
    + apply Z.mod_small. change (256 ^ Z.of_nat 8) with (2 ^ 64). lia.
    + lia.
    + lia.
    + rewrite Z.mod_small; lia.
    + intros i v Hi. by rewrite lookup_nil in Hi.
    + rewrite <- Hl. by rdsimp.
  - rewrite smem_set_mem. unfold m. by rdsimp.
  - by rewrite smem_set_mem.
  - intros x Hx. rewrite smem_set_mem. apply Hsame. unfold inside, off_queue, sizeof_CQueue in *. cbn [fst snd]. lia.
  - intros x Hx. rewrite smem_set_mem. unfold m. by repeat apply wr_is_Some.
Qed.
End queue_run.
