(* ===== verification/QueueProps.v ===== *)
(** * lib/queue.c: the properties of the circular queue *)
From S2P Require Import Prelude Machine Atomic Pmm Regions Heap Slob SlobProofs SlobProps Queue.

(** A queue of capacity 3 at address 4096 whose read cursor is 2 and which
    holds 7 and 8, the second one wrapped around to cell 0. *)
Definition demo_queue : pmm :=
  Pmm (Machine
    (wr 4 (4096 + 25) 8 (wr 4 (4096 + 33) 7 (wr 4 (4096 + 20) 2 (wr 4 (4096 + 16) 3
      (wr 8 (4096 + 8) (4096 + 25) (wr 4 (4096 + 4) 1 (wr 4 4096 2 (zeros 4096 37)))))))) [])
    0 0 0 [] 0 0 0 0 0 0 0 0.
Lemma demo_queue_at : queue_at (smem demo_queue) 4096 3 [7; 8].
Proof.
  split; [done| |by vm_compute|by vm_compute|by vm_compute|by vm_compute|by vm_compute| |by vm_compute].
  - change (smem demo_queue) with (mem (pmm_mach demo_queue)). cbn [demo_queue pmm_mach mem].
    repeat apply region_wr. apply region_zeros.
  - intros [|[|i]] v Hi; [injection Hi as <-; by vm_compute|injection Hi as <-; by vm_compute|done].
Qed.

(** C7: the circular buffer refines a bounded first-in first-out list. From
    any well-formed, unlocked queue, every sequence of writes and reads gives
    exactly the results of the abstract list of that capacity (a write to a
    full queue returns false and is dropped; a read returns the oldest value)
    and leaves a queue holding the abstract contents, touching no memory outside
    its own block; it halts exactly where the abstract run reads from an empty
    list. *)
Theorem queue_refines_fifo `{HasMachine St} q len os : forall items (s : St),
  queue_at (smem s) q len items -> Forall queue_op_ok os ->
  match spec_run len os items with
  | Some (rs, items') => exists s', queue_run q os s = Ret rs s' /\
      queue_at (smem s') q len items' /\
      (forall x, off_queue q len x -> smem s' !! x = smem s !! x)
  | None => exists s', queue_run q os s = Halted s'
  end.
Proof.
  induction os as [|o os IH]; intros items s Hq Hos; cbn [spec_run queue_run]; [by exists s|].
  apply Forall_cons in Hos as [Ho Hos]. pose proof (queue_do_ok q len items o s Hq Ho) as Hdo.
  destruct (spec_op len o items) as [[r items1]|]; cbn [mbind option_bind].
  - destruct Hdo as (s1 & E1 & Hq1 & Hsame1). rewrite (bind_ret_eq _ _ _ _ _ E1).
    specialize (IH items1 s1 Hq1 Hos). destruct (spec_run len os items1) as [[rs items2]|];
      cbn [mbind option_bind].
    + destruct IH as (s2 & E2 & Hq2 & Hsame2). exists s2. rewrite (bind_ret_eq _ _ _ _ _ E2).
      split_and!; [done|done|]. intros x Hx. by rewrite Hsame2, Hsame1.
    + destruct IH as (s2 & E2). exists s2. unfold mbind, M_bind. by rewrite E2.
  - destruct Hdo as (s1 & E1). exists s1. unfold mbind, M_bind. by rewrite E1.
Qed.

Lemma queue_refines_fifo_witness :
  exists s', queue_run 4096 [QWrite 9; QWrite 10; QRead; QRead; QWrite 11; QRead] demo_queue =
      Ret [QWrote true; QWrote false; QGot 7; QGot 8; QWrote true; QGot 9] s' /\
    queue_at (smem s') 4096 3 [11] /\
    (forall x, off_queue 4096 3 x -> smem s' !! x = smem demo_queue !! x).
Proof.
  apply (queue_refines_fifo 4096 3 [QWrite 9; QWrite 10; QRead; QRead; QWrite 11; QRead]
    [7; 8] demo_queue demo_queue_at).
  repeat (apply Forall_cons_2; [by vm_compute|]). by apply Forall_nil_2.
Defined.

(** Cqueue_create against the heap interface: a successful malloc makes it
    return a block of the heap whose fields are those of an empty queue of the
    requested capacity, but the lock byte keeps whatever that memory held.  If
    it is zero the block is an empty queue; if not, every read and every write
    spins for ever. *)
Theorem cqueue_create_lock_uninitialised `{Heap St} live (len q : Z) (s s1 : St) :
  heap live s -> 0 < len < 2 ^ 32 ->
  h_malloc (sizeof_CQueue + 4 * len) s = Ret q s1 -> q <> 0 ->
  exists s', cqueue_create len s = Ret q s' /\ heap ((q, sizeof_CQueue + 4 * len) :: live) s' /\
    if rd 1 (q + off_lock) (smem s1) =? 0 then queue_at (smem s') q len []
    else (forall v, exists t, cqueue_write q v s' = Spin t) /\ exists t, cqueue_read q s' = Spin t.
Proof.
  intros Hh Hlen E Hq.
  destruct (cqueue_create_ok live len q s s1 Hh Hlen E Hq) as (s' & E' & Hh' & Hr & Hz & Hb & _).
  exists s'. split_and!; [done|done|]. destruct (Z.eqb_spec (rd 1 (q + off_lock) (smem s1)) 0) as [Hz0|Hz0].
  - apply Hz. congruence.
  - apply cqueue_locked; [|congruence]. unfold_offs. mregion.
Qed.

(** The heap of [SlobProps] with a non-zero byte left where the lock of the
    first queue will be. *)
Definition dirty_mem : memory :=
  wr 1 (2 ^ 47 + 65536 + 8 + 24) 1 demo_mem.
Definition dirty : slob := demo_with dirty_mem.
Lemma dirty_heap : slob_heap_ns demo_nodes [] dirty.
Proof.
  apply demo_heap_with; [|apply region_wr, demo_regions|apply region_wr, demo_regions].
  split_and!; vm_compute; done.
Qed.

Lemma cqueue_create_lock_uninitialised_witness :
  let q := 65536 + 2 ^ 47 + 8 in
  exists s', cqueue_create 200 dirty = Ret q s' /\ slob_heap [(q, 825)] s' /\
    (forall v, exists t, cqueue_write q v s' = Spin t) /\ exists t, cqueue_read q s' = Spin t.
Proof.
  intros q.
  assert (Hb : match slob_malloc 825 dirty with
               | Ret _ s2 => rd 1 (q + off_lock) (smem s2) | _ => 0 end = 1) by (by vm_compute).
  assert (Hh : vmm_higher_half_offset (slob_pmm dirty) = 2 ^ 47) by done.
  pose proof dirty_heap as Hd. revert Hb Hh Hd. generalize dirty. intros d Hb Hh Hd.
  destruct (slob_malloc_ok demo_nodes [] d 825 Hd) as (s1 & E & _ & _ & _); [lia|lia|].
  cbn [nd_base] in E. rewrite Hh in E. rewrite E in Hb.
  destruct (cqueue_create_lock_uninitialised (H0 := slob_heap_instance) [] 200 q d s1)
    as (s' & E' & Hl & Hs); [by exists demo_nodes|lia|exact E|done|].
  exists s'. split; [exact E'|]. split; [exact Hl|]. by rewrite Hb in Hs.
Defined.
