(* ===== verification/Interleave.v ===== *)
(** * Programs cut into atomic steps

    A [prog] is a computation that others can come between: an interrupt that
    is taken between two steps, or the steps of another processor. *)
From S2P Require Import Prelude Machine.

Inductive prog (St A : Type) :=
  | Done (a : A)
  | Step {B : Type} (m : M St B) (k : B -> prog St A).
Arguments Done {St A} a.
Arguments Step {St A B} m k.

Section prog.
Context {St : Type}.

(** Alone. *)
Fixpoint prog_run {A} (p : prog St A) : M St A :=
  match p with
  | Done a => mret a
  | Step m k => b ← m; prog_run (k b)
  end.

Fixpoint prog_bind {A B} (p : prog St A) (f : A -> prog St B) : prog St B :=
  match p with
  | Done a => f a
  | Step m k => Step m (fun b => prog_bind (k b) f)
  end.

Lemma prog_run_bind {A B} (p : prog St A) (f : A -> prog St B) s :
  prog_run (prog_bind p f) s = (a ← prog_run p; prog_run (f a)) s.
Proof.
  revert s. induction p as [a|C m k IH]; intros s; [done|]. cbn [prog_run prog_bind]. unfold mbind, M_bind.
  by destruct (m s).
Qed.

(** ** Interrupts *)

(** [irqs] says whether a request comes in before each step; it stays pending
    while interrupts are disabled, and requests that pend together are one. *)
Section irq.
Context (enabled : St -> bool) (handler : M St unit).

Definition take_irq (pending : bool) : M St bool :=
  fun s => if pending && enabled s then (handler ;; mret false) s else Ret pending s.

Definition arrives (irqs : list bool) : bool := default false (head irqs).

Fixpoint prog_run_irq {A} (pending : bool) (irqs : list bool) (p : prog St A) : M St (A * bool) :=
  match p with
  | Done a => mret (a, pending)
  | Step m k =>
      pending ← take_irq (pending || arrives irqs);
      b ← m;
      prog_run_irq pending (tail irqs) (k b)
  end.

Lemma take_irq_none s : take_irq false s = Ret false s.
Proof. done. Qed.
Lemma take_irq_masked pending s : enabled s = false -> take_irq pending s = Ret pending s.
Proof. intros E. unfold take_irq. by rewrite E, andb_false_r. Qed.
Lemma take_irq_now s : enabled s = true -> take_irq true s = (handler ;; mret false) s.
Proof. intros E. unfold take_irq. by rewrite E. Qed.

Lemma prog_run_irq_assoc {A B C} (p : prog St A) (f : A -> prog St B) (g : B -> prog St C) : forall pending irqs s,
  prog_run_irq pending irqs (prog_bind (prog_bind p f) g) s =
    prog_run_irq pending irqs (prog_bind p (fun a => prog_bind (f a) g)) s.
Proof.
  induction p as [a|D m k IH]; intros pending irqs s; [done|]. cbn [prog_bind prog_run_irq]. unfold mbind, M_bind.
  destruct (take_irq _ s) as [pending' s1| | | |]; try done. by destruct (m s1).
Qed.

(** Every step keeps interrupts as they are. *)
Inductive steady {A} : prog St A -> Prop :=
  | steady_done a : steady (Done a)
  | steady_step {B} (m : M St B) k :
      (forall s b s', m s = Ret b s' -> enabled s' = enabled s) -> (forall b, steady (k b)) -> steady (Step m k).

(** Whether a request came in while a program ran. *)
Fixpoint came {A} (irqs : list bool) (p : prog St A) (s : St) : bool :=
  match p with
  | Done _ => false
  | Step m k =>
      match m s with
      | Ret b s' => arrives irqs || came (tail irqs) (k b) s'
      | _ => false
      end
  end.
(** What is left of the requests behind it. *)
Fixpoint behind {A} (irqs : list bool) (p : prog St A) (s : St) : list bool :=
  match p with
  | Done _ => irqs
  | Step m k => match m s with Ret b s' => behind (tail irqs) (k b) s' | _ => irqs end
  end.

(** With interrupts disabled a program runs as if it were alone; requests wait. *)
Lemma masked_run {A C} (p : prog St A) : steady p -> forall (f : A -> prog St C) pending irqs s a s',
  enabled s = false -> prog_run p s = Ret a s' ->
  prog_run_irq pending irqs (prog_bind p f) s =
    prog_run_irq (pending || came irqs p s) (behind irqs p s) (f a) s'.
Proof.
  induction 1 as [a0|B m k Hm _ IH]; intros f pending irqs s a s' He E; cbn [prog_run prog_bind came behind] in *.
  - injection E as <- <-. by rewrite orb_false_r.
  - cbn [prog_run_irq]. rewrite (bind_ret_eq _ _ _ _ _ (take_irq_masked _ _ He)).
    unfold mbind, M_bind in E. destruct (m s) as [b s1| | | |] eqn:Em; try done.
    rewrite (bind_ret_eq _ _ _ _ _ Em). rewrite orb_assoc. apply IH; [|exact E]. by rewrite (Hm _ _ _ Em).
Qed.
End irq.

(** ** Two processors *)

(** [true] in the schedule: the first takes a step. Behind the schedule's end
    the first runs to its end, then the second. *)
Fixpoint prog_both {A B} (sched : list bool) (p : prog St A) (p' : prog St B) : M St (A * B) :=
  match sched with
  | [] => a ← prog_run p; b ← prog_run p'; mret (a, b)
  | true :: sched' =>
      match p with
      | Done a => prog_both sched' p p'
      | Step m k => b ← m; prog_both sched' (k b) p'
      end
  | false :: sched' =>
      match p' with
      | Done b => prog_both sched' p p'
      | Step m k => b ← m; prog_both sched' p (k b)
      end
  end.

(** One of the two runs a part of its program without a break. *)
Lemma both_first {A B C} (p : prog St A) : forall s a s1, prog_run p s = Ret a s1 ->
  exists n, forall sched (f : A -> prog St B) (p' : prog St C),
    prog_both (replicate n true ++ sched) (prog_bind p f) p' s = prog_both sched (f a) p' s1.
Proof.
  induction p as [a0|D m k IH]; intros s a s1 E; cbn [prog_run prog_bind] in *.
  - injection E as -> ->. by exists 0%nat.
  - unfold mbind, M_bind in E. destruct (m s) as [b s2| | | |] eqn:Em; try done.
    destruct (IH b s2 a s1 E) as [n Hn]. exists (S n). intros sched f p'. cbn [replicate app prog_both].
    by rewrite (bind_ret_eq _ _ _ _ _ Em).
Qed.
Lemma both_second {A B C} (p : prog St A) : forall s a s1, prog_run p s = Ret a s1 ->
  exists n, forall sched (f : A -> prog St B) (p' : prog St C),
    prog_both (replicate n false ++ sched) p' (prog_bind p f) s = prog_both sched p' (f a) s1.
Proof.
  induction p as [a0|D m k IH]; intros s a s1 E; cbn [prog_run prog_bind] in *.
  - injection E as -> ->. by exists 0%nat.
  - unfold mbind, M_bind in E. destruct (m s) as [b s2| | | |] eqn:Em; try done.
    destruct (IH b s2 a s1 E) as [n Hn]. exists (S n). intros sched f p'. cbn [replicate app prog_both].
    by rewrite (bind_ret_eq _ _ _ _ _ Em).
Qed.
End prog.
