(* ===== verification/QueueConc.v ===== *)
(** * lib/queue.c: the queue's operations access by access

    What another processor, or an interrupt, can see in the middle of them. *)
From S2P Require Import Prelude Machine Atomic Pmm Regions Heap Queue QueueProps Interleave.

Section prog.
Context `{HasMachine St}.

(** cqueue_write up to the release of the lock: whether there was room. *)
Definition write_locked (q val : Z) : prog St bool :=
  Step (spinlock_lock (tas_mem (q + off_lock))) (fun _ =>
  Step (load 4 (q + off_num_items)) (fun num_items =>
  Step (load 4 (q + off_len)) (fun len =>
  if num_items =? len then Step (spinlock_unlock_mem (q + off_lock)) (fun _ => Done false)
  else
    Step (load 8 (q + off_buff)) (fun buff =>
    Step (load 4 (q + off_write_i)) (fun write_i =>
    Step (store 4 (buff + 4 * write_i) val) (fun _ =>
    Step (load 4 (q + off_write_i)) (fun write_i =>
    Step (store 4 (q + off_write_i) (write_i +32 1)) (fun _ =>
    Step (load 4 (q + off_write_i)) (fun write_i =>
    Step (load 4 (q + off_len)) (fun len =>
    Step (if write_i =? len then store 4 (q + off_write_i) 0 else mret tt) (fun _ =>
    Step (spinlock_unlock_mem (q + off_lock)) (fun _ => Done true)))))))))))).
(** The counter is increased behind it. *)
Definition write_count (q : Z) (ok : bool) : prog St bool :=
  if ok then
    Step (load 4 (q + off_num_items)) (fun num_items =>
    Step (store 4 (q + off_num_items) (num_items +32 1)) (fun _ => Done true))
  else Done false.
Definition cqueue_write_prog (q val : Z) : prog St bool := prog_bind (write_locked q val) (write_count q).

(** cqueue_read. *)
Definition cqueue_read_prog (q : Z) : prog St Z :=
  Step (spinlock_lock (tas_mem (q + off_lock))) (fun _ =>
  Step (load 4 (q + off_num_items)) (fun num_items =>
  if num_items =? 0 then
    Step (kprintf "FATAL: Attempted to dequeue without first checking 'num_items' > 0." [] ;; hcf) Done
  else
    Step (load 8 (q + off_buff)) (fun buff =>
    Step (load 4 (q + off_read_i)) (fun read_i =>
    Step (load 4 (buff + 4 * read_i)) (fun val =>
    Step (load 4 (q + off_read_i)) (fun read_i =>
    Step (store 4 (q + off_read_i) (read_i +32 1)) (fun _ =>
    Step (load 4 (q + off_read_i)) (fun read_i =>
    Step (load 4 (q + off_len)) (fun len =>
    Step (if read_i =? len then store 4 (q + off_read_i) 0 else mret tt) (fun _ =>
    Step (load 4 (q + off_num_items)) (fun num_items =>
    Step (store 4 (q + off_num_items) (num_items -32 1)) (fun _ =>
    Step (spinlock_unlock_mem (q + off_lock)) (fun _ => Done val))))))))))))).

(** Uninterrupted they are the functions. *)
Lemma bind_cong {A B} (m m' : M St A) (f g : A -> M St B) s :
  m s = m' s -> (forall a s', f a s' = g a s') -> (m ≫= f) s = (m' ≫= g) s.
Proof. intros Em E. unfold mbind, M_bind. rewrite Em. by destruct (m' s). Qed.
Lemma bind_ext {A B} (m : M St A) (f g : A -> M St B) s :
  (forall a s', f a s' = g a s') -> (m ≫= f) s = (m ≫= g) s.
Proof. by apply bind_cong. Qed.
Lemma cqueue_write_steps q val s : prog_run (cqueue_write_prog q val) s = cqueue_write q val s.
Proof.
  unfold cqueue_write. cbn [prog_run prog_bind cqueue_write_prog write_locked].
  repeat (apply bind_ext; intros ? ?; cbn [prog_run prog_bind]; try case_match); done.
Qed.
Lemma cqueue_read_steps q s : prog_run (cqueue_read_prog q) s = cqueue_read q s.
Proof.
  unfold cqueue_read. cbn [prog_run cqueue_read_prog].
  repeat (apply bind_ext; intros ? ?; cbn [prog_run]; try case_match); try done.
Qed.
End prog.

(** ** The counter outside the lock *)

Section race.
Context `{HasMachine St}.
Implicit Type s : St.

(** The fields of an unlocked queue with room, whatever its counter says about
    its contents. *)
Record ring (m : memory) (q len n w : Z) : Prop := {
  rg_q : 0 < q /\ q + sizeof_CQueue + 4 * len < 2 ^ 64;
  rg_region : region q (sizeof_CQueue + 4 * len) m;
  rg_len : 0 < len < 2 ^ 32 /\ rd 4 (q + off_len) m = len;
  rg_buff : rd 8 (q + off_buff) m = q + sizeof_CQueue;
  rg_num : rd 4 (q + off_num_items) m = n;
  rg_write : 0 <= w < len /\ rd 4 (q + off_write_i) m = w;
  rg_lock : rd 1 (q + off_lock) m = 0
}.
Definition next_slot (len w : Z) : Z := if w + 1 =? len then 0 else w + 1.

Lemma queue_ring m q len items :
  queue_at m q len items -> ring m q len (Z.of_nat (length items)) (rd 4 (q + off_write_i) m).
Proof.
  intros [H1 H2 H3 H4 [H5 H5'] H6 H7 H8 H9]. split; try done. split; [|done]. rewrite H7. apply Z.mod_pos_bound. lia.
Qed.

(** What the locked part leaves: the value in its slot, the index moved on. *)
Lemma write_locked_ok m q len n w val s :
  smem s = m -> ring m q len n w -> n <> len -> is_u32 val ->
  exists m', prog_run (write_locked q val) s = Ret true (set_mem m' s) /\ ring m' q len n (next_slot len w) /\
    rd 4 (q + sizeof_CQueue + 4 * w) m' = val /\ rd 4 (q + off_read_i) m' = rd 4 (q + off_read_i) m /\
    (forall i, 0 <= i < len -> i <> w -> rd 4 (q + sizeof_CQueue + 4 * i) m' = rd 4 (q + sizeof_CQueue + 4 * i) m) /\
    (forall x, off_queue q len x -> m' !! x = m !! x).
Proof.
  intros Em [[Hq0 Hq] Hr [Hl Hlen] Hbuff Hnum [Hw Hwi] Hlock] Hn Hval. cbn [prog_run write_locked].
  unfold_offs. erewrite bind_ret_eq; [|rewrite tas_mem_ok by (rewrite Em; mregion); rewrite Em, Hlock; reflexivity].
  unfold spinlock_unlock_mem. do 2 mstep. rdsimp. rewrite Hnum, Hlen, (proj2 (Z.eqb_neq _ _) Hn). cbn [prog_run].
  mstep. mstep. rdsimp. rewrite Hbuff, Hwi. mstep. mstep. rdsimp. rewrite Hwi. mstep. rewrite u32_small by lia.
  mstep. rdsimp. change (256 ^ Z.of_nat 4) with (2 ^ 32). rewrite (Z.mod_small (w + 1)) by lia.
  mstep. rdsimp. rewrite Hlen.
  set (m1 := wr 4 (q + 25 + 4 * w) val (wr 1 (q + 24) 1 m)).
  rewrite (bind_ret_eq _ _ _ tt (set_mem (wr 4 (q + 4) (next_slot len w) m1) s)).
  2: { unfold next_slot. destruct (w + 1 =? len); [|done].
       rewrite store_ok by (unfold m1; mregion). by rewrite smem_set_mem, set_mem_set_mem, wr_wr_eq. }
  assert (Hr1 : region q (25 + 4 * len) m1) by (unfold m1; by do 2 apply region_wr).
  mstep. assert (Hw' : 0 <= next_slot len w < len) by (unfold next_slot; destruct (Z.eqb_spec (w + 1) len); lia).
  eexists. split; [reflexivity|]. unfold m1. split; [|split_and!].
  - split; unfold_offs; rdsimp; try done.
    + by do 2 apply region_wr.
    + split; [done|]. change (256 ^ Z.of_nat 4) with (2 ^ 32). apply Z.mod_small. lia.
  - unfold_offs. rdsimp. change (256 ^ Z.of_nat 4) with (2 ^ 32). by apply Z.mod_small.
  - unfold_offs. by rdsimp.
  - intros i Hi Hne. unfold_offs. by rdsimp.
  - intros x Hx. unfold off_queue in *. unfold_offs. by rewrite !wr_lookup_ne by lia.
Qed.

(** The counter, counted up. *)
Lemma ring_count m q len n w k : ring m q len n w -> is_u32 k -> ring (wr 4 (q + off_num_items) k m) q len k w.
Proof.
  intros [[Hq0 Hq] Hr [Hl Hlen] Hbuff Hnum [Hw Hwi] Hlock] Hk. unfold_offs.
  split; unfold_offs; rdsimp; try done; [by apply region_wr|]. change (256 ^ Z.of_nat 4) with (2 ^ 32). by apply Z.mod_small.
Qed.

Lemma ring_load m q len n w s :
  ring m q len n w -> smem s = m -> load 4 (q + off_num_items) s = Ret n s.
Proof.
  intros R E. pose proof (rg_region _ _ _ _ _ R) as Hr. pose proof (rg_num _ _ _ _ _ R) as Hnum.
  pose proof (rg_len _ _ _ _ _ R). unfold_offs. rewrite load_ok by (rewrite E; mregion). by rewrite E, Hnum.
Qed.
Lemma ring_store m q len n w k s :
  ring m q len n w -> 0 <= k < 2 ^ 32 - 1 -> smem s = m ->
  store 4 (q + off_num_items) (k +32 1) s = Ret tt (set_mem (wr 4 (q + off_num_items) (k + 1) m) s).
Proof.
  intros R Hk E. pose proof (rg_region _ _ _ _ _ R) as Hr. pose proof (rg_len _ _ _ _ _ R). unfold_offs.
  rewrite store_ok by (rewrite E; mregion). rewrite u32_small by lia. by rewrite E.
Qed.

(** C23: the counter is not protected. cqueue_write releases the lock before it
    counts the item. Two processors that write at the same time to a queue with
    room for both can lose a count: both report success and both values are in
    their slots, but the counter has grown by one only, and no list of items
    describes the queue any more, whatever its length. *)
Theorem queue_counter_races q len items v1 v2 s :
  queue_at (smem s) q len items -> Z.of_nat (length items) + 2 <= len -> is_u32 v1 -> is_u32 v2 ->
  let w := rd 4 (q + off_write_i) (smem s) in
  exists sched s', prog_both sched (cqueue_write_prog q v1) (cqueue_write_prog q v2) s = Ret (true, true) s' /\
    rd 4 (q + sizeof_CQueue + 4 * w) (smem s') = v1 /\
    rd 4 (q + sizeof_CQueue + 4 * next_slot len w) (smem s') = v2 /\
    rd 4 (q + off_num_items) (smem s') = Z.of_nat (length items) + 1 /\
    forall items', ~ queue_at (smem s') q len items'.
Proof.
  intros Hq Hroom H1 H2 w. pose proof (queue_ring _ _ _ _ Hq) as R0. fold w in R0. set (n := Z.of_nat (length items)) in *.
  pose proof (rg_len _ _ _ _ _ R0) as [Hl _]. pose proof (rg_write _ _ _ _ _ R0) as [Hw _].
  destruct (write_locked_ok _ q len n w v1 s eq_refl R0 ltac:(lia) H1) as (m1 & E1 & R1 & V1 & I1 & _).
  set (s1 := set_mem m1 s) in *.
  assert (L1 : load 4 (q + off_num_items) s1 = Ret n s1) by (apply (ring_load _ _ _ _ _ _ R1), smem_set_mem).
  destruct (write_locked_ok m1 q len n (next_slot len w) v2 s1 (smem_set_mem _ _) R1 ltac:(lia) H2)
    as (m2 & E2 & R2 & V2 & I2 & K2 & _).
  set (s2 := set_mem m2 s1) in *.
  assert (L2 : load 4 (q + off_num_items) s2 = Ret n s2) by (apply (ring_load _ _ _ _ _ _ R2), smem_set_mem).
  assert (C2 : store 4 (q + off_num_items) (n +32 1) s2 = Ret tt (set_mem (wr 4 (q + off_num_items) (n + 1) m2) s2))
    by (eapply ring_store; [exact R2|lia|apply smem_set_mem]).
  set (m3 := wr 4 (q + off_num_items) (n + 1) m2) in *. set (s3 := set_mem m3 s2) in *.
  assert (R3 : ring m3 q len (n + 1) (next_slot len (next_slot len w))) by (apply (ring_count _ _ _ n); [exact R2|unfold is_u32; lia]).
  assert (C3 : store 4 (q + off_num_items) (n +32 1) s3 = Ret tt (set_mem (wr 4 (q + off_num_items) (n + 1) m3) s3))
    by (eapply ring_store; [exact R3|lia|apply smem_set_mem]).
  destruct (both_first (B := bool) (C := bool) _ _ _ _ E1) as [k1 B1].
  destruct (both_second (B := bool) (C := bool) _ _ _ _ E2) as [k2 B2].
  exists (replicate k1 true ++ true :: replicate k2 false ++ [false; false]), (set_mem m3 s3).
  assert (Em3 : wr 4 (q + off_num_items) (n + 1) m3 = m3) by apply wr_wr_eq.
  rewrite Em3 in C3. rewrite smem_set_mem. split; [|split_and!].
  - unfold cqueue_write_prog. rewrite B1. cbn [write_count prog_both]. rewrite (bind_ret_eq _ _ _ _ _ L1).
    rewrite B2. cbn [write_count prog_both]. rewrite (bind_ret_eq _ _ _ _ _ L2), (bind_ret_eq _ _ _ _ _ C2).
    cbn [prog_run]. unfold mbind, M_bind. by rewrite C3.
  - unfold m3. unfold_offs. rdsimp. rewrite K2; [done|lia|]. unfold next_slot. destruct (Z.eqb_spec (w + 1) len); lia.
  - unfold m3. unfold_offs. assert (0 <= next_slot len w < len) by (unfold next_slot; destruct (Z.eqb_spec (w + 1) len); lia).
    by rdsimp.
  - apply (rg_num _ _ _ _ _ R3).
  - intros items' Hq'. pose proof (qa_num _ _ _ _ Hq') as [_ Hn']. rewrite (rg_num _ _ _ _ _ R3) in Hn'.
    pose proof (qa_write _ _ _ _ Hq') as Hw'. rewrite <- Hn', (proj2 (rg_write _ _ _ _ _ R3)) in Hw'.
    assert (Ir : rd 4 (q + off_read_i) m3 = rd 4 (q + off_read_i) (smem s)) by (unfold m3; unfold_offs; rdsimp; congruence).
    rewrite Ir in Hw'. pose proof (qa_write _ _ _ _ Hq) as Hw0. fold w n in Hw0.
    pose proof (rd_range 4 (q + off_read_i) (smem s)) as [Hr0 _]. pose proof (qa_read _ _ _ _ Hq) as Hr1.
    revert Hw' Hw0. generalize (rd 4 (q + off_read_i) (smem s)) Hr0 Hr1. intros r Hr0' Hr1'.
    rewrite !mod_wrap by lia. unfold next_slot.
    destruct (Z.eqb_spec (w + 1) len), (Z.ltb_spec (r + (n + 1)) len), (Z.ltb_spec (r + n) len);
      repeat match goal with |- context [?a =? len] => destruct (Z.eqb_spec a len) end; lia.
Qed.
End race.

(** An empty queue of capacity 3. *)
Definition race_queue : pmm :=
  Pmm (Machine (wr 4 (4096 + 16) 3 (wr 8 (4096 + 8) (4096 + 25) (zeros 4096 37))) []) 0 0 0 [] 0 0 0 0 0 0 0 0.
Lemma race_queue_at : queue_at (smem race_queue) 4096 3 [].
Proof.
  split; [done| |by vm_compute|by vm_compute|by vm_compute|by vm_compute|by vm_compute| |by vm_compute].
  - change (smem race_queue) with (mem (pmm_mach race_queue)). cbn [race_queue pmm_mach mem].
    repeat apply region_wr. apply region_zeros.
  - by intros i v Hi.
Qed.
Lemma queue_counter_races_witness :
  exists sched s', prog_both sched (cqueue_write_prog 4096 7) (cqueue_write_prog 4096 8) race_queue = Ret (true, true) s' /\
    rd 4 (4096 + sizeof_CQueue + 4 * 0) (smem s') = 7 /\ rd 4 (4096 + sizeof_CQueue + 4 * 1) (smem s') = 8 /\
    rd 4 (4096 + off_num_items) (smem s') = 1 /\ forall items', ~ queue_at (smem s') 4096 3 items'.
Proof.
  pose proof race_queue_at as Hq. pose proof (qa_write _ _ _ _ Hq) as Hw.
  assert (Ew : rd 4 (4096 + off_write_i) (smem race_queue) = 0) by (by vm_compute). clear Hw.
  revert Ew Hq. generalize race_queue. intros s Ew Hq.
  pose proof (queue_counter_races 4096 3 [] 7 8 s Hq) as Hrace. rewrite Ew in Hrace. cbv zeta in Hrace.
  apply Hrace; [done|by vm_compute|by vm_compute].
Defined.
