(* ===== verification/Str.v ===== *)
(** * lib/str.c: number conversion, formatting and string comparison

    Strings are bytes of the machine's memory; a variadic argument is the
    64-bit slot va_arg takes it from. *)
From S2P Require Import Prelude Machine.

(** The character constants the code uses. *)
Definition ch_nul : Z := 0.
Definition ch_space : Z := 32.
Definition ch_percent : Z := 37.
Definition ch_minus : Z := 45.
Definition ch_0 : Z := 48.
Definition ch_1 : Z := 49.
Definition ch_A : Z := 65.
Definition ch_X : Z := 88.
Definition ch_a : Z := 97.
Definition ch_c : Z := 99.
Definition ch_d : Z := 100.
Definition ch_l : Z := 108.
Definition ch_s : Z := 115.
Definition ch_u : Z := 117.
Definition ch_x : Z := 120.

Section str.
Context `{HasMachine St}.

(** A loop over distinct mapped addresses ends within this many rounds. *)
Definition mem_fuel (s : St) : nat := S (size (smem s)).

(** ** reverse *)

Definition reverse_iter (str : Z) (se : Z * Z) : M St (Z * Z + unit) :=
  let '(start, end_) := se in
  if start <? end_ then
    temp ← load 1 (str +64 start);
    b ← load 1 (str +64 end_);
    store 1 (str +64 start) b ;;
    store 1 (str +64 end_) temp ;;
    mret (inl (start +64 1, end_ -64 1))
  else mret (inr tt).
Definition reverse (str length : Z) : M St unit :=
  loop (S (Z.to_nat length)) (reverse_iter str) (0, length -64 1).

(** ** Numbers to text

    [ten] is the letter of digit ten: the functions differ in its case. *)

(** rem = num % base; str[i++] = ...; num = num / base *)
Definition put_digit (ten str base : Z) (ni : Z * Z) : M St (Z * Z) :=
  let '(num, i) := ni in
  if base =? 0 then fail DivByZero
  else
    let rem := num `mod` base in
    store 1 (str + i) (if 9 <? rem then rem - 10 + ten else rem + ch_0) ;;
    mret (num `div` base, i + 1).

(** [while (num != 0)]; a 64-bit number has at most 64 digits in any base from 2. *)
Definition put_digits_iter (str base : Z) (ni : Z * Z) : M St (Z * Z + Z) :=
  if fst ni =? 0 then mret (inr (snd ni))
  else ni' ← put_digit ch_a str base ni; mret (inl ni').
Definition put_digits (str base num i : Z) : M St Z :=
  loop 65 (put_digits_iter str base) (num, i).
(** [do ... while (num != 0)] *)
Definition put_digits_do_iter (ten str base : Z) (ni : Z * Z) : M St (Z * Z + Z) :=
  ni' ← put_digit ten str base ni;
  mret (if fst ni' =? 0 then inr (snd ni') else inl ni').
Definition put_digits_do (ten str base num i : Z) : M St Z :=
  loop 65 (put_digits_do_iter ten str base) (num, i).

(** The body itoa and ltoa have in common; [min] is the least value of the type. *)
Definition signed_toa (min num str base : Z) : M St Z :=
  let isNegative := num <? 0 in
  num ← (if isNegative then if num =? min then fail SignedOverflow else mret (- num)
         else mret num);
  i ← (if num =? 0 then store 1 str ch_0 ;; mret 1 else mret 0);
  i ← put_digits str base num i;
  i ← (if isNegative then store 1 (str + i) ch_minus ;; mret (i + 1) else mret i);
  store 1 (str + i) ch_nul ;;
  reverse str i ;;
  mret i.
Definition itoa (num str base : Z) : M St Z := signed_toa (- 2 ^ 31) num str base.
Definition ltoa (num str base : Z) : M St Z := signed_toa (- 2 ^ 63) num str base.

(** The body __ultoa and __ultoua have in common. *)
Definition unsigned_toa (ten num str base : Z) : M St Z :=
  i ← put_digits_do ten str base num 0;
  i ← (if base =? 16 then for_range i 16 (fun k => store 1 (str + k) ch_0) ;; mret (Z.max i 16)
       else mret i);
  store 1 (str + i) ch_nul ;;
  reverse str i ;;
  mret i.
Definition __ultoa (num str base : Z) : M St Z := unsigned_toa ch_a num str base.
Definition __ultoua (num str base : Z) : M St Z := unsigned_toa ch_A num str base.

(** ** vsnprintf *)

Definition va_arg (args : list Z) : M St (Z * list Z) :=
  match args with
  | [] => fail BadArgument
  | v :: args' => mret (v, args')
  end.

(** while ( *str != 0) buffer[bufferIndex++] = *str++; *)
Definition copy_string (buffer str bufferIndex : Z) : M St Z :=
  fuel ← gets mem_fuel;
  loop fuel (fun '(p, bi) =>
    c ← load 1 p;
    if c =? ch_nul then mret (inr bi)
    else store 1 (buffer + bi) c ;; mret (inl (p + 1, bi + 1))) (str, bufferIndex).

(** The conversion after a '%'; [i] is the index of the character after it.
    Returns the index of the last format character used. *)
Definition convert (buffer format i bi : Z) (args : list Z) : M St (Z * Z * list Z) :=
  c ← load 1 (format + i);
  if c =? ch_d then
    '(v, args) ← va_arg args; n ← itoa (s32 v) (buffer + bi) 10; mret (i, bi + n, args)
  else if c =? ch_x then
    '(v, args) ← va_arg args; n ← __ultoa (u64 v) (buffer + bi) 16; mret (i, bi + n, args)
  else if c =? ch_X then
    '(v, args) ← va_arg args; n ← __ultoua (u64 v) (buffer + bi) 16; mret (i, bi + n, args)
  else if c =? ch_s then
    '(v, args) ← va_arg args; bi ← copy_string buffer v bi; mret (i, bi, args)
  else if c =? ch_c then
    '(v, args) ← va_arg args; store 1 (buffer + bi) (u8 v) ;; mret (i, bi + 1, args)
  else if c =? ch_l then
    c ← load 1 (format + (i + 1));
    if c =? ch_u then
      '(v, args) ← va_arg args; n ← __ultoa (u64 v) (buffer + bi) 10; mret (i + 1, bi + n, args)
    else if c =? ch_d then
      '(v, args) ← va_arg args; n ← ltoa (s64 v) (buffer + bi) 10; mret (i + 1, bi + n, args)
    else mret (i, bi, args)
  else mret (i, bi, args).

(** One round of the [for] loop over the format. *)
Definition format_iter (buffer size format : Z) (st : Z * Z * list Z)
    : M St ((Z * Z * list Z) + Z) :=
  let '(i, bi, args) := st in
  c ← load 1 (format + i);
  if c =? ch_nul then mret (inr bi)
  else if c =? ch_percent then
    '(i, bi, args) ← convert buffer format (i + 1) bi args;
    mret (inl (i + 1, bi, args))
  else if bi <? size -64 1 then
    store 1 (buffer + bi) c ;;
    mret (inl (i + 1, bi + 1, args))
  else mret (inr bi).

Definition vsnprintf (buffer size format : Z) (args : list Z) : M St Z :=
  fuel ← gets mem_fuel;
  bi ← loop fuel (format_iter buffer size format) (0, 0, args);
  (if bi <? size then store 1 (buffer + bi) ch_nul
   else store 1 (buffer + (size -64 1)) ch_nul) ;;
  mret (s32 bi).
Definition snprintf (buffer size format : Z) (args : list Z) : M St Z :=
  vsnprintf buffer size format args.

(** ** strlen, strcmp *)

Fixpoint strlen_loop (k : nat) (str len : Z) : M St Z :=
  match k with
  | O => mret (u64 (-1))
  | S k' =>
      c ← load 1 (str + len);
      if c =? ch_nul then mret len else strlen_loop k' str (len + 1)
  end.
Definition strlen (str : Z) : M St Z := strlen_loop (Z.to_nat 65535) str 0.

Definition strcmp_iter (lr : Z * Z) : M St (Z * Z + Z) :=
  let '(l, r) := lr in
  cl ← load 1 l;
  if cl =? 0 then mret (inr 0)
  else
    cr ← load 1 r;
    if cr =? 0 then mret (inr 0)
    else if negb (cl =? cr) then mret (inr (-1))
    else mret (inl (l + 1, r + 1)).
Definition strcmp (l r : Z) : M St Z :=
  fuel ← gets mem_fuel;
  loop fuel strcmp_iter (l, r).

(** ** sprint_binary *)

Definition sprint_binary8 (buff ch : Z) : M St unit :=
  for_range 0 8 (fun i =>
    store 1 (buff + (7 - i)) (if Z.land ch (Z.shiftl 1 i) =? 0 then ch_0 else ch_1)) ;;
  store 1 (buff + 8) ch_nul.

(** The loop of the wider versions: [conv] is the type [ch << bitIndex] has,
    [top] the mask of its highest bit of interest. *)
Fixpoint sprint_bits (k : nat) (buff ch width top : Z) (conv : Z -> Z) (bitIndex charIndex : Z)
    : M St unit :=
  match k with
  | O => mret tt
  | S k' =>
      store 1 (buff + charIndex)
        (if Z.land (conv (Z.shiftl ch bitIndex)) top =? 0 then ch_0 else ch_1) ;;
      if ((bitIndex + 1) `mod` 8 =? 0) && negb (bitIndex =? width - 1) then
        store 1 (buff + (charIndex + 1)) ch_space ;;
        sprint_bits k' buff ch width top conv (bitIndex + 1) (charIndex + 2)
      else sprint_bits k' buff ch width top conv (bitIndex + 1) (charIndex + 1)
  end.
Definition sprint_binary16 (buff ch : Z) : M St unit :=
  store 1 (buff + 17) ch_nul ;;
  sprint_bits 16 buff ch 16 0x8000 s32 0 0.
Definition sprint_binary32 (buff ch : Z) : M St unit :=
  store 1 (buff + 35) ch_nul ;;
  sprint_bits 32 buff ch 32 0x80000000 u32 0 0.
Definition sprint_binary64 (buff ch : Z) : M St unit :=
  store 1 (buff + 71) ch_nul ;;
  sprint_bits 64 buff ch 64 0x8000000000000000 u64 0 0.
End str.

(** ** What the text should be *)

Definition digit_char (ten d : Z) : Z := if 9 <? d then d - 10 + ten else d + ch_0.

(** The digits of [num], least significant first; none for 0. *)
Fixpoint digits (fuel : nat) (base num : Z) : list Z :=
  match fuel with
  | O => []
  | S f => if num =? 0 then [] else num `mod` base :: digits f base (num `div` base)
  end.
Definition num_digits (base num : Z) : list Z :=
  if num =? 0 then [0] else digits 64 base num.
Definition zero_pad (n : nat) (l : list Z) : list Z := l ++ replicate (n - length l) 0.

Definition signed_text (base num : Z) : list Z :=
  (if num <? 0 then [ch_minus] else []) ++ rev (digit_char ch_a <$> num_digits base (Z.abs num)).
Definition unsigned_text (ten base num : Z) : list Z :=
  rev (digit_char ten <$> (if base =? 16 then zero_pad 16 (num_digits base num)
                           else num_digits base num)).

(** Reading a number back. *)
Definition digit_value (ten c : Z) : Z := if c <? ch_0 + 10 then c - ch_0 else c - ten + 10.
Definition parse_unsigned (ten base : Z) (l : list Z) : Z :=
  fold_left (fun acc c => acc * base + digit_value ten c) l 0.
Definition parse_signed (base : Z) (l : list Z) : Z :=
  match l with
  | c :: l' => if c =? ch_minus then - parse_unsigned ch_a base l'
               else parse_unsigned ch_a base l
  | [] => 0
  end.

(** A string in memory: its bytes, none of them zero, and the terminator. *)
Definition cstr (m : memory) (p : Z) (l : list Z) : Prop :=
  (forall i c, l !! i = Some c -> m !! (p + Z.of_nat i) = Some c /\ 0 < c < 256) /\
  m !! (p + Z.of_nat (length l)) = Some 0.

(** The bytes [l], then a terminator. *)
Definition cstr_text (m : memory) (p : Z) (l : list Z) : Prop :=
  forall i c, (l ++ [ch_nul]) !! i = Some c -> m !! (p + Z.of_nat i) = Some c.

(** The arguments as the caller means them. *)
Inductive va := VNum (z : Z) | VStr (l : list Z).

(** What vsnprintf is meant to print, where the format and the arguments agree. *)
Fixpoint render (fmt : list Z) (args : list va) : option (list Z) :=
  match fmt with
  | [] => Some []
  | c :: fmt1 =>
      if c =? ch_percent then
        match fmt1 with
        | [] => None
        | d :: fmt2 =>
            if d =? ch_d then
              match args with
              | VNum z :: args' => if s32 z =? - 2 ^ 31 then None
                                   else app (signed_text 10 (s32 z)) <$> render fmt2 args'
              | _ => None
              end
            else if d =? ch_x then
              match args with
              | VNum z :: args' => app (unsigned_text ch_a 16 (u64 z)) <$> render fmt2 args'
              | _ => None
              end
            else if d =? ch_X then
              match args with
              | VNum z :: args' => app (unsigned_text ch_A 16 (u64 z)) <$> render fmt2 args'
              | _ => None
              end
            else if d =? ch_s then
              match args with
              | VStr l :: args' => app l <$> render fmt2 args'
              | _ => None
              end
            else if d =? ch_c then
              match args with
              | VNum z :: args' => cons (u8 z) <$> render fmt2 args'
              | _ => None
              end
            else if d =? ch_l then
              match fmt2 with
              | [] => Some []
              | e :: fmt3 =>
                  if e =? ch_u then
                    match args with
                    | VNum z :: args' => app (unsigned_text ch_a 10 (u64 z)) <$> render fmt3 args'
                    | _ => None
                    end
                  else if e =? ch_d then
                    match args with
                    | VNum z :: args' => if s64 z =? - 2 ^ 63 then None
                                         else app (signed_text 10 (s64 z)) <$> render fmt3 args'
                    | _ => None
                    end
                  else render fmt2 args
              end
            else render fmt2 args
        end
      else cons c <$> render fmt1 args
  end.
