(* ===== verification/StrProofs.v ===== *)
(** * lib/str.c: lemmas about the string routines *)
From S2P Require Import Prelude Machine MemLib Str.

(** [m'] is [m] with the bytes [l] written at [p]. *)
Definition written (p : Z) (l : list Z) (m m' : memory) : Prop :=
  overwritten p (Z.of_nat (length l)) (fun j => nth (Z.to_nat j) l 0) m m'.
Definition bytes (l : list Z) : Prop := Forall is_u8 l.

Lemma written_nil p m : written p [] m m.
Proof. apply overwritten_0. Qed.

Lemma written_snoc p l c m m' :
  written p l m m' -> is_u8 c ->
  written p (l ++ [c]) m (wr 1 (p + Z.of_nat (length l)) c m').
Proof.
  intros Hw Hc x. rewrite wr_1, (Z.mod_small c 256) by done. rewrite length_app. cbn [length].
  destruct (decide (x = p + Z.of_nat (length l))) as [->|Hx].
  - rewrite lookup_insert_eq, decide_True by lia. f_equal.
    replace (Z.to_nat _) with (length l) by lia. by rewrite nth_middle.
  - rewrite lookup_insert_ne, Hw by lia. repeat case_decide; try lia; [|done].
    f_equal. by rewrite app_nth1 by lia.
Qed.

Lemma written_lookup p l m m' i c :
  written p l m m' -> l !! i = Some c -> m' !! (p + Z.of_nat i) = Some c.
Proof.
  intros Hw Hi. pose proof (lookup_lt_Some _ _ _ Hi). rewrite Hw, decide_True by lia. f_equal.
  replace (Z.to_nat _) with i by lia. by apply nth_lookup_Some.
Qed.
Lemma written_outside p l m m' x :
  written p l m m' -> ~ (p <= x < p + Z.of_nat (length l)) -> m' !! x = m !! x.
Proof. intros Hw Hx. by rewrite Hw, decide_False. Qed.

Section str_facts.
Context `{HasMachine St}.
Implicit Type s : St.

(** ** reverse *)

(** The string after [k] swaps. *)
Definition half_reversed (g : Z -> Z) (n k j : Z) : Z :=
  if (j <? k) || (n - 1 - k <? j) then g (n - 1 - j) else g j.

Lemma half_reversed_step p n g k m m1 :
  0 <= k < n - 1 - k -> (forall j, is_u8 (g j)) ->
  overwritten p n (half_reversed g n k) m m1 ->
  overwritten p n (half_reversed g n (k + 1)) m
    (wr 1 (p + (n - 1 - k)) (g k) (wr 1 (p + k) (g (n - 1 - k)) m1)).
Proof.
  intros Hk Hg Hw x. rewrite !wr_1, !(Z.mod_small (g _) 256) by apply Hg.
  destruct (decide (x = p + (n - 1 - k))) as [->|Hx1].
  { rewrite lookup_insert_eq, decide_True by lia. f_equal. unfold half_reversed.
    rewrite (proj2 (Z.ltb_lt (n - 1 - (k + 1)) _)), orb_true_r by lia. f_equal. lia. }
  rewrite lookup_insert_ne by lia. destruct (decide (x = p + k)) as [->|Hx2].
  { rewrite lookup_insert_eq, decide_True by lia. f_equal. unfold half_reversed.
    rewrite (proj2 (Z.ltb_lt _ (k + 1))) by lia. simpl. f_equal. lia. }
  rewrite lookup_insert_ne, Hw by lia. case_decide; [|done]. f_equal. unfold half_reversed.
  destruct (Z.ltb_spec (x - p) k), (Z.ltb_spec (n - 1 - k) (x - p)),
    (Z.ltb_spec (x - p) (k + 1)), (Z.ltb_spec (n - 1 - (k + 1)) (x - p)); simpl; try lia; done.
Qed.

Lemma reverse_loop_ok p n g s m fuel : forall k m1,
  (forall j, is_u8 (g j)) -> 1 <= n -> 0 <= p -> p + n < 2 ^ 64 -> region p n m ->
  0 <= k -> 2 * k <= n -> n - 2 * k < Z.of_nat fuel ->
  overwritten p n (half_reversed g n k) m m1 ->
  exists m', loop fuel (reverse_iter p) (k, n - 1 - k) (set_mem m1 s) = Ret tt (set_mem m' s) /\
    overwritten p n (fun j => g (n - 1 - j)) m m'.
Proof.
  induction fuel as [|fuel IH]; intros k m1 Hg Hn Hp Hpn Hr Hk Hk2 Hf Hw; [lia|].
  cbn [loop]. unfold reverse_iter. destruct (Z.ltb_spec k (n - 1 - k)) as [Hlt|Hge].
  - pose proof (overwritten_region _ _ _ _ _ _ _ Hw Hr) as Hr1.
    assert (Hb : forall j, 0 <= j < n -> rd 1 (p + j) m1 = half_reversed g n k j).
    { intros j Hj. rewrite rd_1, (overwritten_byte_at _ _ _ _ _ _ Hw), decide_True by lia.
      replace (p + j - p) with j by lia. apply Z.mod_small.
      unfold half_reversed. case_match; apply Hg. }
    rewrite !u64_small by lia.
    erewrite bind_ret_eq.
    2: { do 4 mstep. reflexivity. }
    rewrite !Hb by lia.
    assert (H1 : half_reversed g n k k = g k).
    { unfold half_reversed. destruct (Z.ltb_spec k k), (Z.ltb_spec (n - 1 - k) k); simpl; try lia; done. }
    assert (H2 : half_reversed g n k (n - 1 - k) = g (n - 1 - k)).
    { unfold half_reversed. destruct (Z.ltb_spec (n - 1 - k) k), (Z.ltb_spec (n - 1 - k) (n - 1 - k));
        simpl; try lia; done. }
    rewrite H1, H2. replace (n - 1 - k - 1) with (n - 1 - (k + 1)) by lia.
    apply IH; [done|done|done|done|done|lia|lia|lia|]. by apply half_reversed_step.
  - erewrite bind_ret_eq; [|reflexivity]. exists m1. split; [done|]. intros x. rewrite Hw.
    case_decide; [|done]. f_equal. unfold half_reversed.
    destruct (Z.ltb_spec (x - p) k), (Z.ltb_spec (n - 1 - k) (x - p)); simpl; try done.
    f_equal. lia.
Qed.

Lemma reverse_ok p l s m m1 :
  bytes l -> l <> [] -> 0 <= p -> p + Z.of_nat (length l) < 2 ^ 64 ->
  region p (Z.of_nat (length l)) m -> written p l m m1 ->
  exists m', reverse p (Z.of_nat (length l)) (set_mem m1 s) = Ret tt (set_mem m' s) /\
    written p (rev l) m m'.
Proof.
  intros Hb Hl Hp Hpn Hr Hw. destruct l as [|c l0]; [done|]. set (l := c :: l0) in *.
  assert (Hlen : (1 <= length l)%nat) by (unfold l; simpl; lia).
  set (g := fun j : Z => nth (Z.to_nat j) l 0).
  assert (Hg : forall j, is_u8 (g j)).
  { intros j. unfold g. destruct (nth_in_or_default (Z.to_nat j) l 0) as [Hin| ->]; [|done].
    unfold bytes in Hb. rewrite Forall_forall in Hb. apply Hb. by apply list_elem_of_In. }
  destruct (reverse_loop_ok p (Z.of_nat (length l)) g s m (S (Z.to_nat (Z.of_nat (length l)))) 0 m1)
    as (m' & E & Ho); try done; try lia.
  - intros x. rewrite Hw. case_decide; [|done]. f_equal. unfold half_reversed.
    destruct (Z.ltb_spec (x - p) 0), (Z.ltb_spec (Z.of_nat (length l) - 1 - 0) (x - p)); simpl;
      try lia; done.
  - exists m'. split.
    + unfold reverse. rewrite u64_small by lia.
      replace (Z.of_nat (length l) - 1) with (Z.of_nat (length l) - 1 - 0) by lia. done.
    + intros x. rewrite Ho, length_rev. case_decide; [|done]. f_equal. unfold g.
      rewrite rev_nth by lia. f_equal. lia.
Qed.

(** ** Digits *)

Definition base_ok (base : Z) : Prop := 2 <= base <= 36.
Definition letter_ok (ten : Z) : Prop := ten = ch_a \/ ten = ch_A.

Lemma digit_char_u8 ten d : letter_ok ten -> 0 <= d < 36 -> is_u8 (digit_char ten d).
Proof.
  unfold is_u8, digit_char, letter_ok, ch_a, ch_A, ch_0. intros [-> | ->] Hd; case_match; lia.
Qed.

Lemma put_digit_ok ten p base num acc m m1 s :
  base_ok base -> letter_ok ten -> 0 <= num ->
  region p (Z.of_nat (length acc) + 1) m -> written p acc m m1 ->
  exists m2, put_digit ten p base (num, Z.of_nat (length acc)) (set_mem m1 s) =
      Ret (num `div` base, Z.of_nat (length acc) + 1) (set_mem m2 s) /\
    written p (acc ++ [digit_char ten (num `mod` base)]) m m2.
Proof.
  intros Hbase Hten Hnum Hr Hw. unfold base_ok in Hbase.
  pose proof (Z.mod_pos_bound num base ltac:(lia)).
  pose proof (overwritten_region _ _ _ _ _ _ _ Hw Hr) as Hr1.
  unfold put_digit. rewrite (proj2 (Z.eqb_neq _ _)) by lia. mstep. eexists. split; [done|].
  apply written_snoc; [done|]. apply digit_char_u8; [done|lia].
Qed.

Lemma digits_bound base num fuel :
  base_ok base -> 0 <= num < 2 ^ Z.of_nat (S fuel) -> 0 <= num `div` base < 2 ^ Z.of_nat fuel.
Proof.
  intros Hb Hnum. unfold base_ok in Hb. split; [apply Z.div_pos; lia|].
  apply Z.div_lt_upper_bound; [lia|]. rewrite Nat2Z.inj_succ, Z.pow_succ_r in Hnum by lia. nia.
Qed.

Lemma put_digits_loop_ok p base m s fuel : forall num acc m1,
  base_ok base -> 0 <= num < 2 ^ Z.of_nat fuel ->
  region p (Z.of_nat (length acc + length (digits fuel base num))) m -> written p acc m m1 ->
  exists m2, loop (S fuel) (put_digits_iter p base) (num, Z.of_nat (length acc)) (set_mem m1 s) =
      Ret (Z.of_nat (length acc + length (digits fuel base num))) (set_mem m2 s) /\
    written p (acc ++ (digit_char ch_a <$> digits fuel base num)) m m2.
Proof.
  induction fuel as [|fuel IH]; intros num acc m1 Hb Hnum Hr Hw.
  - assert (num = 0) as -> by (simpl in Hnum; lia). exists m1. cbn.
    rewrite Nat.add_0_r, app_nil_r. done.
  - rewrite loop_S. cbn [digits] in *.
    destruct (Z.eqb_spec num 0) as [->|Hn0].
    + exists m1. cbn [length fmap list_fmap]. rewrite Nat.add_0_r, app_nil_r. done.
    + cbn [length fmap list_fmap] in *.
      destruct (put_digit_ok ch_a p base num acc m m1 s Hb) as (m2 & E2 & Hw2); [by left|lia| |done|].
      { apply (region_sub _ _ _ _ _ Hr); lia. }
      destruct (IH (num `div` base) (acc ++ [digit_char ch_a (num `mod` base)]) m2)
        as (m3 & E3 & Hw3); [done|by apply digits_bound| |done|].
      { rewrite length_app. cbn [length]. apply (region_sub _ _ _ _ _ Hr); lia. }
      exists m3. rewrite <- app_assoc in Hw3. split; [|exact Hw3].
      erewrite bind_ret_eq; [|unfold put_digits_iter; cbn [fst snd];
        rewrite (proj2 (Z.eqb_neq _ _) Hn0); erewrite bind_ret_eq; [|exact E2]; reflexivity].
      rewrite length_app in E3. cbn [length] in E3.
      replace (Z.of_nat (length acc) + 1) with (Z.of_nat (length acc + 1)) by lia.
      rewrite E3. do 2 f_equal. lia.
Qed.

Lemma put_digits_do_loop_ok ten p base m s fuel : forall num acc m1,
  base_ok base -> letter_ok ten -> 0 <= num < 2 ^ Z.of_nat (S fuel) ->
  let ds := num `mod` base :: digits fuel base (num `div` base) in
  region p (Z.of_nat (length acc + length ds)) m -> written p acc m m1 ->
  exists m2, loop (S fuel) (put_digits_do_iter ten p base) (num, Z.of_nat (length acc)) (set_mem m1 s) =
      Ret (Z.of_nat (length acc + length ds)) (set_mem m2 s) /\
    written p (acc ++ (digit_char ten <$> ds)) m m2.
Proof.
  induction fuel as [|fuel IH]; intros num acc m1 Hb Hten Hnum ds Hr Hw;
    pose proof (digits_bound _ _ _ Hb Hnum) as Hlt; rewrite loop_S;
    (destruct (put_digit_ok ten p base num acc m m1 s Hb) as (m2 & E2 & Hw2); [done|lia| |done|];
     [apply (region_sub _ _ _ _ _ Hr); unfold ds; cbn [length]; lia|]);
    (erewrite bind_ret_eq;
      [|unfold put_digits_do_iter; erewrite bind_ret_eq; [|exact E2]; reflexivity]); cbn [fst snd].
  - assert (num `div` base = 0) as E0 by (simpl in Hlt; lia). rewrite E0. exists m2.
    unfold ds. rewrite E0. cbn. split; [|done]. do 2 f_equal. lia.
  - unfold ds in *. cbn [digits] in *. destruct (Z.eqb_spec (num `div` base) 0) as [E0|Hn0].
    + exists m2. cbn. split; [|done]. do 2 f_equal. lia.
    + destruct (IH (num `div` base) (acc ++ [digit_char ten (num `mod` base)]) m2)
        as (m3 & E3 & Hw3); [done|done|done| |done|].
      { rewrite length_app. cbn [length]. apply (region_sub _ _ _ _ _ Hr); cbn [length]; lia. }
      exists m3. rewrite <- app_assoc in Hw3. split; [|exact Hw3].
      rewrite length_app in E3. cbn [length] in E3.
      replace (Z.of_nat (length acc) + 1) with (Z.of_nat (length acc + 1)) by lia.
      rewrite E3. do 2 f_equal. cbn [length]. lia.
Qed.

(** ** The four conversions *)

(** What a conversion leaves behind: the text, a terminator, nothing else. *)
Definition text_at (p : Z) (l : list Z) (m m' : memory) : Prop :=
  (forall i c, l !! i = Some c -> m' !! (p + Z.of_nat i) = Some c) /\
  m' !! (p + Z.of_nat (length l)) = Some 0 /\
  (forall x, ~ (p <= x <= p + Z.of_nat (length l)) -> m' !! x = m !! x).

Lemma digits_range base num fuel d : base_ok base -> 0 <= num -> d ∈ digits fuel base num -> 0 <= d < 36.
Proof.
  intros Hb. unfold base_ok in Hb. revert num. induction fuel as [|fuel IH]; intros num Hn; cbn [digits].
  - intros Hd. by apply elem_of_nil in Hd.
  - destruct (num =? 0); [intros Hd; by apply elem_of_nil in Hd|].
    intros [->|Hd]%elem_of_cons; [pose proof (Z.mod_pos_bound num base); lia|].
    apply (IH (num `div` base)); [apply Z.div_pos; lia|done].
Qed.
Lemma digits_length base num fuel : (length (digits fuel base num) <= fuel)%nat.
Proof.
  revert num. induction fuel as [|fuel IH]; intros num; cbn [digits]; [done|].
  destruct (num =? 0); cbn [length]; [lia|]. specialize (IH (num `div` base)). lia.
Qed.
Lemma num_digits_range base num : base_ok base -> 0 <= num -> Forall (fun d => 0 <= d < 36) (num_digits base num).
Proof.
  intros Hb Hn. unfold num_digits. destruct (num =? 0); [by repeat constructor|].
  apply Forall_forall. intros d Hd. by apply (digits_range base num 64).
Qed.
Lemma num_digits_length base num : (length (num_digits base num) <= 64)%nat.
Proof. unfold num_digits. destruct (num =? 0); [simpl; lia|]. apply digits_length. Qed.
Lemma num_digits_ne base num : num_digits base num <> [].
Proof. unfold num_digits. destruct (num =? 0) eqn:E; [done|]. cbn [digits]. rewrite E. done. Qed.
Lemma digit_chars_bytes ten ds :
  letter_ok ten -> Forall (fun d => 0 <= d < 36) ds -> bytes (digit_char ten <$> ds).
Proof. intros Ht Hd. apply Forall_fmap. eapply Forall_impl; [exact Hd|]. intros d. by apply digit_char_u8. Qed.

(** The common end: terminate and reverse what was written. *)
Lemma finish_ok p l s m m1 :
  bytes l -> l <> [] -> 0 <= p -> p + Z.of_nat (length l) < 2 ^ 64 ->
  region p (Z.of_nat (length l) + 1) m -> written p l m m1 ->
  exists m', (store 1 (p + Z.of_nat (length l)) ch_nul ;;
              reverse p (Z.of_nat (length l)) ;; mret (Z.of_nat (length l))) (set_mem m1 s) =
      Ret (Z.of_nat (length l)) (set_mem m' s) /\ text_at p (rev l) m m'.
Proof.
  intros Hb Hl Hp Hpn Hr Hw.
  pose proof (overwritten_region _ _ _ _ _ _ _ Hw Hr) as Hr1. mstep.
  set (m0 := wr 1 (p + Z.of_nat (length l)) ch_nul m).
  assert (Hw0 : written p l m0 (wr 1 (p + Z.of_nat (length l)) ch_nul m1)).
  { intros x. destruct (decide (x = p + Z.of_nat (length l))) as [->|Hx].
    - rewrite decide_False by lia. unfold m0. by rewrite !wr_lookup_in by lia.
    - unfold m0. rewrite !wr_lookup_ne by lia. apply Hw. }
  destruct (reverse_ok p l s m0 (wr 1 (p + Z.of_nat (length l)) ch_nul m1)) as (m' & E & Hw'); try done.
  { apply region_wr. apply (region_sub _ _ _ _ _ Hr); lia. }
  exists m'. rewrite (bind_ret_eq _ _ _ _ _ E). split; [done|]. split_and!.
  - intros i c Hi. by apply (written_lookup _ _ _ _ _ _ Hw').
  - rewrite (written_outside _ _ _ _ _ Hw') by (rewrite ?length_rev; lia). rewrite length_rev.
    unfold m0. by rewrite wr_lookup_in by lia.
  - rewrite length_rev. intros x Hx. rewrite (written_outside _ _ _ _ _ Hw') by (rewrite length_rev; lia).
    unfold m0. by rewrite wr_lookup_ne by lia.
Qed.

Lemma digits_fuel base num f f' :
  base_ok base -> 0 <= num < 2 ^ Z.of_nat f -> (f <= f')%nat -> digits f' base num = digits f base num.
Proof.
  intros Hb. revert num f'. induction f as [|f IH]; intros num f' Hn Hf.
  - assert (num = 0) as -> by (simpl in Hn; lia). by destruct f'.
  - destruct f' as [|f']; [lia|]. cbn [digits]. destruct (num =? 0); [done|]. f_equal.
    apply IH; [by apply digits_bound|lia].
Qed.

Lemma num_digits_do base num :
  base_ok base -> 0 <= num < 2 ^ 64 ->
  num `mod` base :: digits 64 base (num `div` base) = num_digits base num.
Proof.
  intros Hb Hn. unfold num_digits. destruct (Z.eqb_spec num 0) as [->|Hn0].
  - unfold base_ok in Hb. by rewrite Z.mod_0_l, Z.div_0_l by lia.
  - assert (Hd : digits 64 base num = num `mod` base :: digits 63 base (num `div` base)).
    { cbn [digits]. by rewrite (proj2 (Z.eqb_neq _ _) Hn0). }
    rewrite Hd. apply (f_equal (cons _)). apply digits_fuel; [done| |lia].
    apply digits_bound; [done|]. exact Hn.
Qed.

Lemma signed_toa_ok min num p base s :
  base_ok base -> - 2 ^ 63 < num < 2 ^ 63 -> num <> min ->
  let text := signed_text base num in
  0 <= p -> p + Z.of_nat (length text) < 2 ^ 64 ->
  region p (Z.of_nat (length text) + 1) (smem s) ->
  exists m', signed_toa min num p base s = Ret (Z.of_nat (length text)) (set_mem m' s) /\
    text_at p text (smem s) m'.
Proof.
  intros Hb Hnum Hmin text Hp Hpn Hr.
  set (ds := digit_char ch_a <$> num_digits base (Z.abs num)).
  assert (Hds : bytes ds) by (apply digit_chars_bytes; [by left|apply num_digits_range; [done|lia]]).
  assert (Hne : ds <> []) by (unfold ds; intros E%fmap_nil_inv; by apply (num_digits_ne base (Z.abs num))).
  assert (Ht : text = rev (ds ++ if num <? 0 then [ch_minus] else [])).
  { unfold text, signed_text. rewrite rev_app_distr. by destruct (num <? 0). }
  assert (Hl : length text = length (ds ++ if num <? 0 then [ch_minus] else [])) by (by rewrite Ht, length_rev).
  rewrite Hl in *. rewrite length_app in Hr, Hpn.
  unfold signed_toa. rewrite (bind_ret_eq _ _ _ (Z.abs num) s).
  2: { destruct (Z.ltb_spec num 0); [|by rewrite Z.abs_eq by lia].
       rewrite (proj2 (Z.eqb_neq _ _) Hmin), Z.abs_neq by lia. done. }
  (* the digits *)
  assert (Hd : exists m1, (i ← (if Z.abs num =? 0 then store 1 p ch_0 ;; mret 1 else mret 0);
      put_digits p base (Z.abs num) i) s = Ret (Z.of_nat (length ds)) (set_mem m1 s) /\
    written p ds (smem s) m1).
  { revert Hr. unfold ds, num_digits, put_digits. destruct (Z.eqb_spec (Z.abs num) 0) as [E0|E0]; intros Hr.
    - rewrite E0. exists (wr 1 p ch_0 (smem s)). cbn [fmap list_fmap length] in Hr.
      erewrite bind_ret_eq; [|mstep; reflexivity]. split; [done|].
      pose proof (written_snoc p [] ch_0 (smem s) (smem s) (written_nil _ _) ltac:(done)) as Hw.
      cbn [length] in Hw. by rewrite Z.add_0_r in Hw.
    - rewrite length_fmap in *. erewrite bind_ret_eq; [|reflexivity].
      destruct (put_digits_loop_ok p base (smem s) s 64 (Z.abs num) [] (smem s) Hb)
        as (m1 & E1 & Hw); [lia| |apply written_nil|].
      + cbn [length]. apply (region_sub _ _ _ _ _ Hr); lia.
      + rewrite set_mem_smem in E1. by exists m1. }
  destruct Hd as (m1 & E1 & Hw1).
  assert (Eassoc : forall {A B C} (a : M St A) (f : A -> M St B) (g : B -> M St C) t,
    (x ← a; y ← f x; g y) t = (y ← (x ← a; f x); g y) t).
  { intros. unfold mbind, M_bind. by destruct (a t). }
  rewrite Eassoc. rewrite (bind_ret_eq _ _ _ _ _ E1).
  pose proof (overwritten_region _ _ _ _ _ _ _ Hw1 Hr) as Hr1.
  assert (Hm : exists m2, (if num <? 0 then store 1 (p + Z.of_nat (length ds)) ch_minus ;;
        mret (Z.of_nat (length ds) + 1) else mret (Z.of_nat (length ds))) (set_mem m1 s) =
      Ret (Z.of_nat (length (ds ++ if num <? 0 then [ch_minus] else []))) (set_mem m2 s) /\
    written p (ds ++ if num <? 0 then [ch_minus] else []) (smem s) m2).
  { destruct (num <? 0).
    - cbn [length] in *. mstep. eexists. split; [|by apply written_snoc].
      rewrite length_app. cbn [length]. cbn [mret M_ret]. f_equal. lia.
    - exists m1. by rewrite app_nil_r. }
  destruct Hm as (m2 & E2 & Hw2). rewrite (bind_ret_eq _ _ _ _ _ E2).
  destruct (finish_ok p (ds ++ if num <? 0 then [ch_minus] else []) s (smem s) m2)
    as (m' & E & Htext); try done.
  - apply Forall_app. split; [done|]. destruct (num <? 0); repeat constructor; done.
  - intros [??]%app_nil. done.
  - rewrite length_app. lia.
  - by rewrite length_app.
  - exists m'. by rewrite <- Ht in Htext.
Qed.

Lemma unsigned_toa_ok ten num p base s :
  base_ok base -> letter_ok ten -> is_u64 num ->
  let text := unsigned_text ten base num in
  0 <= p -> p + Z.of_nat (length text) < 2 ^ 64 ->
  region p (Z.of_nat (length text) + 1) (smem s) ->
  exists m', unsigned_toa ten num p base s = Ret (Z.of_nat (length text)) (set_mem m' s) /\
    text_at p text (smem s) m'.
Proof.
  intros Hb Hten Hnum text Hp Hpn Hr. unfold is_u64 in Hnum.
  set (ds := digit_char ten <$> num_digits base num).
  set (l := digit_char ten <$> (if base =? 16 then zero_pad 16 (num_digits base num)
                                else num_digits base num)).
  assert (Hl : length text = length l) by (unfold text, unsigned_text; by rewrite length_rev).
  assert (Hlen : (length ds <= length l)%nat).
  { unfold l, ds, zero_pad. rewrite !length_fmap. destruct (base =? 16); [rewrite length_app|]; lia. }
  rewrite Hl in *.
  assert (Hrange : Forall (fun d => 0 <= d < 36) (num_digits base num)) by (apply num_digits_range; [done|lia]).
  destruct (put_digits_do_loop_ok ten p base (smem s) s 64 num [] (smem s) Hb Hten)
    as (m1 & E1 & Hw1); [simpl; lia| |apply written_nil|].
  { rewrite (num_digits_do base num Hb Hnum). cbn [length].
    apply (region_sub _ _ _ _ _ Hr); [lia|]. unfold ds in Hlen. rewrite length_fmap in Hlen. lia. }
  rewrite set_mem_smem, (num_digits_do base num Hb Hnum) in *. cbn [length Nat.add app] in *.
  unfold unsigned_toa, put_digits_do. change (Z.of_nat 0) with 0 in E1.
  rewrite (bind_ret_eq _ _ _ _ _ E1).
  pose proof (overwritten_region _ _ _ _ _ _ _ Hw1 Hr) as Hr1.
  assert (Hm : exists m2, (if base =? 16
      then for_range (Z.of_nat (length (num_digits base num))) 16 (fun k => store 1 (p + k) ch_0) ;;
           mret (Z.max (Z.of_nat (length (num_digits base num))) 16)
      else mret (Z.of_nat (length (num_digits base num)))) (set_mem m1 s) =
      Ret (Z.of_nat (length l)) (set_mem m2 s) /\ written p l (smem s) m2).
  { unfold l. rewrite length_fmap. destruct (base =? 16) eqn:E16; [|by exists m1].
    unfold zero_pad. set (n := length (num_digits base num)) in *. rewrite length_app, length_replicate.
    destruct (decide (16 <= Z.of_nat n)) as [Hge|Hlt].
    - rewrite (bind_ret_eq _ _ _ _ _ (for_range_empty _ _ _ _ Hge)).
      replace (16 - n)%nat with O by lia. exists m1. rewrite app_nil_r. split; [|done].
      cbn [mret M_ret]. f_equal. fold n. lia.
    - destruct (for_range_inv (fun k => store 1 (p + k) ch_0)
        (fun k t => exists m2, t = set_mem m2 s /\
          written p (ds ++ replicate (Z.to_nat k - n) ch_0) (smem s) m2) (Z.of_nat n) 16 (set_mem m1 s))
        as (t & E & m2 & -> & Hw2).
      + lia.
      + intros k t Hk (m2 & -> & Hw2).
        pose proof (overwritten_region _ _ _ _ _ _ _ Hw2 Hr) as Hr2.
        assert (Hll : (16 <= length l)%nat).
        { unfold l. rewrite length_fmap. unfold zero_pad. rewrite length_app, length_replicate.
          fold n. lia. }
        rewrite store_ok by mregion. rewrite smem_set_mem, set_mem_set_mem.
        eexists. split; [done|]. eexists. split; [done|].
        replace (Z.to_nat (k + 1) - n)%nat with (S (Z.to_nat k - n)) by lia.
        rewrite replicate_S_end, app_assoc.
        pose proof (written_snoc p (ds ++ replicate (Z.to_nat k - n) ch_0) ch_0 _ _ Hw2 ltac:(done)) as Hw3.
        rewrite length_app, length_replicate in Hw3. unfold ds in Hw3 at 2. rewrite length_fmap in Hw3.
        fold n in Hw3. by replace (Z.of_nat (n + (Z.to_nat k - n))) with k in Hw3 by lia.
      + exists m1. split; [done|]. rewrite Nat2Z.id, Nat.sub_diag, app_nil_r. done.
      + rewrite (bind_ret_eq _ _ _ _ _ E). exists m2. fold n. split.
        * cbn [mret M_ret]. f_equal. lia.
        * rewrite fmap_app, fmap_replicate. exact Hw2. }
  destruct Hm as (m2 & E2 & Hw2). rewrite (bind_ret_eq _ _ _ _ _ E2).
  destruct (finish_ok p l s (smem s) m2) as (m' & E & Htext); try done.
  - apply digit_chars_bytes; [done|]. destruct (base =? 16); [|done].
    apply Forall_app. split; [done|]. apply Forall_replicate. lia.
  - intros E%fmap_nil_inv. destruct (base =? 16); [apply app_nil in E as [E _]|];
      by apply (num_digits_ne base num).
  - by exists m'.
Qed.
End str_facts.

(** ** Reading the text back *)

Definition digits_value (base : Z) (ds : list Z) : Z := fold_right (fun d acc => d + base * acc) 0 ds.

Lemma digits_value_digits base num fuel :
  base_ok base -> 0 <= num < 2 ^ Z.of_nat fuel -> digits_value base (digits fuel base num) = num.
Proof.
  intros Hb. revert num. induction fuel as [|fuel IH]; intros num Hn; cbn [digits].
  - simpl in *. lia.
  - destruct (Z.eqb_spec num 0) as [->|]; [done|]. cbn [digits_value fold_right].
    fold (digits_value base (digits fuel base (num `div` base))).
    rewrite IH by (by apply digits_bound). unfold base_ok in Hb.
    pose proof (Z.div_mod num base). lia.
Qed.
Lemma digits_value_num base num :
  base_ok base -> 0 <= num < 2 ^ 64 -> digits_value base (num_digits base num) = num.
Proof.
  intros Hb Hn. unfold num_digits. destruct (Z.eqb_spec num 0) as [->|].
  - unfold digits_value. simpl. lia.
  - by apply digits_value_digits.
Qed.
Lemma digits_value_pad base n ds : digits_value base (zero_pad n ds) = digits_value base ds.
Proof.
  unfold digits_value, zero_pad. rewrite fold_right_app. f_equal.
  induction (n - length ds)%nat as [|k IH]; cbn [replicate fold_right]; [done|]. rewrite IH. lia.
Qed.

Lemma digit_value_char ten d : letter_ok ten -> 0 <= d < 36 -> digit_value ten (digit_char ten d) = d.
Proof.
  unfold letter_ok, digit_value, digit_char, ch_a, ch_A, ch_0. intros Ht Hd.
  destruct (Z.ltb_spec 9 d), Ht as [-> | ->]; case_match; lia.
Qed.

Lemma parse_digits ten base ds :
  letter_ok ten -> Forall (fun d => 0 <= d < 36) ds ->
  parse_unsigned ten base (rev (digit_char ten <$> ds)) = digits_value base ds.
Proof.
  intros Ht Hd. unfold parse_unsigned. rewrite <- fold_left_rev_right, rev_involutive.
  unfold digits_value. induction Hd as [|d ds Hd0 Hd IH]; [done|].
  cbn [fmap list_fmap fold_right]. rewrite IH, digit_value_char by done. lia.
Qed.

Lemma parse_unsigned_text ten base num :
  letter_ok ten -> base_ok base -> is_u64 num ->
  parse_unsigned ten base (unsigned_text ten base num) = num.
Proof.
  intros Ht Hb Hn. unfold unsigned_text.
  pose proof (num_digits_range base num Hb (proj1 Hn)) as Hr. rewrite parse_digits; [|done|].
  - destruct (base =? 16); rewrite ?digits_value_pad; by apply digits_value_num.
  - destruct (base =? 16); [|done]. apply Forall_app. split; [done|]. apply Forall_replicate. lia.
Qed.

Lemma parse_signed_text base num :
  base_ok base -> - 2 ^ 63 < num < 2 ^ 63 -> parse_signed base (signed_text base num) = num.
Proof.
  intros Hb Hn. unfold signed_text.
  pose proof (num_digits_range base (Z.abs num) Hb ltac:(lia)) as Hr.
  pose proof (parse_digits ch_a base _ ltac:(by left) Hr) as Hp.
  rewrite digits_value_num in Hp by (done || lia).
  destruct (Z.ltb_spec num 0).
  - cbn [app parse_signed]. change (ch_minus =? ch_minus) with true. cbv iota. lia.
  - cbn [app]. destruct (rev (digit_char ch_a <$> num_digits base (Z.abs num))) as [|c l] eqn:E.
    + simpl in Hp. cbn. unfold parse_unsigned in Hp. simpl in Hp. lia.
    + unfold parse_signed. destruct (Z.eqb_spec c ch_minus) as [->|]; [|lia]. exfalso.
      assert (Hin : ch_minus ∈ digit_char ch_a <$> num_digits base (Z.abs num)).
      { apply list_elem_of_In, in_rev. rewrite E. by left. }
      apply list_elem_of_fmap in Hin as (d & Hd & Hin). rewrite Forall_forall in Hr.
      specialize (Hr d Hin). unfold digit_char, ch_minus, ch_a, ch_0 in Hd. case_match; lia.
Qed.

Lemma signed_text_length base num : (length (signed_text base num) <= 65)%nat.
Proof.
  unfold signed_text. rewrite length_app, length_rev, length_fmap.
  pose proof (num_digits_length base (Z.abs num)). destruct (num <? 0); simpl; lia.
Qed.
Lemma unsigned_text_length ten base num : (length (unsigned_text ten base num) <= 64)%nat.
Proof.
  unfold unsigned_text, zero_pad. rewrite length_rev, length_fmap.
  pose proof (num_digits_length base num).
  destruct (base =? 16); rewrite ?length_app, ?length_replicate; lia.
Qed.

(** ** sprint_binary *)

Fixpoint bits_text (k : nat) (ch width bitIndex : Z) : list Z :=
  match k with
  | O => []
  | S k' =>
      (if Z.testbit ch (width - 1 - bitIndex) then ch_1 else ch_0) ::
      (if ((bitIndex + 1) `mod` 8 =? 0) && negb (bitIndex =? width - 1) then [ch_space] else []) ++
      bits_text k' ch width (bitIndex + 1)
  end.
(** Reading binary digits, skipping the separators. *)
Definition parse_bits (l : list Z) : Z :=
  fold_left (fun acc c => if c =? ch_space then acc else 2 * acc + (if c =? ch_1 then 1 else 0)) l 0.

Lemma parse_bits_text k : forall ch width bitIndex acc,
  0 <= bitIndex -> bitIndex + Z.of_nat k = width -> 0 <= ch ->
  acc = Z.shiftr ch (width - bitIndex) ->
  fold_left (fun acc c => if c =? ch_space then acc else 2 * acc + (if c =? ch_1 then 1 else 0))
    (bits_text k ch width bitIndex) acc = ch.
Proof.
  induction k as [|k IH]; intros ch width bi acc Hbi Hk Hch Ha; cbn [bits_text fold_left].
  - replace (width - bi) with 0 in Ha by lia. by rewrite Z.shiftr_0_r in Ha.
  - set (acc' := if (if Z.testbit ch (width - 1 - bi) then ch_1 else ch_0) =? ch_space then acc else _).
    assert (Ha' : acc' = Z.shiftr ch (width - (bi + 1))).
    { replace acc' with (2 * acc + Z.b2z (Z.testbit ch (width - 1 - bi)))
        by (unfold acc'; by destruct (Z.testbit ch (width - 1 - bi))).
      rewrite Ha. replace (width - (bi + 1)) with (width - 1 - bi) by lia.
      rewrite !Z.shiftr_div_pow2 by lia.
      replace (width - bi) with (Z.succ (width - 1 - bi)) by lia.
      pose proof (Z.pow_pos_nonneg 2 (width - 1 - bi) ltac:(lia) ltac:(lia)).
      replace (2 ^ Z.succ (width - 1 - bi)) with (2 ^ (width - 1 - bi) * 2)
        by (rewrite Z.pow_succ_r by lia; lia).
      rewrite <- Z.div_div, Z.testbit_spec' by lia.
      pose proof (Z.div_mod (ch `div` 2 ^ (width - 1 - bi)) 2). lia. }
    rewrite fold_left_app.
    assert (Hs : forall (sp : list Z), sp = [ch_space] \/ sp = [] -> fold_left
      (fun acc c => if c =? ch_space then acc else 2 * acc + (if c =? ch_1 then 1 else 0)) sp acc' = acc').
    { intros sp [-> | ->]; done. }
    rewrite Hs by (destruct (_ && _); tauto). apply IH; [lia|lia|done|done].
Qed.

Section sprint_facts.
Context `{HasMachine St}.
Implicit Type s : St.

Lemma sprint_bits_ok buff ch width top conv m s k : forall bi acc m1,
  0 <= bi -> bi + Z.of_nat k = width ->
  (forall b, 0 <= b < width ->
     (Z.land (conv (Z.shiftl ch b)) top =? 0) = negb (Z.testbit ch (width - 1 - b))) ->
  written buff acc m m1 ->
  region buff (Z.of_nat (length acc + length (bits_text k ch width bi))) m ->
  exists m', sprint_bits k buff ch width top conv bi (Z.of_nat (length acc)) (set_mem m1 s) =
      Ret tt (set_mem m' s) /\ written buff (acc ++ bits_text k ch width bi) m m'.
Proof.
  induction k as [|k IH]; intros bi acc m1 Hbi Hk Hconv Hw Hr; cbn [sprint_bits bits_text] in *.
  - exists m1. by rewrite app_nil_r.
  - rewrite Hconv by lia. set (c := if Z.testbit ch (width - 1 - bi) then ch_1 else ch_0) in *.
    replace (if negb (Z.testbit ch (width - 1 - bi)) then ch_0 else ch_1) with c
      by (unfold c; by destruct (Z.testbit _ _)).
    assert (Hc : is_u8 c) by (unfold c; by destruct (Z.testbit _ _)).
    cbn [length] in Hr. rewrite length_app in Hr.
    pose proof (overwritten_region _ _ _ _ _ _ _ Hw Hr) as Hr1. mstep.
    pose proof (written_snoc _ _ _ _ _ Hw Hc) as Hw1.
    destruct (((bi + 1) `mod` 8 =? 0) && negb (bi =? width - 1)); cbn [app length] in *.
    + mstep.
      pose proof (written_snoc _ _ ch_space _ _ Hw1 ltac:(done)) as Hw2.
      rewrite length_app in Hw2. cbn [length] in Hw2.
      replace (Z.of_nat (length acc + 1)) with (Z.of_nat (length acc) + 1) in Hw2 by lia.
      destruct (IH (bi + 1) _ _ ltac:(lia) ltac:(lia) Hconv Hw2) as (m2 & E2 & Hw3).
      { rewrite !length_app. cbn [length]. apply (region_sub _ _ _ _ _ Hr); lia. }
      exists m2. rewrite <- !app_assoc in Hw3. split; [|done]. rewrite <- E2. f_equal.
      rewrite !length_app. cbn [length]. lia.
    + destruct (IH (bi + 1) _ _ ltac:(lia) ltac:(lia) Hconv Hw1) as (m2 & E2 & Hw3).
      { rewrite !length_app. cbn [length]. apply (region_sub _ _ _ _ _ Hr); lia. }
      exists m2. rewrite <- app_assoc in Hw3. split; [|done]. rewrite <- E2. f_equal.
      rewrite length_app. cbn [length]. lia.
Qed.

(** The mask selects the bit the loop is at. *)
Lemma top_bit_conv w width ch b :
  0 <= ch < 2 ^ width -> 0 <= b < width -> width <= w ->
  (Z.land ((Z.shiftl ch b) `mod` 2 ^ w) (Z.shiftl 1 (width - 1)) =? 0) =
    negb (Z.testbit ch (width - 1 - b)).
Proof.
  intros Hch Hb Hw. rewrite land_bit_nonzero by lia. f_equal.
  rewrite testbit_mod_pow2 by lia. rewrite bool_decide_true by lia. simpl.
  by rewrite Z.shiftl_spec by lia.
Qed.

(** The common shape of sprint_binary16, 32 and 64. *)
Lemma sprint_wide_ok buff ch width top conv len s :
  0 < width -> 0 <= ch < 2 ^ width ->
  length (bits_text (Z.to_nat width) ch width 0) = len ->
  (forall b, 0 <= b < width ->
     (Z.land (conv (Z.shiftl ch b)) top =? 0) = negb (Z.testbit ch (width - 1 - b))) ->
  region buff (Z.of_nat len + 1) (smem s) ->
  exists m', (store 1 (buff + Z.of_nat len) ch_nul ;;
      sprint_bits (Z.to_nat width) buff ch width top conv 0 0) s = Ret tt (set_mem m' s) /\
    text_at buff (bits_text (Z.to_nat width) ch width 0) (smem s) m'.
Proof.
  intros Hw0 Hch Hlen Hconv Hr. mstep.
  set (m := wr 1 (buff + Z.of_nat len) ch_nul (smem s)).
  destruct (sprint_bits_ok buff ch width top conv m s (Z.to_nat width) 0 [] m)
    as (m' & E & Hw); [done|lia|done|apply written_nil| |].
  - rewrite Hlen. cbn [length]. unfold m. apply region_wr.
    apply (region_sub _ _ _ _ _ Hr); lia.
  - exists m'. split; [exact E|]. cbn [app] in Hw. split_and!.
    + intros i c Hi. by apply (written_lookup _ _ _ _ _ _ Hw).
    + rewrite (written_outside _ _ _ _ _ Hw) by lia. rewrite Hlen. unfold m. by rewrite wr_lookup_in by lia.
    + rewrite Hlen. intros x Hx. rewrite (written_outside _ _ _ _ _ Hw) by (rewrite Hlen; lia).
      unfold m. by rewrite wr_lookup_ne by lia.
Qed.
End sprint_facts.
