(* ===== verification/StrFormat.v ===== *)
(** * lib/str.c: vsnprintf prints what the format and the arguments say *)
From S2P Require Import Prelude Machine MemLib Str StrProofs.

Lemma keys_le_size (ks : list Z) (m : memory) :
  NoDup ks -> (forall k, k ∈ ks -> is_Some (m !! k)) -> (length ks <= size m)%nat.
Proof.
  intros Hd Hk. rewrite <- (size_list_to_set (C := gset Z) ks Hd), <- size_dom.
  apply subseteq_size. intros k Hx. apply elem_of_dom, Hk. by apply elem_of_list_to_set in Hx.
Qed.

(** What vsnprintf left is a string, if nothing printed is a NUL. *)
Lemma cstr_text_cstr m p l : Forall (fun c => 0 < c < 256) l -> cstr_text m p l -> cstr m p l.
Proof.
  intros Hl Ht. split.
  - intros i c Hi. split; [apply Ht; by apply lookup_app_l_Some|]. by apply (Forall_lookup_1 _ _ _ _ Hl Hi).
  - apply Ht. rewrite lookup_app_r, Nat.sub_diag by lia. done.
Qed.

Lemma cstr_fuel m p l : cstr m p l -> (length l < size m)%nat.
Proof.
  intros [Hl H0].
  pose proof (keys_le_size ((fun i => p + Z.of_nat i) <$> seq 0 (S (length l))) m) as Hs.
  rewrite length_fmap, length_seq in Hs. apply Hs.
  - apply NoDup_fmap_2; [|apply NoDup_seq]. intros i j. lia.
  - intros k (i & -> & Hi)%list_elem_of_fmap. apply elem_of_seq in Hi.
    destruct (decide (i = length l)) as [->|]; [eauto|].
    destruct (lookup_lt_is_Some_2 l i) as [c Hc]; [lia|]. destruct (Hl i c Hc). eauto.
Qed.

Lemma cstr_cons m p c l : cstr m p (c :: l) -> m !! p = Some c /\ 0 < c < 256 /\ cstr m (p + 1) l.
Proof.
  intros [Hl H0]. destruct (Hl O c eq_refl) as [Hc ?]. rewrite Z.add_0_r in Hc.
  split_and!; try done; try lia. split.
  - intros i d Hi. destruct (Hl (S i) d Hi) as [<- ?]. split; [f_equal; lia|done].
  - rewrite <- H0. f_equal. cbn [length]. lia.
Qed.
Lemma cstr_nil m p : cstr m p [] -> m !! p = Some 0.
Proof. intros [_ H0]. cbn [length] in H0. by rewrite Z.add_0_r in H0. Qed.

Section format.
Context `{HasMachine St}.
Implicit Type s : St.

Lemma load_byte a c s : smem s !! a = Some c -> 0 <= c < 256 -> load 1 a s = Ret c s.
Proof.
  intros Ha Hc. rewrite load_ok.
  - rewrite rd_1. unfold byte_at. rewrite Ha. simpl. by rewrite Z.mod_small.
  - intros x Hx. assert (x = a) as -> by lia. eauto.
Qed.

(** The buffer, and the memory before the call. *)
Context (b n : Z) (m0 : memory).
Hypothesis Hb : 0 <= b /\ b + n < 2 ^ 64.
Hypothesis Hn : 0 < n < 2 ^ 31.
Hypothesis Hbuf : region b n m0.

Definition outside_buffer (p : Z) (len : nat) : Prop := p + Z.of_nat len < b \/ b + n <= p.
Definition in_string (p : Z) (l : list Z) : Prop := cstr m0 p l /\ outside_buffer p (length l).
Definition va_ok (a : va) (slot : Z) : Prop :=
  match a with VNum z => slot = z | VStr l => in_string slot l end.

(** The buffer starts with [l]; everything outside the buffer is as before. *)
Record holds (l : list Z) (m : memory) : Prop := {
  ho_prefix : forall i c, l !! i = Some c -> m !! (b + Z.of_nat i) = Some c;
  ho_outside : forall x, ~ (b <= x < b + n) -> m !! x = m0 !! x;
  ho_region : region b n m
}.

Lemma holds_nil : holds [] m0.
Proof. by split. Qed.

Lemma holds_snoc l c m :
  holds l m -> Z.of_nat (length l) < n -> is_u8 c ->
  holds (l ++ [c]) (wr 1 (b + Z.of_nat (length l)) c m).
Proof.
  intros [H1 H2 H3] Hl Hc. split.
  - intros i d [Hi|[Hi Hd]]%lookup_app_Some.
    + pose proof (lookup_lt_Some _ _ _ Hi). rewrite wr_lookup_ne by lia. by apply H1.
    + apply list_lookup_singleton_Some in Hd as [Hi0 <-].
      replace (Z.of_nat i) with (Z.of_nat (length l)) by lia. rewrite wr_lookup_in by lia.
      rewrite Z.sub_diag, Z.pow_0_r, Z.div_1_r, Z.mod_small; done.
  - intros x Hx. rewrite wr_lookup_ne by lia. by apply H2.
  - by apply region_wr.
Qed.

Lemma holds_text l t m m' :
  holds l m -> Z.of_nat (length l + length t) < n ->
  text_at (b + Z.of_nat (length l)) t m m' -> holds (l ++ t) m'.
Proof.
  intros [H1 H2 H3] Hl (T1 & T2 & T3). split.
  - intros i d [Hi|[Hi Hd]]%lookup_app_Some.
    + pose proof (lookup_lt_Some _ _ _ Hi). rewrite T3 by lia. by apply H1.
    + rewrite <- (T1 _ _ Hd). f_equal. lia.
  - intros x Hx. rewrite T3 by lia. by apply H2.
  - intros x Hx. destruct (decide (b + Z.of_nat (length l) <= x <= b + Z.of_nat (length l) + Z.of_nat (length t))) as [D|D].
    + destruct (decide (x = b + Z.of_nat (length l) + Z.of_nat (length t))) as [->|]; [eauto|].
      destruct (lookup_lt_is_Some_2 t (Z.to_nat (x - b - Z.of_nat (length l)))) as [c Hc]; [lia|].
      specialize (T1 _ _ Hc). replace (b + Z.of_nat (length l) + Z.of_nat _) with x in T1 by lia. eauto.
    + rewrite T3 by done. by apply H3.
Qed.

(** Reading a string outside the buffer while the buffer is being filled. *)
Lemma load_string l m s p c r :
  holds l m -> in_string p (c :: r) -> load 1 p (set_mem m s) = Ret c (set_mem m s) /\
  c <> 0 /\ is_u8 c /\ in_string (p + 1) r.
Proof.
  intros Hh [Hc Ho]. destruct (cstr_cons _ _ _ _ Hc) as (Hp & Hc0 & Hr).
  unfold outside_buffer in Ho. cbn [length] in Ho. split_and!.
  - apply load_byte; [|lia]. rewrite smem_set_mem, (ho_outside _ _ Hh); [done|lia].
  - lia.
  - unfold is_u8. lia.
  - split; [done|]. unfold outside_buffer. lia.
Qed.
Lemma load_string_end l m s p :
  holds l m -> in_string p [] -> load 1 p (set_mem m s) = Ret 0 (set_mem m s).
Proof.
  intros Hh [Hc Ho]. unfold outside_buffer in Ho. cbn [length] in Ho. apply load_byte; [|lia].
  rewrite smem_set_mem, (ho_outside _ _ Hh) by lia. by apply cstr_nil.
Qed.

Lemma store_holds l c m s :
  holds l m -> Z.of_nat (length l) < n -> is_u8 c ->
  exists m', store 1 (b + Z.of_nat (length l)) c (set_mem m s) = Ret tt (set_mem m' s) /\
    holds (l ++ [c]) m'.
Proof.
  intros Hh Hl Hc. pose proof (ho_region _ _ Hh) as Hr.
  rewrite store_ok by mregion. rewrite smem_set_mem, set_mem_set_mem.
  eexists. split; [done|]. by apply holds_snoc.
Qed.

Lemma copy_string_loop_ok s l : forall p acc m fuel,
  (length l < fuel)%nat -> in_string p l -> holds acc m -> Z.of_nat (length acc + length l) < n ->
  exists m', loop fuel (fun '(p, bi) =>
      c ← load 1 p;
      if c =? ch_nul then mret (inr bi)
      else store 1 (b + bi) c ;; mret (inl (p + 1, bi + 1))) (p, Z.of_nat (length acc)) (set_mem m s) =
      Ret (Z.of_nat (length (acc ++ l))) (set_mem m' s) /\ holds (acc ++ l) m'.
Proof.
  induction l as [|c l IH]; intros p acc m fuel Hf Hs Hh Hl;
    (destruct fuel as [|fuel]; [simpl in Hf; lia|]); rewrite loop_S.
  - exists m. rewrite app_nil_r. split; [|done].
    erewrite bind_ret_eq; [|erewrite bind_ret_eq; [|by eapply load_string_end]; reflexivity]. done.
  - destruct (load_string acc m s p c l Hh Hs) as (E & Hc0 & Hc & Hs').
    cbn [length] in *.
    destruct (store_holds acc c m s Hh) as (m1 & E1 & Hh1); [lia|done|].
    destruct (IH (p + 1) (acc ++ [c]) m1 fuel) as (m2 & E2 & Hh2); [lia|done|done| |].
    { rewrite length_app. cbn [length]. lia. }
    exists m2. rewrite <- app_assoc in E2, Hh2. split; [|done].
    erewrite bind_ret_eq.
    2: { erewrite bind_ret_eq; [|exact E]. rewrite (proj2 (Z.eqb_neq c ch_nul) Hc0).
         erewrite bind_ret_eq; [|exact E1]. reflexivity. }
    rewrite length_app in E2. cbn [length] in E2.
    replace (Z.of_nat (length acc) + 1) with (Z.of_nat (length acc + 1)) by lia. exact E2.
Qed.

(** The mapped addresses do not change, so the fuel covers every string. *)
Lemma holds_fuel acc m p l s : holds acc m -> in_string p l -> (length l < mem_fuel (set_mem m s))%nat.
Proof.
  intros Hh [Hc Ho]. unfold mem_fuel. rewrite smem_set_mem.
  assert (Hcm : cstr m p l).
  { destruct Hc as [Hc H0]. unfold outside_buffer in Ho. split.
    - intros i c Hi. pose proof (lookup_lt_Some _ _ _ Hi).
      rewrite (ho_outside _ _ Hh) by lia. by apply Hc.
    - rewrite (ho_outside _ _ Hh) by lia. done. }
  pose proof (cstr_fuel _ _ _ Hcm). lia.
Qed.

(** What one conversion must achieve for the rest of the format to be rendered. *)
Definition converted (i : Z) (args : list va) (acc : list Z) (k : nat) (format : Z)
    (txt : list Z) (s : St) (r : outcome St (Z * Z * list Z)) : Prop :=
  exists t rest fmt' args' slots' j m',
    r = Ret (j, Z.of_nat (length (acc ++ t)), slots') (set_mem m' s) /\
    holds (acc ++ t) m' /\ txt = t ++ rest /\
    in_string (format + (j + 1)) fmt' /\ (length fmt' <= k)%nat /\
    render fmt' args' = Some rest /\ Forall2 va_ok args' slots'.

(** A conversion that takes a number and prints [t]. *)
Lemma convert_number i args acc k format s m (f : Z -> Z -> M St Z) t rest fmt' args' v slots' j :
  (forall p m1, p = b + Z.of_nat (length acc) -> region p (Z.of_nat (length t) + 1) m1 ->
     0 <= p -> p + Z.of_nat (length t) < 2 ^ 64 ->
     exists m', f v p (set_mem m1 s) = Ret (Z.of_nat (length t)) (set_mem m' s) /\ text_at p t m1 m') ->
  holds acc m -> Z.of_nat (length (acc ++ t ++ rest)) < n ->
  in_string (format + (j + 1)) fmt' -> (length fmt' <= k)%nat ->
  render fmt' args' = Some rest -> Forall2 va_ok args' slots' ->
  converted i args acc k format (t ++ rest) s
    (('(w, a) ← va_arg (v :: slots'); c ← f w (b + Z.of_nat (length acc));
      mret (j, Z.of_nat (length acc) + c, a)) (set_mem m s)).
Proof.
  intros Hf Hh Hl Hs Hk Hr Hva. rewrite !length_app in Hl.
  destruct (Hf (b + Z.of_nat (length acc)) m eq_refl) as (m' & E & Ht); [|lia|lia|].
  - pose proof (ho_region _ _ Hh) as Hreg. mregion.
  - exists t, rest, fmt', args', slots', j, m'. erewrite bind_ret_eq; [|reflexivity].
    cbv beta iota. rewrite (bind_ret_eq _ _ _ _ _ E). split_and!; try done.
    + rewrite length_app, Nat2Z.inj_add. done.
    + eapply holds_text; [done|lia|done].
Qed.

Lemma signed_text_small num : exists c l, signed_text 10 num = c :: l.
Proof.
  destruct (signed_text 10 num) eqn:E; [|eauto]. exfalso. unfold signed_text in E.
  apply app_nil in E as [_ E]. apply (f_equal (@length Z)) in E. rewrite length_rev, length_fmap in E.
  destruct (num_digits 10 (Z.abs num)) eqn:E'; [by apply num_digits_ne in E'|done].
Qed.

Lemma s32_range z : - 2 ^ 31 <= s32 z < 2 ^ 31.
Proof. word_lia. Qed.
Lemma s64_range z : - 2 ^ 63 <= s64 z < 2 ^ 63.
Proof. word_lia. Qed.

Lemma converted_skip i args acc k format s m fmt' slots j txt :
  holds acc m -> in_string (format + (j + 1)) fmt' -> (length fmt' <= k)%nat ->
  render fmt' args = Some txt -> Forall2 va_ok args slots ->
  converted i args acc k format txt s (Ret (j, Z.of_nat (length acc), slots) (set_mem m s)).
Proof.
  intros. exists [], txt, fmt', args, slots, j, m. rewrite app_nil_r. by split_and!.
Qed.

Lemma va_num (args : list va) slots z : Forall2 va_ok (VNum z :: args) slots ->
  exists slots', slots = z :: slots' /\ Forall2 va_ok args slots'.
Proof. intros Hva. inversion Hva as [|? ? ? ? Hz Hr]; subst. simpl in Hz. subst. eauto. Qed.

(** The conversions at an address of a filled buffer. *)
Lemma signed_conv_ok min num p m s :
  - 2 ^ 63 <= num < 2 ^ 63 -> num <> min -> num <> - 2 ^ 63 ->
  let t := signed_text 10 num in
  region p (Z.of_nat (length t) + 1) m -> 0 <= p -> p + Z.of_nat (length t) < 2 ^ 64 ->
  exists m', signed_toa min num p 10 (set_mem m s) = Ret (Z.of_nat (length t)) (set_mem m' s) /\
    text_at p t m m'.
Proof.
  intros Hnum Hmin Hmin' t Hr Hp Hpn.
  destruct (signed_toa_ok min num p 10 (set_mem m s)) as (m' & E & Ht);
    rewrite ?smem_set_mem; try done; try lia.
  rewrite smem_set_mem in Ht. rewrite set_mem_set_mem in E. by exists m'.
Qed.
Lemma unsigned_conv_ok ten base num p m s :
  letter_ok ten -> base = 10 \/ base = 16 ->
  let t := unsigned_text ten base (u64 num) in
  region p (Z.of_nat (length t) + 1) m -> 0 <= p -> p + Z.of_nat (length t) < 2 ^ 64 ->
  exists m', unsigned_toa ten (u64 num) p base (set_mem m s) = Ret (Z.of_nat (length t)) (set_mem m' s) /\
    text_at p t m m'.
Proof.
  intros Hten Hbase t Hr Hp Hpn.
  destruct (unsigned_toa_ok ten (u64 num) p base (set_mem m s)) as (m' & E & Ht);
    rewrite ?smem_set_mem; try done; [unfold base_ok; lia|apply u64_range|].
  rewrite smem_set_mem in Ht. rewrite set_mem_set_mem in E. by exists m'.
Qed.

Lemma convert_ok i d fmt args slots acc m s txt format :
  holds acc m -> Z.of_nat (length (acc ++ txt)) < n ->
  in_string (format + i) (d :: fmt) -> Forall2 va_ok args slots ->
  render (ch_percent :: d :: fmt) args = Some txt ->
  converted i args acc (length fmt) format txt s
    (convert b format i (Z.of_nat (length acc)) slots (set_mem m s)).
Proof.
  intros Hh Hl Hs Hva Hr.
  destruct (load_string acc m s _ d fmt Hh Hs) as (Eload & Hd0 & Hd & Hs1).
  rewrite <- Z.add_assoc in Hs1.
  unfold convert. rewrite (bind_ret_eq _ _ _ _ _ Eload). cbn [render] in Hr.
  rewrite (proj2 (Z.eqb_eq ch_percent ch_percent) eq_refl) in Hr.
  destruct (d =? ch_d).
  { destruct args as [|[z|] args]; try done.
    destruct (Z.eqb_spec (s32 z) (- 2 ^ 31)) as [|Hmin]; [done|].
    destruct (render fmt args) as [rest|] eqn:Er; [|done]. injection Hr as <-.
    destruct (va_num _ _ _ Hva) as (slots' & -> & Hva').
    apply (convert_number i _ acc _ format s m (fun v p => itoa (s32 v) p 10) _ _ fmt args z slots' i); try done.
    intros p m1 _. pose proof (s32_range z). apply signed_conv_ok; lia. }
  destruct (d =? ch_x).
  { destruct args as [|[z|] args]; try done.
    destruct (render fmt args) as [rest|] eqn:Er; [|done]. injection Hr as <-.
    destruct (va_num _ _ _ Hva) as (slots' & -> & Hva').
    apply (convert_number i _ acc _ format s m (fun v p => __ultoa (u64 v) p 16) _ _ fmt args z slots' i); try done.
    intros p m1 _. apply unsigned_conv_ok; [by left|by right]. }
  destruct (d =? ch_X).
  { destruct args as [|[z|] args]; try done.
    destruct (render fmt args) as [rest|] eqn:Er; [|done]. injection Hr as <-.
    destruct (va_num _ _ _ Hva) as (slots' & -> & Hva').
    apply (convert_number i _ acc _ format s m (fun v p => __ultoua (u64 v) p 16) _ _ fmt args z slots' i); try done.
    intros p m1 _. apply unsigned_conv_ok; [by right|by right]. }
  destruct (d =? ch_s).
  { destruct args as [|[|l] args]; try done.
    destruct (render fmt args) as [rest|] eqn:Er; [|done]. injection Hr as <-.
    inversion Hva as [|? slot ? slots' Hslot Hva']; subst. simpl in Hslot.
    rewrite !length_app in Hl.
    destruct (copy_string_loop_ok s l slot acc m (mem_fuel (set_mem m s))) as (m' & E & Hh'); try done.
    { by eapply holds_fuel. } { lia. }
    exists l, rest, fmt, args, slots', i, m'. split; [|by split_and!].
    erewrite bind_ret_eq; [|reflexivity]. cbv beta iota.
    erewrite bind_ret_eq; [|unfold copy_string; erewrite bind_ret_eq; [|reflexivity]; exact E]. done. }
  destruct (d =? ch_c).
  { destruct args as [|[z|] args]; try done.
    destruct (render fmt args) as [rest|] eqn:Er; [|done]. injection Hr as <-.
    destruct (va_num _ _ _ Hva) as (slots' & -> & Hva').
    rewrite length_app in Hl. cbn [length] in Hl.
    destruct (store_holds acc (u8 z) m s Hh) as (m' & E & Hh'); [lia|apply u8_range|].
    exists [u8 z], rest, fmt, args, slots', i, m'. split; [|by split_and!].
    erewrite bind_ret_eq; [|reflexivity]. cbv beta iota. rewrite (bind_ret_eq _ _ _ _ _ E).
    cbn [mret M_ret]. rewrite length_app. cbn [length]. do 2 f_equal. f_equal. lia. }
  destruct (d =? ch_l) eqn:El.
  2: { by apply converted_skip with fmt. }
  destruct fmt as [|e fmt].
  { injection Hr as <-. 
    assert (E : load 1 (format + (i + 1)) (set_mem m s) = Ret 0 (set_mem m s)) by (by eapply load_string_end).
    rewrite (bind_ret_eq _ _ _ _ _ E). by apply converted_skip with []. }
  destruct (load_string acc m s _ e fmt Hh Hs1) as (Eload2 & _ & _ & Hs2).
  rewrite (bind_ret_eq _ _ _ _ _ Eload2). rewrite <- Z.add_assoc in Hs2.
  destruct (e =? ch_u).
  { destruct args as [|[z|] args]; try done.
    destruct (render fmt args) as [rest|] eqn:Er; [|done]. injection Hr as <-.
    destruct (va_num _ _ _ Hva) as (slots' & -> & Hva').
    apply (convert_number i _ acc _ format s m (fun v p => __ultoa (u64 v) p 10) _ _ fmt args z slots' (i + 1));
      try done; [|simpl; lia].
    intros p m1 _. apply unsigned_conv_ok; [by left|by left]. }
  destruct (e =? ch_d).
  { destruct args as [|[z|] args]; try done.
    destruct (Z.eqb_spec (s64 z) (- 2 ^ 63)) as [|Hmin]; [done|].
    destruct (render fmt args) as [rest|] eqn:Er; [|done]. injection Hr as <-.
    destruct (va_num _ _ _ Hva) as (slots' & -> & Hva').
    apply (convert_number i _ acc _ format s m (fun v p => ltoa (s64 v) p 10) _ _ fmt args z slots' (i + 1));
      try done; [|simpl; lia].
    intros p m1 _. pose proof (s64_range z). apply signed_conv_ok; lia. }
  by apply converted_skip with (e :: fmt).
Qed.

Lemma format_loop_ok format s k : forall fmt args slots txt acc i m fuel,
  (length fmt <= k)%nat -> (k < fuel)%nat ->
  in_string (format + i) fmt -> render fmt args = Some txt -> Forall2 va_ok args slots ->
  holds acc m -> Z.of_nat (length (acc ++ txt)) < n ->
  exists m', loop fuel (format_iter b n format) (i, Z.of_nat (length acc), slots) (set_mem m s) =
      Ret (Z.of_nat (length (acc ++ txt))) (set_mem m' s) /\ holds (acc ++ txt) m'.
Proof.
  induction k as [|k IH]; intros fmt args slots txt acc i m fuel Hk Hf Hs Hr Hva Hh Hl;
    (destruct fuel as [|fuel]; [lia|]); rewrite loop_S.
  all: destruct fmt as [|c fmt]; cbn [length] in Hk; try lia.
  1, 2: injection Hr as <-; exists m; rewrite app_nil_r; split; [|done];
    erewrite bind_ret_eq;
      [|unfold format_iter; cbv beta iota; erewrite bind_ret_eq; [|by eapply load_string_end]; reflexivity]; done.
  destruct (load_string acc m s _ c fmt Hh Hs) as (E & Hc0 & Hc & Hs1).
  rewrite <- Z.add_assoc in Hs1. destruct (Z.eqb_spec c ch_percent) as [->|Hp].
  - destruct fmt as [|d fmt]; [done|].
    destruct (convert_ok (i + 1) d fmt args slots acc m s txt format Hh Hl Hs1 Hva Hr)
      as (t & rest & fmt' & args' & slots' & j & m1 & E1 & Hh1 & -> & Hs2 & Hk2 & Hr2 & Hva2).
    rewrite app_assoc in Hl |- *. cbn [length] in Hk.
    destruct (IH fmt' args' slots' rest (acc ++ t) (j + 1) m1 fuel) as (m2 & E2 & Hh2);
      try done; try lia.
    exists m2. split; [|done]. erewrite bind_ret_eq.
    2: { unfold format_iter. cbv beta iota. erewrite bind_ret_eq; [|exact E]. change (ch_percent =? ch_nul) with false.
         change (ch_percent =? ch_percent) with true. cbv beta iota.
         erewrite bind_ret_eq; [|exact E1]. reflexivity. }
    exact E2.
  - cbn [render] in Hr. rewrite (proj2 (Z.eqb_neq _ _) Hp) in Hr.
    destruct (render fmt args) as [rest|] eqn:Er; [|done]. injection Hr as <-.
    assert (Hl2 : Z.of_nat (length ((acc ++ [c]) ++ rest)) < n) by (by rewrite <- app_assoc).
    rewrite length_app in Hl. cbn [length] in Hl.
    destruct (store_holds acc c m s Hh) as (m1 & E1 & Hh1); [lia|done|].
    destruct (IH fmt args slots rest (acc ++ [c]) (i + 1) m1 fuel) as (m2 & E2 & Hh2);
      try done; try lia.
    exists m2. rewrite <- app_assoc in E2, Hh2. split; [|done]. erewrite bind_ret_eq.
    2: { unfold format_iter. cbv beta iota. erewrite bind_ret_eq; [|exact E].
         rewrite (proj2 (Z.eqb_neq c ch_nul) Hc0), (proj2 (Z.eqb_neq _ _) Hp), u64_small by lia.
         rewrite (proj2 (Z.ltb_lt _ (n - 1))) by lia.
         erewrite bind_ret_eq; [|exact E1]. reflexivity. }
    rewrite length_app in E2. cbn [length] in E2.
    replace (Z.of_nat (length acc) + 1) with (Z.of_nat (length acc + 1)) by lia. exact E2.
Qed.

Lemma vsnprintf_ok format fmt args slots txt s :
  smem s = m0 -> in_string format fmt -> render fmt args = Some txt -> Forall2 va_ok args slots ->
  Z.of_nat (length txt) < n ->
  exists m', vsnprintf b n format slots s = Ret (Z.of_nat (length txt)) (set_mem m' s) /\
    holds (txt ++ [ch_nul]) m'.
Proof.
  intros Hm Hs Hr Hva Hl.
  destruct (format_loop_ok format s (length fmt) fmt args slots txt [] 0 m0 (mem_fuel s))
    as (m1 & E1 & Hh1); try done.
  - destruct Hs as [Hc _]. pose proof (cstr_fuel _ _ _ Hc). unfold mem_fuel. rewrite Hm. lia.
  - by rewrite Z.add_0_r.
  - cbn [app] in *. rewrite <- Hm, set_mem_smem in E1. unfold vsnprintf.
    erewrite bind_ret_eq; [|reflexivity]. change 0 with (Z.of_nat (length (@nil Z))) at 2.
    rewrite (bind_ret_eq _ _ _ _ _ E1). rewrite (proj2 (Z.ltb_lt _ _) Hl).
    destruct (store_holds txt ch_nul m1 s Hh1 Hl) as (m2 & E2 & Hh2); [done|].
    rewrite (bind_ret_eq _ _ _ _ _ E2). exists m2. split; [|done].
    cbn [mret M_ret]. f_equal. word_lia.
Qed.
End format.
