(* ===== verification/StrProps.v ===== *)
(** * lib/str.c: the properties of the string routines *)
From S2P Require Import Prelude Machine MemLib Pmm Str StrProofs StrFormat.

(** ** A memory with a format, two strings and a buffer to try things on *)
Fixpoint poke (p : Z) (l : list Z) (m : memory) : memory :=
  match l with
  | [] => m
  | c :: l' => <[p := c]> (poke (p + 1) l' m)
  end.
Lemma poke_region l p q len m : region q len m -> region q len (poke p l m).
Proof.
  revert p. induction l as [|c l IH]; intros p Hr; [done|]. cbn [poke]. intros x Hx.
  destruct (decide (x = p)) as [->|Hne]; [rewrite lookup_insert_eq; eauto|].
  rewrite lookup_insert_ne by done. by apply IH.
Qed.
Definition chars (t : string) : list Z :=
  (fun a => Z.of_nat (Ascii.nat_of_ascii a)) <$> String.list_ascii_of_string t.
Definition on_mem (m : memory) : pmm := Pmm (Machine m []) 0 0 0 [] 0 0 0 0 0 0 0 0.

(** Format at 1000, a string at 2000, another at 3000, 64 bytes of buffer at 4000. *)
Definition demo_mem (fmt a b : string) : memory :=
  poke 1000 (chars fmt ++ [0]) (poke 2000 (chars a ++ [0]) (poke 3000 (chars b ++ [0])
    (zeros 4000 64))).
Definition demo (fmt a b : string) : pmm := on_mem (demo_mem fmt a b).

(** A decidable version of [cstr]. *)
Fixpoint cstrb (m : memory) (p : Z) (l : list Z) : bool :=
  match l with
  | [] => bool_decide (m !! p = Some 0)
  | c :: l' => bool_decide (m !! p = Some c) && (0 <? c) && (c <? 256) && cstrb m (p + 1) l'
  end.
Lemma cstrb_sound m l : forall p, cstrb m p l = true -> cstr m p l.
Proof.
  induction l as [|c l IH]; intros p; cbn [cstrb].
  - intros E%bool_decide_eq_true. split; [done|]. cbn [length]. by rewrite Z.add_0_r.
  - rewrite !andb_true_iff, bool_decide_eq_true, !Z.ltb_lt. intros [[[Hc H0] H1] Hl].
    destruct (IH (p + 1) Hl) as [Hi He]. split.
    + intros [|i] d Hd; [injection Hd as <-; by rewrite Z.add_0_r|].
      destruct (Hi i d Hd) as [<- ?]. split; [f_equal; lia|done].
    + rewrite <- He. f_equal. cbn [length]. lia.
Qed.

(** ** Formatting *)

(** C11: vsnprintf. For every format whose conversions agree with the arguments
    (and whose integers are not the least of their type), when the rendered
    text and its terminator fit the buffer, vsnprintf terminates, leaves exactly
    that text and a terminator at the start of the buffer, changes nothing
    outside the buffer and returns the length of the text. *)
Theorem vsnprintf_renders `{HasMachine St} (buffer size format : Z) fmt args slots txt (s : St) :
  0 <= buffer /\ buffer + size < 2 ^ 64 -> 0 < size < 2 ^ 31 -> region buffer size (smem s) ->
  in_string buffer size (smem s) format fmt ->
  Forall2 (va_ok buffer size (smem s)) args slots ->
  render fmt args = Some txt -> Z.of_nat (length txt) < size ->
  exists s', vsnprintf buffer size format slots s = Ret (Z.of_nat (length txt)) s' /\
    cstr_text (smem s') buffer txt /\
    (forall x, ~ (buffer <= x < buffer + size) -> smem s' !! x = smem s !! x).
Proof.
  intros Hb Hn Hr Hs Hva Hrender Hl.
  destruct (vsnprintf_ok buffer size (smem s) Hb Hn Hr format fmt args slots txt s eq_refl Hs Hrender Hva Hl)
    as (m' & E & Hh). exists (set_mem m' s). split; [done|]. rewrite smem_set_mem.
  split; [|apply Hh]. intros i c Hi. by apply (ho_prefix _ _ _ _ _ Hh).
Qed.

Lemma vsnprintf_renders_witness :
  let s := demo "%s=%d, %lu%c %ld" "x" "" in
  exists s', vsnprintf 4000 64 1000 [2000; 2 ^ 32 - 5; 2 ^ 64 - 1; 33; 2 ^ 64 - 7] s = Ret 30 s' /\
    cstr_text (smem s') 4000 (chars "x=-5, 18446744073709551615! -7") /\
    (forall x, ~ (4000 <= x < 4000 + 64) -> smem s' !! x = smem s !! x).
Proof.
  intros s.
  apply (vsnprintf_renders 4000 64 1000 (chars "%s=%d, %lu%c %ld")
    [VStr (chars "x"); VNum (2 ^ 32 - 5); VNum (2 ^ 64 - 1); VNum 33; VNum (2 ^ 64 - 7)]
    _ (chars "x=-5, 18446744073709551615! -7") s); [lia|lia| | | |by vm_compute|by vm_compute].
  - apply (mapped_spec 64). by vm_compute.
  - split; [by apply cstrb_sound; vm_compute|left; by vm_compute].
  - constructor; [|by repeat constructor].
    split; [by apply cstrb_sound; vm_compute|left; by vm_compute].
Defined.

(** The buffer size does not bound a "%s" conversion: a string argument of
    any length is copied in full, past the end of the buffer it was given a
    size for. *)
Theorem vsnprintf_string_unbounded `{HasMachine St} (buffer size format arg : Z) l (s : St) :
  0 <= buffer -> 0 < size <= Z.of_nat (length l) ->
  buffer + Z.of_nat (length l) + 1 < 2 ^ 64 -> Z.of_nat (length l) < 2 ^ 31 ->
  region buffer (Z.of_nat (length l) + 1) (smem s) ->
  in_string buffer (Z.of_nat (length l) + 1) (smem s) format [ch_percent; ch_s] ->
  in_string buffer (Z.of_nat (length l) + 1) (smem s) arg l ->
  exists s', vsnprintf buffer size format [arg] s = Ret (Z.of_nat (length l)) s' /\
    forall i c, l !! i = Some c -> Z.of_nat i <> size - 1 ->
      smem s' !! (buffer + Z.of_nat i) = Some c.
Proof.
  intros Hb Hsize Hend Hlen Hr Hf Ha.
  remember (Z.of_nat (length l) + 1) as N eqn:HN. set (m0 := smem s) in *.
  pose proof (holds_nil buffer N m0 Hr) as Hh0.
  assert (Hfuel : forall p q, in_string buffer N m0 p q -> (length q < mem_fuel s)%nat).
  { intros p q [Hc _]. pose proof (cstr_fuel _ _ _ Hc). unfold mem_fuel. fold m0. lia. }
  pose proof (Hfuel _ _ Hf) as Hk. cbn [length] in Hk.
  destruct (copy_string_loop_ok buffer N m0 s l arg [] m0 (mem_fuel s))
    as (m1 & E1 & Hh1); [by eapply Hfuel|done|done|cbn [length]; lia|].
  assert (Es : set_mem m0 s = s) by apply set_mem_smem. rewrite Es in E1. cbn [app] in *.
  destruct (load_string buffer N m0 [] m0 s format ch_percent [ch_s] Hh0 Hf) as (L1 & _ & _ & Hf1).
  destruct (load_string buffer N m0 [] m0 s (format + 1) ch_s [] Hh0 Hf1) as (L2 & _ & _ & Hf2).
  pose proof (load_string_end buffer N m0 l m1 s _ Hh1 Hf2) as L3.
  rewrite Es in L1, L2.
  assert (Ec : convert buffer format 1 0 [arg] s = Ret (1, Z.of_nat (length l), []) (set_mem m1 s)).
  { unfold convert. rewrite (bind_ret_eq _ _ _ _ _ L2). cbn [Z.eqb ch_s ch_d ch_x ch_X Pos.eqb].
    erewrite bind_ret_eq; [|reflexivity]. cbv beta iota.
    erewrite bind_ret_eq; [|unfold copy_string; erewrite bind_ret_eq; [exact E1|reflexivity]]. done. }
  assert (El : loop (mem_fuel s) (format_iter buffer size format) (0, 0, [arg]) s =
    Ret (Z.of_nat (length l)) (set_mem m1 s)).
  { destruct (mem_fuel s) as [|[|fuel]]; [lia|lia|]. rewrite loop_S.
    rewrite (bind_ret_eq _ _ _ (inl (2, Z.of_nat (length l), [])) (set_mem m1 s)).
    2: { unfold format_iter. cbv beta iota. replace (format + 0) with format by lia.
         rewrite (bind_ret_eq _ _ _ _ _ L1).
         change (ch_percent =? ch_nul) with false. change (ch_percent =? ch_percent) with true.
         cbv beta iota. by rewrite (bind_ret_eq _ _ _ _ _ Ec). }
    rewrite loop_S, (bind_ret_eq _ _ _ (inr (Z.of_nat (length l))) (set_mem m1 s)); [done|].
    unfold format_iter. cbv beta iota. rewrite <- Z.add_assoc in L3.
    by rewrite (bind_ret_eq _ _ _ _ _ L3). }
  unfold vsnprintf. erewrite bind_ret_eq; [|reflexivity]. rewrite (bind_ret_eq _ _ _ _ _ El).
  rewrite (proj2 (Z.ltb_ge _ _)) by lia. rewrite u64_small by lia.
  pose proof (ho_region _ _ _ _ _ Hh1) as Hr1.
  mstep. eexists. split.
  - cbn [mret M_ret]. f_equal. word_lia.
  - intros i c Hi Hne. rewrite smem_set_mem, wr_lookup_ne by lia. by apply (ho_prefix _ _ _ _ _ Hh1).
Qed.

Lemma vsnprintf_string_unbounded_witness :
  let s := demo "%s" "abcdefgh" "" in
  exists s', vsnprintf 4000 4 1000 [2000] s = Ret 8 s' /\
    forall i c, chars "abcdefgh" !! i = Some c -> Z.of_nat i <> 3 ->
      smem s' !! (4000 + Z.of_nat i) = Some c.
Proof.
  intros s. apply (vsnprintf_string_unbounded 4000 4 1000 2000 (chars "abcdefgh") s); try done.
  - apply (mapped_spec 9). by vm_compute.
  - split; [by apply cstrb_sound; vm_compute|left; by vm_compute].
  - split; [by apply cstrb_sound; vm_compute|left; by vm_compute].
Defined.

(** ** Numbers *)

(** C32: number conversions are lossless. In every base from 2 to 36, itoa and
    ltoa of a number other than the least of its type, and __ultoa and __ultoua
    of every 64-bit number, terminate and leave a terminated text from which the
    number can be read back, changing nothing after it; the returned length is
    the text's.  For the least int and the least long, whose negation overflows,
    itoa and ltoa have no defined result. *)
Theorem number_text_roundtrip `{HasMachine St} (str base : Z) (s : St) :
  0 <= str -> str + 66 < 2 ^ 64 -> region str 66 (smem s) -> base_ok base ->
  (forall num, - 2 ^ 31 < num < 2 ^ 31 -> exists l m',
     itoa num str base s = Ret (Z.of_nat (length l)) (set_mem m' s) /\
     text_at str l (smem s) m' /\ parse_signed base l = num) /\
  (forall num, - 2 ^ 63 < num < 2 ^ 63 -> exists l m',
     ltoa num str base s = Ret (Z.of_nat (length l)) (set_mem m' s) /\
     text_at str l (smem s) m' /\ parse_signed base l = num) /\
  (forall num, is_u64 num -> exists l m',
     __ultoa num str base s = Ret (Z.of_nat (length l)) (set_mem m' s) /\
     text_at str l (smem s) m' /\ parse_unsigned ch_a base l = num) /\
  (forall num, is_u64 num -> exists l m',
     __ultoua num str base s = Ret (Z.of_nat (length l)) (set_mem m' s) /\
     text_at str l (smem s) m' /\ parse_unsigned ch_A base l = num) /\
  itoa (- 2 ^ 31) str base s = Fault SignedOverflow /\
  ltoa (- 2 ^ 63) str base s = Fault SignedOverflow.
Proof.
  intros Hp Hpn Hr Hb.
  assert (Hs : forall min num, - 2 ^ 63 < num < 2 ^ 63 -> num <> min -> exists l m',
    signed_toa min num str base s = Ret (Z.of_nat (length l)) (set_mem m' s) /\
    text_at str l (smem s) m' /\ parse_signed base l = num).
  { intros min num Hn Hm. pose proof (signed_text_length base num).
    destruct (signed_toa_ok min num str base s Hb Hn Hm Hp) as (m' & E & Ht); [lia|mregion|].
    exists (signed_text base num), m'. split_and!; [done|done|]. by apply parse_signed_text. }
  assert (Hu : forall ten num, letter_ok ten -> is_u64 num -> exists l m',
    unsigned_toa ten num str base s = Ret (Z.of_nat (length l)) (set_mem m' s) /\
    text_at str l (smem s) m' /\ parse_unsigned ten base l = num).
  { intros ten num Ht Hn. pose proof (unsigned_text_length ten base num).
    destruct (unsigned_toa_ok ten num str base s Hb Ht Hn Hp) as (m' & E & Hx); [lia|mregion|].
    exists (unsigned_text ten base num), m'. split_and!; [done|done|]. by apply parse_unsigned_text. }
  split_and!.
  - intros num Hn. apply Hs; lia.
  - intros num Hn. apply Hs; lia.
  - intros num Hn. apply Hu; [by left|done].
  - intros num Hn. apply Hu; [by right|done].
  - reflexivity.
  - reflexivity.
Qed.

Lemma number_text_roundtrip_witness :
  exists l m', itoa (-1234) 4000 16 (on_mem (zeros 4000 66)) =
      Ret (Z.of_nat (length l)) (set_mem m' (on_mem (zeros 4000 66))) /\
    text_at 4000 l (zeros 4000 66) m' /\ parse_signed 16 l = -1234.
Proof.
  destruct (number_text_roundtrip 4000 16 (on_mem (zeros 4000 66))) as (Hi & _);
    [lia|lia|apply region_zeros|unfold base_ok; lia|]. apply Hi. lia.
Defined.

(** ** strlen and strcmp *)

Lemma strlen_loop_ok `{HasMachine St} (s : St) p l : forall k done_,
  cstr (smem s) (p + done_) l -> (length l < k)%nat ->
  strlen_loop k p done_ s = Ret (done_ + Z.of_nat (length l)) s.
Proof.
  induction l as [|c l IH]; intros [|k] d Hc Hk; cbn [length] in Hk; try lia; cbn [strlen_loop].
  - rewrite (bind_ret_eq _ _ _ _ _ (load_byte _ 0 s (cstr_nil _ _ Hc) ltac:(lia))).
    cbn. f_equal. lia.
  - destruct (cstr_cons _ _ _ _ Hc) as (Hp & Hc0 & Hl).
    rewrite (bind_ret_eq _ _ _ _ _ (load_byte _ c s Hp ltac:(lia))).
    rewrite (proj2 (Z.eqb_neq c ch_nul)) by (unfold ch_nul; lia).
    rewrite IH; [cbn [length]; f_equal; lia| |lia]. by rewrite Z.add_assoc.
Qed.

(** What strcmp answers: [true] for 0. *)
Fixpoint agree (l r : list Z) : bool :=
  match l, r with
  | c :: l', d :: r' => (c =? d) && agree l' r'
  | _, _ => true
  end.
Lemma agree_prefix l : forall r, agree l r = true <-> l `prefix_of` r \/ r `prefix_of` l.
Proof.
  induction l as [|c l IH]; intros [|d r]; cbn [agree].
  - split; [|done]. left. apply prefix_nil.
  - split; [|done]. left. apply prefix_nil.
  - split; [|done]. right. apply prefix_nil.
  - rewrite andb_true_iff, Z.eqb_eq, IH. split.
    + intros [-> [|]]; [left|right]; by apply prefix_cons.
    + intros [Hp|Hp]; pose proof (prefix_cons_inv_1 _ _ _ _ Hp); pose proof (prefix_cons_inv_2 _ _ _ _ Hp); tauto || (split; [congruence|tauto]).
Qed.

Lemma strcmp_loop_ok `{HasMachine St} (s : St) l : forall r p q fuel,
  cstr (smem s) p l -> cstr (smem s) q r -> (length l < fuel)%nat ->
  loop fuel strcmp_iter (p, q) s = Ret (if agree l r then 0 else -1) s.
Proof.
  induction l as [|c l IH]; intros r p q [|fuel] Hl Hr Hf; cbn [length] in Hf; try lia; rewrite loop_S.
  - erewrite bind_ret_eq; [|unfold strcmp_iter;
      rewrite (bind_ret_eq _ _ _ _ _ (load_byte p 0 s (cstr_nil _ _ Hl) ltac:(lia))); reflexivity].
    done.
  - destruct (cstr_cons _ _ _ _ Hl) as (Hp & Hc & Hl').
    assert (Hstep : forall o, strcmp_iter (p, q) s = Ret o s ->
      (o0 ← strcmp_iter (p, q); match o0 with inl l' => loop fuel strcmp_iter l' | inr x => mret x end) s =
      match o with inl l' => loop fuel strcmp_iter l' s | inr x => Ret x s end).
    { intros o E. rewrite (bind_ret_eq _ _ _ _ _ E). by destruct o. }
    destruct r as [|d r]; cbn [agree].
    + erewrite Hstep; [|unfold strcmp_iter;
        rewrite (bind_ret_eq _ _ _ _ _ (load_byte p c s Hp ltac:(lia))), (proj2 (Z.eqb_neq c 0)) by lia;
        rewrite (bind_ret_eq _ _ _ _ _ (load_byte q 0 s (cstr_nil _ _ Hr) ltac:(lia))); reflexivity].
      done.
    + destruct (cstr_cons _ _ _ _ Hr) as (Hq & Hd & Hr').
      assert (E : strcmp_iter (p, q) s =
        Ret (if c =? d then inl (p + 1, q + 1) else inr (-1)) s).
      { unfold strcmp_iter.
        rewrite (bind_ret_eq _ _ _ _ _ (load_byte p c s Hp ltac:(lia))), (proj2 (Z.eqb_neq c 0)) by lia.
        rewrite (bind_ret_eq _ _ _ _ _ (load_byte q d s Hq ltac:(lia))), (proj2 (Z.eqb_neq d 0)) by lia.
        by destruct (c =? d). }
      rewrite (Hstep _ E). destruct (c =? d); [|done]. apply IH; [done|done|lia].
Qed.

Lemma strcmp_ok `{HasMachine St} (p q : Z) l r (s : St) :
  cstr (smem s) p l -> cstr (smem s) q r -> strcmp p q s = Ret (if agree l r then 0 else -1) s.
Proof.
  intros Hl Hr. pose proof (cstr_fuel _ _ _ Hl). unfold strcmp.
  rewrite (bind_ret_eq (gets mem_fuel) _ s _ s eq_refl).
  apply strcmp_loop_ok; (done || (unfold mem_fuel; lia)).
Qed.

(** Strcmp of two terminated strings terminates and answers 0 exactly when
    one of them is a prefix of the other, and -1 otherwise, without touching
    memory: it does not tell a string from its extensions, and the empty string
    equals everything. *)
Theorem strcmp_prefix `{HasMachine St} (p q : Z) l r (s : St) :
  cstr (smem s) p l -> cstr (smem s) q r ->
  (l `prefix_of` r \/ r `prefix_of` l -> strcmp p q s = Ret 0 s) /\
  (~ (l `prefix_of` r \/ r `prefix_of` l) -> strcmp p q s = Ret (-1) s).
Proof.
  intros Hl Hr. rewrite <- agree_prefix, (strcmp_ok p q l r s Hl Hr). destruct (agree l r); split; intros Ha; done.
Qed.

Lemma strcmp_prefix_witness :
  let s := demo "" "help" "helpme" in
  (chars "help" `prefix_of` chars "helpme" \/ chars "helpme" `prefix_of` chars "help" ->
     strcmp 2000 3000 s = Ret 0 s) /\
  (~ (chars "help" `prefix_of` chars "helpme" \/ chars "helpme" `prefix_of` chars "help") ->
     strcmp 2000 3000 s = Ret (-1) s).
Proof. intros s. apply strcmp_prefix; apply cstrb_sound; by vm_compute. Defined.

(** ** sprint_binary *)

(** Sprint_binary16, 32 and 64 terminate and leave a terminated text of
    exactly the documented size (17, 35 and 71 characters, groups of eight
    digits), from which the number can be read back; nothing else changes. *)
Theorem sprint_binary_roundtrip `{HasMachine St} (buff : Z) (s : St) :
  (forall ch, is_u16 ch -> region buff 18 (smem s) -> exists l m',
     sprint_binary16 buff ch s = Ret tt (set_mem m' s) /\ text_at buff l (smem s) m' /\
     length l = 17%nat /\ parse_bits l = ch) /\
  (forall ch, is_u32 ch -> region buff 36 (smem s) -> exists l m',
     sprint_binary32 buff ch s = Ret tt (set_mem m' s) /\ text_at buff l (smem s) m' /\
     length l = 35%nat /\ parse_bits l = ch) /\
  (forall ch, is_u64 ch -> region buff 72 (smem s) -> exists l m',
     sprint_binary64 buff ch s = Ret tt (set_mem m' s) /\ text_at buff l (smem s) m' /\
     length l = 71%nat /\ parse_bits l = ch).
Proof.
  assert (Hparse : forall width ch, 0 < width -> 0 <= ch < 2 ^ width ->
    parse_bits (bits_text (Z.to_nat width) ch width 0) = ch).
  { intros width ch Hw Hch. apply parse_bits_text; [lia|lia|lia|].
    rewrite Z.sub_0_r, Z.shiftr_div_pow2, Z.div_small by lia. done. }
  split_and!; intros ch Hch Hr; unfold is_u16, is_u32, is_u64 in Hch.
  - destruct (sprint_wide_ok buff ch 16 0x8000 s32 17 s) as (m' & E & Ht); try done.
    + intros b Hb. rewrite <- (top_bit_conv 32 16 ch b) by lia. f_equal. f_equal.
      assert (0 <= Z.shiftl ch b < 2 ^ 31); [|word_lia].
      rewrite Z.shiftl_mul_pow2 by lia. pose proof (Z.pow_le_mono_r 2 b 15). nia.
    + exists (bits_text 16 ch 16 0), m'. split_and!; [exact E|done|done|]. by apply (Hparse 16).
  - destruct (sprint_wide_ok buff ch 32 0x80000000 u32 35 s) as (m' & E & Ht); try done.
    + intros b Hb. by apply (top_bit_conv 32 32).
    + exists (bits_text 32 ch 32 0), m'. split_and!; [exact E|done|done|]. by apply (Hparse 32).
  - destruct (sprint_wide_ok buff ch 64 0x8000000000000000 u64 71 s) as (m' & E & Ht); try done.
    + intros b Hb. by apply (top_bit_conv 64 64).
    + exists (bits_text 64 ch 64 0), m'. split_and!; [exact E|done|done|]. by apply (Hparse 64).
Qed.

Lemma sprint_binary_roundtrip_witness :
  let s := on_mem (zeros 4000 36) in
  exists l m', sprint_binary32 4000 0xDEADBEEF s = Ret tt (set_mem m' s) /\
    text_at 4000 l (smem s) m' /\ length l = 35%nat /\ parse_bits l = 0xDEADBEEF.
Proof.
  intros s. destruct (sprint_binary_roundtrip 4000 s) as (_ & H32 & _).
  apply H32; [unfold is_u32; lia|apply region_zeros].
Defined.
