(* ===== verification/Kstate.v ===== *)
(** * The kernel's global state and its access to the hardware

    One record per source file holds that file's globals; [kernel] is all of
    them, on top of the physical memory manager and the heap.  The hardware is
    a parameter: a device answers a read with a function of everything that was
    read and written before. *)
From S2P Require Import Prelude Machine Pmm Slob.

(** ** Accesses to hardware *)

(** Port, memory-mapped and model-specific register accesses, with their width
    in bytes. *)
Inductive io :=
  | PortIn (w port : Z)
  | PortOut (w port v : Z)
  | MmioRead (w a : Z)
  | MmioWrite (w a v : Z)
  | MsrRead (id : Z)
  | Cli | Sti | Lidt (base : Z) | Lgdt (base : Z) | Hlt.

(** What answers reads: the devices, and the cpuid instruction (eax and ecx to
    eax, ebx, ecx, edx).  [stale_eax] is what eax holds where the code does not
    load it; [patience] bounds the rounds of a polling loop. *)
Class Hardware := {
  device : list io -> io -> Z;
  cpuid_regs : Z -> Z -> Z * Z * Z * Z;
  stale_eax : Z;
  patience : nat
}.

(** Addresses the compiler and the linker choose: those of string literals and
    that of the local buffer of tprintf. *)
Class Image := {
  literal : string -> Z;
  tprintf_buffer : Z
}.

(** ** Globals *)

(** The control registers and the interrupt flag. *)
Record cpu_regs := CpuRegs {
  cr0 : Z;
  cr3 : Z;
  cr4 : Z;
  intr : bool }.
Definition set_cr0 (v : Z) (s : cpu_regs) : cpu_regs :=
  CpuRegs v (cr3 s) (cr4 s) (intr s).
Definition set_cr3 (v : Z) (s : cpu_regs) : cpu_regs :=
  CpuRegs (cr0 s) v (cr4 s) (intr s).
Definition set_cr4 (v : Z) (s : cpu_regs) : cpu_regs :=
  CpuRegs (cr0 s) (cr3 s) v (intr s).
Definition set_intr (v : bool) (s : cpu_regs) : cpu_regs :=
  CpuRegs (cr0 s) (cr3 s) (cr4 s) v.

(** vm.c *)
Record vm_globals := VmGlobals {
  maxphyaddr : Z;
  maxlinaddr : Z }.
Definition set_maxphyaddr (v : Z) (s : vm_globals) : vm_globals :=
  VmGlobals v (maxlinaddr s).
Definition set_maxlinaddr (v : Z) (s : vm_globals) : vm_globals :=
  VmGlobals (maxphyaddr s) v.

(** acpi.c; the lists are fixed arrays of pointers, 0 for NULL. *)
Record acpi_globals := AcpiGlobals {
  rsdp : Z;
  rsdt : Z;
  xsdt : Z;
  pMadt : Z;
  hpet : Z;
  mcfg : Z;
  entry_size : Z;
  ioapic_list : list Z;
  iso_list : list Z }.
Definition set_rsdp (v : Z) (s : acpi_globals) : acpi_globals :=
  AcpiGlobals v (rsdt s) (xsdt s) (pMadt s) (hpet s) (mcfg s) (entry_size s) (ioapic_list s)
    (iso_list s).
Definition set_rsdt (v : Z) (s : acpi_globals) : acpi_globals :=
  AcpiGlobals (rsdp s) v (xsdt s) (pMadt s) (hpet s) (mcfg s) (entry_size s) (ioapic_list s)
    (iso_list s).
Definition set_xsdt (v : Z) (s : acpi_globals) : acpi_globals :=
  AcpiGlobals (rsdp s) (rsdt s) v (pMadt s) (hpet s) (mcfg s) (entry_size s) (ioapic_list s)
    (iso_list s).
Definition set_pMadt (v : Z) (s : acpi_globals) : acpi_globals :=
  AcpiGlobals (rsdp s) (rsdt s) (xsdt s) v (hpet s) (mcfg s) (entry_size s) (ioapic_list s)
    (iso_list s).
Definition set_hpet (v : Z) (s : acpi_globals) : acpi_globals :=
  AcpiGlobals (rsdp s) (rsdt s) (xsdt s) (pMadt s) v (mcfg s) (entry_size s) (ioapic_list s)
    (iso_list s).
Definition set_mcfg (v : Z) (s : acpi_globals) : acpi_globals :=
  AcpiGlobals (rsdp s) (rsdt s) (xsdt s) (pMadt s) (hpet s) v (entry_size s) (ioapic_list s)
    (iso_list s).
Definition set_entry_size (v : Z) (s : acpi_globals) : acpi_globals :=
  AcpiGlobals (rsdp s) (rsdt s) (xsdt s) (pMadt s) (hpet s) (mcfg s) v (ioapic_list s)
    (iso_list s).
Definition set_ioapic_list (v : list Z) (s : acpi_globals) : acpi_globals :=
  AcpiGlobals (rsdp s) (rsdt s) (xsdt s) (pMadt s) (hpet s) (mcfg s) (entry_size s) v
    (iso_list s).
Definition set_iso_list (v : list Z) (s : acpi_globals) : acpi_globals :=
  AcpiGlobals (rsdp s) (rsdt s) (xsdt s) (pMadt s) (hpet s) (mcfg s) (entry_size s)
    (ioapic_list s) v.

(** hpet.c *)
Record hpet_globals := HpetGlobals {
  base_addr : Z;
  hpet_regs : Z;
  hpet_main_counter : Z;
  hpet_frequency : Z;
  _ticks : Z }.
Definition set_base_addr (v : Z) (s : hpet_globals) : hpet_globals :=
  HpetGlobals v (hpet_regs s) (hpet_main_counter s) (hpet_frequency s) (_ticks s).
Definition set_hpet_regs (v : Z) (s : hpet_globals) : hpet_globals :=
  HpetGlobals (base_addr s) v (hpet_main_counter s) (hpet_frequency s) (_ticks s).
Definition set_hpet_main_counter (v : Z) (s : hpet_globals) : hpet_globals :=
  HpetGlobals (base_addr s) (hpet_regs s) v (hpet_frequency s) (_ticks s).
Definition set_hpet_frequency (v : Z) (s : hpet_globals) : hpet_globals :=
  HpetGlobals (base_addr s) (hpet_regs s) (hpet_main_counter s) v (_ticks s).
Definition set__ticks (v : Z) (s : hpet_globals) : hpet_globals :=
  HpetGlobals (base_addr s) (hpet_regs s) (hpet_main_counter s) (hpet_frequency s) v.

(** lapic.c and cpu.c *)
Record lapic_globals := LapicGlobals {
  apic_base : Z;
  lapic_id : Z;
  bsp_lapic_id : Z;
  cpu_count : Z;
  _cpus_awake : Z;
  _cpu_lock : Z }.
Definition set_apic_base (v : Z) (s : lapic_globals) : lapic_globals :=
  LapicGlobals v (lapic_id s) (bsp_lapic_id s) (cpu_count s) (_cpus_awake s) (_cpu_lock s).
Definition set_lapic_id (v : Z) (s : lapic_globals) : lapic_globals :=
  LapicGlobals (apic_base s) v (bsp_lapic_id s) (cpu_count s) (_cpus_awake s) (_cpu_lock s).
Definition set_bsp_lapic_id (v : Z) (s : lapic_globals) : lapic_globals :=
  LapicGlobals (apic_base s) (lapic_id s) v (cpu_count s) (_cpus_awake s) (_cpu_lock s).
Definition set_cpu_count (v : Z) (s : lapic_globals) : lapic_globals :=
  LapicGlobals (apic_base s) (lapic_id s) (bsp_lapic_id s) v (_cpus_awake s) (_cpu_lock s).
Definition set__cpus_awake (v : Z) (s : lapic_globals) : lapic_globals :=
  LapicGlobals (apic_base s) (lapic_id s) (bsp_lapic_id s) (cpu_count s) v (_cpu_lock s).
Definition set__cpu_lock (v : Z) (s : lapic_globals) : lapic_globals :=
  LapicGlobals (apic_base s) (lapic_id s) (bsp_lapic_id s) (cpu_count s) (_cpus_awake s) v.

(** pci.c: the device table and its length. *)
Record pci_globals := PciGlobals {
  pci_devices : list Z;
  pci_device_cnt : Z }.
Definition set_pci_devices (v : list Z) (s : pci_globals) : pci_globals :=
  PciGlobals v (pci_device_cnt s).
Definition set_pci_device_cnt (v : Z) (s : pci_globals) : pci_globals :=
  PciGlobals (pci_devices s) v.

(** struct gdt_entry and struct idt_entry. *)
Record gdt_entry := GdtEntry {
  gd_limit_low : Z; gd_base_low : Z; gd_base_middle : Z; gd_access : Z; gd_granularity : Z;
  gd_base_high : Z }.
Record idt_entry := IdtEntry {
  id_base_low : Z; id_selector : Z; id_ist : Z; id_flags : Z; id_base_mid : Z; id_base_high : Z;
  id_reserved : Z }.

(** gdt.c and idt.c; the pointers are those of the packed lgdt/lidt operands. *)
Record desc_globals := DescGlobals {
  gdt : list gdt_entry;
  gdtp_limit : Z;
  gdtp_base : Z;
  idt : list idt_entry;
  idtp_limit : Z;
  idtp_base : Z;
  kernel_timer_secs : Z }.
Definition set_gdt (v : list gdt_entry) (s : desc_globals) : desc_globals :=
  DescGlobals v (gdtp_limit s) (gdtp_base s) (idt s) (idtp_limit s) (idtp_base s)
    (kernel_timer_secs s).
Definition set_gdtp_limit (v : Z) (s : desc_globals) : desc_globals :=
  DescGlobals (gdt s) v (gdtp_base s) (idt s) (idtp_limit s) (idtp_base s) (kernel_timer_secs
    s).
Definition set_gdtp_base (v : Z) (s : desc_globals) : desc_globals :=
  DescGlobals (gdt s) (gdtp_limit s) v (idt s) (idtp_limit s) (idtp_base s) (kernel_timer_secs
    s).
Definition set_idt (v : list idt_entry) (s : desc_globals) : desc_globals :=
  DescGlobals (gdt s) (gdtp_limit s) (gdtp_base s) v (idtp_limit s) (idtp_base s)
    (kernel_timer_secs s).
Definition set_idtp_limit (v : Z) (s : desc_globals) : desc_globals :=
  DescGlobals (gdt s) (gdtp_limit s) (gdtp_base s) (idt s) v (idtp_base s) (kernel_timer_secs
    s).
Definition set_idtp_base (v : Z) (s : desc_globals) : desc_globals :=
  DescGlobals (gdt s) (gdtp_limit s) (gdtp_base s) (idt s) (idtp_limit s) v (kernel_timer_secs
    s).
Definition set_kernel_timer_secs (v : Z) (s : desc_globals) : desc_globals :=
  DescGlobals (gdt s) (gdtp_limit s) (gdtp_base s) (idt s) (idtp_limit s) (idtp_base s) v.

(** terminal.c; the frame buffer, the font and the array [input_str] (here its
    address) are in memory. *)
Record term_globals := TermGlobals {
  fb_address : Z;
  fb_width : Z;
  fb_height : Z;
  fb_pitch : Z;
  fb_bpp : Z;
  font_header : Z;
  glyph_data : Z;
  max_rows : Z;
  max_cols : Z;
  glyph_width : Z;
  glyph_height : Z;
  is_ready : bool;
  fgcolor : Z;
  bgcolor : Z;
  render_x : Z;
  render_y : Z;
  input_render_x : Z;
  input_render_y : Z;
  cursor_x : Z;
  cursor_y : Z;
  input_str : Z;
  cursor_lock : Z;
  cursor_visible : bool }.
Definition set_fb_address (v : Z) (s : term_globals) : term_globals :=
  TermGlobals v (fb_width s) (fb_height s) (fb_pitch s) (fb_bpp s) (font_header s) (glyph_data
    s) (max_rows s) (max_cols s) (glyph_width s) (glyph_height s) (is_ready s) (fgcolor s)
    (bgcolor s) (render_x s) (render_y s) (input_render_x s) (input_render_y s) (cursor_x s)
    (cursor_y s) (input_str s) (cursor_lock s) (cursor_visible s).
Definition set_fb_width (v : Z) (s : term_globals) : term_globals :=
  TermGlobals (fb_address s) v (fb_height s) (fb_pitch s) (fb_bpp s) (font_header s)
    (glyph_data s) (max_rows s) (max_cols s) (glyph_width s) (glyph_height s) (is_ready s)
    (fgcolor s) (bgcolor s) (render_x s) (render_y s) (input_render_x s) (input_render_y s)
    (cursor_x s) (cursor_y s) (input_str s) (cursor_lock s) (cursor_visible s).
Definition set_fb_height (v : Z) (s : term_globals) : term_globals :=
  TermGlobals (fb_address s) (fb_width s) v (fb_pitch s) (fb_bpp s) (font_header s)
    (glyph_data s) (max_rows s) (max_cols s) (glyph_width s) (glyph_height s) (is_ready s)
    (fgcolor s) (bgcolor s) (render_x s) (render_y s) (input_render_x s) (input_render_y s)
    (cursor_x s) (cursor_y s) (input_str s) (cursor_lock s) (cursor_visible s).
Definition set_fb_pitch (v : Z) (s : term_globals) : term_globals :=
  TermGlobals (fb_address s) (fb_width s) (fb_height s) v (fb_bpp s) (font_header s)
    (glyph_data s) (max_rows s) (max_cols s) (glyph_width s) (glyph_height s) (is_ready s)
    (fgcolor s) (bgcolor s) (render_x s) (render_y s) (input_render_x s) (input_render_y s)
    (cursor_x s) (cursor_y s) (input_str s) (cursor_lock s) (cursor_visible s).
Definition set_fb_bpp (v : Z) (s : term_globals) : term_globals :=
  TermGlobals (fb_address s) (fb_width s) (fb_height s) (fb_pitch s) v (font_header s)
    (glyph_data s) (max_rows s) (max_cols s) (glyph_width s) (glyph_height s) (is_ready s)
    (fgcolor s) (bgcolor s) (render_x s) (render_y s) (input_render_x s) (input_render_y s)
    (cursor_x s) (cursor_y s) (input_str s) (cursor_lock s) (cursor_visible s).
Definition set_font_header (v : Z) (s : term_globals) : term_globals :=
  TermGlobals (fb_address s) (fb_width s) (fb_height s) (fb_pitch s) (fb_bpp s) v (glyph_data
    s) (max_rows s) (max_cols s) (glyph_width s) (glyph_height s) (is_ready s) (fgcolor s)
    (bgcolor s) (render_x s) (render_y s) (input_render_x s) (input_render_y s) (cursor_x s)
    (cursor_y s) (input_str s) (cursor_lock s) (cursor_visible s).
Definition set_glyph_data (v : Z) (s : term_globals) : term_globals :=
  TermGlobals (fb_address s) (fb_width s) (fb_height s) (fb_pitch s) (fb_bpp s) (font_header
    s) v (max_rows s) (max_cols s) (glyph_width s) (glyph_height s) (is_ready s) (fgcolor s)
    (bgcolor s) (render_x s) (render_y s) (input_render_x s) (input_render_y s) (cursor_x s)
    (cursor_y s) (input_str s) (cursor_lock s) (cursor_visible s).
Definition set_max_rows (v : Z) (s : term_globals) : term_globals :=
  TermGlobals (fb_address s) (fb_width s) (fb_height s) (fb_pitch s) (fb_bpp s) (font_header
    s) (glyph_data s) v (max_cols s) (glyph_width s) (glyph_height s) (is_ready s) (fgcolor s)
    (bgcolor s) (render_x s) (render_y s) (input_render_x s) (input_render_y s) (cursor_x s)
    (cursor_y s) (input_str s) (cursor_lock s) (cursor_visible s).
Definition set_max_cols (v : Z) (s : term_globals) : term_globals :=
  TermGlobals (fb_address s) (fb_width s) (fb_height s) (fb_pitch s) (fb_bpp s) (font_header
    s) (glyph_data s) (max_rows s) v (glyph_width s) (glyph_height s) (is_ready s) (fgcolor s)
    (bgcolor s) (render_x s) (render_y s) (input_render_x s) (input_render_y s) (cursor_x s)
    (cursor_y s) (input_str s) (cursor_lock s) (cursor_visible s).
Definition set_glyph_width (v : Z) (s : term_globals) : term_globals :=
  TermGlobals (fb_address s) (fb_width s) (fb_height s) (fb_pitch s) (fb_bpp s) (font_header
    s) (glyph_data s) (max_rows s) (max_cols s) v (glyph_height s) (is_ready s) (fgcolor s)
    (bgcolor s) (render_x s) (render_y s) (input_render_x s) (input_render_y s) (cursor_x s)
    (cursor_y s) (input_str s) (cursor_lock s) (cursor_visible s).
Definition set_glyph_height (v : Z) (s : term_globals) : term_globals :=
  TermGlobals (fb_address s) (fb_width s) (fb_height s) (fb_pitch s) (fb_bpp s) (font_header
    s) (glyph_data s) (max_rows s) (max_cols s) (glyph_width s) v (is_ready s) (fgcolor s)
    (bgcolor s) (render_x s) (render_y s) (input_render_x s) (input_render_y s) (cursor_x s)
    (cursor_y s) (input_str s) (cursor_lock s) (cursor_visible s).
Definition set_is_ready (v : bool) (s : term_globals) : term_globals :=
  TermGlobals (fb_address s) (fb_width s) (fb_height s) (fb_pitch s) (fb_bpp s) (font_header
    s) (glyph_data s) (max_rows s) (max_cols s) (glyph_width s) (glyph_height s) v (fgcolor s)
    (bgcolor s) (render_x s) (render_y s) (input_render_x s) (input_render_y s) (cursor_x s)
    (cursor_y s) (input_str s) (cursor_lock s) (cursor_visible s).
Definition set_fgcolor (v : Z) (s : term_globals) : term_globals :=
  TermGlobals (fb_address s) (fb_width s) (fb_height s) (fb_pitch s) (fb_bpp s) (font_header
    s) (glyph_data s) (max_rows s) (max_cols s) (glyph_width s) (glyph_height s) (is_ready s) v
    (bgcolor s) (render_x s) (render_y s) (input_render_x s) (input_render_y s) (cursor_x s)
    (cursor_y s) (input_str s) (cursor_lock s) (cursor_visible s).
Definition set_bgcolor (v : Z) (s : term_globals) : term_globals :=
  TermGlobals (fb_address s) (fb_width s) (fb_height s) (fb_pitch s) (fb_bpp s) (font_header
    s) (glyph_data s) (max_rows s) (max_cols s) (glyph_width s) (glyph_height s) (is_ready s)
    (fgcolor s) v (render_x s) (render_y s) (input_render_x s) (input_render_y s) (cursor_x s)
    (cursor_y s) (input_str s) (cursor_lock s) (cursor_visible s).
Definition set_render_x (v : Z) (s : term_globals) : term_globals :=
  TermGlobals (fb_address s) (fb_width s) (fb_height s) (fb_pitch s) (fb_bpp s) (font_header
    s) (glyph_data s) (max_rows s) (max_cols s) (glyph_width s) (glyph_height s) (is_ready s)
    (fgcolor s) (bgcolor s) v (render_y s) (input_render_x s) (input_render_y s) (cursor_x s)
    (cursor_y s) (input_str s) (cursor_lock s) (cursor_visible s).
Definition set_render_y (v : Z) (s : term_globals) : term_globals :=
  TermGlobals (fb_address s) (fb_width s) (fb_height s) (fb_pitch s) (fb_bpp s) (font_header
    s) (glyph_data s) (max_rows s) (max_cols s) (glyph_width s) (glyph_height s) (is_ready s)
    (fgcolor s) (bgcolor s) (render_x s) v (input_render_x s) (input_render_y s) (cursor_x s)
    (cursor_y s) (input_str s) (cursor_lock s) (cursor_visible s).
Definition set_input_render_x (v : Z) (s : term_globals) : term_globals :=
  TermGlobals (fb_address s) (fb_width s) (fb_height s) (fb_pitch s) (fb_bpp s) (font_header
    s) (glyph_data s) (max_rows s) (max_cols s) (glyph_width s) (glyph_height s) (is_ready s)
    (fgcolor s) (bgcolor s) (render_x s) (render_y s) v (input_render_y s) (cursor_x s)
    (cursor_y s) (input_str s) (cursor_lock s) (cursor_visible s).
Definition set_input_render_y (v : Z) (s : term_globals) : term_globals :=
  TermGlobals (fb_address s) (fb_width s) (fb_height s) (fb_pitch s) (fb_bpp s) (font_header
    s) (glyph_data s) (max_rows s) (max_cols s) (glyph_width s) (glyph_height s) (is_ready s)
    (fgcolor s) (bgcolor s) (render_x s) (render_y s) (input_render_x s) v (cursor_x s)
    (cursor_y s) (input_str s) (cursor_lock s) (cursor_visible s).
Definition set_cursor_x (v : Z) (s : term_globals) : term_globals :=
  TermGlobals (fb_address s) (fb_width s) (fb_height s) (fb_pitch s) (fb_bpp s) (font_header
    s) (glyph_data s) (max_rows s) (max_cols s) (glyph_width s) (glyph_height s) (is_ready s)
    (fgcolor s) (bgcolor s) (render_x s) (render_y s) (input_render_x s) (input_render_y s) v
    (cursor_y s) (input_str s) (cursor_lock s) (cursor_visible s).
Definition set_cursor_y (v : Z) (s : term_globals) : term_globals :=
  TermGlobals (fb_address s) (fb_width s) (fb_height s) (fb_pitch s) (fb_bpp s) (font_header
    s) (glyph_data s) (max_rows s) (max_cols s) (glyph_width s) (glyph_height s) (is_ready s)
    (fgcolor s) (bgcolor s) (render_x s) (render_y s) (input_render_x s) (input_render_y s)
    (cursor_x s) v (input_str s) (cursor_lock s) (cursor_visible s).
Definition set_input_str (v : Z) (s : term_globals) : term_globals :=
  TermGlobals (fb_address s) (fb_width s) (fb_height s) (fb_pitch s) (fb_bpp s) (font_header
    s) (glyph_data s) (max_rows s) (max_cols s) (glyph_width s) (glyph_height s) (is_ready s)
    (fgcolor s) (bgcolor s) (render_x s) (render_y s) (input_render_x s) (input_render_y s)
    (cursor_x s) (cursor_y s) v (cursor_lock s) (cursor_visible s).
Definition set_cursor_lock (v : Z) (s : term_globals) : term_globals :=
  TermGlobals (fb_address s) (fb_width s) (fb_height s) (fb_pitch s) (fb_bpp s) (font_header
    s) (glyph_data s) (max_rows s) (max_cols s) (glyph_width s) (glyph_height s) (is_ready s)
    (fgcolor s) (bgcolor s) (render_x s) (render_y s) (input_render_x s) (input_render_y s)
    (cursor_x s) (cursor_y s) (input_str s) v (cursor_visible s).
Definition set_cursor_visible (v : bool) (s : term_globals) : term_globals :=
  TermGlobals (fb_address s) (fb_width s) (fb_height s) (fb_pitch s) (fb_bpp s) (font_header
    s) (glyph_data s) (max_rows s) (max_cols s) (glyph_width s) (glyph_height s) (is_ready s)
    (fgcolor s) (bgcolor s) (render_x s) (render_y s) (input_render_x s) (input_render_y s)
    (cursor_x s) (cursor_y s) (input_str s) (cursor_lock s) v.

(** The whole kernel: the memory managers, the accesses made so far (latest first),
    and the globals above; [scancode_map] holds indices into [key_map]. *)
Record kernel := Kernel {
  k_slob : slob;
  k_io : list io;
  k_cpu : cpu_regs;
  k_vm : vm_globals;
  k_acpi : acpi_globals;
  k_hpet : hpet_globals;
  k_lapic : lapic_globals;
  k_pci : pci_globals;
  k_desc : desc_globals;
  k_term : term_globals;
  scancode_map : list (option nat);
  q_keyboard : Z }.
Definition set_k_slob (v : slob) (s : kernel) : kernel :=
  Kernel v (k_io s) (k_cpu s) (k_vm s) (k_acpi s) (k_hpet s) (k_lapic s) (k_pci s) (k_desc s)
    (k_term s) (scancode_map s) (q_keyboard s).
Definition set_k_io (v : list io) (s : kernel) : kernel :=
  Kernel (k_slob s) v (k_cpu s) (k_vm s) (k_acpi s) (k_hpet s) (k_lapic s) (k_pci s) (k_desc
    s) (k_term s) (scancode_map s) (q_keyboard s).
Definition set_k_cpu (v : cpu_regs) (s : kernel) : kernel :=
  Kernel (k_slob s) (k_io s) v (k_vm s) (k_acpi s) (k_hpet s) (k_lapic s) (k_pci s) (k_desc s)
    (k_term s) (scancode_map s) (q_keyboard s).
Definition set_k_vm (v : vm_globals) (s : kernel) : kernel :=
  Kernel (k_slob s) (k_io s) (k_cpu s) v (k_acpi s) (k_hpet s) (k_lapic s) (k_pci s) (k_desc
    s) (k_term s) (scancode_map s) (q_keyboard s).
Definition set_k_acpi (v : acpi_globals) (s : kernel) : kernel :=
  Kernel (k_slob s) (k_io s) (k_cpu s) (k_vm s) v (k_hpet s) (k_lapic s) (k_pci s) (k_desc s)
    (k_term s) (scancode_map s) (q_keyboard s).
Definition set_k_hpet (v : hpet_globals) (s : kernel) : kernel :=
  Kernel (k_slob s) (k_io s) (k_cpu s) (k_vm s) (k_acpi s) v (k_lapic s) (k_pci s) (k_desc s)
    (k_term s) (scancode_map s) (q_keyboard s).
Definition set_k_lapic (v : lapic_globals) (s : kernel) : kernel :=
  Kernel (k_slob s) (k_io s) (k_cpu s) (k_vm s) (k_acpi s) (k_hpet s) v (k_pci s) (k_desc s)
    (k_term s) (scancode_map s) (q_keyboard s).
Definition set_k_pci (v : pci_globals) (s : kernel) : kernel :=
  Kernel (k_slob s) (k_io s) (k_cpu s) (k_vm s) (k_acpi s) (k_hpet s) (k_lapic s) v (k_desc s)
    (k_term s) (scancode_map s) (q_keyboard s).
Definition set_k_desc (v : desc_globals) (s : kernel) : kernel :=
  Kernel (k_slob s) (k_io s) (k_cpu s) (k_vm s) (k_acpi s) (k_hpet s) (k_lapic s) (k_pci s) v
    (k_term s) (scancode_map s) (q_keyboard s).
Definition set_k_term (v : term_globals) (s : kernel) : kernel :=
  Kernel (k_slob s) (k_io s) (k_cpu s) (k_vm s) (k_acpi s) (k_hpet s) (k_lapic s) (k_pci s)
    (k_desc s) v (scancode_map s) (q_keyboard s).
Definition set_scancode_map (v : list (option nat)) (s : kernel) : kernel :=
  Kernel (k_slob s) (k_io s) (k_cpu s) (k_vm s) (k_acpi s) (k_hpet s) (k_lapic s) (k_pci s)
    (k_desc s) (k_term s) v (q_keyboard s).
Definition set_q_keyboard (v : Z) (s : kernel) : kernel :=
  Kernel (k_slob s) (k_io s) (k_cpu s) (k_vm s) (k_acpi s) (k_hpet s) (k_lapic s) (k_pci s)
    (k_desc s) (k_term s) (scancode_map s) v.

#[export] Program Instance kernel_machine : HasMachine kernel := {|
  get_mach s := get_mach (k_slob s);
  set_mach m s := set_k_slob (set_mach m (k_slob s)) s |}.
Next Obligation. done. Qed.
Next Obligation. intros s. destruct s as [[p i h]]. by destruct p. Qed.
Next Obligation. done. Qed.

Definition in_slob {A} : M slob A -> M kernel A := zoom k_slob set_k_slob.
Definition vmm_offset : M kernel Z := gets (fun s => vmm_higher_half_offset (slob_pmm (k_slob s))).
(** Changing one group of globals. *)
Definition mod_cpu (f : cpu_regs -> cpu_regs) : M kernel unit := modify (fun s => set_k_cpu (f (k_cpu s)) s).
Definition mod_vm (f : vm_globals -> vm_globals) : M kernel unit := modify (fun s => set_k_vm (f (k_vm s)) s).
Definition mod_acpi (f : acpi_globals -> acpi_globals) : M kernel unit := modify (fun s => set_k_acpi (f (k_acpi s)) s).
Definition mod_hpet (f : hpet_globals -> hpet_globals) : M kernel unit := modify (fun s => set_k_hpet (f (k_hpet s)) s).
Definition mod_lapic (f : lapic_globals -> lapic_globals) : M kernel unit := modify (fun s => set_k_lapic (f (k_lapic s)) s).
Definition mod_pci (f : pci_globals -> pci_globals) : M kernel unit := modify (fun s => set_k_pci (f (k_pci s)) s).
Definition mod_desc (f : desc_globals -> desc_globals) : M kernel unit := modify (fun s => set_k_desc (f (k_desc s)) s).
Definition mod_term (f : term_globals -> term_globals) : M kernel unit := modify (fun s => set_k_term (f (k_term s)) s).

(** ** include/cpu.h *)

Section hardware.
Context `{Hardware}.

Definition io_do (a : io) : M kernel unit := modify (fun s => set_k_io (a :: k_io s) s).
Definition io_ask (a : io) : M kernel Z :=
  fun s => Ret (device (k_io s) a) (set_k_io (a :: k_io s) s).

Definition outb (port val : Z) : M kernel unit := io_do (PortOut 1 (u16 port) (u8 val)).
Definition outw (port val : Z) : M kernel unit := io_do (PortOut 2 (u16 port) (u16 val)).
Definition outl (port val : Z) : M kernel unit := io_do (PortOut 4 (u16 port) (u32 val)).
Definition inb (port : Z) : M kernel Z := v ← io_ask (PortIn 1 (u16 port)); mret (u8 v).
Definition inw (port : Z) : M kernel Z := v ← io_ask (PortIn 2 (u16 port)); mret (u16 v).
(** [inl] is a constructor here. *)
Definition inl_ (port : Z) : M kernel Z := v ← io_ask (PortIn 4 (u16 port)); mret (u32 v).

(** Volatile accesses to memory-mapped registers. *)
Definition mmio_read (w a : Z) : M kernel Z :=
  v ← io_ask (MmioRead w (u64 a)); mret (v `mod` 2 ^ (8 * w)).
Definition mmio_write (w a v : Z) : M kernel unit :=
  io_do (MmioWrite w (u64 a) (v `mod` 2 ^ (8 * w))).

Definition read_msr (msr_id : Z) : M kernel Z :=
  v ← io_ask (MsrRead (u32 msr_id));
  let low := u32 v in let high := u32 (Z.shiftr v 32) in
  mret (Z.lor (u64 (Z.shiftl high 32)) low).

Definition get_cr0 : M kernel Z := gets (fun s => cr0 (k_cpu s)).
Definition get_cr3 : M kernel Z := gets (fun s => cr3 (k_cpu s)).
Definition get_cr4 : M kernel Z := gets (fun s => cr4 (k_cpu s)).
Definition set_cr0_reg (val : Z) : M kernel unit := mod_cpu (set_cr0 val).

Definition eax (r : Z * Z * Z * Z) : Z := u32 (fst (fst (fst r))).
Definition ebx (r : Z * Z * Z * Z) : Z := u32 (snd (fst (fst r))).
Definition ecx (r : Z * Z * Z * Z) : Z := u32 (snd (fst r)).
Definition edx (r : Z * Z * Z * Z) : Z := u32 (snd r).
(** cpuid(code, &a, &d): the operand constraint "O" makes [code] an immediate of
    the asm statement and never loads it into eax. *)
Definition cpuid (code : Z) : Z * Z := let r := cpuid_regs (u32 stale_eax) 0 in (eax r, edx r).
Definition cpu_get_address_widths : Z := eax (cpuid_regs 0x80000008 0).

Definition is_paging_enabled : M kernel Z :=
  v ← get_cr0;
  mret (if Z.land v 0x80000000 =? 0 then 0 else 1).

Definition lidt (idt_ptr : Z) : M kernel unit := io_do (Lidt idt_ptr).
Definition disable_interrupts : M kernel unit := io_do Cli ;; mod_cpu (set_intr false).
Definition enable_interrupts : M kernel unit := io_do Sti ;; mod_cpu (set_intr true).
Definition interrupt_state : M kernel bool := gets (fun s => intr (k_cpu s)).
Definition set_interrupt_state (enabled : bool) : M kernel bool :=
  state ← interrupt_state;
  (if enabled then enable_interrupts else disable_interrupts) ;;
  mret state.
End hardware.
