(* ===== verification/Vm.v ===== *)
(** * vm.c: walking the page tables *)
From S2P Require Import Prelude Machine Pmm Slob Kstate.

Definition PAGE_PRESENT : Z := 1.
Definition PML4_INDEX (va : Z) : Z := Z.land (Z.shiftr va 39) 0x1FF.
Definition PDPT_INDEX (va : Z) : Z := Z.land (Z.shiftr va 30) 0x1FF.
Definition PD_INDEX (va : Z) : Z := Z.land (Z.shiftr va 21) 0x1FF.
Definition PT_INDEX (va : Z) : Z := Z.land (Z.shiftr va 12) 0x1FF.
Definition PAGE_OFFSET (va : Z) : Z := Z.land va 0xFFF.
Definition PHYS_TO_VIRT (addr : Z) : M kernel Z := hhdm ← vmm_offset; mret (addr +64 hhdm).

(** (((uint64_t)1 << maxphyaddr) - 1) << 12 *)
Definition addrmask_of (maxphyaddr : Z) : Z := u64 (Z.shiftl (u64 (Z.shiftl 1 maxphyaddr) -64 1) 12).

Definition walk_page_table (virt_addr : Z) : M kernel Z :=
  cr3 ← get_cr3;
  m ← gets (fun s => maxphyaddr (k_vm s));
  (if 64 <=? m then fail BadShift else mret tt) ;;
  let addrmask := addrmask_of m in
  let pml4addr := Z.land cr3 addrmask in
  pml4 ← PHYS_TO_VIRT pml4addr;
  pml4e ← load 8 (pml4 + 8 * PML4_INDEX virt_addr);
  if Z.land pml4e PAGE_PRESENT =? 0 then mret 0
  else
    pdpt ← PHYS_TO_VIRT (Z.land pml4e addrmask);
    pdpte ← load 8 (pdpt + 8 * PDPT_INDEX virt_addr);
    if Z.land pdpte PAGE_PRESENT =? 0 then mret 0
    else
      pd ← PHYS_TO_VIRT (Z.land pdpte addrmask);
      pde ← load 8 (pd + 8 * PD_INDEX virt_addr);
      if Z.land pde PAGE_PRESENT =? 0 then mret 0
      else
        pt ← PHYS_TO_VIRT (Z.land pde addrmask);
        pte ← load 8 (pt + 8 * PT_INDEX virt_addr);
        if Z.land pte PAGE_PRESENT =? 0 then mret 0
        else mret (Z.lor (Z.land pte addrmask) (PAGE_OFFSET virt_addr)).

Definition CR4_PAE : Z := 0x20.
Definition CR4_LA57 : Z := 0x1000.

Definition vm_init `{Hardware} : M kernel unit :=
  kprintf ("Initializing virtual memory..." +:+ nl) [] ;;
  p ← is_paging_enabled;
  (if negb (p =? 0) then kprintf ("Paging enabled." +:+ nl) []
   else kprintf ("Paging disabled." +:+ nl) []) ;;
  cr4 ← get_cr4;
  let pae := negb (Z.land cr4 CR4_PAE =? 0) in
  let la57 := negb (Z.land cr4 CR4_LA57 =? 0) in
  (if negb pae then kprintf ("32-bit paging mode." +:+ nl) [] else mret tt) ;;
  (if pae && negb la57 then kprintf ("4-level paging mode." +:+ nl) [] else mret tt) ;;
  (if pae && la57 then kprintf ("5-level paging mode." +:+ nl) [] else mret tt) ;;
  let val := cpu_get_address_widths in
  mod_vm (set_maxphyaddr (Z.land val 0xFF)) ;;
  mod_vm (set_maxlinaddr (Z.land (Z.shiftr val 8) 0xFF)) ;;
  m ← gets (fun s => maxphyaddr (k_vm s));
  kprintf ("MAXPHYADDR: %d bits" +:+ nl) [KNum m] ;;
  l ← gets (fun s => maxlinaddr (k_vm s));
  kprintf ("MAXLINADDR: %d bits" +:+ nl) [KNum l] ;;
  walk_page_table 0 ;;
  mret tt.

(** ** The architecture: 4-level translation of a linear address

    Physical memory as a function; an entry's present bit, page-size bit and
    address field (bits 12 to MAXPHYADDR - 1), the walk of Intel SDM volume 3,
    4.5.  [None]: a page fault. *)
Section architecture.
Context (phys : Z -> Z) (maxphy : Z).

Definition pte_present (e : Z) : bool := Z.testbit e 0.
Definition pte_large (e : Z) : bool := Z.testbit e 7.
(** Bits [lo, maxphy) of the entry. *)
Definition field (lo e : Z) : Z := (e `mod` 2 ^ maxphy) `div` 2 ^ lo * 2 ^ lo.
Definition index (shift va : Z) : Z := (va `div` 2 ^ shift) `mod` 512.

(** The walk from the table at [table], through the levels whose indices start
    at the bits [shifts]; levels 30 and 21 may map large pages. *)
Fixpoint translate_from (shifts : list Z) (table va : Z) : option Z :=
  match shifts with
  | [] => Some (table + va `mod` 2 ^ 12)
  | sh :: rest =>
      let e := phys (table + 8 * index sh va) in
      if negb (pte_present e) then None
      else if pte_large e && ((sh =? 30) || (sh =? 21)) then Some (field sh e + va `mod` 2 ^ sh)
      else translate_from rest (field 12 e) va
  end.
Definition translate (cr3 va : Z) : option Z := translate_from [39; 30; 21; 12] (field 12 cr3) va.

(** The walk stays in the first [limit] bytes of physical memory, meets no
    large page, and the bits from MAXPHYADDR on, 12 of them, are clear in every
    present entry (the architecture reserves those below bit 52). *)
Definition clean (e : Z) : Prop := (e `div` 2 ^ maxphy) `mod` 2 ^ 12 = 0.
Fixpoint walk_ok (limit : Z) (shifts : list Z) (table va : Z) : Prop :=
  match shifts with
  | [] => True
  | sh :: rest =>
      table + 4096 <= limit /\
      let e := phys (table + 8 * index sh va) in
      pte_present e = true ->
        clean e /\ pte_large e && ((sh =? 30) || (sh =? 21)) = false /\
        walk_ok limit rest (field 12 e) va
  end.
End architecture.

(** Physical memory as the direct map shows it. *)
Definition phys_mem (s : kernel) (a : Z) : Z :=
  rd 8 (a + vmm_higher_half_offset (slob_pmm (k_slob s))) (smem s).

(** ** Lemmas *)

Lemma field_range m lo e : 0 <= lo -> 0 <= m -> 0 <= field m lo e.
Proof.
  intros. unfold field. pose proof (Z.mod_pos_bound e (2 ^ m) ltac:(apply Z.pow_pos_nonneg; lia)).
  apply Z.mul_nonneg_nonneg; [apply Z.div_pos; [lia|apply Z.pow_pos_nonneg; lia]|].
  apply Z.pow_nonneg. lia.
Qed.

Lemma field_testbit m lo e n :
  0 <= lo -> 0 <= m -> 0 <= n ->
  Z.testbit (field m lo e) n = bool_decide (lo <= n < m) && Z.testbit e n.
Proof.
  intros. unfold field.
  rewrite <- Z.shiftl_mul_pow2, <- Z.shiftr_div_pow2, Z.shiftl_spec by lia.
  destruct (decide (lo <= n)).
  - rewrite Z.shiftr_spec by lia. replace (n - lo + lo) with n by lia.
    rewrite testbit_mod_pow2 by lia. f_equal. apply bool_decide_ext. lia.
  - rewrite bool_decide_false by lia. rewrite Z.testbit_neg_r by lia. done.
Qed.

Lemma clean_testbit m e n : 0 <= m -> clean m e -> m <= n < m + 12 -> Z.testbit e n = false.
Proof.
  intros Hm Hc Hn. unfold clean in Hc. rewrite <- Z.shiftr_div_pow2 in Hc by lia.
  apply (f_equal (fun z => Z.testbit z (n - m))) in Hc.
  rewrite Z.bits_0, testbit_mod_pow2, bool_decide_true in Hc by lia. simpl in Hc.
  rewrite Z.shiftr_spec in Hc by lia. by replace (n - m + m) with n in Hc by lia.
Qed.

Lemma addrmask_testbit m n :
  0 <= m < 64 -> 0 <= n -> Z.testbit (addrmask_of m) n = bool_decide (12 <= n < Z.min 64 (m + 12)).
Proof.
  intros Hm Hn. unfold addrmask_of, u64. rewrite testbit_mod_pow2 by lia.
  rewrite Z.shiftl_1_l, (Z.mod_small (2 ^ m)) by (split; [apply Z.pow_nonneg; lia|apply Z.pow_lt_mono_r; lia]).
  replace (2 ^ m - 1) with (Z.ones m) by (rewrite Z.ones_equiv; lia).
  assert (Z.ones m < 2 ^ 64).
  { rewrite Z.ones_equiv. pose proof (Z.pow_lt_mono_r 2 m 64). lia. }
  rewrite (Z.mod_small (Z.ones m)) by (split; [|done]; rewrite Z.ones_equiv; pose proof (Z.pow_pos_nonneg 2 m); lia).
  destruct (decide (12 <= n)).
  - rewrite Z.shiftl_spec by lia. rewrite Z.testbit_ones_nonneg by lia.
    repeat case_bool_decide; destruct (Z.ltb_spec (n - 12) m); simpl; try done; lia.
  - rewrite Z.shiftl_spec_low by lia. rewrite andb_false_r. by rewrite bool_decide_false by lia.
Qed.

(** The code's mask gives the architecture's address field. *)
Lemma land_addrmask m e :
  12 <= m <= 52 -> 0 <= e < 2 ^ 64 -> clean m e -> Z.land e (addrmask_of m) = field m 12 e.
Proof.
  intros Hm He Hc. bitwise. rewrite addrmask_testbit, field_testbit by lia.
  destruct (Z.testbit e n) eqn:Eb; [|by rewrite andb_false_r].
  rewrite andb_true_l, andb_true_r. apply bool_decide_ext.
  destruct (decide (m <= n < m + 12)) as [D|D].
  - rewrite (clean_testbit m e n) in Eb by (done || lia). done.
  - assert (n < 64); [|lia]. destruct (decide (n < 64)); [done|].
    rewrite Z.bits_above_log2 in Eb; [done|lia|].
    destruct (decide (e = 0)) as [->|]; [simpl; lia|]. apply Z.log2_lt_pow2; [lia|].
    pose proof (Z.pow_le_mono_r 2 64 n). lia.
Qed.

Lemma lor_page m e va : 0 <= m -> Z.lor (field m 12 e) (PAGE_OFFSET va) = field m 12 e + va `mod` 2 ^ 12.
Proof.
  intros Hm. unfold PAGE_OFFSET. change 0xFFF with (Z.ones 12). rewrite Z.land_ones by lia.
  assert (Hd : Z.land (field m 12 e) (va `mod` 2 ^ 12) = 0).
  { bitwise. rewrite field_testbit, testbit_mod_pow2, Z.bits_0 by lia.
    repeat case_bool_decide; simpl; rewrite ?andb_false_r; try done; lia. }
  by rewrite <- Z.lxor_lor, Z.add_nocarry_lxor.
Qed.

Lemma index_land sh va : 0 <= sh -> Z.land (Z.shiftr va sh) 0x1FF = index sh va.
Proof.
  intros. change 0x1FF with (Z.ones 9). rewrite Z.land_ones, Z.shiftr_div_pow2 by lia. done.
Qed.
Lemma index_range sh va : 0 <= index sh va < 512.
Proof. apply Z.mod_pos_bound. lia. Qed.
Lemma present_land e : (Z.land e PAGE_PRESENT =? 0) = negb (pte_present e).
Proof. apply (land_bit_nonzero e 0). lia. Qed.

Lemma phys_mem_range s a : 0 <= phys_mem s a < 2 ^ 64.
Proof. apply rd_range. Qed.

(** Loading one entry of a table. *)
Lemma load_entry {B} s limit table i sh va (k : Z -> M kernel B) :
  let hhdm := vmm_higher_half_offset (slob_pmm (k_slob s)) in
  region hhdm limit (smem s) -> 0 <= hhdm -> hhdm + limit <= 2 ^ 64 -> 0 <= table -> table + 4096 <= limit ->
  i = index sh va ->
  (t ← PHYS_TO_VIRT table; e ← load 8 (t + 8 * i); k e) s =
    k (phys_mem s (table + 8 * index sh va)) s.
Proof.
  intros hhdm Hr Hh0 Hh Ht Hl ->. pose proof (index_range sh va). unfold PHYS_TO_VIRT.
  erewrite bind_ret_eq; [|reflexivity]. rewrite u64_small by (fold hhdm; lia). fold hhdm.
  erewrite bind_ret_eq; [|apply load_ok; mregion]. unfold phys_mem. fold hhdm. f_equal. f_equal. lia.
Qed.

(** One level of the walk, and one level of the translation. *)
Lemma walk_level_run s limit table i sh va (k : Z -> M kernel Z) :
  let hhdm := vmm_higher_half_offset (slob_pmm (k_slob s)) in
  region hhdm limit (smem s) -> 0 <= hhdm -> hhdm + limit <= 2 ^ 64 -> 0 <= table ->
  table + 4096 <= limit -> i = index sh va ->
  (t ← PHYS_TO_VIRT table; e ← load 8 (t + 8 * i);
   if Z.land e PAGE_PRESENT =? 0 then mret 0 else k e) s =
  if pte_present (phys_mem s (table + 8 * index sh va))
  then k (phys_mem s (table + 8 * index sh va)) s else Ret 0 s.
Proof.
  intros hhdm Hr Hh0 Hh Ht Hl Hi.
  rewrite (load_entry s limit table i sh va
      (fun e => if Z.land e PAGE_PRESENT =? 0 then mret 0 else k e) Hr Hh0 Hh Ht Hl Hi).
  rewrite present_land. by destruct (pte_present _).
Qed.

Lemma walk_level_spec s M limit table sh rest va :
  let e := phys_mem s (table + 8 * index sh va) in
  12 <= M <= 52 -> walk_ok (phys_mem s) M limit (sh :: rest) table va ->
  table + 4096 <= limit /\
  if pte_present e
  then Z.land e (addrmask_of M) = field M 12 e /\
       translate_from (phys_mem s) M (sh :: rest) table va =
         translate_from (phys_mem s) M rest (field M 12 e) va /\
       walk_ok (phys_mem s) M limit rest (field M 12 e) va
  else translate_from (phys_mem s) M (sh :: rest) table va = None.
Proof.
  intros e HM (Hl & Hp). split; [done|]. cbn [translate_from]. fold e in Hp |- *.
  destruct (pte_present e) eqn:Ep; cbn [negb]; [|done].
  destruct (Hp Ep) as (Hcl & Hlg & Hok). fold e in Hlg. rewrite Hlg. split_and!; try done.
  apply land_addrmask; [lia|apply phys_mem_range|done].
Qed.
