(* ===== verification/VmProps.v ===== *)
(** * vm.c: the properties of the page-table walk *)
From S2P Require Import Prelude Machine Pmm Slob Kstate Vm.

(** A kernel whose hardware state and memory are what the examples need. *)
Definition kernel_at (m : memory) (hhdm cr3 maxphy : Z) : kernel :=
  Kernel (Slob (Pmm (Machine m []) 0 0 0 [] 0 0 0 0 hhdm 0 0 0) 0 0) []
    (CpuRegs 0 cr3 0 false) (VmGlobals maxphy 48) (AcpiGlobals 0 0 0 0 0 0 0 [] [])
    (HpetGlobals 0 0 0 0 0) (LapicGlobals 0 0 0 0 0 0) (PciGlobals [] 0)
    (DescGlobals [] 0 0 [] 0 0 0)
    (TermGlobals 0 0 0 0 0 0 0 0 0 0 0 false 0 0 0 0 0 0 0 0 0 0 false) [] 0.

(** One table, at physical 0, which is its own sub-table at every level: entries
    1, 2 and 3 point back to it and entry 4 maps physical 0x5000 with the flags
    given. [linear] goes through entries 1, 2, 3 and 4. *)
Definition linear : Z := 2 ^ 39 + 2 * 2 ^ 30 + 3 * 2 ^ 21 + 4 * 2 ^ 12 + 0x123.
Definition tables (flags : Z) : memory :=
  wr 8 (2 ^ 47 + 32) (0x5000 + flags) (wr 8 (2 ^ 47 + 24) 1
    (wr 8 (2 ^ 47 + 16) 1 (wr 8 (2 ^ 47 + 8) 1 (zeros (2 ^ 47) 4096)))).

(** C12: the walk is the architecture's. When the tables it visits lie in the
    direct map and it meets no large page and no entry with bits set in the
    twelve from MAXPHYADDR on, walk_page_table returns the physical address the
    4-level translation of the hardware gives, and 0 exactly where that faults;
    it changes nothing. *)
Theorem walk_page_table_translates limit va s :
  let hhdm := vmm_higher_half_offset (slob_pmm (k_slob s)) in
  let M := maxphyaddr (k_vm s) in
  12 <= M <= 52 -> region hhdm limit (smem s) -> 0 <= hhdm -> hhdm + limit <= 2 ^ 64 ->
  is_u64 (cr3 (k_cpu s)) -> clean M (cr3 (k_cpu s)) ->
  walk_ok (phys_mem s) M limit [39; 30; 21; 12] (field M 12 (cr3 (k_cpu s))) va ->
  walk_page_table va s = Ret (default 0 (translate (phys_mem s) M (cr3 (k_cpu s)) va)) s.
Proof.
  intros hhdm M HM Hr Hh0 Hh Hcr3 Hc3 Hw.
  unfold walk_page_table, translate.
  do 2 (erewrite bind_ret_eq; [|reflexivity]). fold M.
  rewrite (proj2 (Z.leb_gt 64 M)) by lia. erewrite bind_ret_eq; [|reflexivity].
  rewrite (land_addrmask M) by (done || lia).
  unfold PML4_INDEX, PDPT_INDEX, PD_INDEX, PT_INDEX.
  assert (Hf : forall e, 0 <= field M 12 e) by (intros; apply field_range; lia).
  destruct (walk_level_spec s M limit _ 39 _ va HM Hw) as [L4 H4].
  rewrite (walk_level_run s limit _ _ 39 va _ Hr Hh0 Hh (Hf _) L4 (index_land 39 va ltac:(lia))).
  destruct (pte_present _); [destruct H4 as (-> & -> & Hw3)|by rewrite H4].
  destruct (walk_level_spec s M limit _ 30 _ va HM Hw3) as [L3 H3].
  rewrite (walk_level_run s limit _ _ 30 va _ Hr Hh0 Hh (Hf _) L3 (index_land 30 va ltac:(lia))).
  destruct (pte_present _); [destruct H3 as (-> & -> & Hw2)|by rewrite H3].
  destruct (walk_level_spec s M limit _ 21 _ va HM Hw2) as [L2 H2].
  rewrite (walk_level_run s limit _ _ 21 va _ Hr Hh0 Hh (Hf _) L2 (index_land 21 va ltac:(lia))).
  destruct (pte_present _); [destruct H2 as (-> & -> & Hw1)|by rewrite H2].
  destruct (walk_level_spec s M limit _ 12 _ va HM Hw1) as [L1 H1].
  rewrite (walk_level_run s limit _ _ 12 va _ Hr Hh0 Hh (Hf _) L1 (index_land 12 va ltac:(lia))).
  destruct (pte_present _); [destruct H1 as (-> & -> & _)|by rewrite H1].
  cbn [translate_from default mret M_ret]. f_equal. apply lor_page. lia.
Qed.

Lemma walk_page_table_translates_witness :
  let s := kernel_at (tables 3) (2 ^ 47) 0 40 in
  walk_page_table linear s =
    Ret (default 0 (translate (phys_mem s) (maxphyaddr (k_vm s)) (cr3 (k_cpu s)) linear)) s.
Proof.
  intros s. apply (walk_page_table_translates 4096 linear s).
  - done.
  - change (region (2 ^ 47) 4096 (tables 3)). unfold tables. do 4 apply region_wr. apply region_zeros.
  - done.
  - done.
  - done.
  - done.
  - unfold s. vm_compute. repeat split; discriminate.
Defined.

(** The mask reaches twelve bits too far. On a processor with
    MAXPHYADDR = 52 a page marked no-execute (bit 63 of its leaf entry) is
    translated by the hardware to 0x5123, but walk_page_table keeps the flag in
    the address it returns. *)
Theorem walk_page_table_keeps_nx :
  let s := kernel_at (tables (2 ^ 63 + 3)) (2 ^ 47) 0 52 in
  translate (phys_mem s) 52 0 linear = Some 0x5123 /\
  match walk_page_table linear s with Ret pa _ => pa | _ => 0 end = 2 ^ 63 + 0x5123.
Proof. split; vm_compute; reflexivity. Qed.
