(* ===== verification/Poll.v ===== *)
(** * Traces of accesses, and polling loops that wait for a device *)
From S2P Require Import Prelude Machine Pmm Slob Kstate.

(** The state after some accesses, latest first. *)
Definition after_io (t : list io) (s : kernel) : kernel := set_k_io (t ++ k_io s) s.
Lemma after_io_app t1 t2 s : after_io t1 (after_io t2 s) = after_io (t1 ++ t2) s.
Proof. unfold after_io. cbn. by rewrite app_assoc. Qed.

(** The state after some log lines. *)
Definition logged (lg : list log_entry) (s : kernel) : kernel := set_mach (Machine (smem s) lg) s.
Lemma logged_logged l1 l2 s : logged l1 (logged l2 s) = logged l1 s.
Proof. done. Qed.

(** Two loops whose bodies agree on the states the second one visits. *)
Lemma loop_ext_inv {St L R} (P : St -> Prop) fuel (body body' : L -> M St (L + R)) l s :
  (forall l s, P s -> body l s = body' l s) ->
  (forall l s l' s', P s -> body' l s = Ret (inl l') s' -> P s') ->
  P s -> loop fuel body l s = loop fuel body' l s.
Proof.
  intros E Hp. revert l s. induction fuel as [|fuel IH]; intros l s Hs; [done|].
  rewrite !loop_S. unfold mbind, M_bind. rewrite E by done.
  destruct (body' l s) as [[l'|r] s'|s'|s'|f|] eqn:Eb; try done. apply IH. by eapply Hp.
Qed.

Lemma loop_ext {St L R} fuel (body body' : L -> M St (L + R)) l s :
  (forall l s, body l s = body' l s) -> loop fuel body l s = loop fuel body' l s.
Proof. intros E. by apply (loop_ext_inv (fun _ => True)). Qed.

Section poll.
Context `{Hardware}.

(** Reading register [a] until the value fails [busy]. *)
Definition poll_iter (a : io) (busy : Z -> bool) (_ : unit) : M kernel (unit + unit) :=
  v ← io_ask a; mret (if busy v then inl tt else inr tt).

(** The device stops being busy within [n] reads made in a row after [t]. *)
Definition settles (a : io) (busy : Z -> bool) (n : nat) (t : list io) : Prop :=
  exists k, (k < n)%nat /\ busy (device (replicate k a ++ t) a) = false.

Lemma replicate_snoc_cons k (a : io) t : replicate k a ++ a :: t = a :: replicate k a ++ t.
Proof. induction k as [|k IH]; simpl; [done|]. by rewrite IH. Qed.

Lemma poll_iter_eq a busy s : poll_iter a busy tt s =
  Ret (if busy (device (k_io s) a) then inl tt else inr tt) (set_k_io (a :: k_io s) s).
Proof. done. Qed.

(** The loop reads exactly as often as needed; the last value read is the
    first one not busy. *)
Lemma poll_ok a busy fuel s :
  settles a busy fuel (k_io s) ->
  exists k, (k < fuel)%nat /\
    loop fuel (poll_iter a busy) tt s = Ret tt (set_k_io (replicate (S k) a ++ k_io s) s) /\
    busy (device (replicate k a ++ k_io s) a) = false /\
    forall j, (j < k)%nat -> busy (device (replicate j a ++ k_io s) a) = true.
Proof.
  revert s. induction fuel as [|fuel IH]; intros s (k & Hk & Hb); [lia|].
  rewrite loop_S, (bind_ret_eq _ _ _ _ _ (poll_iter_eq a busy s)).
  destruct (busy (device (k_io s) a)) eqn:E.
  - destruct k as [|k]; [simpl in Hb; congruence|].
    destruct (IH (set_k_io (a :: k_io s) s)) as (k' & Hk' & El & Hl & Hj).
    { exists k. split; [lia|]. cbn [k_io set_k_io]. by rewrite replicate_snoc_cons. }
    cbn [k_io set_k_io] in El, Hl, Hj. rewrite replicate_snoc_cons in El, Hl.
    exists (S k'). split; [lia|]. split; [exact El|]. split; [exact Hl|].
    intros [|j] Hlt; [done|]. specialize (Hj j). rewrite replicate_snoc_cons in Hj. apply Hj. lia.
  - exists 0%nat. split; [lia|]. split; [reflexivity|]. split; [done|]. intros j Hj. lia.
Qed.
End poll.
