(* ===== verification/Printing.v ===== *)
(** * What a function may rely on when it prints

    The interface between kprintf and its callers: a caller is verified against
    [speaks], which the log and the real kprintf (in [Speech]) both implement. *)
From S2P Require Import Prelude Machine Pmm Slob Kstate VmProps Poll.

(** A printer: where it is [ready], a message of [msgs] is printed and changes
    the state as [said] says, which leaves alone what the callers read: their
    globals and the memory [kept]; accesses to the hardware may be added. *)
Record speaks (P : Printf kernel) (msgs : string -> list Z -> Prop) (ready : kernel -> Prop)
    (said : kernel -> kernel -> Prop) (kept : Z -> Prop) : Prop := {
  sp_refl : forall s, said s s;
  sp_trans : forall s1 s2 s3, said s1 s2 -> said s2 s3 -> said s1 s3;
  sp_print : forall fmt ns s, ready s -> msgs fmt ns ->
    exists s', kprintf fmt (KNum <$> ns) s = Ret tt s' /\ said s s' /\ ready s';
  sp_after : forall t s, ready s -> ready (after_io t s);
  sp_map : forall m s, ready s -> ready (set_scancode_map m s);
  sp_acpi : forall s s', said s s' -> k_acpi s' = k_acpi s;
  sp_lapic : forall s s', said s s' -> k_lapic s' = k_lapic s;
  sp_codes : forall s s', said s s' -> scancode_map s' = scancode_map s;
  sp_hhdm : forall s s', said s s' ->
    vmm_higher_half_offset (slob_pmm (k_slob s')) = vmm_higher_half_offset (slob_pmm (k_slob s));
  sp_io : forall s s', said s s' -> exists t, k_io s' = t ++ k_io s;
  sp_kept : forall s s' a, ready s -> said s s' -> kept a -> smem s' !! a = smem s !! a
}.

(** The log is a printer. *)
Definition said_log (s s' : kernel) : Prop := exists lg, s' = logged lg s.
Lemma logged_self s : s = logged (klog (get_mach s)) s.
Proof. by destruct s as [[[[]]]]. Qed.
Lemma log_speaks : speaks printf_log (fun _ _ => True) (fun _ => True) said_log (fun _ => True).
Proof.
  split; try done.
  - intros s. exists (klog (get_mach s)). apply logged_self.
  - intros s1 s2 s3 [l1 ->] [l2 ->]. by exists l2.
  - intros fmt ns s _ _. eexists. split; [reflexivity|]. split; [|done]. by eexists.
  - by intros s s' [lg ->].
  - by intros s s' [lg ->].
  - by intros s s' [lg ->].
  - by intros s s' [lg ->].
  - intros s s' [lg ->]. by exists [].
  - by intros s s' a _ [lg ->].
Qed.
