(* ===== verification/Bump.v ===== *)
(** * alloc/bump.c: the bump allocator (the alternative alloc.h can select) *)
From S2P Require Import Prelude Machine Math Pmm.

(** The globals of bump.c, on top of those of mem.c; [_offset] is a uint16_t. *)
Record bump := Bump { bump_pmm : pmm; _cursor : Z; _offset : Z }.
Definition set_bump_pmm (v : pmm) (s : bump) : bump := Bump v (_cursor s) (_offset s).
Definition set__cursor (v : Z) (s : bump) : bump := Bump (bump_pmm s) v (_offset s).
Definition set__offset (v : Z) (s : bump) : bump := Bump (bump_pmm s) (_cursor s) (u16 v).
Definition in_pmm {A} : M pmm A -> M bump A := zoom bump_pmm set_bump_pmm.

Definition new_page : M bump unit :=
  p ← in_pmm (kpalloc 1);
  modify (set__cursor p) ;;
  modify (set__offset 0).

Definition bump_malloc (size : Z) : M bump Z :=
  let numPages := DIV_ROUNDUP size PAGE_SIZE in
  if 1 <? numPages then
    startAddr ← in_pmm (kpalloc numPages);
    modify (set__offset ((numPages *64 PAGE_SIZE) -64 size)) ;;
    modify (set__cursor (startAddr +64 size)) ;;
    mret startAddr
  else
    c ← gets _cursor;
    (if c =? 0 then new_page else mret tt) ;;
    off ← gets _offset;
    (if size >? PAGE_SIZE -64 off then new_page else mret tt) ;;
    startAddr ← gets _cursor;
    modify (set__cursor (startAddr +64 size)) ;;
    off ← gets _offset;
    modify (set__offset (off + size)) ;;
    mret startAddr.

Definition bump_free (ptr : Z) : M bump unit := mret tt.

(** alloc.c with ALLOC_USEBUMP, where these two are malloc and free. *)
Definition malloc_usebump (size : Z) : M bump Z := bump_malloc size.
Definition free_usebump (ptr : Z) : M bump unit := bump_free ptr.
