(* ===== verification/BumpProps.v ===== *)
(** * alloc/bump.c: the properties of the bump allocator *)
From S2P Require Import Prelude Machine Math Pmm PmmProofs PmmProps Regions Bump.

Definition page_base (s : pmm) : Z := lowest_address s + vmm_higher_half_offset s.
(** The managed pages lie in the address space and not at 0. *)
Definition addressable (s : pmm) : Prop :=
  0 <= lowest_address s /\ 0 <= vmm_higher_half_offset s /\ 0 < page_base s /\
  page_base s + max_pages_available s * PAGE_SIZE < 2 ^ 64.

Lemma page_addr_base s k : addressable s -> 0 <= k < max_pages_available s -> page_addr s k = page_base s + PAGE_SIZE * k.
Proof.
  unfold addressable, page_base, page_addr, PAGE_SIZE. intros (H1 & H2 & H3 & H4) Hk.
  rewrite (u64_small (k * 4096)), (u64_small (lowest_address s + k * 4096)), u64_small by lia. lia.
Qed.

(** [b] lies inside page [k]. *)
Definition in_page (s : pmm) (k : Z) (b : block) : Prop :=
  page_base s + PAGE_SIZE * k <= fst b /\ fst b + snd b <= page_base s + PAGE_SIZE * (k + 1).

(** The bump allocator has handed out [blocks]: disjoint, each inside a page
    that the page allocator has given it; the cursor is in such a page too, with
    the offset of the cursor in it, and no block of that page lies beyond. *)
Record bump_ok (s : bump) (blocks : list block) : Prop := {
  bo_pmm : pmm_inv (bump_pmm s);
  bo_addressable : addressable (bump_pmm s);
  bo_disjoint : disjoint_blocks blocks;
  bo_blocks : Forall (fun b => 0 <= snd b /\ exists k, 0 <= k < max_pages_available (bump_pmm s) /\
    used (bump_pmm s) k = true /\ in_page (bump_pmm s) k b) blocks;
  bo_cursor : (_cursor s = 0 /\ _offset s = 0 /\ blocks = []) \/
    exists k, 0 <= k < max_pages_available (bump_pmm s) /\ used (bump_pmm s) k = true /\ 0 <= _offset s <= PAGE_SIZE /\
      _cursor s = page_base (bump_pmm s) + PAGE_SIZE * k + _offset s /\
      Forall (fun b => in_page (bump_pmm s) k b -> 0 < snd b -> fst b + snd b <= _cursor s) blocks
}.

(** kpalloc(1), as the bump allocator uses it. *)
Lemma new_page_ok s : pmm_inv (bump_pmm s) -> addressable (bump_pmm s) ->
  (exists k t, new_page s = Ret tt (Bump t (page_base t + PAGE_SIZE * k) 0) /\ pmm_inv t /\ addressable t /\
     0 <= k < max_pages_available t /\ used (bump_pmm s) k = false /\ same_config (bump_pmm s) t /\
     (forall j, 0 <= j < max_pages_available t -> used t j = bool_decide (j = k) || used (bump_pmm s) j)) \/
  ((forall k, 0 <= k < max_pages_available (bump_pmm s) -> used (bump_pmm s) k = true) /\
   exists t, new_page s = Ret tt (Bump t 0 0) /\ pmm_inv t).
Proof.
  intros I A. destruct s as [m c o]. cbn [bump_pmm] in *.
  unfold new_page, in_pmm, kpalloc.
  destruct (kalloc_ok m (PAGE_SIZE *64 1) (pi_layout m I) (pi_lock m I) ltac:(by vm_compute) ltac:(by vm_compute))
    as [(k & t & Hr & E & Ha)|(Hno & E)].
  - left. exists k, t. change (DIV_ROUNDUP (PAGE_SIZE *64 1) PAGE_SIZE) with 1 in Hr, Ha.
    pose proof (al_config _ _ _ _ Ha) as C. destruct Hr as (Hk & Hkm & Hfree).
    assert (Hpb : page_base t = page_base m) by (unfold page_base; by rewrite (sc_lowest _ _ C), (sc_hhdm _ _ C)).
    split_and!.
    + unfold zoom, mbind, M_bind. cbn [bump_pmm]. rewrite E. rewrite page_addr_base by (done || lia). rewrite Hpb. reflexivity.
    + eapply allocated_pmm_inv; [exact I| |by split_and!|exact Ha]. lia.
    + unfold addressable in *. by rewrite Hpb, (sc_lowest _ _ C), (sc_hhdm _ _ C), (sc_max _ _ C).
    + done.
    + rewrite (sc_max _ _ C). lia.
    + apply Hfree. lia.
    + done.
    + intros j Hj. rewrite (sc_max _ _ C) in Hj. rewrite (al_used _ _ _ _ Ha) by done. f_equal.
      repeat case_bool_decide; (done || lia).
  - right. split.
    + intros k Hk. destruct (used m k) eqn:Eu; [done|]. exfalso. apply (Hno k).
      change (DIV_ROUNDUP (PAGE_SIZE *64 1) PAGE_SIZE) with 1. split_and!; [lia|lia|]. intros j Hj. by replace j with k by lia.
    + exists (kalloc_failed m). split; [|by apply kalloc_failed_inv].
      unfold zoom, mbind, M_bind. cbn [bump_pmm]. rewrite E. reflexivity.
Qed.

Lemma in_page_config m t k b : same_config m t -> in_page t k b <-> in_page m k b.
Proof. intros C. unfold in_page, page_base. by rewrite (sc_lowest _ _ C), (sc_hhdm _ _ C). Qed.

(** A block that is not empty lies in one page only. *)
Lemma in_page_one m k k' b : in_page m k b -> in_page m k' b -> 0 < snd b -> k = k'.
Proof. unfold in_page, PAGE_SIZE. lia. Qed.

Lemma new_page_keeps s blocks k t :
  bump_ok s blocks -> pmm_inv t -> addressable t -> 0 <= k < max_pages_available t -> used (bump_pmm s) k = false ->
  same_config (bump_pmm s) t ->
  (forall j, 0 <= j < max_pages_available t -> used t j = bool_decide (j = k) || used (bump_pmm s) j) ->
  bump_ok (Bump t (page_base t + PAGE_SIZE * k) 0) blocks.
Proof.
  intros [I A D B _] It At Hk Hf C Hu. split; cbn [bump_pmm _cursor _offset]; try done.
  - eapply Forall_impl; [exact B|]. intros b (Hb & j & Hj & Hju & Hin). split; [done|]. exists j.
    rewrite (in_page_config (bump_pmm s) t) by done. rewrite <- (sc_max _ _ C) in Hj. rewrite Hu, Hju, orb_true_r by done. done.
  - right. exists k. rewrite Hu, bool_decide_eq_true_2 by done. split; [done|]. split; [done|].
    split; [by vm_compute|]. split; [lia|]. eapply Forall_impl; [exact B|].
    intros b (Hb & j & Hj & Hju & Hin) Hin' Hpos. exfalso. rewrite (in_page_config (bump_pmm s) t) in Hin' by done.
    rewrite (in_page_one _ _ _ _ Hin' Hin Hpos) in Hf. by rewrite Hf in Hju.
Qed.

(** A request that fits the rest of the page. *)
Lemma bump_fits s blocks n :
  bump_ok s blocks -> _cursor s <> 0 -> 0 <= n <= PAGE_SIZE - _offset s ->
  exists s', (startAddr ← gets _cursor; modify (set__cursor (startAddr +64 n)) ;; off ← gets _offset;
      modify (set__offset (off + n)) ;; mret startAddr) s = Ret (_cursor s) s' /\
    bump_ok s' ((_cursor s, n) :: blocks).
Proof.
  intros [I A D B [(Hc & _)|(k & Hk & Hu & Hoff & Hc & Hlast)]] Hc0 Hn; [done|].
  destruct s as [m c o]. cbn [bump_pmm _cursor _offset] in *.
  assert (Hmax : page_base m + PAGE_SIZE * k + PAGE_SIZE <= page_base m + max_pages_available m * PAGE_SIZE)
    by (unfold PAGE_SIZE; lia).
  destruct A as (A1 & A2 & A3 & A4).
  assert (Hin : in_page m k (c, n)) by (unfold in_page, PAGE_SIZE in *; simpl fst; simpl snd; lia).
  eexists. split; [reflexivity|]. unfold set__offset, set__cursor. cbn [bump_pmm _cursor _offset].
  rewrite (u64_small (c + n)) by (unfold PAGE_SIZE in *; lia).
  rewrite u16_small by (unfold PAGE_SIZE, is_u16 in *; lia). split; cbn [bump_pmm _cursor _offset]; try done.
  - intros x. cbn [cover]. case_decide as Hx; [|apply D]. rewrite cover_zero; [lia|].
    rewrite Forall_forall in B, Hlast. intros b Hb Hxb. destruct (B b Hb) as (Hb0 & j & Hj & _ & Hjn).
    unfold inside in Hx, Hxb. cbn [fst snd] in Hx. specialize (Hlast b Hb).
    destruct (decide (j = k)) as [->|Hne]; [specialize (Hlast Hjn); lia|].
    unfold in_page, PAGE_SIZE in *. cbn [fst snd] in *. lia.
  - apply Forall_cons. split; [|done]. split; [cbn; lia|by exists k].
  - right. exists k. split; [done|]. split; [done|]. split; [lia|]. split; [lia|].
    apply Forall_cons. split; [cbn; lia|]. eapply Forall_impl; [exact Hlast|]. cbn. intros b Hb Hbk Hpos.
    specialize (Hb Hbk Hpos). lia.
Qed.

Lemma bump_cursor s blocks : bump_ok s blocks -> 0 <= _offset s <= PAGE_SIZE /\ (_cursor s = 0 -> blocks = []).
Proof.
  intros [I (A1 & A2 & A3 & A4) D B [(Hc & Ho & ->)|(k & Hk & Hu & Hoff & Hc & Hlast)]]; split; unfold PAGE_SIZE in *; try lia; try done.
Qed.

(** The last part of malloc, for requests of up to a page. *)
Definition bump_take (n : Z) : M bump Z :=
  startAddr ← gets _cursor; modify (set__cursor (startAddr +64 n)) ;; off ← gets _offset;
  modify (set__offset (off + n)) ;; mret startAddr.

Lemma bump_malloc_page n s : 0 <= n <= PAGE_SIZE ->
  bump_malloc n s =
    (c ← gets _cursor; (if c =? 0 then new_page else mret tt) ;; off ← gets _offset;
     (if n >? PAGE_SIZE -64 off then new_page else mret tt) ;; bump_take n) s.
Proof.
  intros Hn. unfold bump_malloc. pose proof (DIV_ROUNDUP_bounds n PAGE_SIZE ltac:(done) ltac:(lia) ltac:(unfold PAGE_SIZE in *; lia)).
  rewrite (proj2 (Z.ltb_ge 1 _)); [done|]. unfold PAGE_SIZE in *. lia.
Qed.

(** With a page to take from. *)
Lemma bump_malloc_fits s blocks n :
  bump_ok s blocks -> _cursor s <> 0 -> 0 <= n <= PAGE_SIZE - _offset s ->
  exists s', (off ← gets _offset; (if n >? PAGE_SIZE -64 off then new_page else mret tt) ;; bump_take n) s =
    Ret (_cursor s) s' /\ bump_ok s' ((_cursor s, n) :: blocks).
Proof.
  intros H Hc Hn. destruct (bump_cursor s blocks H) as [Ho _]. erewrite bind_ret_eq; [|reflexivity].
  rewrite u64_small by (unfold PAGE_SIZE in *; lia). rewrite Z.gtb_ltb, (proj2 (Z.ltb_ge _ _)) by lia.
  erewrite bind_ret_eq; [|reflexivity]. by apply bump_fits.
Qed.

(** Without one: NULL now, an arbitrary address next. *)
Lemma bump_take_null t n : 0 <= n <= PAGE_SIZE ->
  bump_take n (Bump t 0 0) = Ret 0 (Bump t n n) /\
  (0 < n -> forall n', 0 <= n' <= PAGE_SIZE - n -> exists s'', bump_malloc n' (Bump t n n) = Ret n s'').
Proof.
  intros Hn. split.
  - unfold bump_take. do 4 (erewrite bind_ret_eq; [|reflexivity]). cbn.
    unfold set__offset, set__cursor. cbn [bump_pmm _cursor _offset]. rewrite Z.add_0_l.
    rewrite u64_small, u16_small by (unfold PAGE_SIZE, is_u16 in *; lia). done.
  - intros Hp n' Hn'. rewrite bump_malloc_page by lia. erewrite bind_ret_eq; [|reflexivity].
    cbn [_cursor]. rewrite (proj2 (Z.eqb_neq n 0)) by lia. erewrite bind_ret_eq; [|reflexivity].
    erewrite bind_ret_eq; [|reflexivity]. cbn [_offset].
    rewrite u64_small by (unfold PAGE_SIZE in *; lia). rewrite Z.gtb_ltb, (proj2 (Z.ltb_ge _ _)) by lia.
    erewrite bind_ret_eq; [|reflexivity]. eexists. reflexivity.
Qed.

(** C16: the bump allocator, for requests of up to a page. While the page
    allocator has a free page, malloc returns a new block: disjoint from every
    block handed out before and inside one page that kalloc gave to this
    allocator. When it needs a page and there is none it returns NULL, but
    forgets that it did: the next request that fits behind is answered with a
    number that is no address of a block at all, the size of the first one. *)
Theorem bump_malloc_small s blocks n :
  bump_ok s blocks -> 0 <= n <= PAGE_SIZE ->
  (exists p s', bump_malloc n s = Ret p s' /\ p <> 0 /\ bump_ok s' ((p, n) :: blocks)) \/
  ((forall k, 0 <= k < max_pages_available (bump_pmm s) -> used (bump_pmm s) k = true) /\
   exists s', bump_malloc n s = Ret 0 s' /\
     (0 < n -> forall n', 0 <= n' <= PAGE_SIZE - n -> exists s'', bump_malloc n' s' = Ret n s'')).
Proof.
  intros H Hn. rewrite bump_malloc_page by done. destruct (bump_cursor s blocks H) as [Ho _].
  pose proof (new_page_ok s (bo_pmm _ _ H) (bo_addressable _ _ H)) as Hnew.
  erewrite bind_ret_eq; [|reflexivity].
  destruct (Z.eqb_spec (_cursor s) 0) as [Hc|Hc].
  - destruct Hnew as [(k & t & E & It & At & Hk & Hf & C & Hu)|(Hno & t & E & It)].
    + rewrite (bind_ret_eq _ _ _ _ _ E). left. pose proof (new_page_keeps s blocks k t H It At Hk Hf C Hu) as H1.
      assert (Hp : 0 < page_base t + PAGE_SIZE * k) by (destruct At as (_ & _ & ? & _); unfold PAGE_SIZE; lia).
      destruct (bump_malloc_fits _ blocks n H1) as (s' & E' & H'); [cbn; lia|cbn; lia|].
      exists (page_base t + PAGE_SIZE * k), s'. split; [exact E'|]. split; [lia|exact H'].
    + rewrite (bind_ret_eq _ _ _ _ _ E). right. split; [exact Hno|].
      erewrite bind_ret_eq; [|reflexivity]. cbn [_offset]. rewrite u64_small by (unfold PAGE_SIZE; lia).
      rewrite Z.gtb_ltb, (proj2 (Z.ltb_ge _ _)) by lia. erewrite bind_ret_eq; [|reflexivity].
      destruct (bump_take_null t n Hn) as [E' Hnext]. exists (Bump t n n). by split.
  - erewrite bind_ret_eq; [|reflexivity].
    destruct (Z.le_gt_cases n (PAGE_SIZE - _offset s)) as [Hfit|Hbig].
    + left. destruct (bump_malloc_fits s blocks n H Hc) as (s' & E & H'); [lia|]. by exists (_cursor s), s'.
    + erewrite bind_ret_eq; [|reflexivity]. rewrite u64_small by (unfold PAGE_SIZE in *; lia).
      rewrite Z.gtb_ltb, (proj2 (Z.ltb_lt _ _)) by lia.
      destruct Hnew as [(k & t & E & It & At & Hk & Hf & C & Hu)|(Hno & t & E & It)]; rewrite (bind_ret_eq _ _ _ _ _ E).
      * left. pose proof (new_page_keeps s blocks k t H It At Hk Hf C Hu) as H1.
        assert (Hp : 0 < page_base t + PAGE_SIZE * k) by (destruct At as (_ & _ & ? & _); unfold PAGE_SIZE; lia).
        destruct (bump_fits _ blocks n H1) as (s' & E' & H'); [cbn; lia|cbn; lia|].
        exists (page_base t + PAGE_SIZE * k), s'. split; [exact E'|]. split; [lia|exact H'].
      * right. split; [exact Hno|]. destruct (bump_take_null t n Hn) as [E' Hnext]. exists (Bump t n n). by split.
Qed.

(** C38: a large request breaks the next small one. malloc of more than a page
    takes whole pages and stores as the offset in the last one not what is used
    of it but what is left. So any following request of more than what is left,
    up to what the check lets through, is put behind the large block where it
    does not fit: it ends past the pages the allocator owns. *)
Theorem bump_large_overrun s blocks size n :
  let pages := DIV_ROUNDUP size PAGE_SIZE in
  let rest := pages * PAGE_SIZE - size in
  bump_ok s blocks -> PAGE_SIZE < size -> size + PAGE_SIZE <= 2 ^ 64 ->
  (exists p, free_run (bump_pmm s) p pages) -> rest < n <= PAGE_SIZE - rest ->
  exists start s1 s2, bump_malloc size s = Ret start s1 /\
    free_run (bump_pmm s) ((start - page_base (bump_pmm s)) `div` PAGE_SIZE) pages /\
    bump_malloc n s1 = Ret (start + size) s2 /\ start + size + n > start + pages * PAGE_SIZE.
Proof.
  intros pages rest H Hsize Ho (p & Hp) Hn. destruct (bo_addressable _ _ H) as (A1 & A2 & A3 & A4).
  pose proof (DIV_ROUNDUP_bounds size PAGE_SIZE ltac:(done) ltac:(unfold PAGE_SIZE in *; lia) Ho) as Hb. fold pages in Hb.
  assert (Hpg : 1 < pages) by (unfold PAGE_SIZE in *; lia).
  destruct s as [m c o]. cbn [bump_pmm] in *.
  assert (Hmul : PAGE_SIZE *64 pages = PAGE_SIZE * pages) by (unfold PAGE_SIZE in *; rewrite u64_small; lia).
  assert (Hround : DIV_ROUNDUP (PAGE_SIZE *64 pages) PAGE_SIZE = pages).
  { rewrite Hmul. destruct Hp as (Hp0 & Hpm & _). rewrite DIV_ROUNDUP_eq by (unfold PAGE_SIZE in *; lia).
    unfold PAGE_SIZE in *. symmetry. apply Z.div_unique with 4095; lia. }
  pose proof (pi_lock m (bo_pmm _ _ H)) as Hlock. pose proof (pi_layout m (bo_pmm _ _ H)) as Hlay. cbn [bump_pmm] in *.
  destruct (kalloc_ok m (PAGE_SIZE *64 pages) Hlay Hlock) as [(k & t & Hr & E & Ha)|(Hno & _)].
  { rewrite Hmul. unfold PAGE_SIZE in *. lia. }
  { rewrite Hmul. unfold PAGE_SIZE in *. destruct Hp as (Hp0 & Hpm & _). lia. }
  2: { rewrite Hround in Hno. by destruct (Hno p). }
  rewrite Hround in Hr, Ha. pose proof Hr as (Hk & Hkm & _).
  assert (Hst : page_addr m k = page_base m + PAGE_SIZE * k) by (apply page_addr_base; [by split_and!|lia]).
  set (start := page_addr m k) in *. unfold PAGE_SIZE in *.
  exists start, (Bump t (start + size) rest). eexists.
  split; [|split; [|split]].
  - unfold bump_malloc. cbv zeta. change (DIV_ROUNDUP size PAGE_SIZE) with pages. rewrite (proj2 (Z.ltb_lt 1 pages)) by exact Hpg.
    unfold in_pmm, kpalloc, zoom, mbind, M_bind. cbn [bump_pmm]. unfold PAGE_SIZE. rewrite E.
    cbn. unfold set__cursor, set__offset, set_bump_pmm. cbn [bump_pmm _cursor _offset].
    unfold PAGE_SIZE. rewrite (u64_small (pages * 4096)), (u64_small (pages * 4096 - size)), u64_small, u16_small
      by (unfold is_u16; lia). reflexivity.
  - rewrite Hst. replace (page_base m + 4096 * k - page_base m) with (k * 4096) by lia. by rewrite Z.div_mul.
  - rewrite bump_malloc_page by (unfold PAGE_SIZE; lia). erewrite bind_ret_eq; [|reflexivity]. cbn [_cursor].
    rewrite (proj2 (Z.eqb_neq (start + size) 0)) by lia. do 2 (erewrite bind_ret_eq; [|reflexivity]). cbn [_offset].
    unfold PAGE_SIZE. rewrite u64_small by lia. rewrite Z.gtb_ltb, (proj2 (Z.ltb_ge _ _)) by lia.
    erewrite bind_ret_eq; [|reflexivity]. reflexivity.
  - lia.
Qed.

(** The bump allocator on the eight free pages of [PmmProps]. *)
Definition bump_demo : bump := Bump demo 0 0.
Lemma bump_demo_ok : bump_ok bump_demo [].
Proof.
  split; [exact demo_inv|by unfold addressable; vm_compute|intros x; cbn; lia|by apply Forall_nil|by left].
Qed.

Lemma bump_malloc_small_witness :
  exists p s', bump_malloc 24 bump_demo = Ret p s' /\ p <> 0 /\ bump_ok s' [(p, 24)].
Proof.
  destruct (bump_malloc_small bump_demo [] 24 bump_demo_ok) as [Hok|(Hno & _)].
  - unfold PAGE_SIZE. lia.
  - exact Hok.
  - specialize (Hno 0 ltac:(cbn; lia)). change (used demo 0 = true) in Hno. by rewrite demo_unused in Hno.
Defined.

(** 8191 bytes leave one byte in two pages; 4095 more are let through. *)
Lemma bump_large_overrun_witness :
  exists start s1 s2, bump_malloc 8191 bump_demo = Ret start s1 /\
    bump_malloc 4095 s1 = Ret (start + 8191) s2 /\ start + 8191 + 4095 > start + 2 * PAGE_SIZE.
Proof.
  destruct (bump_large_overrun bump_demo [] 8191 4095 bump_demo_ok) as (start & s1 & s2 & E1 & _ & E2 & Hov).
  - by vm_compute.
  - by vm_compute.
  - exists 0. apply demo_run; [lia|by vm_compute].
  - by vm_compute.
  - exists start, s1, s2. split; [exact E1|]. split; [exact E2|]. exact Hov.
Defined.
