(* ===== verification/KernelHeap.v ===== *)
(** * The kernel's heap: slob.c's, inside the whole kernel state *)
From S2P Require Import Prelude Machine Regions Heap Pmm Slob SlobProofs Kstate.

Definition k_malloc (n : Z) : M kernel Z := in_slob (malloc n).

Lemma smem_kernel (s : kernel) : smem s = smem (k_slob s).
Proof. done. Qed.

#[export] Program Instance kernel_heap : Heap kernel := {|
  h_malloc := k_malloc; heap live s := slob_heap live (k_slob s) |}.
Next Obligation. intros live s H. by apply (heap_live (St := slob)). Qed.
Next Obligation. intros live s mach (ns & H) ??. exists ns. by apply (slob_heap_frame ns live (k_slob s)). Qed.
Next Obligation.
  intros live s n H Hn Hn'.
  destruct (@malloc_ok slob _ slob_heap_instance live (k_slob s) n H Hn Hn') as (p & t & E & Hc & Hs).
  exists p, (set_k_slob t s). unfold k_malloc, in_slob, zoom.
  change (malloc n (k_slob s) = Ret p t) in E. by rewrite E.
Qed.

(** ** malloc inside the kernel *)

Lemma k_malloc_ok s ns live size n ns' :
  slob_heap_ns ns live (k_slob s) -> 0 <= size -> size + 8 < 2 ^ 64 -> first_fit (size + 8) ns = Some (n, ns') ->
  let hhdm := vmm_higher_half_offset (slob_pmm (k_slob s)) in
  let s' := set_mem (taken hhdm n (size + 8) (smem s)) s in
  k_malloc size s = Ret (nd_base n + hhdm + 8) s' /\
  slob_heap_ns ns' ((nd_base n + hhdm + 8, size) :: live) (k_slob s') /\
  (forall x, cover x (slob_blocks hhdm ns live) = 0%nat \/ (1 <= cover x (with_header <$> live))%nat ->
     smem s' !! x = smem s !! x) /\
  (forall x, cover x (slob_blocks hhdm ns' ((nd_base n + hhdm + 8, size) :: live)) = cover x (slob_blocks hhdm ns live)).
Proof.
  intros H Hs Hs' Ef hhdm s'. destruct (first_fit_Some _ _ _ _ Ef) as (pre & post & E & E' & Hle & _).
  split_and!.
  - unfold k_malloc, in_slob, zoom, malloc. rewrite (slob_malloc_init_eq _ _ (sh_init _ _ _ H)).
    rewrite (slob_search_ok ns live (k_slob s) H size Hs Hs'), Ef. reflexivity.
  - exact (slob_taken_heap ns live (k_slob s) H size n ns' Hs Ef).
  - intros x Hx. unfold s'. rewrite smem_set_mem. change (smem s) with (smem (k_slob s)).
    destruct Hx as [Hx|Hx]; [|by apply (slob_taken_live ns live (k_slob s) H size n ns' Hs Ef)].
    apply taken_outside; [lia| |]; intros Hin.
    + pose proof (cover_in x _ _ (node_cell_in hhdm n ns live ltac:(rewrite E; apply elem_of_app; right; left)) Hin). lia.
    + pose proof (cover_in x _ _ (node_free_in hhdm n ns live ltac:(rewrite E; apply elem_of_app; right; left)) Hin). lia.
  - intros x. rewrite E', E. by apply taken_blocks_cover.
Qed.
