(* ===== verification/Acpi.v ===== *)
(** * acpi.c: finding the tables and walking the MADT

    The firmware's tables are bytes of memory in the direct map. *)
From S2P Require Import Prelude Machine Str Pmm Slob Kstate.

Definition ICS_ID_IO_APIC : Z := 1.
Definition ICS_ID_ISO : Z := 2.
Definition IOAPIC_LIST_LEN : nat := 32.
Definition ISO_LIST_LEN : nat := 128.

(** Offsets in the packed structs. *)
Definition sizeof_madt : Z := 44.
Definition off_sysdesc_length : Z := 4.
Definition off_ioapic_id : Z := 2.
Definition off_ioapic_addr : Z := 4.
Definition off_gsi_base : Z := 8.
Definition off_iso_irq_source : Z := 3.
Definition off_iso_gsi : Z := 4.
Definition off_iso_flags : Z := 8.
Definition off_mcfg_mmio_base : Z := 44.
Definition off_mcfg_segment : Z := 52.
Definition off_mcfg_start : Z := 54.
Definition off_mcfg_end : Z := 55.
Definition off_rsdp_revision : Z := 15.
Definition off_rsdp_rsdt_addr : Z := 16.
Definition off_rsdp_xsdt_addr : Z := 24.
Definition off_sdt_entries : Z := 36.

(** The loop both add functions run: the first NULL slot takes the pointer. *)
Fixpoint add_first_free (p : Z) (l : list Z) : list Z :=
  match l with
  | [] => []
  | x :: l' => if x =? 0 then p :: l' else x :: add_first_free p l'
  end.
Definition has_free (l : list Z) : bool := existsb (Z.eqb 0) l.

Definition add_ioapic (pIOApic : Z) : M kernel unit :=
  mod_acpi (fun a => set_ioapic_list (add_first_free pIOApic (ioapic_list a)) a).

Definition add_iso (pIso : Z) : M kernel unit :=
  l ← gets (fun s => iso_list (k_acpi s));
  if has_free l then
    mod_acpi (set_iso_list (add_first_free pIso l)) ;;
    irq ← load 1 (pIso + off_iso_irq_source);
    gsi ← load 4 (pIso + off_iso_gsi);
    kprintf ("ISO Override: IRQ %d -> GSI %d" +:+ nl) [KNum irq; KNum gsi]
  else mret tt.

(** One round of the walk over the interrupt control structures; the type and
    length fields are (signed) chars. *)
Definition madt_iter (start item : Z) : M kernel (Z + unit) :=
  ty ← load 1 item;
  (if s8 ty =? ICS_ID_IO_APIC then
     add_ioapic item ;;
     id ← load 1 (item + off_ioapic_id);
     kprintf ("IO APIC ID: %d" +:+ nl) [KNum (s8 id)] ;;
     addr ← load 4 (item + off_ioapic_addr);
     kprintf ("IO APIC Addr: 0x%X" +:+ nl) [KNum addr] ;;
     base ← load 4 (item + off_gsi_base);
     kprintf ("IO APIC GSI Base: %d" +:+ nl) [KNum base]
   else if s8 ty =? ICS_ID_ISO then add_iso item
   else mret tt) ;;
  len ← load 1 (item + 1);
  if s8 len <=? 0 then mret (inr tt)
  else
    len ← load 1 (item + 1);
    let item' := item + s8 len in
    p ← gets (fun s => pMadt (k_acpi s));
    total ← load 4 (p + off_sysdesc_length);
    if item' - start <? total then mret (inl item') else mret (inr tt).

Definition _parse_madt (desc : Z) : M kernel unit :=
  mod_acpi (set_pMadt desc) ;;
  kprintf ("Start MADT: 0x%X" +:+ nl) [KNum desc] ;;
  len ← load 4 (desc + off_sysdesc_length);
  kprintf ("MADT Length: %d" +:+ nl) [KNum (s32 len)] ;;
  let pICLStart := desc + sizeof_madt in
  fuel ← gets mem_fuel;
  loop fuel (madt_iter pICLStart) pICLStart.

(** memcmp(p, "...", 4) == 0 for a string literal. *)
Fixpoint matches (p : Z) (l : list Z) : M kernel bool :=
  match l with
  | [] => mret true
  | c :: l' =>
      b ← load 1 p;
      if b =? c then matches (p + 1) l' else mret false
  end.
Definition sig_HPET : list Z := [72; 80; 69; 84].
Definition sig_APIC : list Z := [65; 80; 73; 67].
Definition sig_MCFG : list Z := [77; 67; 70; 71].

(** The MCFG: the pointer is kept and its first entry reported. *)
Definition acpi_mcfg (desc : Z) : M kernel unit :=
  mod_acpi (set_mcfg desc) ;;
  b ← load 8 (desc + off_mcfg_mmio_base);
  kprintf ("BAR: 0x%X" +:+ nl) [KNum b] ;;
  g ← load 2 (desc + off_mcfg_segment);
  kprintf ("Segment: %d" +:+ nl) [KNum g] ;;
  st ← load 1 (desc + off_mcfg_start);
  kprintf ("Start: %d" +:+ nl) [KNum st] ;;
  e ← load 1 (desc + off_mcfg_end);
  kprintf ("End: %d" +:+ nl) [KNum e].
Definition report_table (desc : Z) : M kernel unit :=
  c0 ← load 1 desc;
  c1 ← load 1 (desc + 1);
  c2 ← load 1 (desc + 2);
  c3 ← load 1 (desc + 3);
  kprintf ("Found ACPI Table: %c%c%c%c" +:+ nl) [KNum (s8 c0); KNum (s8 c1); KNum (s8 c2); KNum (s8 c3)].
(** What the loop does with the table at [desc]. *)
Definition acpi_table (desc : Z) : M kernel unit :=
  is_hpet ← matches desc sig_HPET;
  if (is_hpet : bool) then mod_acpi (set_hpet desc)
  else
    is_apic ← matches desc sig_APIC;
    if (is_apic : bool) then _parse_madt desc
    else
      is_mcfg ← matches desc sig_MCFG;
      (if (is_mcfg : bool) then acpi_mcfg desc else mret tt) ;;
      report_table desc.
(** The body of the loop over the root table's entries. *)
Definition acpi_entry (xsdt_enabled : bool) (i : Z) : M kernel unit :=
  hhdm ← vmm_offset;
  a ← (if xsdt_enabled then
         x ← gets (fun s => xsdt (k_acpi s)); load 8 (x + off_sdt_entries + 8 * i)
       else
         r ← gets (fun s => rsdt (k_acpi s)); load 4 (r + off_sdt_entries + 4 * i));
  acpi_table (a +64 hhdm).

(** The argument is the boot loader's answer to [rsdp_request]. *)
Definition acpi_init (rsdp_address : Z) : M kernel unit :=
  kprintf ("Initialzing ACPI..." +:+ nl) [] ;;
  mod_acpi (set_rsdp rsdp_address) ;;
  r ← gets (fun s => rsdp (k_acpi s));
  revision ← load 1 (r + off_rsdp_revision);
  kprintf ("RSDP Revision: %d" +:+ nl) [KNum revision] ;;
  hhdm ← vmm_offset;
  let xsdt_enabled := 2 <=? revision in
  (if xsdt_enabled then
     a ← load 8 (r + off_rsdp_xsdt_addr);
     mod_acpi (set_xsdt (a +64 hhdm)) ;;
     len ← load 4 ((a +64 hhdm) + off_sysdesc_length);
     mod_acpi (set_entry_size ((len -32 36) `div` 8))
   else
     a ← load 4 (r + off_rsdp_rsdt_addr);
     mod_acpi (set_rsdt (a +64 hhdm)) ;;
     len ← load 4 ((a +64 hhdm) + off_sysdesc_length);
     mod_acpi (set_entry_size ((len -32 36) `div` 4))) ;;
  n ← gets (fun s => entry_size (k_acpi s));
  kprintf ("Entry Size: %d" +:+ nl) [KNum n] ;;
  for_range 0 n (acpi_entry xsdt_enabled) ;;
  m ← gets (fun s => mcfg (k_acpi s));
  if m =? 0 then
    kprintf ("MCFG table not found - MMIO support for PCI not found - quitting." +:+ nl) [] ;;
    hcf
  else kprintf ("ACPI initialized." +:+ nl) [].
