(* ===== verification/AcpiProps.v ===== *)
(** * acpi.c: the properties of the walk over the MADT *)
From S2P Require Import Prelude Machine Str StrProofs StrFormat Pmm Slob Kstate VmProps Poll Acpi.

Lemma region_size a n m : 0 <= n -> region a n m -> (Z.to_nat n <= size m)%nat.
Proof.
  intros Hn Hr. pose proof (keys_le_size (seqZ a n) m) as Hk. rewrite length_seqZ in Hk. apply Hk.
  - apply NoDup_seqZ.
  - intros k Hin. apply Hr, elem_of_seqZ, Hin.
Qed.

(** ** Signatures *)

Definition bytes_at (m : memory) (p : Z) (n : nat) : list Z := (fun i => rd 1 (p + Z.of_nat i) m) <$> seq 0 n.

Lemma bytes_at_S m p n : bytes_at m p (S n) = rd 1 p m :: bytes_at m (p + 1) n.
Proof.
  unfold bytes_at. cbn [seq fmap list_fmap]. rewrite Z.add_0_r. f_equal. rewrite <- seq_shift, <- list_fmap_compose.
  apply list_fmap_ext. intros _ i _. cbn. f_equal. lia.
Qed.

Lemma matches_ok l : forall p s, region p (Z.of_nat (length l)) (smem s) ->
  matches p l s = Ret (bool_decide (bytes_at (smem s) p (length l) = l)) s.
Proof.
  induction l as [|c l IH]; intros p s Hr; [by rewrite bool_decide_true|]. cbn [length matches] in *.
  rewrite (bind_ret_eq _ _ _ (rd 1 p (smem s)) s) by (apply load_ok; apply (region_sub _ _ _ _ _ Hr); lia).
  rewrite bytes_at_S. destruct (Z.eqb_spec (rd 1 p (smem s)) c) as [E|E].
  - rewrite IH by (apply (region_sub _ _ _ _ _ Hr); lia). f_equal. apply bool_decide_ext. split; congruence.
  - rewrite bool_decide_false; [done|]. congruence.
Qed.

(** ** Filling the pointer arrays *)

Definition add_all (ps l : list Z) : list Z := foldl (fun l p => add_first_free p l) l ps.

Lemma add_first_free_full p l : has_free l = false -> add_first_free p l = l.
Proof.
  induction l as [|x l IH]; [done|]. cbn [has_free existsb add_first_free].
  intros [Hx Hl]%orb_false_iff. rewrite Z.eqb_sym, Hx. f_equal. by apply IH.
Qed.

Lemma add_first_free_app p qs n :
  Forall (fun q => q <> 0) qs -> add_first_free p (qs ++ replicate (S n) 0) = (qs ++ [p]) ++ replicate n 0.
Proof.
  intros Hq. induction Hq as [|q qs Hq _ IH]; [done|]. cbn [app add_first_free].
  rewrite (proj2 (Z.eqb_neq q 0)) by done. f_equal. exact IH.
Qed.

(** An array of NULLs takes the pointers in order, as long as they fit. *)
Lemma add_all_replicate ps : forall qs n, Forall (fun q => q <> 0) (qs ++ ps) -> (length ps <= n)%nat ->
  add_all ps (qs ++ replicate n 0) = qs ++ ps ++ replicate (n - length ps) 0.
Proof.
  induction ps as [|p ps IH]; intros qs n Hz Hn; cbn [add_all foldl length] in *.
  - by rewrite Nat.sub_0_r.
  - destruct n as [|n]; [lia|]. pose proof Hz as [Hq Hp]%Forall_app.
    rewrite add_first_free_app by done. fold (add_all ps ((qs ++ [p]) ++ replicate n 0)).
    rewrite IH; [by rewrite <- app_assoc| |lia]. by rewrite <- app_assoc.
Qed.

(** ** The structures in memory *)

(** Interrupt control structures at the addresses [its], one after the other
    from [a] up to [z], each with a length between 1 and 127. *)
Fixpoint madt_items (m : memory) (a : Z) (its : list Z) (z : Z) : Prop :=
  match its with
  | [] => a = z
  | p :: its' => p = a /\ 1 <= rd 1 (a + 1) m <= 127 /\ madt_items m (a + rd 1 (a + 1) m) its' z
  end.
Definition of_type (m : memory) (ty : Z) (its : list Z) : list Z := filter (fun p => rd 1 p m = ty) its.

Lemma of_type_cons m ty p its :
  of_type m ty (p :: its) = if rd 1 p m =? ty then p :: of_type m ty its else of_type m ty its.
Proof.
  unfold of_type. rewrite (filter_cons (fun p => rd 1 p m = ty)).
  case_decide as D; [by rewrite (proj2 (Z.eqb_eq _ _) D)|by rewrite (proj2 (Z.eqb_neq _ _) D)].
Qed.
Lemma madt_items_count m a its z b :
  madt_items m a its z -> Forall (fun p => p < b) its -> a <= b -> Z.of_nat (length its) <= b - a.
Proof.
  revert a. induction its as [|p its IH]; intros a; cbn [madt_items length]; [lia|].
  intros (-> & Hl & H1) [Hp Hf]%Forall_cons Hab.
  destruct its as [|p2 its]; [cbn; lia|]. pose proof H1 as (-> & _). pose proof Hf as [Hp2 _]%Forall_cons.
  specialize (IH _ H1 Hf). lia.
Qed.

Lemma madt_items_app m a its1 b its2 z :
  madt_items m a its1 b -> madt_items m b its2 z -> madt_items m a (its1 ++ its2) z.
Proof.
  revert a. induction its1 as [|p its1 IH]; intros a; cbn [madt_items app]; [by intros ->|].
  intros (-> & Hl & H1) H2. split; [done|]. split; [done|]. by apply IH.
Qed.
Lemma madt_items_bounds m a its z : madt_items m a its z ->
  a + Z.of_nat (length its) <= z /\ Forall (fun p => a <= p < z) its.
Proof.
  revert a. induction its as [|p its IH]; intros a; cbn [madt_items length].
  - intros ->. split; [lia|done].
  - intros (-> & Hl & H1). destruct (IH _ H1) as [Hb Hf]. split; [lia|].
    apply Forall_cons. split; [lia|]. eapply Forall_impl; [exact Hf|]. cbn. lia.
Qed.

Lemma s8_type ty : 0 <= ty < 256 -> (s8 ty =? 1) = (ty =? 1) /\ (s8 ty =? 2) = (ty =? 2).
Proof. intros H. split; apply eq_true_iff_eq; rewrite !Z.eqb_eq; clear - H; word_lia. Qed.
Lemma s8_small v : 0 <= v <= 127 -> s8 v = v.
Proof. clear. word_lia. Qed.

Section walk.
Context (s : kernel) (desc total : Z).
Let start := desc + sizeof_madt.
Context (Hmadt : pMadt (k_acpi s) = desc) (Htotal : rd 4 (desc + off_sysdesc_length) (smem s) = total).
Context (slack : Z) (Hslack : 60 <= slack) (Hregion : region desc (total + slack) (smem s)).

(** The state during the walk: the two arrays and the log have changed. *)
Definition walking (li ls : list Z) (lg : list log_entry) : kernel :=
  set_k_acpi (set_ioapic_list li (set_iso_list ls (k_acpi s))) (logged lg s).

Lemma walking_load n a li ls lg :
  desc <= a -> a + Z.of_nat n <= desc + total + slack ->
  load n a (walking li ls lg) = Ret (rd n a (smem s)) (walking li ls lg).
Proof.
  intros H1 H2. change (rd n a (smem s)) with (rd n a (smem (walking li ls lg))). apply load_ok.
  change (region a (Z.of_nat n) (smem s)).
  apply (region_sub _ _ _ _ _ Hregion); lia.
Qed.

Lemma add_iso_ok item li ls lg :
  desc <= item -> item + 12 <= desc + total + slack ->
  exists lg', add_iso item (walking li ls lg) = Ret tt (walking li (add_first_free item ls) lg').
Proof.
  intros H1 H2. unfold add_iso. erewrite bind_ret_eq; [|reflexivity].
  change (iso_list (k_acpi (walking li ls lg))) with ls. unfold off_iso_irq_source, off_iso_gsi.
  destruct (has_free ls) eqn:Ef; [|exists lg; by rewrite add_first_free_full].
  rewrite (bind_ret_eq _ _ _ tt (walking li (add_first_free item ls) lg)) by done.
  rewrite (bind_ret_eq _ _ _ _ _ (walking_load 1 (item + 3) _ _ _ ltac:(lia) ltac:(lia))).
  rewrite (bind_ret_eq _ _ _ _ _ (walking_load 4 (item + 4) _ _ _ ltac:(lia) ltac:(lia))).
  eexists. reflexivity.
Qed.

(** One round on the structure at [item]. *)
Lemma madt_iter_ok item li ls lg :
  start <= item -> item + 12 <= desc + total + slack -> 0 <= rd 1 (item + 1) (smem s) <= 127 ->
  exists lg', madt_iter start item (walking li ls lg) =
    Ret (if (0 <? rd 1 (item + 1) (smem s)) && (item + rd 1 (item + 1) (smem s) - start <? total)
         then inl (item + rd 1 (item + 1) (smem s)) else inr tt)
      (walking (if rd 1 item (smem s) =? ICS_ID_IO_APIC then add_first_free item li else li)
               (if rd 1 item (smem s) =? ICS_ID_ISO then add_first_free item ls else ls) lg').
Proof.
  intros H1 H2 Hl. unfold start, sizeof_madt in *. unfold madt_iter.
  rewrite (bind_ret_eq _ _ _ _ _ (walking_load 1 item _ _ _ ltac:(lia) ltac:(lia))).
  destruct (s8_type (rd 1 item (smem s)) (rd_range 1 item (smem s))) as [E1 E2].
  unfold ICS_ID_IO_APIC, ICS_ID_ISO in *. rewrite E1, E2.
  assert (Hbody : exists lg', (if rd 1 item (smem s) =? 1 then
     add_ioapic item ;;
     id ← load 1 (item + off_ioapic_id);
     kprintf ("IO APIC ID: %d" +:+ nl) [KNum (s8 id)] ;;
     addr ← load 4 (item + off_ioapic_addr);
     kprintf ("IO APIC Addr: 0x%X" +:+ nl) [KNum addr] ;;
     base ← load 4 (item + off_gsi_base);
     kprintf ("IO APIC GSI Base: %d" +:+ nl) [KNum base]
   else if rd 1 item (smem s) =? 2 then add_iso item else mret tt) (walking li ls lg) =
     Ret tt (walking (if rd 1 item (smem s) =? 1 then add_first_free item li else li)
               (if rd 1 item (smem s) =? 2 then add_first_free item ls else ls) lg')).
  { destruct (Z.eqb_spec (rd 1 item (smem s)) 1) as [->|_].
    - cbn [Z.eqb Pos.eqb]. unfold off_ioapic_id, off_ioapic_addr, off_gsi_base.
      rewrite (bind_ret_eq _ _ _ tt (walking (add_first_free item li) ls lg)) by done.
      rewrite (bind_ret_eq _ _ _ _ _ (walking_load 1 (item + 2) _ _ _ ltac:(lia) ltac:(lia))).
      erewrite bind_ret_eq; [|reflexivity].
      lazymatch goal with |- context [(load 4 _ ≫= _) (set_mach (Machine _ ?l) _)] =>
        change (set_mach (Machine _ l) _) with (walking (add_first_free item li) ls l) end.
      rewrite (bind_ret_eq _ _ _ _ _ (walking_load 4 (item + 4) _ _ _ ltac:(lia) ltac:(lia))).
      erewrite bind_ret_eq; [|reflexivity].
      lazymatch goal with |- context [(load 4 _ ≫= _) (set_mach (Machine _ ?l) _)] =>
        change (set_mach (Machine _ l) _) with (walking (add_first_free item li) ls l) end.
      rewrite (bind_ret_eq _ _ _ _ _ (walking_load 4 (item + 8) _ _ _ ltac:(lia) ltac:(lia))).
      eexists. reflexivity.
    - destruct (rd 1 item (smem s) =? 2); [apply add_iso_ok; lia|by exists lg]. }
  destruct Hbody as [lg' Hb]. exists lg'. rewrite (bind_ret_eq _ _ _ _ _ Hb).
  rewrite (bind_ret_eq _ _ _ _ _ (walking_load 1 (item + 1) _ _ _ ltac:(lia) ltac:(lia))), s8_small by done.
  destruct (Z.ltb_spec 0 (rd 1 (item + 1) (smem s))), (Z.leb_spec (rd 1 (item + 1) (smem s)) 0); try lia; [|done].
  rewrite (bind_ret_eq _ _ _ _ _ (walking_load 1 (item + 1) _ _ _ ltac:(lia) ltac:(lia))), s8_small by done.
  erewrite bind_ret_eq; [|reflexivity]. change (pMadt (k_acpi (walking _ _ _))) with (pMadt (k_acpi s)).
  rewrite Hmadt. unfold off_sysdesc_length in *.
  pose proof (rd_range 4 (desc + 4) (smem s)) as Hrg.
  rewrite (bind_ret_eq _ _ _ _ _ (walking_load 4 (desc + 4) _ _ _ ltac:(lia) ltac:(lia))), Htotal.
  cbn [andb]. by destruct (_ <? total).
Qed.

(** The walk ends at [z]: past the bound, or on a zero length. *)
Definition walk_ends (m : memory) (its : list Z) (z : Z) : Prop :=
  (its <> [] /\ total <= z - start) \/
  (z - start < total /\ rd 1 (z + 1) m = 0 /\
   rd 1 z m <> ICS_ID_IO_APIC /\ rd 1 z m <> ICS_ID_ISO).

Lemma madt_loop_ok its : forall fuel a z li ls lg,
  madt_items (smem s) a its z -> start <= a -> Forall (fun p => p - start < total) its ->
  walk_ends (smem s) its z -> (length its < fuel)%nat ->
  exists lg', loop fuel (madt_iter start) a (walking li ls lg) =
    Ret tt (walking (add_all (of_type (smem s) ICS_ID_IO_APIC its) li)
                    (add_all (of_type (smem s) ICS_ID_ISO its) ls) lg').
Proof.
  assert (Hroom : forall a, start <= a -> a - start < total -> a + 12 <= desc + total + slack)
    by (unfold start, sizeof_madt; lia).
  induction its as [|p its IH]; intros [|fuel] a z li ls lg Hits Ha Hin Hend Hf; cbn [length] in Hf; try lia.
  - cbn [madt_items] in Hits. subst z. destruct Hend as [[? _]|(Hz & H0 & H1 & H2)]; [done|].
    destruct (madt_iter_ok a li ls lg Ha (Hroom a Ha Hz) ltac:(lia)) as [lg' E].
    exists lg'. rewrite loop_S, (bind_ret_eq _ _ _ _ _ E), H0.
    rewrite (proj2 (Z.eqb_neq _ _) H1), (proj2 (Z.eqb_neq _ _) H2). done.
  - destruct Hits as (-> & Hl & Hits). apply Forall_cons in Hin as [Hp Hin].
    destruct (madt_iter_ok a li ls lg Ha (Hroom a Ha Hp) ltac:(lia)) as [lg1 E].
    rewrite loop_S, (bind_ret_eq _ _ _ _ _ E). clear E.
    set (li1 := if rd 1 a (smem s) =? ICS_ID_IO_APIC then add_first_free a li else li).
    set (ls1 := if rd 1 a (smem s) =? ICS_ID_ISO then add_first_free a ls else ls).
    assert (Hli : add_all (of_type (smem s) ICS_ID_IO_APIC (a :: its)) li =
                  add_all (of_type (smem s) ICS_ID_IO_APIC its) li1).
    { unfold li1. rewrite of_type_cons. by case_match. }
    assert (Hls : add_all (of_type (smem s) ICS_ID_ISO (a :: its)) ls =
                  add_all (of_type (smem s) ICS_ID_ISO its) ls1).
    { unfold ls1. rewrite of_type_cons. by case_match. }
    rewrite Hli, Hls. rewrite (proj2 (Z.ltb_lt 0 _)) by lia. cbn [andb].
    destruct (Z.ltb_spec (a + rd 1 (a + 1) (smem s) - start) total) as [Hlt|Hge].
    + apply (IH fuel _ z); [done|lia|done| |lia].
      destruct Hend as [[_ Hz]|Hz]; [|by right]. left. split; [|done]. intros ->.
      cbn [madt_items] in Hits. lia.
    + destruct its as [|p2 its]; [by exists lg1|].
      destruct Hits as (-> & _). apply Forall_cons in Hin as [Hp2 _]. lia.
Qed.
End walk.

(** A well-formed MADT at [desc] with the structures [its]. *)
Record madt_ok (m : memory) (desc : Z) (its : list Z) (z : Z) : Prop := {
  mo_total : sizeof_madt <= rd 4 (desc + off_sysdesc_length) m < 2 ^ 31;
  mo_desc : 0 < desc;
  mo_region : region desc (rd 4 (desc + off_sysdesc_length) m + 60) m;
  mo_items : madt_items m (desc + sizeof_madt) its z;
  mo_in : Forall (fun p => p - (desc + sizeof_madt) < rd 4 (desc + off_sysdesc_length) m) its;
  mo_end : walk_ends desc (rd 4 (desc + off_sysdesc_length) m) m its z
}.

(** What _parse_madt leaves: the pointers put into the arrays in order. *)
Lemma parse_madt_walk desc its z s : madt_ok (smem s) desc its z ->
  exists lg, _parse_madt desc s = Ret tt
    (set_k_acpi (set_ioapic_list (add_all (of_type (smem s) ICS_ID_IO_APIC its) (ioapic_list (k_acpi s)))
      (set_iso_list (add_all (of_type (smem s) ICS_ID_ISO its) (iso_list (k_acpi s))) (set_pMadt desc (k_acpi s)))) (logged lg s)).
Proof.
  intros [Hrange Hd Hr Hits Hin Hend]. set (total := rd 4 (desc + off_sysdesc_length) (smem s)) in *.
  assert (Ht : rd 4 (desc + off_sysdesc_length) (smem s) = total) by done.
  unfold sizeof_madt, off_sysdesc_length in *.
  unfold _parse_madt. erewrite bind_ret_eq; [|reflexivity]. erewrite bind_ret_eq; [|reflexivity].
  lazymatch goal with |- context [(load _ _ ≫= _) ?t] => set (s1 := t) end.
  erewrite bind_ret_eq; [|apply load_ok].
  2: { change (region (desc + off_sysdesc_length) (Z.of_nat 4) (smem s)). unfold off_sysdesc_length. mregion. }
  cbv zeta. erewrite bind_ret_eq; [|reflexivity]. erewrite bind_ret_eq; [|reflexivity].
  lazymatch goal with |- context [loop _ _ _ ?t] => set (s2 := t) end.
  destruct (madt_loop_ok s2 desc total eq_refl Ht 60 ltac:(lia) Hr its (mem_fuel s2) (desc + sizeof_madt) z
    (ioapic_list (k_acpi s)) (iso_list (k_acpi s)) (klog (get_mach s2))) as [lg E];
    [exact Hits|unfold sizeof_madt; lia|exact Hin|exact Hend| |].
  { pose proof (madt_items_count _ _ _ _ (desc + 44 + total) Hits) as Hc.
    pose proof (region_size desc (total + 60) (smem s2) ltac:(lia) Hr). unfold mem_fuel.
    assert (Hlt : Forall (fun p => p < desc + 44 + total) its) by (eapply Forall_impl; [exact Hin|cbn; lia]).
    specialize (Hc Hlt). lia. }
  assert (Es : walking s2 (ioapic_list (k_acpi s)) (iso_list (k_acpi s)) (klog (get_mach s2)) = s2).
  { unfold walking. change (k_acpi s2) with (set_pMadt desc (k_acpi s)).
    unfold s2. by destruct s as [[[[]]] ? ? ? [] ]. }
  rewrite Es in E. exists lg. exact E.
Qed.

(** From empty arrays. *)
Lemma parse_madt_ok desc its z s :
  madt_ok (smem s) desc its z ->
  ioapic_list (k_acpi s) = replicate IOAPIC_LIST_LEN 0 -> iso_list (k_acpi s) = replicate ISO_LIST_LEN 0 ->
  let ioapics := of_type (smem s) ICS_ID_IO_APIC its in
  let isos := of_type (smem s) ICS_ID_ISO its in
  (length ioapics <= IOAPIC_LIST_LEN)%nat -> (length isos <= ISO_LIST_LEN)%nat ->
  exists s', _parse_madt desc s = Ret tt s' /\ pMadt (k_acpi s') = desc /\ smem s' = smem s /\
    ioapic_list (k_acpi s') = ioapics ++ replicate (IOAPIC_LIST_LEN - length ioapics) 0 /\
    iso_list (k_acpi s') = isos ++ replicate (ISO_LIST_LEN - length isos) 0.
Proof.
  intros Hok Hli Hls ioapics isos Hn1 Hn2. destruct (parse_madt_walk desc its z s Hok) as [lg E].
  rewrite Hli, Hls in E. eexists. split; [exact E|]. split; [done|]. split; [done|].
  pose proof (mo_desc _ _ _ _ Hok). pose proof (madt_items_bounds _ _ _ _ (mo_items _ _ _ _ Hok)) as [_ Hb].
  assert (Hnz : forall ty, Forall (fun q => q <> 0) ([] ++ of_type (smem s) ty its)).
  { intros ty. cbn [app]. apply Forall_forall. intros q [_ Hq]%list_elem_of_filter.
    rewrite Forall_forall in Hb. specialize (Hb q Hq). unfold sizeof_madt in *. lia. }
  pose proof (add_all_replicate _ [] IOAPIC_LIST_LEN (Hnz ICS_ID_IO_APIC) Hn1) as H1.
  pose proof (add_all_replicate _ [] ISO_LIST_LEN (Hnz ICS_ID_ISO) Hn2) as H2. by split.
Qed.

(** C20: the MADT walk finds what the firmware lists. For a table of the length
    in its header, filled with interrupt control structures, where the two
    bytes after the table are no type of interest and a zero length, _parse_madt
    terminates; every I/O APIC and every interrupt source override is in its
    array, in the order of the table, all other slots stay NULL, and memory is
    unchanged. *)
Theorem madt_registers_items desc its s :
  let total := rd 4 (desc + off_sysdesc_length) (smem s) in
  let ioapics := of_type (smem s) ICS_ID_IO_APIC its in
  let isos := of_type (smem s) ICS_ID_ISO its in
  sizeof_madt < total < 2 ^ 31 -> 0 < desc -> region desc (total + 60) (smem s) ->
  madt_items (smem s) (desc + sizeof_madt) its (desc + total) ->
  rd 1 (desc + total) (smem s) <> ICS_ID_IO_APIC -> rd 1 (desc + total) (smem s) <> ICS_ID_ISO ->
  rd 1 (desc + total + 1) (smem s) = 0 ->
  ioapic_list (k_acpi s) = replicate IOAPIC_LIST_LEN 0 -> iso_list (k_acpi s) = replicate ISO_LIST_LEN 0 ->
  (length ioapics <= IOAPIC_LIST_LEN)%nat -> (length isos <= ISO_LIST_LEN)%nat ->
  exists s', _parse_madt desc s = Ret tt s' /\ pMadt (k_acpi s') = desc /\ smem s' = smem s /\
    ioapic_list (k_acpi s') = ioapics ++ replicate (IOAPIC_LIST_LEN - length ioapics) 0 /\
    iso_list (k_acpi s') = isos ++ replicate (ISO_LIST_LEN - length isos) 0.
Proof.
  intros total ioapics isos Ht Hd Hr Hits Ht1 Ht2 Hz Hli Hls.
  pose proof (madt_items_bounds _ _ _ _ Hits) as [_ Hb].
  apply (parse_madt_ok desc its (desc + total)); [|done|done].
  split; fold total; try done; [lia|..].
  - eapply Forall_impl; [exact Hb|]. unfold sizeof_madt. cbn. lia.
  - right. unfold sizeof_madt. split_and!; [lia|done|done|done].
Qed.

(** C39: the walk does not stop at the end of the table. It compares the
    distance from the first structure with the length of the whole table, so
    whatever structures the 44 bytes after the table seem to hold are walked
    too: an "I/O APIC" or "override" lying there is registered behind those of
    the table. *)
Theorem madt_walk_overruns desc its stray z s :
  let total := rd 4 (desc + off_sysdesc_length) (smem s) in
  let ioapics := of_type (smem s) ICS_ID_IO_APIC (its ++ stray) in
  let isos := of_type (smem s) ICS_ID_ISO (its ++ stray) in
  sizeof_madt <= total < 2 ^ 31 -> 0 < desc -> region desc (total + 60) (smem s) ->
  madt_items (smem s) (desc + sizeof_madt) its (desc + total) ->
  madt_items (smem s) (desc + total) stray z -> stray <> [] ->
  Forall (fun p => p < desc + total + sizeof_madt) stray -> desc + total + sizeof_madt <= z ->
  ioapic_list (k_acpi s) = replicate IOAPIC_LIST_LEN 0 -> iso_list (k_acpi s) = replicate ISO_LIST_LEN 0 ->
  (length ioapics <= IOAPIC_LIST_LEN)%nat -> (length isos <= ISO_LIST_LEN)%nat ->
  exists s', _parse_madt desc s = Ret tt s' /\
    ioapic_list (k_acpi s') = ioapics ++ replicate (IOAPIC_LIST_LEN - length ioapics) 0 /\
    iso_list (k_acpi s') = isos ++ replicate (ISO_LIST_LEN - length isos) 0.
Proof.
  intros total ioapics isos Ht Hd Hr Hits Hstray Hne Hin Hz Hli Hls Hn1 Hn2.
  pose proof (madt_items_bounds _ _ _ _ Hits) as [_ Hb].
  destruct (parse_madt_ok desc (its ++ stray) z s) as (s' & E & _ & _ & H1 & H2); [|done..|by exists s'].
  split; fold total; [done|done|done|by eapply madt_items_app|..].
  - apply Forall_app. unfold sizeof_madt in *. split; [eapply Forall_impl; [exact Hb|]|eapply Forall_impl; [exact Hin|]]; cbn; lia.
  - left. unfold sizeof_madt in *. split; [by destruct its|lia].
Qed.

(** A table at 64 of 56 bytes: the header and one I/O APIC at 108; [after] is
    the length byte and [ty] the type of what follows it, at 120. *)
Definition madt_mem (ty after : Z) : memory :=
  wr 1 120 ty (wr 1 121 after (wr 1 109 12 (wr 1 108 1 (wr 4 68 56 (zeros 64 116))))).
Definition madt_kernel (m : memory) : kernel :=
  set_k_acpi (AcpiGlobals 0 0 0 0 0 0 0 (replicate IOAPIC_LIST_LEN 0) (replicate ISO_LIST_LEN 0))
    (kernel_at m (2 ^ 47) 0 40).
Lemma madt_mem_region ty after : region 64 116 (madt_mem ty after).
Proof. unfold madt_mem. do 5 apply region_wr. apply region_zeros. Qed.

Lemma madt_registers_items_witness :
  exists s', _parse_madt 64 (madt_kernel (madt_mem 0 0)) = Ret tt s' /\
    take 2 (ioapic_list (k_acpi s')) = [108; 0].
Proof.
  assert (Ht : rd 4 68 (madt_mem 0 0) = 56) by (by vm_compute).
  assert (Hl : rd 1 109 (madt_mem 0 0) = 12) by (by vm_compute).
  assert (Hty : rd 1 108 (madt_mem 0 0) = 1) by (by vm_compute).
  assert (He : rd 1 120 (madt_mem 0 0) = 0 /\ rd 1 121 (madt_mem 0 0) = 0) by (split; vm_compute; reflexivity).
  pose proof (madt_mem_region 0 0) as Hr. revert Ht Hl Hty He Hr. generalize (madt_mem 0 0).
  intros m Ht Hl Hty [He1 He2] Hr.
  assert (Hf1 : of_type m ICS_ID_IO_APIC [108] = [108]) by (rewrite of_type_cons, Hty; done).
  assert (Hf2 : of_type m ICS_ID_ISO [108] = []) by (rewrite of_type_cons, Hty; done).
  destruct (madt_registers_items 64 [108] (madt_kernel m)) as (s' & E & _ & _ & Hli & _);
    change (smem (madt_kernel m)) with m in *; change (64 + off_sysdesc_length) with 68 in *;
    rewrite ?Ht, ?Hf1, ?Hf2; try done.
  - cbn [madt_items]. change (64 + sizeof_madt + 1) with 109. rewrite Hl. done.
  - change (64 + 56) with 120. by rewrite He1.
  - change (64 + 56) with 120. by rewrite He1.
  - unfold IOAPIC_LIST_LEN. cbn. lia.
  - unfold ISO_LIST_LEN. cbn. lia.
  - exists s'. split; [exact E|]. rewrite Hli, Hf1. done.
Defined.

Lemma madt_walk_overruns_witness :
  exists s', _parse_madt 64 (madt_kernel (madt_mem 1 50)) = Ret tt s' /\
    take 3 (ioapic_list (k_acpi s')) = [108; 120; 0].
Proof.
  assert (Ht : rd 4 68 (madt_mem 1 50) = 56) by (by vm_compute).
  assert (Hl : rd 1 109 (madt_mem 1 50) = 12) by (by vm_compute).
  assert (Hty : rd 1 108 (madt_mem 1 50) = 1) by (by vm_compute).
  assert (He : rd 1 120 (madt_mem 1 50) = 1 /\ rd 1 121 (madt_mem 1 50) = 50) by (split; vm_compute; reflexivity).
  pose proof (madt_mem_region 1 50) as Hr. revert Ht Hl Hty He Hr. generalize (madt_mem 1 50).
  intros m Ht Hl Hty [He1 He2] Hr.
  assert (Hf1 : of_type m ICS_ID_IO_APIC ([108] ++ [120]) = [108; 120])
    by (cbn [app]; rewrite !of_type_cons, Hty, He1; done).
  assert (Hf2 : of_type m ICS_ID_ISO ([108] ++ [120]) = [])
    by (cbn [app]; rewrite !of_type_cons, Hty, He1; done).
  destruct (madt_walk_overruns 64 [108] [120] 170 (madt_kernel m)) as (s' & E & Hli & _);
    change (smem (madt_kernel m)) with m in *; change (64 + off_sysdesc_length) with 68 in *;
    rewrite ?Ht, ?Hf1, ?Hf2; try done.
  - cbn [madt_items]. change (64 + sizeof_madt + 1) with 109. rewrite Hl. done.
  - cbn [madt_items]. change (64 + 56 + 1) with 121. rewrite He2. done.
  - apply Forall_singleton. done.
  - unfold IOAPIC_LIST_LEN. cbn. lia.
  - unfold ISO_LIST_LEN. cbn. lia.
  - exists s'. split; [exact E|]. rewrite Hli, Hf1. done.
Defined.
