(* ===== verification/AcpiInit.v ===== *)
(** * acpi.c: acpi_init, from the root pointer to the tables *)
From S2P Require Import Prelude Machine Str StrProofs StrFormat StrProps Pmm Slob Kstate VmProps Poll Acpi AcpiProps.

(** Does the table at [d] have the signature [sig]? *)
Definition has_sig (m : memory) (sig : list Z) (d : Z) : bool := bool_decide (bytes_at m d 4 = sig).
Definition tables_of (m : memory) (sig : list Z) (ds : list Z) : list Z := filter (fun d => has_sig m sig d) ds.

Lemma tables_of_snoc m sig ds d : tables_of m sig (ds ++ [d]) = tables_of m sig ds ++ (if has_sig m sig d then [d] else []).
Proof. unfold tables_of. rewrite filter_app. f_equal. rewrite filter_cons. by destruct (has_sig m sig d). Qed.
Lemma has_sig_one m d s1 s2 : has_sig m s1 d = true -> s1 <> s2 -> has_sig m s2 d = false.
Proof. unfold has_sig. intros E%bool_decide_eq_true Hne. apply bool_decide_eq_false. congruence. Qed.

Section acpi_init.
Context (s : kernel).
Let m := smem s.
Let hhdm := vmm_higher_half_offset (slob_pmm (k_slob s)).

(** The firmware's root structures: the root pointer at [rsdp_address], of
    revision 2 with 64-bit addresses or older with 32-bit ones, its table and
    the addresses [ds] of the tables it lists, in the direct map. *)
Definition wide (rsdp_address : Z) : bool := 2 <=? rd 1 (rsdp_address + off_rsdp_revision) m.
Definition entry_bytes (rsdp_address : Z) : nat := if wide rsdp_address then 8 else 4.
Definition root_at (rsdp_address : Z) : Z :=
  (if wide rsdp_address then rd 8 (rsdp_address + off_rsdp_xsdt_addr) m else rd 4 (rsdp_address + off_rsdp_rsdt_addr) m) +64 hhdm.
Record root_table (rsdp_address : Z) (ds : list Z) : Prop := {
  rt_rsdp : region rsdp_address 32 m;
  rt_region : region (root_at rsdp_address) (36 + Z.of_nat (entry_bytes rsdp_address) * Z.of_nat (length ds)) m;
  rt_length : rd 4 (root_at rsdp_address + off_sysdesc_length) m = 36 + Z.of_nat (entry_bytes rsdp_address) * Z.of_nat (length ds);
  rt_entries : forall i d, ds !! i = Some d ->
    rd (entry_bytes rsdp_address) (root_at rsdp_address + off_sdt_entries + Z.of_nat (entry_bytes rsdp_address) * Z.of_nat i) m +64 hhdm = d
}.

(** A table the loop can read: its signature, for an MCFG the first of its
    entries, for a MADT all its structures, [its d]. *)
Context (its : Z -> list Z).
Record table_ok (d : Z) : Prop := {
  to_sig : region d 4 m;
  to_mcfg : has_sig m sig_MCFG d = true -> region d 56 m;
  to_madt : has_sig m sig_APIC d = true -> exists z, madt_ok m d (its d) z
}.

(** What the loop makes of its globals. *)
Definition acpi_note (a : acpi_globals) (d : Z) : acpi_globals :=
  if has_sig m sig_HPET d then set_hpet d a
  else if has_sig m sig_APIC d then
    set_ioapic_list (add_all (of_type m ICS_ID_IO_APIC (its d)) (ioapic_list a))
      (set_iso_list (add_all (of_type m ICS_ID_ISO (its d)) (iso_list a)) (set_pMadt d a))
  else if has_sig m sig_MCFG d then set_mcfg d a else a.
Definition acpi_at (a : acpi_globals) (lg : list log_entry) : kernel := set_k_acpi a (logged lg s).

Lemma acpi_load n x a lg : region x (Z.of_nat n) m -> load n x (acpi_at a lg) = Ret (rd n x m) (acpi_at a lg).
Proof. intros Hr. exact (load_ok n x (acpi_at a lg) Hr). Qed.
Lemma acpi_matches d sig a lg : length sig = 4%nat -> region d 4 m ->
  matches d sig (acpi_at a lg) = Ret (has_sig m sig d) (acpi_at a lg).
Proof.
  intros Hl Hr. unfold has_sig. rewrite <- Hl. apply (matches_ok sig d (acpi_at a lg)). by rewrite Hl.
Qed.

Lemma report_table_ok d a lg : region d 4 m -> exists lg', report_table d (acpi_at a lg) = Ret tt (acpi_at a lg').
Proof.
  intros Hs. unfold report_table. do 4 (erewrite bind_ret_eq; [|apply acpi_load; apply (region_sub _ _ _ _ _ Hs); lia]).
  eexists. reflexivity.
Qed.
Lemma acpi_logs a lg fmt args {A} (k : unit -> M kernel A) (r : list log_entry -> outcome kernel A) :
  (exists lg', k tt (acpi_at a (Log fmt args :: lg)) = r lg') -> exists lg', (kprintf fmt args ≫= k) (acpi_at a lg) = r lg'.
Proof. done. Qed.
Lemma acpi_mcfg_ok d a lg : region d 56 m -> exists lg', acpi_mcfg d (acpi_at a lg) = Ret tt (acpi_at (set_mcfg d a) lg').
Proof.
  intros Hm. unfold acpi_mcfg, off_mcfg_mmio_base, off_mcfg_segment, off_mcfg_start, off_mcfg_end.
  rewrite (bind_ret_eq _ _ _ tt (acpi_at (set_mcfg d a) lg)) by reflexivity.
  do 3 (erewrite bind_ret_eq; [|apply acpi_load; apply (region_sub _ _ _ _ _ Hm); lia]; apply acpi_logs).
  erewrite bind_ret_eq; [|apply acpi_load; apply (region_sub _ _ _ _ _ Hm); lia]. eexists. reflexivity.
Qed.

Lemma acpi_table_ok d a lg : table_ok d -> exists lg', acpi_table d (acpi_at a lg) = Ret tt (acpi_at (acpi_note a d) lg').
Proof.
  intros [Hs Hm Hp]. unfold acpi_note, acpi_table.
  rewrite (bind_ret_eq _ _ _ _ _ (acpi_matches d sig_HPET a lg eq_refl Hs)).
  destruct (has_sig m sig_HPET d); [by exists lg|].
  rewrite (bind_ret_eq _ _ _ _ _ (acpi_matches d sig_APIC a lg eq_refl Hs)).
  destruct (has_sig m sig_APIC d).
  { destruct (Hp eq_refl) as [z Hz]. destruct (parse_madt_walk d (its d) z (acpi_at a lg) Hz) as [lg' E].
    exists lg'. exact E. }
  rewrite (bind_ret_eq _ _ _ _ _ (acpi_matches d sig_MCFG a lg eq_refl Hs)).
  destruct (has_sig m sig_MCFG d); [|by apply report_table_ok].
  destruct (acpi_mcfg_ok d a lg (Hm eq_refl)) as [lg1 E]. rewrite (bind_ret_eq _ _ _ _ _ E). by apply report_table_ok.
Qed.

(** The loop finds its tables where the root table says. *)
Definition root_fields (rsdp_address : Z) (n : Z) : acpi_globals :=
  let a := set_rsdp rsdp_address (k_acpi s) in
  set_entry_size n (if wide rsdp_address then set_xsdt (root_at rsdp_address) a else set_rsdt (root_at rsdp_address) a).
Lemma acpi_note_root a d : xsdt (acpi_note a d) = xsdt a /\ rsdt (acpi_note a d) = rsdt a.
Proof. unfold acpi_note. by repeat case_match. Qed.
Lemma acpi_notes_root ds : forall a, xsdt (foldl acpi_note a ds) = xsdt a /\ rsdt (foldl acpi_note a ds) = rsdt a.
Proof.
  induction ds as [|d ds IH]; intros a; [done|]. cbn [foldl]. destruct (IH (acpi_note a d)) as [-> ->]. apply acpi_note_root.
Qed.

Lemma acpi_entry_ok rsdp_address ds i d a lg :
  root_table rsdp_address ds -> ds !! i = Some d -> table_ok d ->
  (if wide rsdp_address then xsdt a else rsdt a) = root_at rsdp_address ->
  exists lg', acpi_entry (wide rsdp_address) (Z.of_nat i) (acpi_at a lg) = Ret tt (acpi_at (acpi_note a d) lg').
Proof.
  intros [R1 R2 R3 R4] Hi Hd Ha. pose proof (lookup_lt_Some _ _ _ Hi) as Hlt. specialize (R4 i d Hi).
  unfold acpi_entry, off_sdt_entries, entry_bytes in *. erewrite bind_ret_eq; [|reflexivity].
  assert (El : (if wide rsdp_address then x ← gets (fun s => xsdt (k_acpi s)); load 8 (x + 36 + 8 * Z.of_nat i)
      else r ← gets (fun s => rsdt (k_acpi s)); load 4 (r + 36 + 4 * Z.of_nat i)) (acpi_at a lg) =
    Ret (rd (if wide rsdp_address then 8 else 4)%nat
      (root_at rsdp_address + 36 + Z.of_nat (if wide rsdp_address then 8 else 4) * Z.of_nat i) m) (acpi_at a lg)).
  { destruct (wide rsdp_address); (erewrite bind_ret_eq; [|reflexivity]); change (k_acpi (acpi_at a lg)) with a; rewrite Ha;
      apply acpi_load; apply (region_sub _ _ _ _ _ R2); lia. }
  rewrite (bind_ret_eq _ _ _ _ _ El). change (vmm_higher_half_offset (slob_pmm (k_slob (acpi_at a lg)))) with hhdm.
  rewrite R4. by apply acpi_table_ok.
Qed.

Lemma acpi_loop_ok rsdp_address ds a lg :
  root_table rsdp_address ds -> Forall table_ok ds -> (if wide rsdp_address then xsdt a else rsdt a) = root_at rsdp_address ->
  exists lg', for_range 0 (Z.of_nat (length ds)) (acpi_entry (wide rsdp_address)) (acpi_at a lg) =
    Ret tt (acpi_at (foldl acpi_note a ds) lg').
Proof.
  intros Hr Hds Ha.
  destruct (for_range_inv (acpi_entry (wide rsdp_address)) (fun i st => exists lg, st = acpi_at (foldl acpi_note a (take (Z.to_nat i) ds)) lg)
    0 (Z.of_nat (length ds)) (acpi_at a lg)) as (s' & E & lg' & ->); [lia| |by exists lg|].
  - intros i st Hi (lg1 & ->). destruct (lookup_lt_is_Some_2 ds (Z.to_nat i) ltac:(lia)) as [d Hd].
    destruct (acpi_notes_root (take (Z.to_nat i) ds) a) as [Ex Er].
    destruct (acpi_entry_ok rsdp_address ds (Z.to_nat i) d (foldl acpi_note a (take (Z.to_nat i) ds)) lg1) as [lg2 E];
      [done|done|by apply (Forall_lookup_1 _ _ _ _ Hds Hd)|by rewrite Ex, Er|].
    rewrite Z2Nat.id in E by lia. eexists. split; [exact E|]. exists lg2.
    replace (Z.to_nat (i + 1)) with (S (Z.to_nat i)) by lia. by rewrite (take_S_r _ _ _ Hd), foldl_app.
  - rewrite Nat2Z.id, firstn_all in E. by exists lg'.
Qed.

Lemma acpi_init_ok rsdp_address ds :
  root_table rsdp_address ds -> Forall table_ok ds -> Z.of_nat (length ds) < 2 ^ 28 ->
  let a := foldl acpi_note (root_fields rsdp_address (Z.of_nat (length ds))) ds in
  exists lg, acpi_init rsdp_address s = if mcfg a =? 0 then Halted (acpi_at a lg) else Ret tt (acpi_at a lg).
Proof.
  intros Hr Hds Hn a. pose proof Hr as [R1 R2 R3 R4]. unfold off_sysdesc_length in R3.
  unfold acpi_init. do 3 (erewrite bind_ret_eq; [|reflexivity]).
  match goal with |- context [mbind ?f (load 1 _) ?st] => change st with (acpi_at (set_rsdp rsdp_address (k_acpi s))
    (Log ("Initialzing ACPI..." +:+ nl) [] :: klog (get_mach s))) end.
  set (a1 := set_rsdp rsdp_address (k_acpi s)). change (rsdp (k_acpi (acpi_at a1 _))) with rsdp_address.
  erewrite bind_ret_eq; [|apply acpi_load; apply (region_sub _ _ _ _ _ R1); unfold off_rsdp_revision; lia].
  erewrite bind_ret_eq; [|reflexivity]. erewrite bind_ret_eq; [|reflexivity].
  change (2 <=? rd 1 (rsdp_address + off_rsdp_revision) m) with (wide rsdp_address).
  match goal with |- context [mbind ?f (if wide rsdp_address then _ else _) ?st] =>
    set (k := f); set (st1 := st) end.
  assert (E : exists lg, (if wide rsdp_address then
       a ← load 8 (rsdp_address + off_rsdp_xsdt_addr);
       mod_acpi (set_xsdt (a +64 hhdm)) ;;
       len ← load 4 ((a +64 hhdm) + off_sysdesc_length);
       mod_acpi (set_entry_size ((len -32 36) `div` 8))
     else
       a ← load 4 (rsdp_address + off_rsdp_rsdt_addr);
       mod_acpi (set_rsdt (a +64 hhdm)) ;;
       len ← load 4 ((a +64 hhdm) + off_sysdesc_length);
       mod_acpi (set_entry_size ((len -32 36) `div` 4))) st1 =
    Ret tt (acpi_at (root_fields rsdp_address (Z.of_nat (length ds))) lg)).
  { eexists. unfold root_fields, root_at, entry_bytes, off_sysdesc_length, off_rsdp_xsdt_addr, off_rsdp_rsdt_addr in *.
    destruct (wide rsdp_address).
    - erewrite bind_ret_eq; [|apply acpi_load; apply (region_sub _ _ _ _ _ R1); lia].
      erewrite bind_ret_eq; [|reflexivity]. erewrite bind_ret_eq; [|apply load_ok; apply (region_sub _ _ _ _ _ R2); lia].
      match goal with |- context [rd 4 ?x (smem ?st)] => change (smem st) with m end. rewrite R3, u32_small by lia. 
      replace ((36 + Z.of_nat 8 * Z.of_nat (length ds) - 36) `div` 8) with (Z.of_nat (length ds))
        by (rewrite Z.add_comm, Z.add_simpl_r, Z.mul_comm, Z.div_mul by lia; done). reflexivity.
    - erewrite bind_ret_eq; [|apply acpi_load; apply (region_sub _ _ _ _ _ R1); lia].
      erewrite bind_ret_eq; [|reflexivity]. erewrite bind_ret_eq; [|apply load_ok; apply (region_sub _ _ _ _ _ R2); lia].
      match goal with |- context [rd 4 ?x (smem ?st)] => change (smem st) with m end. rewrite R3, u32_small by lia.
      replace ((36 + Z.of_nat 4 * Z.of_nat (length ds) - 36) `div` 4) with (Z.of_nat (length ds))
        by (rewrite Z.add_comm, Z.add_simpl_r, Z.mul_comm, Z.div_mul by lia; done). reflexivity. }
  destruct E as [lg1 E]. rewrite (bind_ret_eq _ _ _ _ _ E). clear E. unfold k. clear k.
  erewrite bind_ret_eq; [|reflexivity]. erewrite bind_ret_eq; [|reflexivity].
  change (entry_size (k_acpi (acpi_at (root_fields rsdp_address (Z.of_nat (length ds))) lg1))) with (Z.of_nat (length ds)).
  match goal with |- context [mbind ?f (for_range _ _ _) ?st] => set (st2 := st) end.
  destruct (acpi_loop_ok rsdp_address ds (root_fields rsdp_address (Z.of_nat (length ds))) (klog (get_mach st2)) Hr Hds) as [lg2 E].
  { unfold root_fields. by destruct (wide rsdp_address). }
  change (acpi_at (root_fields rsdp_address (Z.of_nat (length ds))) (klog (get_mach st2))) with st2 in E.
  rewrite (bind_ret_eq _ _ _ _ _ E). fold a. erewrite bind_ret_eq; [|reflexivity].
  change (mcfg (k_acpi (acpi_at a lg2))) with (mcfg a). destruct (mcfg a =? 0); eexists; reflexivity.
Qed.

(** The pointers kept are those of the last table with the signature. *)
Definition last_of (sig : list Z) (ds : list Z) (old : Z) : Z := default old (last (tables_of m sig ds)).
(** The structures of that type in all MADTs. *)
Definition all_of (ty : Z) (ds : list Z) : list Z := concat ((fun d => of_type m ty (its d)) <$> tables_of m sig_APIC ds).

Lemma all_of_snoc ty ds d : all_of ty (ds ++ [d]) = all_of ty ds ++ (if has_sig m sig_APIC d then of_type m ty (its d) else []).
Proof.
  unfold all_of. rewrite tables_of_snoc, fmap_app, concat_app. f_equal. destruct (has_sig m sig_APIC d); [|done].
  apply app_nil_r.
Qed.
Lemma last_of_snoc sig ds d old : last_of sig (ds ++ [d]) old = if has_sig m sig d then d else last_of sig ds old.
Proof.
  unfold last_of. rewrite tables_of_snoc. destruct (has_sig m sig d); [by rewrite last_snoc|by rewrite app_nil_r].
Qed.
Lemma acpi_notes_fields ds a : let a' := foldl acpi_note a ds in
  hpet a' = last_of sig_HPET ds (hpet a) /\ mcfg a' = last_of sig_MCFG ds (mcfg a) /\
  pMadt a' = last_of sig_APIC ds (pMadt a) /\
  ioapic_list a' = add_all (all_of ICS_ID_IO_APIC ds) (ioapic_list a) /\
  iso_list a' = add_all (all_of ICS_ID_ISO ds) (iso_list a).
Proof.
  induction ds as [|d ds IH] using rev_ind; [done|]. cbv zeta in *. destruct IH as (I1 & I2 & I3 & I4 & I5).
  rewrite foldl_app. cbn [foldl]. rewrite !last_of_snoc, !all_of_snoc. unfold add_all in *. rewrite !foldl_app, <- I4, <- I5.
  unfold acpi_note. destruct (has_sig m sig_HPET d) eqn:E1.
  { rewrite (has_sig_one _ _ _ sig_APIC E1), (has_sig_one _ _ _ sig_MCFG E1) by done. by split_and!. }
  destruct (has_sig m sig_APIC d) eqn:E2.
  { rewrite (has_sig_one _ _ _ sig_MCFG E2) by done. by split_and!. }
  destruct (has_sig m sig_MCFG d); by split_and!.
Qed.

(** C35: finding the firmware's tables. From a well-formed root pointer (64-bit
    table or 32-bit one, by its revision) acpi_init looks at every table the
    root table lists and ends with the HPET, MCFG and MADT pointers at the last
    table of each signature (as before where there is none) and with every I/O
    APIC and override of every MADT in the arrays, in order; it changes no
    memory and makes no access to hardware. Without an MCFG it halts. *)
Theorem acpi_init_finds rsdp_address ds :
  root_table rsdp_address ds -> Forall table_ok ds -> Z.of_nat (length ds) < 2 ^ 28 ->
  exists s', acpi_init rsdp_address s = (if mcfg (k_acpi s') =? 0 then Halted s' else Ret tt s') /\
    hpet (k_acpi s') = last_of sig_HPET ds (hpet (k_acpi s)) /\ mcfg (k_acpi s') = last_of sig_MCFG ds (mcfg (k_acpi s)) /\
    pMadt (k_acpi s') = last_of sig_APIC ds (pMadt (k_acpi s)) /\
    ioapic_list (k_acpi s') = add_all (all_of ICS_ID_IO_APIC ds) (ioapic_list (k_acpi s)) /\
    iso_list (k_acpi s') = add_all (all_of ICS_ID_ISO ds) (iso_list (k_acpi s)) /\
    entry_size (k_acpi s') = Z.of_nat (length ds) /\ smem s' = smem s /\ k_io s' = k_io s.
Proof.
  intros Hr Hds Hn. destruct (acpi_init_ok rsdp_address ds Hr Hds Hn) as [lg E]. cbv zeta in E.
  set (a0 := root_fields rsdp_address (Z.of_nat (length ds))) in *.
  assert (Ef : hpet a0 = hpet (k_acpi s) /\ mcfg a0 = mcfg (k_acpi s) /\ pMadt a0 = pMadt (k_acpi s) /\
    ioapic_list a0 = ioapic_list (k_acpi s) /\ iso_list a0 = iso_list (k_acpi s) /\ entry_size a0 = Z.of_nat (length ds))
    by (unfold a0, root_fields; by destruct (wide rsdp_address)).
  destruct Ef as (F1 & F2 & F3 & F4 & F5 & F6). destruct (acpi_notes_fields ds a0) as (G1 & G2 & G3 & G4 & G5).
  rewrite F1 in G1. rewrite F2 in G2. rewrite F3 in G3. rewrite F4 in G4. rewrite F5 in G5.
  eexists. split; [exact E|]. split_and!; try done.
  change (entry_size (foldl acpi_note a0 ds) = Z.of_nat (length ds)). rewrite <- F6. clear.
  generalize a0. induction ds as [|d ds IH]; intros a; [done|]. cbn [foldl]. rewrite IH. unfold acpi_note. by repeat case_match.
Qed.
End acpi_init.

(** A root pointer at 512, the 32-bit root table at 1024 and three tables: the
    MADT of [AcpiProps], an MCFG and an HPET. *)
Definition acpi_memory : memory :=
  poke 64 sig_APIC (poke 2048 sig_MCFG (poke 2304 sig_HPET (wr 4 1028 48 (wr 4 1060 64 (wr 4 1064 2048 (wr 4 1068 2304
    (wr 4 528 1024 (zeros 512 32 ∪ (zeros 1024 48 ∪ (zeros 2048 56 ∪ (zeros 2304 4 ∪ madt_mem 0 0))))))))))).
Definition acpi_kernel (m : memory) : kernel :=
  set_k_acpi (AcpiGlobals 0 0 0 0 0 0 0 (replicate IOAPIC_LIST_LEN 0) (replicate ISO_LIST_LEN 0)) (kernel_at m 0 0 40).
Record acpi_facts (m : memory) : Prop := {
  af_regions : region 512 32 m /\ region 1024 48 m /\ region 2048 56 m /\ region 2304 4 m /\ region 64 116 m;
  af_root : rd 1 527 m = 0 /\ rd 4 528 m = 1024 /\ rd 4 1028 m = 48 /\ rd 4 1060 m = 64 /\ rd 4 1064 m = 2048 /\ rd 4 1068 m = 2304;
  af_sigs : bytes_at m 64 4 = sig_APIC /\ bytes_at m 2048 4 = sig_MCFG /\ bytes_at m 2304 4 = sig_HPET;
  af_madt : rd 4 68 m = 56 /\ rd 1 108 m = 1 /\ rd 1 109 m = 12 /\ rd 1 120 m = 0 /\ rd 1 121 m = 0
}.
Lemma acpi_memory_facts : acpi_facts acpi_memory.
Proof.
  split; [|split_and!; vm_compute; reflexivity..]. unfold acpi_memory.
  split_and!; do 3 apply poke_region; do 5 apply region_wr.
  - apply region_union_l, region_zeros.
  - apply region_union_r, region_union_l, region_zeros.
  - do 2 apply region_union_r. apply region_union_l, region_zeros.
  - do 3 apply region_union_r. apply region_union_l, region_zeros.
  - do 4 apply region_union_r. apply madt_mem_region.
Qed.

Lemma acpi_init_finds_witness :
  exists s', acpi_init 512 (acpi_kernel acpi_memory) = Ret tt s' /\ hpet (k_acpi s') = 2304 /\ mcfg (k_acpi s') = 2048 /\
    pMadt (k_acpi s') = 64 /\ take 2 (ioapic_list (k_acpi s')) = [108; 0].
Proof.
  pose proof acpi_memory_facts as Hf. revert Hf. generalize acpi_memory. intros m [(R1 & R2 & R3 & R4 & R5) (A1 & A2 & A3 & A4 & A5 & A6) (S1 & S2 & S3) (M1 & M2 & M3 & M4 & M5)].
  assert (Ew : wide (acpi_kernel m) 512 = false) by (unfold wide; change (smem (acpi_kernel m)) with m; by rewrite (A1 : rd 1 (512 + off_rsdp_revision) m = 0)).
  assert (Er : root_at (acpi_kernel m) 512 = 1024)
    by (unfold root_at; rewrite Ew; change (smem (acpi_kernel m)) with m; by rewrite (A2 : rd 4 (512 + off_rsdp_rsdt_addr) m = 1024)).
  destruct (acpi_init_finds (acpi_kernel m) (fun _ => [108]) 512 [64; 2048; 2304]) as (s' & E & H1 & H2 & H3 & H4 & _).
  - split; unfold entry_bytes; rewrite ?Er, ?Ew; change (smem (acpi_kernel m)) with m; try done.
    intros [|[|[|i]]] d Hi; [injection Hi as <-..|done].
    + change (rd 4 1060 m +64 0 = 64). by rewrite A4.
    + change (rd 4 1064 m +64 0 = 2048). by rewrite A5.
    + change (rd 4 1068 m +64 0 = 2304). by rewrite A6.
  - assert (Hs : forall sig d, has_sig (smem (acpi_kernel m)) sig d = bool_decide (bytes_at m d 4 = sig)) by done.
    repeat (apply Forall_cons; split); [..|done]; split; rewrite ?Hs, ?S1, ?S2, ?S3; change (smem (acpi_kernel m)) with m; try done.
    + apply (region_sub _ _ _ _ _ R5); lia.
    + intros _. exists 120. split; unfold sizeof_madt; change (64 + off_sysdesc_length) with 68; rewrite ?M1; try done; try lia.
      * cbn [madt_items]. change (64 + 44) with 108. change (108 + 1) with 109. rewrite M3. done.
      * apply Forall_singleton. lia.
      * right. unfold sizeof_madt. change (120 + 1) with 121. rewrite M4, M5. unfold ICS_ID_IO_APIC, ICS_ID_ISO. lia.
    + apply (region_sub _ _ _ _ _ R3); lia.
  - cbn. lia.
  - assert (T1 : tables_of m sig_HPET [64; 2048; 2304] = [2304] /\ tables_of m sig_MCFG [64; 2048; 2304] = [2048] /\ tables_of m sig_APIC [64; 2048; 2304] = [64]).
    { unfold tables_of, has_sig. rewrite !filter_cons, S1, S2, S3. split_and!; reflexivity. }
    destruct T1 as (T1 & T2 & T3). unfold last_of, all_of in *. change (smem (acpi_kernel m)) with m in *. rewrite T1 in H1. rewrite T2 in H2.
    rewrite T3 in H3, H4. cbn [fmap list_fmap concat app] in H4. rewrite of_type_cons, M2 in H4.
    cbn in H1, H2, H3. rewrite H2 in E. exists s'. split; [exact E|]. split; [exact H1|]. split; [exact H2|]. split; [exact H3|].
    by rewrite H4.
Defined.
