(* ===== verification/Ioapic.v ===== *)
(** * ioapic.c: routing interrupts through the I/O APICs *)
From S2P Require Import Prelude Machine Pmm Slob Kstate Acpi.

Definition IOAPICVER : Z := 1.

Section ioapic.
Context `{Hardware} `{!Printf kernel}.

Definition ioapic_base (pApic : Z) : M kernel Z :=
  a ← load 4 (pApic + off_ioapic_addr);
  hhdm ← vmm_offset;
  mret (a +64 hhdm).

(** The offset is a uint8_t parameter. *)
Definition ioapic_write (pApic offset val : Z) : M kernel unit :=
  base ← ioapic_base pApic;
  mmio_write 4 base (u8 offset) ;;
  mmio_write 4 (base + 0x10) val.
Definition ioapic_read (pApic offset : Z) : M kernel Z :=
  base ← ioapic_base pApic;
  mmio_write 4 base (u8 offset) ;;
  mmio_read 4 (base + 0x10).

Definition ioapic_max_gsi (pIOApic : Z) : M kernel Z :=
  v ← ioapic_read pIOApic IOAPICVER;
  mret (Z.shiftr (Z.land v 0xFF0000) 16).

(** The loop of _get_ioapic_from_gsi over the entries of the array. *)
Fixpoint get_ioapic_loop (gsi : Z) (l : list Z) : M kernel Z :=
  match l with
  | [] => mret 0
  | p :: l' =>
      if p =? 0 then mret 0
      else
        base ← load 4 (p + off_gsi_base);
        if gsi >=? base then
          base ← load 4 (p + off_gsi_base);
          max ← ioapic_max_gsi p;
          if gsi <? base +64 max then mret p else get_ioapic_loop gsi l'
        else get_ioapic_loop gsi l'
  end.
Definition _get_ioapic_from_gsi (gsi : Z) : M kernel Z :=
  l ← gets (fun s => ioapic_list (k_acpi s)); get_ioapic_loop gsi l.

(** The 64-bit redirection entry. *)
Definition redirect_entry (lapic_id vector flags : Z) (status : bool) : Z :=
  let r := vector in
  let r := if negb (Z.land flags (Z.shiftl 1 1) =? 0) then Z.lor r (Z.shiftl 1 13) else r in
  let r := if negb (Z.land flags (Z.shiftl 1 3) =? 0) then Z.lor r (Z.shiftl 1 15) else r in
  let r := if negb status then Z.lor r (Z.shiftl 1 16) else r in
  Z.lor r (u64 (Z.shiftl lapic_id 56)).

(** vector and gsi are uint8_t, flags uint16_t. *)
Definition _ioapic_redirect_gsi (lapic_id vector gsi flags : Z) (status : bool) : M kernel unit :=
  let gsi := u8 gsi in
  pIOApic ← _get_ioapic_from_gsi gsi;
  let redirect := redirect_entry lapic_id (u8 vector) (u16 flags) status in
  gsi_base ← load 4 (pIOApic + off_gsi_base);
  let io_redirect_table_reg := (gsi -32 gsi_base) *32 2 +32 16 in
  ioapic_write pIOApic io_redirect_table_reg (u32 redirect) ;;
  ioapic_write pIOApic (io_redirect_table_reg +32 1) (u32 (Z.shiftr redirect 32)) ;;
  kprintf ("Applied I/O APIC redirect: Vector %d, GSI %d." +:+ nl) [KNum (u8 vector); KNum gsi].

(** The loop over the interrupt source overrides. *)
Fixpoint redirect_irq_loop (lapic_id vector irq : Z) (status : bool) (l : list Z) : M kernel unit :=
  match l with
  | [] => _ioapic_redirect_gsi lapic_id vector irq 0 status
  | p :: l' =>
      if p =? 0 then _ioapic_redirect_gsi lapic_id vector irq 0 status
      else
        src ← load 1 (p + off_iso_irq_source);
        if u8 irq =? src then
          gsi ← load 4 (p + off_iso_gsi);
          kprintf ("I/O APIC using override from %d to %d." +:+ nl) [KNum (u8 irq); KNum gsi] ;;
          gsi ← load 4 (p + off_iso_gsi);
          flags ← load 2 (p + off_iso_flags);
          _ioapic_redirect_gsi lapic_id vector gsi flags status
        else redirect_irq_loop lapic_id vector irq status l'
  end.
Definition ioapic_redirect_irq (lapic_id vector irq : Z) (status : bool) : M kernel unit :=
  l ← gets (fun s => iso_list (k_acpi s));
  redirect_irq_loop lapic_id (u8 vector) (u8 irq) status l.
End ioapic.
