(* ===== verification/IoapicProps.v ===== *)
(** * ioapic.c: the properties of interrupt routing *)
From S2P Require Import Prelude Machine Pmm Slob Kstate VmProps Poll Printing Acpi Ioapic.

(** ** The redirection entry *)

Lemma redirect_entry_bit lapic_id vector flags status i :
  is_u8 vector -> is_u8 lapic_id -> 0 <= i < 64 ->
  Z.testbit (redirect_entry lapic_id vector flags status) i =
    if decide (i < 8) then Z.testbit vector i
    else if decide (i = 13) then Z.testbit flags 1
    else if decide (i = 15) then Z.testbit flags 3
    else if decide (i = 16) then negb status
    else if decide (56 <= i) then Z.testbit lapic_id (i - 56)
    else false.
Proof.
  intros Hv Hl Hi.
  assert (Hvi : 8 <= i -> Z.testbit vector i = false).
  { intros ?. rewrite <- (Z.mod_small vector (2 ^ 8)) by done. apply Z.mod_pow2_bits_high. lia. }
  assert (Hli : i < 56 -> Z.testbit (Z.shiftl lapic_id 56 `mod` 2 ^ 64) i = false).
  { intros ?. rewrite testbit_mod_pow2, Z.shiftl_spec_low, andb_false_r by lia. done. }
  assert (Hlh : 56 <= i -> Z.testbit (Z.shiftl lapic_id 56 `mod` 2 ^ 64) i = Z.testbit lapic_id (i - 56)).
  { intros ?. rewrite testbit_mod_pow2, Z.shiftl_spec, bool_decide_eq_true_2 by lia. done. }
  assert (Hbit : forall (b : bool) r k, 0 <= k -> Z.testbit (if b then Z.lor r (Z.shiftl 1 k) else r) i =
    Z.testbit r i || b && bool_decide (i = k)).
  { intros b r k Hk. destruct b; [|by rewrite orb_false_r]. by rewrite Z.lor_spec, testbit_one_shift by lia. }
  unfold redirect_entry, u64. rewrite Z.lor_spec, !Hbit, !land_bit_nonzero, !negb_involutive by lia.
  destruct (decide (i < 8)) as [D1|D1].
  { rewrite Hli, !bool_decide_eq_false_2, !andb_false_r, !orb_false_r by lia. done. }
  rewrite Hvi by lia. destruct (decide (i = 13)) as [->|D2].
  { rewrite Hli by lia. by rewrite andb_true_r, !andb_false_r, !orb_false_r. }
  destruct (decide (i = 15)) as [->|D3].
  { rewrite Hli by lia. by rewrite andb_true_r, !andb_false_r, !orb_false_r. }
  destruct (decide (i = 16)) as [->|D4].
  { rewrite Hli by lia. by rewrite andb_true_r, !andb_false_r, !orb_false_r. }
  rewrite !bool_decide_eq_false_2, !andb_false_r by lia. case_decide; [by rewrite Hlh|by rewrite Hli by lia].
Qed.

(** The two messages of ioapic.c. *)
Definition applied_message : string := "Applied I/O APIC redirect: Vector %d, GSI %d." +:+ nl.
Definition override_message : string := "I/O APIC using override from %d to %d." +:+ nl.

Section ioapic_props.
Context `{Hardware}.

(** Where the overrides of the list send an interrupt line: the global number
    and the flags of the first override for it, else the line itself. *)
Fixpoint iso_route (m : memory) (irq : Z) (l : list Z) : Z * Z :=
  match l with
  | [] => (irq, 0)
  | p :: l' =>
      if p =? 0 then (irq, 0)
      else if irq =? rd 1 (p + off_iso_irq_source) m then (rd 4 (p + off_iso_gsi) m, rd 2 (p + off_iso_flags) m)
      else iso_route m irq l'
  end.

(** The firmware's entry at [p] describes an I/O APIC at physical [addr] whose
    lines start at [gb]. *)
Record ioapic_at (m : memory) (p addr gb : Z) : Prop := {
  ia_nonnull : p <> 0;
  ia_region : region p 12 m;
  ia_addr : rd 4 (p + off_ioapic_addr) m = addr;
  ia_base : rd 4 (p + off_gsi_base) m = gb
}.

Context (p addr gb : Z).
(** The select and the data register in the direct map. *)
Definition reg_select (s : kernel) : Z := addr +64 vmm_higher_half_offset (slob_pmm (k_slob s)).
Definition reg_data (s : kernel) : Z := u64 (reg_select s + 0x10).
(** Selecting a register and writing it, latest access first. *)
Definition io_write (s : kernel) (reg v : Z) : list io :=
  [MmioWrite 4 (reg_data s) v; MmioWrite 4 (reg_select s) reg].
Definition io_read (s : kernel) (reg : Z) : list io :=
  [MmioRead 4 (reg_data s); MmioWrite 4 (reg_select s) reg].
(** What a read of register [reg] answers. *)
Definition reg_value (s : kernel) (reg : Z) : Z :=
  device (MmioWrite 4 (reg_select s) reg :: k_io s) (MmioRead 4 (reg_data s)) `mod` 2 ^ 32.
(** What the version register says is the number of the last line. *)
Definition last_line (s : kernel) : Z := Z.shiftr (Z.land (reg_value s IOAPICVER) 0xFF0000) 16.

Lemma ioapic_base_ok s : ioapic_at (smem s) p addr gb -> ioapic_base p s = Ret (reg_select s) s.
Proof.
  intros [Hp Hr Ea _]. unfold ioapic_base, off_ioapic_addr in *.
  erewrite bind_ret_eq; [|apply load_ok; mregion]. by rewrite Ea.
Qed.

Lemma select_write s reg :
  mmio_write 4 (reg_select s) (u8 reg) s = Ret tt (after_io [MmioWrite 4 (reg_select s) (u8 reg)] s).
Proof.
  unfold mmio_write, io_do, modify. rewrite (u64_small (reg_select s)) by apply u64_range.
  change (8 * 4) with 32.
  rewrite (Z.mod_small (u8 reg)) by (pose proof (u8_range reg); unfold is_u8 in *; lia). done.
Qed.

Lemma ioapic_write_ok s reg v :
  ioapic_at (smem s) p addr gb ->
  ioapic_write p reg v s = Ret tt (after_io (io_write s (u8 reg) (v `mod` 2 ^ 32)) s).
Proof.
  intros Ha. unfold ioapic_write.
  rewrite (bind_ret_eq _ _ _ _ _ (ioapic_base_ok s Ha)), (bind_ret_eq _ _ _ _ _ (select_write s reg)). done.
Qed.

Lemma ioapic_read_ok s reg :
  ioapic_at (smem s) p addr gb ->
  ioapic_read p reg s = Ret (reg_value s (u8 reg)) (after_io (io_read s (u8 reg)) s).
Proof.
  intros Ha. unfold ioapic_read.
  rewrite (bind_ret_eq _ _ _ _ _ (ioapic_base_ok s Ha)), (bind_ret_eq _ _ _ _ _ (select_write s reg)). done.
Qed.

Lemma ioapic_max_gsi_ok s :
  ioapic_at (smem s) p addr gb -> ioapic_max_gsi p s = Ret (last_line s) (after_io (io_read s IOAPICVER) s).
Proof.
  intros Ha. unfold ioapic_max_gsi.
  by rewrite (bind_ret_eq _ _ _ _ _ (ioapic_read_ok s IOAPICVER Ha)).
Qed.

(** The loop at its first entry: it asks that I/O APIC how far it reaches. *)
Lemma get_ioapic_loop_ok s gsi l :
  ioapic_at (smem s) p addr gb -> gb + last_line s < 2 ^ 64 -> 0 <= gb ->
  get_ioapic_loop gsi (p :: l) s =
    if gb <=? gsi then
      if gsi <? gb + last_line s then Ret p (after_io (io_read s IOAPICVER) s)
      else get_ioapic_loop gsi l (after_io (io_read s IOAPICVER) s)
    else get_ioapic_loop gsi l s.
Proof.
  intros Ha Hm Hb. cbn [get_ioapic_loop]. pose proof Ha as [Hp Hr _ Eb]. unfold off_gsi_base in *.
  rewrite (proj2 (Z.eqb_neq p 0) Hp). erewrite bind_ret_eq; [|apply load_ok; mregion].
  rewrite Eb, Z.geb_leb. destruct (gb <=? gsi); [|done].
  erewrite bind_ret_eq; [|apply load_ok; mregion].
  rewrite (bind_ret_eq _ _ _ _ _ (ioapic_max_gsi_ok s Ha)), Eb.
  rewrite u64_small; [by destruct (gsi <? gb + last_line s)|]. split; [|done].
  apply Z.add_nonneg_nonneg; [done|]. apply Z.shiftr_nonneg, Z.land_nonneg. right. lia.
Qed.

(** The accesses of one redirection through a line of this I/O APIC. *)
Definition redirect_trace (s : kernel) (line entry : Z) : list io :=
  io_write s (u8 (2 * line + 17)) (u32 (entry `div` 2 ^ 32)) ++ io_write s (u8 (2 * line + 16)) (u32 entry) ++
  io_read s IOAPICVER.

Section speak.
Context {P : Printf kernel} {msgs : string -> list Z -> Prop} {ready : kernel -> Prop} {said : kernel -> kernel -> Prop}.
Context {kept : Z -> Prop} (Hsp : speaks P msgs ready said kept).
Context (Happlied : forall v g, is_u8 v -> is_u8 g -> msgs applied_message [v; g]).
Context {good_gsi : Z -> Prop} (Hoverride : forall i g, is_u8 i -> is_u32 g -> good_gsi g -> msgs override_message [i; g]).

Lemma redirect_gsi_says lapic_id vector gsi flags status l s :
  ready s -> ioapic_list (k_acpi s) = p :: l -> ioapic_at (smem s) p addr gb ->
  0 <= gb -> gb + last_line s < 2 ^ 64 -> gb <= u8 gsi < gb + last_line s ->
  exists s', _ioapic_redirect_gsi lapic_id vector gsi flags status s = Ret tt s' /\ ready s' /\
    said (after_io (redirect_trace s (u8 gsi - gb) (redirect_entry lapic_id (u8 vector) (u16 flags) status)) s) s'.
Proof.
  intros Hrd Hl Ha H0 Hm Hg. set (e := redirect_entry lapic_id (u8 vector) (u16 flags) status).
  unfold _ioapic_redirect_gsi. cbv zeta. fold e.
  rewrite (bind_ret_eq _ _ s p (after_io (io_read s IOAPICVER) s)).
  2: { unfold _get_ioapic_from_gsi. erewrite bind_ret_eq; [|reflexivity].
       rewrite Hl, (get_ioapic_loop_ok s (u8 gsi) l Ha Hm H0).
       by rewrite (proj2 (Z.leb_le _ _)), (proj2 (Z.ltb_lt _ _)) by lia. }
  pose proof Ha as [Hp Hr _ Eb]. unfold off_gsi_base in *.
  erewrite bind_ret_eq; [|apply load_ok].
  2: { change (region (p + 8) (Z.of_nat 4) (smem s)). mregion. }
  change (smem (after_io _ s)) with (smem s). rewrite Eb.
  pose proof (u8_range gsi) as Hu. unfold is_u8 in Hu.
  rewrite (u32_small (u8 gsi - gb)), (u32_small ((u8 gsi - gb) * 2)) by lia.
  rewrite (u32_small ((u8 gsi - gb) * 2 + 16)), (u32_small ((u8 gsi - gb) * 2 + 16 + 1)) by lia.
  rewrite (bind_ret_eq _ _ _ _ _ (ioapic_write_ok (after_io (io_read s IOAPICVER) s) _ _ Ha)), after_io_app.
  lazymatch goal with |- context [after_io ?t s] => set (t1 := t) end.
  rewrite (bind_ret_eq _ _ _ _ _ (ioapic_write_ok (after_io t1 s) _ _ Ha)), after_io_app.
  rewrite Z.shiftr_div_pow2 by lia.
  assert (Em : forall v, u32 v `mod` 2 ^ 32 = u32 v) by (intros; apply Z.mod_small, u32_range).
  rewrite Em. replace ((u8 gsi - gb) * 2 + 16 + 1) with (2 * (u8 gsi - gb) + 17) by lia.
  unfold t1. rewrite Em. replace ((u8 gsi - gb) * 2 + 16) with (2 * (u8 gsi - gb) + 16) by lia.
  lazymatch goal with |- context [after_io ?t s] => change t with (redirect_trace s (u8 gsi - gb) e) end.
  destruct (sp_print _ _ _ _ _ Hsp applied_message [u8 vector; u8 gsi]
    (after_io (redirect_trace s (u8 gsi - gb) e) s)) as (s' & E & Hs & Hrd'); [by apply (sp_after _ _ _ _ _ Hsp)|apply Happlied; apply u8_range|].
  exists s'. by split.
Qed.

Lemma redirect_irq_loop_says lapic_id vector irq status l s :
  ready s -> is_u8 irq ->
  Forall (fun p => p <> 0 -> region p 10 (smem s) /\ (forall a, p <= a < p + 10 -> kept a) /\
    good_gsi (rd 4 (p + off_iso_gsi) (smem s))) l ->
  exists s1, said s s1 /\ ready s1 /\ redirect_irq_loop lapic_id vector irq status l s =
    _ioapic_redirect_gsi lapic_id vector (fst (iso_route (smem s) irq l)) (snd (iso_route (smem s) irq l)) status s1.
Proof.
  intros Hrd Hi. induction l as [|q l IH]; intros Hl; cbn [redirect_irq_loop iso_route].
  - exists s. split; [apply (sp_refl _ _ _ _ _ Hsp)|]. by split.
  - apply Forall_cons in Hl as [Hp Hl]. destruct (Z.eqb_spec q 0) as [->|Hne].
    { exists s. split; [apply (sp_refl _ _ _ _ _ Hsp)|]. by split. }
    destruct (Hp Hne) as (Hreg & Hk & Hg). clear Hp. unfold off_iso_irq_source, off_iso_gsi, off_iso_flags in *.
    rewrite (u8_small irq) by done.
    erewrite bind_ret_eq; [|apply load_ok; mregion].
    destruct (irq =? rd 1 (q + 3) (smem s)); [|by apply IH]. cbn [fst snd].
    erewrite bind_ret_eq; [|apply load_ok; mregion].
    destruct (sp_print _ _ _ _ _ Hsp override_message [irq; rd 4 (q + 4) (smem s)] s) as (s1 & E & Hs & Hrd1);
      [done|apply Hoverride; [done|apply rd_range|exact Hg]|].
    exists s1. split; [done|]. split; [done|]. erewrite bind_ret_eq; [|exact E].
    assert (Ek : forall a, q <= a < q + 10 -> smem s1 !! a = smem s !! a) by (intros a Ha; by apply (sp_kept _ _ _ _ _ Hsp s), Hk).
    assert (Hreg1 : region q 10 (smem s1)) by (intros a Ha; rewrite Ek by lia; by apply Hreg).
    assert (Er : forall n a, q <= a -> a + Z.of_nat n <= q + 10 -> rd n a (smem s1) = rd n a (smem s))
      by (intros n a Ha Hn; apply rd_ext; intros x Hx; unfold byte_at; by rewrite Ek by lia).
    do 2 (erewrite bind_ret_eq; [|apply load_ok; mregion]). rewrite !Er by lia. done.
Qed.

(** An interrupt line that goes to the first I/O APIC, whatever was accessed
    before, and whose tables printing leaves alone. *)
Definition irq_route (irq : Z) (s : kernel) : Z * Z := iso_route (smem s) irq (iso_list (k_acpi s)).
Definition irq_entry (irq vector : Z) (s : kernel) : Z :=
  redirect_entry (bsp_lapic_id (k_lapic s)) vector (u16 (snd (irq_route irq s))) true.
Record irq_line_ok (l : list Z) (irq : Z) (s : kernel) : Prop := {
  il_isos : Forall (fun p => p <> 0 -> region p 10 (smem s)) (iso_list (k_acpi s));
  il_list : ioapic_list (k_acpi s) = p :: l;
  il_at : ioapic_at (smem s) p addr gb;
  il_base : 0 <= gb;
  il_line : forall t, gb + last_line (after_io t s) < 2 ^ 64 /\
    gb <= u8 (fst (irq_route irq s)) < gb + last_line (after_io t s)
}.
Definition tables_kept (s : kernel) : Prop :=
  (forall a, p <= a < p + 12 -> kept a) /\
  Forall (fun x => x <> 0 -> (forall a, x <= a < x + 10 -> kept a) /\ good_gsi (rd 4 (x + off_iso_gsi) (smem s)))
    (iso_list (k_acpi s)).
Definition irq_redirect (irq vector : Z) (s : kernel) (t : list io) : list io :=
  redirect_trace (after_io t s) (u8 (fst (irq_route irq s)) - gb) (irq_entry irq vector s).

Lemma last_line_said s s1 : said s s1 -> exists t, k_io s1 = t ++ k_io s /\ last_line s1 = last_line (after_io t s).
Proof.
  intros Hs. destruct (sp_io _ _ _ _ _ Hsp _ _ Hs) as [t Et]. exists t. split; [done|].
  unfold last_line, reg_value, reg_data, reg_select. by rewrite (sp_hhdm _ _ _ _ _ Hsp _ _ Hs), Et.
Qed.
Lemma redirect_said s s1 line e t : said s s1 -> k_io s1 = t ++ k_io s ->
  redirect_trace s1 line e = redirect_trace (after_io t s) line e.
Proof.
  intros Hs Et. unfold redirect_trace, io_write, io_read, reg_data, reg_select.
  by rewrite (sp_hhdm _ _ _ _ _ Hsp _ _ Hs).
Qed.

(** Routing a line while the console prints: the accesses are those of the
    routing, with those of the two messages around them. *)
Lemma irq_redirect_says l irq vector s : is_u8 irq -> is_u8 vector -> ready s -> irq_line_ok l irq s -> tables_kept s ->
  exists t s1 s', said s s1 /\ k_io s1 = t ++ k_io s /\
    ioapic_redirect_irq (bsp_lapic_id (k_lapic s)) vector irq true s = Ret tt s' /\ ready s' /\
    said (after_io (irq_redirect irq vector s t) s1) s'.
Proof.
  intros Hi Hv Hrd [K1 K2 K3 K4 K5] [Kp Ki]. unfold ioapic_redirect_irq. erewrite bind_ret_eq; [|reflexivity].
  rewrite (u8_small vector), (u8_small irq) by done.
  destruct (redirect_irq_loop_says (bsp_lapic_id (k_lapic s)) vector irq true (iso_list (k_acpi s)) s Hrd Hi) as (s1 & Hs & Hrd1 & E).
  { apply Forall_forall. intros q Hq Hne. rewrite Forall_forall in K1, Ki. split; [by apply K1|by apply Ki]. }
  rewrite E. clear E. fold (irq_route irq s). destruct (last_line_said s s1 Hs) as (t & Et & El). destruct (K5 t) as [K6 K7].
  assert (Ek : forall a, p <= a < p + 12 -> smem s1 !! a = smem s !! a) by (intros a Ha; by apply (sp_kept _ _ _ _ _ Hsp s), Kp).
  destruct (redirect_gsi_says (bsp_lapic_id (k_lapic s)) vector (fst (irq_route irq s)) (snd (irq_route irq s)) true l s1)
    as (s' & E & Hrd' & Hs'); try (rewrite ?El; done).
  - by rewrite (sp_acpi _ _ _ _ _ Hsp _ _ Hs).
  - destruct K3 as [A1 A2 A3 A4]. unfold off_ioapic_addr, off_gsi_base in *. split; [done| | |].
    + intros a Ha. rewrite Ek by lia. by apply A2.
    + rewrite <- A3. apply rd_ext. intros x Hx. unfold byte_at, off_ioapic_addr in *. by rewrite Ek by lia.
    + rewrite <- A4. apply rd_ext. intros x Hx. unfold byte_at, off_gsi_base in *. by rewrite Ek by lia.
  - exists t, s1, s'. rewrite E. split_and!; try done. unfold irq_redirect.
    rewrite <- (redirect_said s s1 _ _ t Hs Et), <- (u8_small vector) by done. exact Hs'.
Qed.
End speak.

(** With the log: where the overrides lead, and the whole redirection. *)
Lemma redirect_irq_loop_ok lapic_id vector irq status l s :
  is_u8 irq -> Forall (fun p => p <> 0 -> region p 10 (smem s)) l ->
  exists lg, redirect_irq_loop lapic_id vector irq status l s =
    _ioapic_redirect_gsi lapic_id vector (fst (iso_route (smem s) irq l)) (snd (iso_route (smem s) irq l))
      status (logged lg s).
Proof.
  intros Hi Hl. destruct (redirect_irq_loop_says log_speaks (good_gsi := fun _ => True) (fun _ _ _ _ _ => I) lapic_id vector irq status l s I Hi)
    as (s1 & [lg ->] & _ & E); [|by exists lg].
  eapply Forall_impl; [exact Hl|]. intros x Hx Hne. split; [by apply Hx|done].
Qed.
Lemma ioapic_redirect_irq_ok lapic_id vector irq status l s :
  let route := iso_route (smem s) irq (iso_list (k_acpi s)) in
  is_u8 vector -> is_u8 irq ->
  Forall (fun p => p <> 0 -> region p 10 (smem s)) (iso_list (k_acpi s)) ->
  ioapic_list (k_acpi s) = p :: l -> ioapic_at (smem s) p addr gb ->
  0 <= gb -> gb + last_line s < 2 ^ 64 -> gb <= u8 (fst route) < gb + last_line s ->
  exists lg, ioapic_redirect_irq lapic_id vector irq status s =
    Ret tt (logged lg (after_io (redirect_trace s (u8 (fst route) - gb)
      (redirect_entry lapic_id vector (u16 (snd route)) status)) s)).
Proof.
  intros route Hv Hi Hiso Hlist Ha H0 Hm Hg.
  unfold ioapic_redirect_irq. erewrite bind_ret_eq; [|reflexivity]. rewrite (u8_small vector), (u8_small irq) by done.
  destruct (redirect_irq_loop_ok lapic_id vector irq status (iso_list (k_acpi s)) s Hi Hiso) as (lg & E).
  rewrite E. fold route.
  destruct (redirect_gsi_says log_speaks (fun _ _ _ _ => I) lapic_id vector (fst route) (snd route) status l (logged lg s) I)
    as (s' & E' & _ & [lg' ->]); try done.
  exists lg'. rewrite E', (u8_small vector) by done. reflexivity.
Qed.
Lemma irq_redirect_ok l irq vector s t : is_u8 irq -> is_u8 vector -> irq_line_ok l irq s ->
  exists lg, ioapic_redirect_irq (bsp_lapic_id (k_lapic s)) vector irq true (after_io t s) =
    Ret tt (logged lg (after_io (irq_redirect irq vector s t ++ t) s)).
Proof.
  intros Hi Hv [K1 K2 K3 K4 K5]. destruct (K5 t) as [K6 K7].
  destruct (ioapic_redirect_irq_ok (bsp_lapic_id (k_lapic s)) vector irq true l (after_io t s)) as (lg & E); try done.
  exists lg. rewrite E. by rewrite after_io_app.
Qed.

(** C21: routing a line. Under the firmware's first I/O APIC, an interrupt line
    (after the override the MADT gives for it) that lies below the last line of
    that I/O APIC is programmed by exactly these accesses: the version register
    is asked, then the low and the high half of the redirection entry go to
    registers 16 + 2n and 17 + 2n, n counted from the first line; bit for bit
    the entry holds the vector, the override's polarity and trigger mode, the
    mask and the destination. Memory is unchanged. *)
Theorem ioapic_redirect_irq_programs lapic_id vector irq status l s :
  let route := iso_route (smem s) irq (iso_list (k_acpi s)) in
  let gsi := u8 (fst route) in
  let e := redirect_entry lapic_id vector (u16 (snd route)) status in
  is_u8 lapic_id -> is_u8 vector -> is_u8 irq ->
  Forall (fun p => p <> 0 -> region p 10 (smem s)) (iso_list (k_acpi s)) ->
  ioapic_list (k_acpi s) = p :: l -> ioapic_at (smem s) p addr gb ->
  0 <= gb -> gb + last_line s < 2 ^ 64 -> gb <= gsi < gb + last_line s ->
  (exists s', ioapic_redirect_irq lapic_id vector irq status s = Ret tt s' /\
     k_io s' = redirect_trace s (gsi - gb) e ++ k_io s /\ smem s' = smem s) /\
  (forall i, 0 <= i < 64 -> Z.testbit e i =
     if decide (i < 8) then Z.testbit vector i
     else if decide (i = 13) then Z.testbit (u16 (snd route)) 1
     else if decide (i = 15) then Z.testbit (u16 (snd route)) 3
     else if decide (i = 16) then negb status
     else if decide (56 <= i) then Z.testbit lapic_id (i - 56)
     else false).
Proof.
  intros route gsi e Hl Hv Hi Hiso Hlist Ha H0 Hm Hg.
  split; [|intros i Hb; by apply redirect_entry_bit].
  destruct (ioapic_redirect_irq_ok lapic_id vector irq status l s) as (lg & E); try done.
  rewrite E. eexists. split; [reflexivity|]. done.
Qed.

(** C40: lines outside the only I/O APIC. Where the array holds one I/O APIC and
    free slots behind it, a line that is not among those from its first up to
    below the number the version register gives for the last one is found in no
    I/O APIC: the last line itself, every line past it, every line before the
    first. ioapic_redirect_irq then goes on with the NULL pointer: with no
    memory at address 8 that is a page fault. *)
Theorem ioapic_last_line_faults lapic_id vector irq status l s :
  let gsi := u8 (fst (iso_route (smem s) irq (iso_list (k_acpi s)))) in
  is_u8 irq ->
  Forall (fun p => p <> 0 -> region p 10 (smem s)) (iso_list (k_acpi s)) ->
  ioapic_list (k_acpi s) = p :: 0 :: l -> ioapic_at (smem s) p addr gb ->
  0 <= gb -> gb + last_line s < 2 ^ 64 -> ~ (gb <= gsi < gb + last_line s) ->
  smem s !! 8 = None ->
  ioapic_redirect_irq lapic_id vector irq status s = Fault (Unmapped 8).
Proof.
  intros gsi Hi Hiso Hlist Ha H0 Hm Hg Hn.
  unfold ioapic_redirect_irq. erewrite bind_ret_eq; [|reflexivity]. rewrite (u8_small irq) by done.
  destruct (redirect_irq_loop_ok lapic_id (u8 vector) irq status (iso_list (k_acpi s)) s Hi Hiso) as (lg & E).
  rewrite E. set (r := iso_route _ _ _) in *. unfold _ioapic_redirect_gsi. cbv zeta.
  assert (Hget : exists t, _get_ioapic_from_gsi (u8 (fst r)) (logged lg s) = Ret 0 (after_io t (logged lg s))).
  { unfold _get_ioapic_from_gsi. erewrite bind_ret_eq; [|reflexivity].
    change (ioapic_list (k_acpi (logged lg s))) with (ioapic_list (k_acpi s)).
    rewrite Hlist, (get_ioapic_loop_ok (logged lg s) (u8 (fst r)) (0 :: l) Ha Hm H0).
    change (last_line (logged lg s)) with (last_line s). fold gsi.
    destruct (Z.leb_spec gb gsi); [|by exists []].
    rewrite (proj2 (Z.ltb_ge _ _)) by lia. by eexists. }
  destruct Hget as [t Et]. rewrite (bind_ret_eq _ _ _ _ _ Et).
  unfold mbind, M_bind. rewrite load_unmapped; [done|]. intros Hr.
  destruct (Hr 8) as [x Hx]; [unfold off_gsi_base; lia|].
  change (smem s !! 8 = Some x) in Hx. congruence.
Qed.
End ioapic_props.

(** An I/O APIC of 24 lines, whose version register is 0x170020, and firmware
    entries for it (at 64) and for an override of line 0 (at 80). *)
#[local] Instance ioapic_hardware : Hardware := {|
  device _ _ := 0x170020; cpuid_regs _ _ := (0, 0, 0, 0); stale_eax := 0; patience := 4 |}.
Definition ioapic_mem (gsi : Z) : memory :=
  wr 4 84 gsi (wr 2 88 0xF (wr 4 68 0xFEC00000 (zeros 64 32))).
(** The program's arrays with one entry. *)
Definition ioapic_slots (p : Z) : list Z := p :: replicate (IOAPIC_LIST_LEN - 1) 0.
Definition iso_slots (p : Z) : list Z := p :: replicate (ISO_LIST_LEN - 1) 0.
Definition ioapic_kernel (gsi : Z) : kernel :=
  set_k_acpi (AcpiGlobals 0 0 0 0 0 0 0 (ioapic_slots 64) (iso_slots 80)) (kernel_at (ioapic_mem gsi) (2 ^ 47) 0 40).

Lemma ioapic_mem_region gsi a n : 64 <= a -> a + n <= 96 -> region a n (ioapic_mem gsi).
Proof.
  intros Ha Hn. unfold ioapic_mem. do 3 apply region_wr.
  apply (region_sub _ _ _ _ _ (region_zeros 64 32)); lia.
Qed.
Lemma ioapic_kernel_isos gsi :
  Forall (fun p => p <> 0 -> region p 10 (smem (ioapic_kernel gsi))) (iso_list (k_acpi (ioapic_kernel gsi))).
Proof.
  apply Forall_cons. split; [|by apply Forall_replicate]. intros _.
  change (region 80 10 (ioapic_mem gsi)). by apply ioapic_mem_region.
Qed.
Lemma ioapic_kernel_at gsi : 
  rd 4 68 (ioapic_mem gsi) = 0xFEC00000 -> rd 4 72 (ioapic_mem gsi) = 0 ->
  ioapic_at (smem (ioapic_kernel gsi)) 64 0xFEC00000 0.
Proof.
  intros E1 E2. split; [done| |exact E1|exact E2].
  change (region 64 12 (ioapic_mem gsi)). by apply ioapic_mem_region.
Qed.

Lemma ioapic_redirect_irq_programs_witness :
  (exists s', ioapic_redirect_irq 0 32 0 true (ioapic_kernel 2) = Ret tt s' /\
     k_io s' = redirect_trace 0xFEC00000 (ioapic_kernel 2) 2 (redirect_entry 0 32 0xF true) /\
     smem s' = smem (ioapic_kernel 2)) /\
  redirect_entry 0 32 0xF true = 2 ^ 15 + 2 ^ 13 + 32.
Proof.
  split; [|by vm_compute].
  assert (Hr : iso_route (smem (ioapic_kernel 2)) 0 (iso_list (k_acpi (ioapic_kernel 2))) = (2, 0xF)) by (by vm_compute).
  destruct (ioapic_redirect_irq_programs 64 0xFEC00000 0 0 32 0 true (replicate 31 0) (ioapic_kernel 2)) as [(s' & E & Hio & Hm) _];
    [done|done|done|apply ioapic_kernel_isos|done|by apply ioapic_kernel_at; vm_compute|done|done| |].
  - rewrite Hr. done.
  - exists s'. split; [exact E|]. split; [|exact Hm]. rewrite Hr in Hio.
    change (k_io (ioapic_kernel 2)) with (@nil io) in Hio. rewrite app_nil_r in Hio. exact Hio.
Defined.

Lemma ioapic_last_line_faults_witness :
  ioapic_redirect_irq 0 32 0 true (ioapic_kernel 23) = Fault (Unmapped 8).
Proof.
  assert (Hr : iso_route (smem (ioapic_kernel 23)) 0 (iso_list (k_acpi (ioapic_kernel 23))) = (23, 0xF)) by (by vm_compute).
  apply (ioapic_last_line_faults 64 0xFEC00000 0 0 32 0 true (replicate 30 0) (ioapic_kernel 23));
    [done|apply ioapic_kernel_isos|done|by apply ioapic_kernel_at; vm_compute|done|done| |].
  - rewrite Hr. change (last_line 0xFEC00000 (ioapic_kernel 23)) with 23. change (u8 (fst (23, 0xF))) with 23. lia.
  - by vm_compute.
Defined.
