(* ===== verification/Hpet.v ===== *)
(** * hpet.c: the high precision event timer *)
From S2P Require Import Prelude Machine Pmm Slob Kstate Acpi Ioapic.

Definition FEMTOSECS_PER_SEC : Z := 1000000000000000.
Definition HPET_REG_MAIN_COUNTER : Z := 0x0F0.
Definition HPET_REG_TIMER_CFG : Z := 0x100.
Definition HPET_REG_TIMER_SIZE : Z := 0x20.
Definition HPET_REG_TIMER_COMP : Z := 0x108.
Definition HPET_REG_TIMER_COMP_SIZE : Z := 0x20.
Definition TIMER_VECTOR : Z := 32.
(** struct hpet_regs and the address field of the ACPI table. *)
Definition off_capabilities : Z := 0x00.
Definition off_config : Z := 0x10.
Definition off_interrupt_status : Z := 0x20.
Definition off_hpet_address : Z := 44.

Section hpet.
Context `{Hardware}.

Definition hpet_get (f : hpet_globals -> Z) : M kernel Z := gets (fun s => f (k_hpet s)).
Definition _timer_config_reg (n : Z) : M kernel Z :=
  b ← hpet_get base_addr; mret (b +64 (HPET_REG_TIMER_CFG + (HPET_REG_TIMER_SIZE *32 n))).
Definition _timer_comparator_reg (n : Z) : M kernel Z :=
  b ← hpet_get base_addr; mret (b +64 (HPET_REG_TIMER_COMP + (HPET_REG_TIMER_COMP_SIZE *32 n))).
Definition hpet_read (offset : Z) : M kernel Z := b ← hpet_get base_addr; mmio_read 8 (b + offset).
Definition hpet_write (offset val : Z) : M kernel unit :=
  b ← hpet_get base_addr; mmio_write 8 (b + offset) val.

(** [*reg |= mask] and [*reg &= mask] on a volatile 64-bit register. *)
Definition mmio_or (a mask : Z) : M kernel unit := v ← mmio_read 8 a; mmio_write 8 a (Z.lor v (u64 mask)).
Definition mmio_and (a mask : Z) : M kernel unit := v ← mmio_read 8 a; mmio_write 8 a (Z.land v (u64 mask)).

Definition hpet_disable : M kernel unit :=
  r ← hpet_get hpet_regs; mmio_and (r + off_config) (Z.lnot 1).
Definition hpet_enable : M kernel unit :=
  r ← hpet_get hpet_regs; mmio_or (r + off_config) 1.
Definition hpet_reset : M kernel unit := hpet_disable ;; mod_hpet (set__ticks 0).
Definition hpet_ack : M kernel unit :=
  r ← hpet_get hpet_regs; mmio_and (r + off_interrupt_status) (Z.lnot 1).

Definition ms_to_ticks (frequency ms : Z) : Z := (frequency `div` 1000) *64 ms.

Definition hpet_one_shot (ms : Z) : M kernel unit :=
  hpet_reset ;;
  c ← hpet_get hpet_main_counter;
  mmio_write 8 c 0 ;;
  timer_config ← _timer_config_reg 0;
  mmio_and timer_config (Z.lnot (Z.shiftl 1 3)) ;;
  timer_comp ← _timer_comparator_reg 0;
  f ← hpet_get hpet_frequency;
  mmio_write 8 timer_comp (ms_to_ticks f ms) ;;
  mmio_or timer_config (Z.shiftl 1 2) ;;
  hpet_enable.

(** The interrupt handler is the only one to change [_ticks], so the wait of
    hpet_sleep spins until it runs. *)
Definition hpet_sleep (ms : Z) : M kernel unit :=
  hpet_one_shot ms ;;
  t ← hpet_get _ticks;
  (if t =? 0 then spin else mret tt) ;;
  hpet_disable.

(** [while ( *hpet_main_counter < limit);] *)
Definition counter_iter (limit : Z) (_ : unit) : M kernel (unit + unit) :=
  c ← hpet_get hpet_main_counter;
  v ← mmio_read 8 c;
  mret (if v <? limit then inl tt else inr tt).

Definition hpet_sleep_counter (ms : Z) : M kernel unit :=
  hpet_disable ;;
  timer_config ← _timer_config_reg 0;
  mmio_and timer_config (Z.lnot (Z.shiftl 1 2)) ;;
  c ← hpet_get hpet_main_counter;
  mmio_write 8 c 0 ;;
  f ← hpet_get hpet_frequency;
  let limit := ms_to_ticks f ms in
  hpet_enable ;;
  loop patience (counter_iter limit) tt ;;
  hpet_disable.

Definition hpet_isr : M kernel unit :=
  t ← hpet_get _ticks; mod_hpet (set__ticks (t +64 1)).

(** The capability bits only go to a buffer no one reads (a debug print). *)
Definition hpet_init : M kernel unit :=
  kprintf ("HPET Initializing..." +:+ nl) [] ;;
  h ← gets (fun s => hpet (k_acpi s));
  a ← load 8 (h + off_hpet_address);
  hhdm ← vmm_offset;
  mod_hpet (set_base_addr (a +64 hhdm)) ;;
  b ← hpet_get base_addr;
  kprintf ("  Base: 0x%X" +:+ nl) [KNum b] ;;
  mod_hpet (set_hpet_regs b) ;;
  mod_hpet (set_hpet_main_counter (b +64 HPET_REG_MAIN_COUNTER)) ;;
  kprintf ("HPET Capabilites:" +:+ nl) [] ;;
  r ← hpet_get hpet_regs;
  c ← mmio_read 8 (r + off_capabilities);
  kprintf ("  HPET Num Timers: %d" +:+ nl) [KNum (Z.land (Z.shiftr c 8) 0x1F)] ;;
  c ← mmio_read 8 (r + off_capabilities);
  kprintf ("  HPET Legacy Route Capable: %d" +:+ nl) [KNum (Z.land (Z.shiftr c 15) 1)] ;;
  c ← mmio_read 8 (r + off_capabilities);
  kprintf ("  HPET 64-Bit Counter: %d" +:+ nl) [KNum (Z.land (Z.shiftr c 13) 1)] ;;
  c ← mmio_read 8 (r + off_capabilities);
  let tick_period := u32 (Z.shiftr c 32) in
  kprintf ("  HPET Tick Period: %d" +:+ nl) [KNum tick_period] ;;
  (if tick_period =? 0 then fail DivByZero else mret tt) ;;
  mod_hpet (set_hpet_frequency (FEMTOSECS_PER_SEC `div` tick_period)) ;;
  f ← hpet_get hpet_frequency;
  kprintf ("  HPET Frequency: %d" +:+ nl) [KNum f] ;;
  kprintf ("HPET Config:" +:+ nl) [] ;;
  c ← mmio_read 8 (r + off_config);
  kprintf ("  HPET Legacy Replacement Route Supported: %d" +:+ nl) [KNum (Z.land (Z.shiftr c 1) 1)] ;;
  c ← mmio_read 8 (r + off_config);
  kprintf ("  HPET Overall Enable: %d" +:+ nl) [KNum (Z.land c 1)] ;;
  timer_config ← _timer_config_reg 0;
  mmio_read 8 timer_config ;;
  mmio_or timer_config (Z.shiftl 0 9) ;;
  mmio_or timer_config (Z.shiftl 1 3) ;;
  mmio_or timer_config (Z.shiftl 1 2) ;;
  id ← gets (fun s => bsp_lapic_id (k_lapic s));
  ioapic_redirect_irq id TIMER_VECTOR 0 true ;;
  mod_hpet (set__ticks 0).
End hpet.
