(* ===== verification/HpetProps.v ===== *)
(** * hpet.c: the properties of the busy wait *)
From S2P Require Import Prelude Machine Pmm Slob Kstate VmProps Poll Hpet.

Section hpet_props.
Context `{Hardware}.

(** Read-modify-write of a register, and the functions that are one. *)
Definition rmw (a v : Z) : list io := [MmioWrite 8 a v; MmioRead 8 a].

(** The accesses behind [t] when register [a] is read and the value written back
    through [f]. *)
Definition rmw_at (a : Z) (f : Z -> Z) (t : list io) : list io :=
  rmw a (f (device t (MmioRead 8 a) `mod` 2 ^ 64)) ++ t.
Definition clear_bit (k v : Z) : Z := Z.clearbit v k.
Definition set_bit (k v : Z) : Z := Z.setbit v k.

Lemma land_clears v k : 0 <= k < 64 ->
  Z.land (v `mod` 2 ^ 64) (u64 (Z.lnot (Z.shiftl 1 k))) `mod` 2 ^ 64 = clear_bit k (v `mod` 2 ^ 64).
Proof.
  intros Hk. unfold u64, clear_bit. bitwise. rewrite Z.clearbit_eqb, testbit_mod_pow2, Z.land_spec, !testbit_mod_pow2 by lia.
  rewrite Z.lnot_spec, testbit_one_shift by lia.
  destruct (Z.eqb_spec k n); repeat case_bool_decide; subst; cbn; rewrite ?andb_false_r, ?andb_true_r; (done || lia).
Qed.
Lemma lor_sets v k : 0 <= k < 64 ->
  Z.lor (v `mod` 2 ^ 64) (u64 (Z.shiftl 1 k)) `mod` 2 ^ 64 = set_bit k (v `mod` 2 ^ 64).
Proof.
  intros Hk. unfold u64, set_bit. bitwise. rewrite Z.setbit_eqb, testbit_mod_pow2, Z.lor_spec, !testbit_mod_pow2 by lia.
  rewrite testbit_one_shift by lia.
  destruct (Z.eqb_spec k n); repeat case_bool_decide; subst; cbn; rewrite ?orb_false_r, ?orb_true_r; (done || lia).
Qed.

Lemma mmio_and_eq a k s : 0 <= k < 64 ->
  mmio_and a (Z.lnot (Z.shiftl 1 k)) s = Ret tt (set_k_io (rmw_at (u64 a) (clear_bit k) (k_io s)) s).
Proof. intros Hk. unfold rmw_at. rewrite <- land_clears by done. reflexivity. Qed.
Lemma mmio_or_eq a k s : 0 <= k < 64 ->
  mmio_or a (Z.shiftl 1 k) s = Ret tt (set_k_io (rmw_at (u64 a) (set_bit k) (k_io s)) s).
Proof. intros Hk. unfold rmw_at. rewrite <- lor_sets by done. reflexivity. Qed.

(** The registers hpet_sleep_counter works on. *)
Definition hpet_cfg (s : kernel) : Z := u64 (hpet_regs (k_hpet s) + off_config).
Definition hpet_cnt (s : kernel) : Z := u64 (hpet_main_counter (k_hpet s)).
Definition hpet_tmr (s : kernel) : Z := base_addr (k_hpet s) +64 (HPET_REG_TIMER_CFG + (HPET_REG_TIMER_SIZE *32 0)).

Lemma hpet_disable_eq s :
  hpet_disable s = Ret tt (set_k_io (rmw_at (hpet_cfg s) (clear_bit 0) (k_io s)) s).
Proof. apply (mmio_and_eq (hpet_regs (k_hpet s) + off_config) 0). lia. Qed.
Lemma hpet_enable_eq s :
  hpet_enable s = Ret tt (set_k_io (rmw_at (hpet_cfg s) (set_bit 0) (k_io s)) s).
Proof. apply (mmio_or_eq (hpet_regs (k_hpet s) + off_config) 0). lia. Qed.

Lemma counter_loop_eq fuel limit s :
  loop fuel (counter_iter limit) tt s =
  loop fuel (poll_iter (MmioRead 8 (u64 (hpet_main_counter (k_hpet s)))) (fun v => v `mod` 2 ^ 64 <? limit)) tt s.
Proof.
  apply (loop_ext_inv (fun t => k_hpet t = k_hpet s)); [|by intros [] t [] t' <- [= _ <-]|done].
  intros [] t <-. reflexivity.
Qed.

(** Whether the timer is enabled: bit 0 of the last value written to its
    configuration register. *)
Fixpoint enabled (cfg : Z) (t : list io) : bool :=
  match t with
  | [] => false
  | MmioWrite _ a v :: t' => if a =? cfg then Z.testbit v 0 else enabled cfg t'
  | _ :: t' => enabled cfg t'
  end.
Definition counter_value (c : io) (t : list io) : Z := device t c `mod` 2 ^ 64.

(** What the main counter promises: while the timer is enabled, a value below
    [limit] has grown after at most [d] reads in a row. Nothing is said of a
    disabled timer. *)
Definition counts (cfg : Z) (c : io) (limit : Z) (d : nat) : Prop :=
  forall t, enabled cfg t = true -> counter_value c t < limit ->
    exists j, (0 < j <= d)%nat /\ counter_value c t < counter_value c (replicate j c ++ t).

Lemma enabled_reads cfg w a k t : enabled cfg (replicate k (MmioRead w a) ++ t) = enabled cfg t.
Proof. by induction k. Qed.
Lemma enabled_set cfg t : enabled cfg (rmw_at cfg (set_bit 0) t) = true.
Proof.
  unfold rmw_at, rmw. cbn [app enabled]. rewrite Z.eqb_refl. apply Z.setbit_eq. lia.
Qed.

Lemma counts_settles cfg w a limit d n t :
  let c := MmioRead w a in
  counts cfg c limit d -> enabled cfg t = true -> 0 <= limit -> limit * Z.of_nat d < Z.of_nat n ->
  settles c (fun v => v `mod` 2 ^ 64 <? limit) n t.
Proof.
  intros c Hc Hon H0 Hn.
  assert (Hk : forall (r : nat) t, enabled cfg t = true -> limit <= counter_value c t + Z.of_nat r ->
    exists k, (k <= r * d)%nat /\ limit <= counter_value c (replicate k c ++ t)).
  { induction r as [|r IH]; intros t' Ht Hr; [exists 0%nat; cbn; split; lia|].
    destruct (Z.lt_ge_cases (counter_value c t') limit) as [Hlt|Hge]; [|exists 0%nat; split; [lia|done]].
    destruct (Hc t' Ht Hlt) as (j & Hj & Hgt).
    destruct (IH (replicate j c ++ t')) as (k & Hk & Hle); [by unfold c; rewrite enabled_reads|lia|].
    exists (k + j)%nat. split; [lia|]. by rewrite replicate_add, <- app_assoc. }
  pose proof (Z.mod_pos_bound (device t c) (2 ^ 64) ltac:(lia)) as Hv. fold (counter_value c t) in Hv.
  destruct (Hk (Z.to_nat limit) t Hon ltac:(lia)) as (k & Hle & Hlim).
  exists k. split; [|by apply Z.ltb_ge]. nia.
Qed.

(** The accesses of hpet_sleep_counter up to the wait, behind [t]: the timer is
    disabled, its interrupt is turned off, the counter is reset, the timer is
    enabled. *)
Definition sleep_started (s : kernel) (t : list io) : list io :=
  rmw_at (hpet_cfg s) (set_bit 0) (MmioWrite 8 (hpet_cnt s) 0 ::
    rmw_at (hpet_tmr s) (clear_bit 2) (rmw_at (hpet_cfg s) (clear_bit 0) t)).
(** All of them, with [k] reads of the counter. *)
Definition slept (s : kernel) (k : nat) (t : list io) : list io :=
  rmw_at (hpet_cfg s) (clear_bit 0) (replicate k (MmioRead 8 (hpet_cnt s)) ++ sleep_started s t).

Lemma hpet_sleep_counter_ok ms s d :
  let c := MmioRead 8 (hpet_cnt s) in
  let limit := ms_to_ticks (hpet_frequency (k_hpet s)) ms in
  let run := sleep_started s (k_io s) in
  counts (hpet_cfg s) c limit d -> limit * Z.of_nat d < Z.of_nat patience ->
  exists k, hpet_sleep_counter ms s = Ret tt (set_k_io (slept s (S k) (k_io s)) s) /\
    limit <= counter_value c (replicate k c ++ run) /\
    forall j, (j < k)%nat -> counter_value c (replicate j c ++ run) < limit.
Proof.
  intros c limit run Hc Hp. unfold hpet_sleep_counter.
  rewrite (bind_ret_eq _ _ _ _ _ (hpet_disable_eq s)).
  set (t1 := rmw_at (hpet_cfg s) _ _). erewrite bind_ret_eq; [|reflexivity].
  change (base_addr (k_hpet (set_k_io t1 s)) +64 _) with (hpet_tmr s).
  assert (E2 := mmio_and_eq (hpet_tmr s) 2 (set_k_io t1 s) ltac:(lia)).
  rewrite (u64_small (hpet_tmr s)) in E2 by apply u64_range. rewrite (bind_ret_eq _ _ _ _ _ E2). clear E2.
  do 3 (erewrite bind_ret_eq; [|reflexivity]). cbv zeta.
  lazymatch goal with |- context [(hpet_enable ≫= _) ?st] =>
    change st with (set_k_io (MmioWrite 8 (hpet_cnt s) 0 :: rmw_at (hpet_tmr s) (clear_bit 2) t1) s) end.
  rewrite (bind_ret_eq _ _ _ _ _ (hpet_enable_eq _)).
  lazymatch goal with |- context [mbind _ (loop _ _ _) ?st] => change st with (set_k_io run s); set (s1 := set_k_io run s) end.
  lazymatch goal with |- context [counter_iter ?l] => change l with limit end.
  destruct (poll_ok c (fun v => v `mod` 2 ^ 64 <? limit) patience s1) as (k & Hk & E & Hb & Hj).
  { apply (counts_settles (hpet_cfg s) 8 (hpet_cnt s) limit d); [done|apply enabled_set|apply u64_range|done]. }
  rewrite (bind_ret_eq _ _ _ _ _ (eq_trans (counter_loop_eq patience limit s1) E)), hpet_disable_eq.
  exists k. split; [reflexivity|]. split; [by apply Z.ltb_ge|]. intros j Hlt. by apply Z.ltb_lt, Hj.
Qed.

(** C30: the busy wait waits. Where the main counter counts while the timer is
    enabled (a value has grown after at most [d] reads) and the bound on polling
    is above [d] times the number of ticks asked for, hpet_sleep_counter
    returns, and its accesses are exactly these: bit 0 of the configuration
    register is cleared, bit 2 of timer 0's configuration is cleared, the
    counter is set to 0, bit 0 is set, the counter is read until the first value
    that reaches frequency / 1000 * ms and no further, bit 0 is cleared. The
    wait ends only because the timer was enabled. *)
Theorem hpet_sleep_counter_waits ms s d :
  let c := MmioRead 8 (hpet_cnt s) in
  let limit := ms_to_ticks (hpet_frequency (k_hpet s)) ms in
  let run := sleep_started s (k_io s) in
  counts (hpet_cfg s) c limit d -> limit * Z.of_nat d < Z.of_nat patience ->
  exists k, hpet_sleep_counter ms s = Ret tt (set_k_io (slept s (S k) (k_io s)) s) /\
    limit <= counter_value c (replicate k c ++ run) /\
    forall j, (j < k)%nat -> counter_value c (replicate j c ++ run) < limit.
Proof. apply hpet_sleep_counter_ok. Qed.
End hpet_props.

(** A timer that counts one tick in every two reads while it is enabled, and
    stands still while it is not. *)
Fixpoint half_ticks (cfg cnt : Z) (t : list io) : Z :=
  match t with
  | [] => 0
  | MmioWrite _ a v :: t' => if a =? cnt then 2 * v else half_ticks cfg cnt t'
  | _ :: t' => half_ticks cfg cnt t' + if enabled cfg t' then 1 else 0
  end.
Definition half_speed (cfg cnt : Z) (t : list io) (a : io) : Z :=
  match a with MmioRead 8 x => if x =? cnt then half_ticks cfg cnt t `div` 2 else 0 | _ => 0 end.
Lemma half_ticks_reads cfg cnt w a k t : enabled cfg t = true ->
  half_ticks cfg cnt (replicate k (MmioRead w a) ++ t) = half_ticks cfg cnt t + Z.of_nat k.
Proof.
  intros Ht. induction k as [|k IH]; cbn [replicate app half_ticks]; [lia|]. rewrite enabled_reads, Ht, IH. lia.
Qed.
Lemma half_speed_counts `{Hardware} cfg cnt limit :
  (forall t x, device t (MmioRead 8 x) = half_speed cfg cnt t (MmioRead 8 x)) -> limit < 2 ^ 64 ->
  counts cfg (MmioRead 8 cnt) limit 2.
Proof.
  intros Hd Hl t Ht Hlt. exists 2%nat. split; [lia|]. revert Hlt. unfold counter_value. rewrite !Hd. cbn [half_speed].
  rewrite Z.eqb_refl, half_ticks_reads by done. generalize (half_ticks cfg cnt t). intros n Hlt.
  replace (n + Z.of_nat 2) with (n + 1 * 2) by lia. rewrite Z.div_add by lia. revert Hlt. generalize (n `div` 2). clear n. intros n Hlt.
  pose proof (Z.mod_pos_bound n (2 ^ 64) ltac:(lia)).
  rewrite <- Zplus_mod_idemp_l, (Z.mod_small (n `mod` 2 ^ 64 + 1)) by lia. lia.
Qed.

(** That timer at 1 MHz. *)
#[local] Instance ticking : Hardware := {|
  device := half_speed 0x1010 0x10F0;
  cpuid_regs _ _ := (0, 0, 0, 0); stale_eax := 0; patience := 15000 |}.

Lemma hpet_sleep_counter_waits_witness :
  let s := set_k_hpet (HpetGlobals 0x1000 0x1000 0x10F0 1000000 0) (kernel_at ∅ 0 0 40) in
  let c := MmioRead 8 0x10F0 in
  exists k, hpet_sleep_counter 7 s = Ret tt (set_k_io (slept s (S k) []) s) /\
    7000 <= counter_value c (replicate k c ++ sleep_started s []) /\
    forall j, (j < k)%nat -> counter_value c (replicate j c ++ sleep_started s []) < 7000.
Proof.
  intros s c. apply (hpet_sleep_counter_waits 7 s 2).
  - by apply half_speed_counts.
  - vm_compute. done.
Defined.
