(* ===== verification/HpetInit.v ===== *)
(** * hpet.c: hpet_init *)
From S2P Require Import Prelude Machine Str Pmm Slob Kstate VmProps Poll Acpi Ioapic IoapicProps Hpet HpetProps.

Section hpet_init.
Context `{Hardware}.
Context (s : kernel) (p addr gb : Z) (l : list Z).

(** Where the timer's registers are, by the firmware's table. *)
Definition hpet_base : Z := rd 8 (hpet (k_acpi s) + off_hpet_address) (smem s) +64 vmm_higher_half_offset (slob_pmm (k_slob s)).
Definition hpet_caps : io := MmioRead 8 (u64 (hpet_base + off_capabilities)).
Definition hpet_conf : io := MmioRead 8 (u64 (hpet_base + off_config)).
Definition hpet_timer0 : Z := u64 (hpet_base +64 (HPET_REG_TIMER_CFG + (HPET_REG_TIMER_SIZE *32 0))).
(** The length of a tick in femtoseconds, by the last of four reads in a row. *)
Definition tick_period : Z := u32 (Z.shiftr (device (replicate 3 hpet_caps ++ k_io s) hpet_caps `mod` 2 ^ 64) 32).
Definition hpet_found (f : Z) : hpet_globals :=
  HpetGlobals hpet_base hpet_base (hpet_base +64 HPET_REG_MAIN_COUNTER) f 0.

Lemma rmw_or_bits a mask st : exists v, mmio_or a mask st = Ret tt (after_io (rmw (u64 a) v) st) /\
  forall i, 0 <= i < 64 -> Z.testbit v i =
    Z.testbit (device (k_io st) (MmioRead 8 (u64 a))) i || Z.testbit mask i.
Proof.
  eexists. split; [reflexivity|]. intros i Hi. change (8 * 8) with 64.
  rewrite testbit_mod_pow2, Z.lor_spec, !testbit_mod_pow2 by lia. unfold u64. rewrite testbit_mod_pow2 by lia.
  by rewrite bool_decide_eq_true_2 by lia.
Qed.

(** During the initialisation: globals, log and accesses have changed. *)
Definition starting (h : hpet_globals) (lg : list log_entry) (t : list io) : kernel := set_k_hpet h (logged lg (after_io t s)).
Lemma starting_read h lg t a : mmio_read 8 a (starting h lg t) =
  Ret (device (t ++ k_io s) (MmioRead 8 (u64 a)) `mod` 2 ^ 64) (starting h lg (MmioRead 8 (u64 a) :: t)).
Proof. done. Qed.
Lemma starting_log h lg t fmt args : kprintf fmt args (starting h lg t) = Ret tt (starting h (Log fmt args :: lg) t).
Proof. done. Qed.
Lemma starting_mod h lg t f : mod_hpet f (starting h lg t) = Ret tt (starting (f h) lg t).
Proof. done. Qed.
Lemma starting_get h lg t f : hpet_get f (starting h lg t) = Ret (f h) (starting h lg t).
Proof. done. Qed.
Lemma starting_timer h lg t : base_addr h = hpet_base ->
  _timer_config_reg 0 (starting h lg t) = Ret hpet_timer0 (starting h lg t).
Proof. intros E. unfold hpet_timer0, _timer_config_reg. rewrite (bind_ret_eq _ _ _ _ _ (starting_get _ _ _ _)), E. by rewrite (u64_small (_ +64 _)) by apply u64_range. Qed.
Lemma starting_line h lg : irq_line_ok p addr gb l 0 s -> irq_line_ok p addr gb l 0 (starting h lg []).
Proof. intros [K1 K2 K3 K4 K5]. by split. Qed.
Lemma starting_or h lg t a mask : exists v, mmio_or a mask (starting h lg t) = Ret tt (starting h lg (rmw (u64 a) v ++ t)) /\
  forall i, 0 <= i < 64 -> Z.testbit v i = Z.testbit (device (t ++ k_io s) (MmioRead 8 (u64 a))) i || Z.testbit mask i.
Proof. exact (rmw_or_bits a mask (starting h lg t)). Qed.

Hypothesis Htable : region (hpet (k_acpi s) + off_hpet_address) 8 (smem s).

Ltac start_step := first
  [ rewrite (bind_ret_eq _ _ _ _ _ (starting_log _ _ _ _ _)) | rewrite (bind_ret_eq _ _ _ _ _ (starting_mod _ _ _ _))
  | rewrite (bind_ret_eq _ _ _ _ _ (starting_get _ _ _ _)) | rewrite (bind_ret_eq _ _ _ _ _ (starting_read _ _ _ _)) ].

(** The reads before the timer is configured. *)
Definition hpet_reads : list io := [MmioRead 8 hpet_timer0; hpet_conf; hpet_conf] ++ replicate 4 hpet_caps.

(** The second half of hpet_init, from the frequency on. *)
Definition hpet_configure : M kernel unit :=
  mod_hpet (set_hpet_frequency (FEMTOSECS_PER_SEC `div` tick_period)) ;;
  f ← hpet_get hpet_frequency;
  kprintf ("  HPET Frequency: %d" +:+ nl) [KNum f] ;;
  kprintf ("HPET Config:" +:+ nl) [] ;;
  c ← mmio_read 8 (hpet_base + off_config);
  kprintf ("  HPET Legacy Replacement Route Supported: %d" +:+ nl) [KNum (Z.land (Z.shiftr c 1) 1)] ;;
  c ← mmio_read 8 (hpet_base + off_config);
  kprintf ("  HPET Overall Enable: %d" +:+ nl) [KNum (Z.land c 1)] ;;
  timer_config ← _timer_config_reg 0;
  mmio_read 8 timer_config ;;
  mmio_or timer_config (Z.shiftl 0 9) ;;
  mmio_or timer_config (Z.shiftl 1 3) ;;
  mmio_or timer_config (Z.shiftl 1 2) ;;
  id ← gets (fun s => bsp_lapic_id (k_lapic s));
  ioapic_redirect_irq id TIMER_VECTOR 0 true ;;
  mod_hpet (set__ticks 0).
Definition timer0_read : io := MmioRead 8 hpet_timer0.
Definition or_bit (t : list io) (v : Z) (k : option Z) : Prop :=
  forall i, 0 <= i < 64 -> Z.testbit v i = Z.testbit (device (t ++ k_io s) timer0_read) i || bool_decide (k = Some i).
Lemma hpet_init_ok :
  if tick_period =? 0 then hpet_init s = Fault DivByZero
  else irq_line_ok p addr gb l 0 s ->
    exists v1 v2 v3 lg, let t1 := rmw hpet_timer0 v1 ++ hpet_reads in
      let t2 := rmw hpet_timer0 v2 ++ t1 in let t3 := rmw hpet_timer0 v3 ++ t2 in
      hpet_init s = Ret tt (starting (hpet_found (FEMTOSECS_PER_SEC `div` tick_period)) lg
        (irq_redirect addr gb 0 TIMER_VECTOR s t3 ++ t3)) /\
      or_bit hpet_reads v1 None /\ or_bit t1 v2 (Some 3) /\ or_bit t2 v3 (Some 2).
Proof.
  assert (E : exists lg, hpet_init s = ((if tick_period =? 0 then fail DivByZero else mret tt) ;; hpet_configure) (starting
    (HpetGlobals hpet_base hpet_base (hpet_base +64 HPET_REG_MAIN_COUNTER) (hpet_frequency (k_hpet s)) (_ticks (k_hpet s)))
    lg (replicate 4 hpet_caps))).
  { unfold hpet_init. erewrite bind_ret_eq; [|reflexivity]. erewrite bind_ret_eq; [|reflexivity].
  erewrite bind_ret_eq; [|apply load_ok; exact Htable]. erewrite bind_ret_eq; [|reflexivity].
  match goal with |- context [mbind ?f (mod_hpet ?g) ?st] =>
    change st with (starting (k_hpet s) (Log ("HPET Initializing..." +:+ nl) [] :: klog (get_mach s)) []) end.
  match goal with |- context [mod_hpet (set_base_addr ?b)] => change b with hpet_base end.
  do 5 start_step. set (h := set_hpet_main_counter _ _).
  assert (Eh : h = HpetGlobals hpet_base hpet_base (hpet_base +64 HPET_REG_MAIN_COUNTER) (hpet_frequency (k_hpet s)) (_ticks (k_hpet s))) by reflexivity.
  clearbody h. rewrite Eh. clear Eh h. set (h := HpetGlobals _ _ _ _ _). cbn [base_addr].
  repeat start_step. cbn [hpet_regs h]. fold hpet_caps.
    change (u32 (Z.shiftr (device ([hpet_caps; hpet_caps; hpet_caps] ++ k_io s) hpet_caps `mod` 2 ^ 64) 32)) with tick_period.
    match goal with |- context [starting h ?lg ?t] => exists lg; change t with (replicate 4 hpet_caps) end.
    unfold hpet_configure. generalize tick_period. intros tp. reflexivity. }
  destruct E as [lg0 E]. rewrite E. clear E. destruct (Z.eqb_spec tick_period 0) as [_|Hp]; [done|]. intros Hl.
  rewrite (bind_ret_eq (mret tt) _ _ tt _ eq_refl). unfold hpet_configure.
  set (h := HpetGlobals _ _ _ _ _). repeat start_step. cbn [hpet_regs h]. fold hpet_conf.
  set (h' := set_hpet_frequency _ h). match goal with |- context [starting h' ?lg _] => set (lg1 := lg) end.
  rewrite (bind_ret_eq _ _ _ _ _ (starting_timer h' lg1 _ eq_refl)), (bind_ret_eq _ _ _ _ _ (starting_read _ _ _ _)).
  assert (Eu : u64 hpet_timer0 = hpet_timer0) by (apply u64_small, u64_range). rewrite Eu.
  destruct (starting_or h' lg1 hpet_reads hpet_timer0 (Z.shiftl 0 9)) as (v1 & E1 & B1). rewrite Eu in E1, B1.
  rewrite (bind_ret_eq _ _ _ _ _ E1). set (t1 := rmw hpet_timer0 v1 ++ hpet_reads).
  destruct (starting_or h' lg1 t1 hpet_timer0 (Z.shiftl 1 3)) as (v2 & E2 & B2). rewrite Eu in E2, B2.
  rewrite (bind_ret_eq _ _ _ _ _ E2). set (t2 := rmw hpet_timer0 v2 ++ t1) in *.
  destruct (starting_or h' lg1 t2 hpet_timer0 (Z.shiftl 1 2)) as (v3 & E3 & B3). rewrite Eu in E3, B3.
  rewrite (bind_ret_eq _ _ _ _ _ E3). set (t3 := rmw hpet_timer0 v3 ++ t2) in *.
  erewrite bind_ret_eq; [|reflexivity].
  destruct (irq_redirect_ok p addr gb l 0 TIMER_VECTOR (starting h' lg1 []) t3) as (lg2 & E);
    [done|done|by apply starting_line|].
  change (after_io t3 (starting h' lg1 [])) with (starting h' lg1 t3) in E.
  change (bsp_lapic_id (k_lapic (starting h' lg1 []))) with (bsp_lapic_id (k_lapic (starting h' lg1 t3))) in E.
  change (irq_redirect addr gb 0 TIMER_VECTOR (starting h' lg1 []) t3) with (irq_redirect addr gb 0 TIMER_VECTOR s t3) in E.
  rewrite (bind_ret_eq _ _ _ _ _ E). exists v1, v2, v3, lg2. split; [reflexivity|].
  unfold or_bit, timer0_read. split_and!; intros i Hi.
  - rewrite B1 by done. f_equal. change (Z.shiftl 0 9) with 0. by rewrite Z.bits_0, bool_decide_eq_false_2.
  - rewrite B2, testbit_one_shift by lia. f_equal. apply bool_decide_ext. split; congruence.
  - rewrite B3, testbit_one_shift by lia. f_equal. apply bool_decide_ext. split; congruence.
Qed.

End hpet_init.

(** C36: the timer is found and set up. With the firmware's table, hpet_init
    takes its register addresses from it and the frequency, 10^15 over the tick
    period, from the capability register; it reads that register four times,
    then turns on, bit by bit and leaving the others as read, timer 0's periodic
    mode and its interrupt, and routes IRQ 0 to the timer's vector; these are
    its only accesses, and memory is unchanged. A period of zero divides by
    zero, and where acpi_init found no table it reads through NULL. *)
Theorem hpet_init_starts `{Hardware} s p addr gb l :
  if hpet (k_acpi s) =? 0 then
    smem s !! off_hpet_address = None -> hpet_init s = Fault (Unmapped off_hpet_address)
  else
    region (hpet (k_acpi s) + off_hpet_address) 8 (smem s) ->
    if tick_period s =? 0 then hpet_init s = Fault DivByZero
    else irq_line_ok p addr gb l 0 s ->
      exists v1 v2 v3 s', let t1 := rmw (hpet_timer0 s) v1 ++ hpet_reads s in
        let t2 := rmw (hpet_timer0 s) v2 ++ t1 in let t3 := rmw (hpet_timer0 s) v3 ++ t2 in
        hpet_init s = Ret tt s' /\
        k_hpet s' = hpet_found s (FEMTOSECS_PER_SEC `div` tick_period s) /\
        k_io s' = irq_redirect addr gb 0 TIMER_VECTOR s t3 ++ t3 ++ k_io s /\ smem s' = smem s /\
        or_bit s (hpet_reads s) v1 None /\ or_bit s t1 v2 (Some 3) /\ or_bit s t2 v3 (Some 2).
Proof.
  destruct (Z.eqb_spec (hpet (k_acpi s)) 0) as [Hz|_].
  - intros Hn. unfold hpet_init. do 2 (erewrite bind_ret_eq; [|reflexivity]).
    change (hpet (k_acpi (set_mach _ s))) with (hpet (k_acpi s)). rewrite Hz.
    unfold mbind, M_bind. rewrite load_unmapped; [done|]. intros Hr.
    destruct (Hr off_hpet_address) as [v Hv]; [unfold off_hpet_address; lia|].
    change (smem s !! off_hpet_address = Some v) in Hv. by rewrite Hn in Hv.
  - intros Hr. pose proof (hpet_init_ok s p addr gb l Hr) as Hok. destruct (tick_period s =? 0); [done|].
    intros Hl. destruct (Hok Hl) as (v1 & v2 & v3 & lg & E & B1 & B2 & B3). exists v1, v2, v3. eexists.
    split; [exact E|]. split; [reflexivity|]. split; [|by split_and!].
    cbn [k_io starting set_k_hpet logged set_mach kernel_machine set_k_slob after_io set_k_io]. by rewrite <- app_assoc.
Qed.

(** The I/O APIC of [IoapicProps] and a timer of 100 MHz whose table is at 1000. *)
#[local] Instance hpet_hardware : Hardware := {|
  device _ a := match a with MmioRead 8 _ => 10000000 * 2 ^ 32 | _ => 0x170020 end;
  cpuid_regs _ _ := (0, 0, 0, 0); stale_eax := 0; patience := 4 |}.
Definition hpet_table_mem : memory := wr 8 1044 0xFED00000 (zeros 1000 56) ∪ ioapic_mem 2.
Definition hpet_kernel (m : memory) : kernel :=
  set_k_acpi (AcpiGlobals 0 0 0 0 1000 0 0 [64; 0] [80; 0]) (kernel_at m (2 ^ 47) 0 40).

Lemma hpet_init_starts_witness :
  exists s', hpet_init (hpet_kernel hpet_table_mem) = Ret tt s' /\ hpet_frequency (k_hpet s') = 100000000 /\
    hpet_regs (k_hpet s') = 2 ^ 47 + 0xFED00000.
Proof.
  assert (R1 : region 1000 56 hpet_table_mem) by (unfold hpet_table_mem; apply region_union_l, region_wr, region_zeros).
  assert (R2 : region 64 32 hpet_table_mem) by (unfold hpet_table_mem; apply region_union_r; by apply ioapic_mem_region).
  assert (V : rd 8 1044 hpet_table_mem = 0xFED00000 /\ rd 4 68 hpet_table_mem = 0xFEC00000 /\ rd 4 72 hpet_table_mem = 0 /\
    iso_route hpet_table_mem 0 [80; 0] = (2, 0xF)) by (split_and!; vm_compute; reflexivity).
  revert R1 R2 V. generalize hpet_table_mem. intros m R1 R2 (V1 & V2 & V3 & V4).
  assert (Ep : tick_period (hpet_kernel m) = 10000000) by (vm_compute; reflexivity).
  pose proof (hpet_init_starts (hpet_kernel m) 64 0xFEC00000 0 [0]) as Hh.
  change (hpet (k_acpi (hpet_kernel m))) with 1000 in Hh. rewrite Ep in Hh. cbn [Z.eqb] in Hh.
  destruct Hh as (v1 & v2 & v3 & s' & E & Eh & _).
  - change (smem (hpet_kernel m)) with m. apply (region_sub _ _ _ _ _ R1); unfold off_hpet_address; lia.
  - split.
    + apply Forall_cons. split; [|by apply Forall_singleton]. intros _. apply (region_sub _ _ _ _ _ R2); lia.
    + reflexivity.
    + split; [done|apply (region_sub _ _ _ _ _ R2); lia|exact V2|exact V3].
    + done.
    + intros t. change (irq_route 0 (hpet_kernel m)) with (iso_route m 0 [80; 0]). rewrite V4.
      change (last_line 0xFEC00000 (after_io t (hpet_kernel m))) with 23. by vm_compute.
  - exists s'. split; [exact E|]. rewrite Eh. split; [reflexivity|].
    change (rd 8 1044 m +64 2 ^ 47 = 2 ^ 47 + 0xFED00000). rewrite V1. reflexivity.
Defined.
