(* ===== verification/Lapic.v ===== *)
(** * lapic.c: the local APIC and its timer; cpu.c: the processors *)
From S2P Require Import Prelude Machine Atomic Pmm Slob Kstate Acpi Ioapic Hpet.

Definition IA32_APIC_BASE_MSR : Z := 0x1B.
Definition LAPIC_APICID : Z := 0x20.
Definition LAPIC_APICVER : Z := 0x30.
Definition LAPIC_EOI : Z := 0x0B0.
Definition LAPIC_SPURIOUS : Z := 0x0F0.
Definition LAPIC_ICRL : Z := 0x300.
Definition LAPIC_ICRH : Z := 0x310.
Definition LAPIC_LVT_TMR : Z := 0x320.
Definition LAPIC_TMRINITCNT : Z := 0x380.
Definition LAPIC_TMRCURRCNT : Z := 0x390.
Definition LAPIC_TMRDIV : Z := 0x3E0.
Definition LAPIC_DISABLE : Z := 0x10000.
Definition LAPIC_SW_ENABLE : Z := 0x100.
Definition TMR_PERIODC : Z := 0x20000.
Definition LAPICTMR_VECTOR : Z := 35.

Section lapic.
Context `{Hardware}.

Definition lapic_addr (offset : Z) : M kernel Z :=
  hhdm ← vmm_offset;
  b ← gets (fun s => apic_base (k_lapic s));
  mret (hhdm +64 b +64 offset).
Definition lapic_read (offset : Z) : M kernel Z := a ← lapic_addr offset; mmio_read 4 a.
Definition lapic_write (offset val : Z) : M kernel unit := a ← lapic_addr offset; mmio_write 4 a val.

Definition lapic_time_stop : M kernel unit :=
  lapic_write LAPIC_TMRINITCNT 0 ;;
  lapic_write LAPIC_LVT_TMR LAPIC_DISABLE.

Definition lapic_timer_init : M kernel unit :=
  lapic_write LAPIC_TMRDIV 0 ;;
  lapic_time_stop ;;
  lapic_write LAPIC_TMRINITCNT 0xFFFFFFFF ;;
  hpet_sleep_counter 100 ;;
  c ← lapic_read LAPIC_TMRCURRCNT;
  let ticksin100ms := 0xFFFFFFFF -32 c in
  lapic_time_stop ;;
  lapic_write LAPIC_TMRINITCNT (ticksin100ms *32 10) ;;
  lapic_write LAPIC_LVT_TMR (Z.lor LAPICTMR_VECTOR TMR_PERIODC).

Definition _check_lapic_cpuid : Z := Z.land (Z.shiftr (snd (cpuid 1)) 9) 1.

Definition lapic_init : M kernel unit :=
  istate ← set_interrupt_state false;
  b ← read_msr IA32_APIC_BASE_MSR;
  mod_lapic (set_apic_base b) ;;
  mod_lapic (set_apic_base (Z.land b 0xFFFFF000)) ;;
  b ← gets (fun s => apic_base (k_lapic s));
  kprintf ("LAPIC Base: %X" +:+ nl) [KNum b] ;;
  id ← lapic_read LAPIC_APICID;
  mod_lapic (set_lapic_id id) ;;
  apic_version ← lapic_read LAPIC_APICVER;
  kprintf ("LAPIC ID: %d" +:+ nl) [KNum id] ;;
  kprintf ("LAPIC Version: %d" +:+ nl) [KNum apic_version] ;;
  hhdm ← vmm_offset;
  apic_flags ← mmio_read 4 (hhdm +64 b);
  kprintf ("CPUID APIC Enabled: %d" +:+ nl) [KNum _check_lapic_cpuid] ;;
  kprintf ("MSR APIC Enabled: %d" +:+ nl) [KNum apic_flags] ;;
  v ← lapic_read LAPIC_SPURIOUS;
  lapic_write LAPIC_SPURIOUS (Z.lor (Z.lor v 0xFF) LAPIC_SW_ENABLE) ;;
  lapic_timer_init ;;
  set_interrupt_state istate ;;
  mret tt.

Definition lapic_raiseint (lapic_id vector : Z) : M kernel unit :=
  lapic_write LAPIC_ICRH (u32 (Z.shiftl lapic_id 24)) ;;
  lapic_write LAPIC_ICRL vector.
Definition lapic_eoi : M kernel unit := lapic_write LAPIC_EOI 0.

(** ** cpu.c *)

(** What a processor does when it is started; the arguments are the fields of
    its limine_smp_info. It ends in [hlt]. *)
Definition _cpu_awake (info_lapic_id info_processor_id : Z) : M kernel unit :=
  lapic_init ;;
  spinlock_lock (tas_global (fun s => _cpu_lock (k_lapic s))
    (fun v s => set_k_lapic (set__cpu_lock v (k_lapic s)) s)) ;;
  kprintf ("Waking up..." +:+ nl) [] ;;
  kprintf ("LAPIC ID: %d" +:+ nl) [KNum info_lapic_id] ;;
  kprintf ("Processor ID: %d" +:+ nl) [KNum info_processor_id] ;;
  n ← gets (fun s => _cpus_awake (k_lapic s));
  mod_lapic (set__cpus_awake (n +64 1)) ;;
  n ← gets (fun s => _cpus_awake (k_lapic s));
  kprintf ("Cores Online: %d" +:+ nl) [KNum n] ;;
  spinlock_unlock (fun v s => set_k_lapic (set__cpu_lock v (k_lapic s)) s) ;;
  io_do Hlt.

(** The arguments are the fields of the boot loader's SMP response. *)
Definition cpu_init (response_bsp_lapic_id response_cpu_count : Z) : M kernel unit :=
  mod_lapic (set_bsp_lapic_id response_bsp_lapic_id) ;;
  mod_lapic (set_cpu_count response_cpu_count) ;;
  kprintf ("BSP LAPIC ID: %d" +:+ nl) [KNum response_bsp_lapic_id] ;;
  kprintf ("CPU Count: %d" +:+ nl) [KNum response_cpu_count].

(** ** include/cpuid.h *)

(** Stores into the caller's buffer. *)
Definition get_cpu_vendor (buffer : Z) : M kernel unit :=
  let r := cpuid_regs 0 0 in
  store 4 buffer (ebx r) ;;
  store 4 (buffer + 4) (edx r) ;;
  store 4 (buffer + 8) (ecx r).

Definition get_cpu_brand (brandString : Z) : M kernel unit :=
  for_range 0 3 (fun i =>
    let r := cpuid_regs (0x80000002 + i) 0 in
    let ptr := brandString + 16 * i in
    store 4 ptr (eax r) ;;
    store 4 (ptr + 4) (ebx r) ;;
    store 4 (ptr + 8) (ecx r) ;;
    store 4 (ptr + 12) (edx r)).

(** The walk over the levels of leaf 0xB: (logical processors per core). *)
Definition topology_iter (lr : Z * (Z * Z * Z * Z)) : M kernel (Z * (Z * Z * Z * Z) + Z) :=
  let '(level, r) := lr in
  if Z.land (ecx r) 0xFF00 =? 0 then mret (inr 0)
  else
    let levelType := Z.land (Z.shiftr (ecx r) 8) 0xFF in
    if levelType =? 2 then mret (inr (Z.land (ebx r) 0xFFFF))
    else mret (inl (level +32 1, cpuid_regs 0xB (level +32 1))).
(** Returns the pair of results the C function stores through its pointers. *)
Definition get_cpu_topology : M kernel (Z * Z) :=
  let r := cpuid_regs 0xB 0 in
  let total := Z.land (ebx r) 0xFFFF in
  perCore ← loop patience topology_iter (0, r);
  mret (perCore, total).

Definition get_cpu_frequency : Z * Z * Z :=
  let r := cpuid_regs 0x16 0 in
  (Z.land (eax r) 0xFFFF, Z.land (ebx r) 0xFFFF, Z.land (ecx r) 0xFFFF).
End lapic.
