(* ===== verification/LapicProps.v ===== *)
(** * lapic.c: the properties of the local APIC's timer *)
From S2P Require Import Prelude Machine Pmm Slob Kstate VmProps Poll Hpet HpetProps Lapic.

Section lapic_props.
Context `{Hardware}.

(** A register of the local APIC, in the direct map. *)
Definition lapic_reg (s : kernel) (offset : Z) : Z :=
  u64 (vmm_higher_half_offset (slob_pmm (k_slob s)) +64 apic_base (k_lapic s) +64 offset).

Lemma lapic_write_ok offset v s :
  lapic_write offset v s = Ret tt (after_io [MmioWrite 4 (lapic_reg s offset) (u32 v)] s).
Proof. done. Qed.
Lemma lapic_read_ok offset s :
  lapic_read offset s = Ret (u32 (device (k_io s) (MmioRead 4 (lapic_reg s offset))))
    (after_io [MmioRead 4 (lapic_reg s offset)] s).
Proof. done. Qed.
Lemma lapic_time_stop_ok s :
  lapic_time_stop s = Ret tt (after_io [MmioWrite 4 (lapic_reg s LAPIC_LVT_TMR) LAPIC_DISABLE;
    MmioWrite 4 (lapic_reg s LAPIC_TMRINITCNT) 0] s).
Proof. done. Qed.

(** The accesses of lapic_timer_init up to the start of the timer, behind [t]:
    the divider, the timer stopped, the highest count. *)
Definition timer_started (s : kernel) (t : list io) : list io :=
  [MmioWrite 4 (lapic_reg s LAPIC_TMRINITCNT) (2 ^ 32 - 1); MmioWrite 4 (lapic_reg s LAPIC_LVT_TMR) LAPIC_DISABLE;
   MmioWrite 4 (lapic_reg s LAPIC_TMRINITCNT) 0; MmioWrite 4 (lapic_reg s LAPIC_TMRDIV) 0] ++ t.
(** Those behind the wait, for a timer that is to count from [n]. *)
Definition timer_restarted (s : kernel) (n : Z) (t : list io) : list io :=
  [MmioWrite 4 (lapic_reg s LAPIC_LVT_TMR) (LAPICTMR_VECTOR + TMR_PERIODC);
   MmioWrite 4 (lapic_reg s LAPIC_TMRINITCNT) n; MmioWrite 4 (lapic_reg s LAPIC_LVT_TMR) LAPIC_DISABLE;
   MmioWrite 4 (lapic_reg s LAPIC_TMRINITCNT) 0; MmioRead 4 (lapic_reg s LAPIC_TMRCURRCNT)] ++ t.

(** C26: the local APIC's timer is calibrated against the HPET. With the
    divider set and the timer stopped, it is started from the highest count;
    then the kernel waits as hpet_sleep_counter does until the HPET's counter,
    restarted from 0, has reached a tenth of a second, and reads how far the
    timer has counted down. It is stopped and restarted periodic, on its vector,
    with ten times that many ticks: one interrupt a second, as long as the
    product fits 32 bits. These are all its accesses, in this order, and nothing
    else of the state changes. The HPET counts while it is enabled (a value has
    grown after at most [d] reads), and the bound on polling is above [d] times
    the ticks of a tenth of a second. *)
Theorem lapic_timer_init_calibrates s d :
  let c := MmioRead 8 (hpet_cnt s) in
  let limit := ms_to_ticks (hpet_frequency (k_hpet s)) 100 in
  counts (hpet_cfg s) c limit d -> limit * Z.of_nat d < Z.of_nat patience ->
  exists k,
    let started := timer_started s (k_io s) in
    let run := sleep_started s started in
    let waited := slept s (S k) started in
    let ticks := 2 ^ 32 - 1 - u32 (device waited (MmioRead 4 (lapic_reg s LAPIC_TMRCURRCNT))) in
    limit <= counter_value c (replicate k c ++ run) /\
    (forall j, (j < k)%nat -> counter_value c (replicate j c ++ run) < limit) /\
    lapic_timer_init s = Ret tt (set_k_io (timer_restarted s (u32 (10 * ticks)) waited) s) /\
    (10 * ticks < 2 ^ 32 -> u32 (10 * ticks) = 10 * ticks).
Proof.
  intros c limit Hc Hp. unfold lapic_timer_init.
  rewrite (bind_ret_eq _ _ _ _ _ (lapic_write_ok _ _ s)).
  rewrite (bind_ret_eq _ _ _ _ _ (lapic_time_stop_ok _)), after_io_app.
  rewrite (bind_ret_eq _ _ _ _ _ (lapic_write_ok _ _ _)), after_io_app.
  match goal with |- context [after_io ?t s] => change (after_io t s) with (set_k_io (timer_started s (k_io s)) s) end.
  set (s1 := set_k_io (timer_started s (k_io s)) s).
  destruct (hpet_sleep_counter_ok 100 s1 d Hc Hp) as (k & E & Hlim & Hbusy).
  exists k. cbv zeta. split; [exact Hlim|]. split; [exact Hbusy|].
  rewrite (bind_ret_eq _ _ _ _ _ E). clear E.
  set (waited := slept s (S k) (timer_started s (k_io s))).
  match goal with |- context [mbind _ (lapic_read _) ?st] => change st with (set_k_io waited s) end.
  rewrite (bind_ret_eq _ _ _ _ _ (lapic_read_ok _ _)).
  rewrite (bind_ret_eq _ _ _ _ _ (lapic_time_stop_ok _)), after_io_app.
  change (k_io (set_k_io waited s)) with waited.
  change (lapic_reg (set_k_io waited s)) with (lapic_reg s). set (v := device waited _).
  pose proof (u32_range v) as Hv. unfold is_u32 in Hv. split.
  - rewrite (bind_ret_eq _ _ _ _ _ (lapic_write_ok _ _ _)), lapic_write_ok, !after_io_app.
    assert (Ev : u32 ((0xFFFFFFFF -32 u32 v) *32 10) = u32 (10 * (2 ^ 32 - 1 - u32 v))).
    { rewrite (u32_small (0xFFFFFFFF - u32 v)), Z.mul_comm by lia. by rewrite (u32_small (u32 _)) by apply u32_range. }
    rewrite Ev. reflexivity.
  - intros Hfit. apply u32_small. lia.
Qed.
End lapic_props.

(** The timer of [HpetProps] at 1 MHz, and a local APIC timer that counts down
    one for every tick. *)
#[local] Instance lapic_clock : Hardware := {|
  device t a := match a with
    | MmioRead 4 _ => 2 ^ 32 - 1 - half_ticks 0x1010 0x10F0 t `div` 2
    | _ => half_speed 0x1010 0x10F0 t a end;
  cpuid_regs _ _ := (0, 0, 0, 0); stale_eax := 0; patience := 201000 |}.
Definition lapic_kernel : kernel :=
  set_k_lapic (LapicGlobals 0xFEE00000 0 0 0 0 0)
    (set_k_hpet (HpetGlobals 0x1000 0x1000 0x10F0 1000000 0) (kernel_at ∅ (2 ^ 47) 0 40)).

Lemma lapic_timer_init_calibrates_witness :
  exists k, let waited := slept lapic_kernel (S k) (timer_started lapic_kernel []) in
    let ticks := 2 ^ 32 - 1 - u32 (device waited (MmioRead 4 (lapic_reg lapic_kernel LAPIC_TMRCURRCNT))) in
    lapic_timer_init lapic_kernel = Ret tt (set_k_io (timer_restarted lapic_kernel (u32 (10 * ticks)) waited) lapic_kernel).
Proof.
  destruct (lapic_timer_init_calibrates lapic_kernel 2) as (k & _ & _ & E & _).
  - by apply half_speed_counts.
  - vm_compute. done.
  - exists k. exact E.
Defined.
