(* ===== verification/Serial.v ===== *)
(** * serial.c and pit.c: port-driven devices *)
From S2P Require Import Prelude Machine Str Pmm Slob Kstate.

Section serial.
Context `{Hardware}.

Definition PORT_COM1 : Z := 0x3F8.

Definition init_serial (port : Z) : M kernel Z :=
  outb (port + 1) 0x00 ;;
  outb (port + 3) 0x80 ;;
  outb (port + 0) 0x03 ;;
  outb (port + 1) 0x00 ;;
  outb (port + 3) 0x03 ;;
  outb (port + 2) 0xC7 ;;
  outb (port + 4) 0x0B ;;
  outb (port + 4) 0x1E ;;
  outb (port + 0) 0xAE ;;
  v ← inb (port + 0);
  if negb (v =? 0xAE) then mret 1
  else outb (port + 4) 0x0F ;; mret 0.

Definition is_transmit_empty (port : Z) : M kernel Z := v ← inb (port + 5); mret (Z.land v 0x20).

(** [while (is_transmit_empty(port) == 0);] *)
Definition transmit_iter (port : Z) (_ : unit) : M kernel (unit + unit) :=
  v ← is_transmit_empty port; mret (if v =? 0 then inl tt else inr tt).
Definition write_serial (port a : Z) : M kernel unit :=
  loop patience (transmit_iter port) tt ;;
  outb port a.

(** At most 256 characters. *)
Fixpoint write_serial_loop (k : nat) (port str : Z) : M kernel unit :=
  match k with
  | O => mret tt
  | S k' =>
      c ← load 1 str;
      if c =? 0 then mret tt
      else write_serial port c ;; write_serial_loop k' port (str + 1)
  end.
Definition write_serial_str (port str : Z) : M kernel unit := write_serial_loop 256 port str.
(** [str] is the local buffer of 256 bytes. *)
Definition write_serial_strf (port str format : Z) (args : list Z) : M kernel unit :=
  vsnprintf str 256 format args ;;
  write_serial_str port str.

Definition pit_disable_timer : M kernel unit :=
  outb 0x43 0x30 ;;
  outb 0x40 0 ;;
  outb 0x40 0.
End serial.
