(* ===== verification/SerialProps.v ===== *)
(** * serial.c: the properties of the serial port *)
From S2P Require Import Prelude Machine Str StrProofs StrFormat Pmm Slob Kstate VmProps Poll Serial.

Section serial_props.
Context `{Hardware}.

(** The line status register, and what makes the transmitter busy. *)
Definition line_status (port : Z) : io := PortIn 1 (u16 (port + 5)).
Definition line_busy (v : Z) : bool := Z.land (u8 v) 0x20 =? 0.

(** The bytes a trace of accesses sent to the port, latest first. *)
Definition sent (port : Z) (t : list io) : list Z :=
  omap (fun a => match a with
                 | PortOut 1 p v => if p =? u16 port then Some v else None
                 | _ => None
                 end) t.

(** Every byte went out right after the status said the transmitter is empty. *)
Fixpoint paced (port : Z) (t : list io) : Prop :=
  match t with
  | [] => True
  | PortOut _ _ _ :: t' =>
      (exists t'', t' = line_status port :: t'' /\ line_busy (device t'' (line_status port)) = false) /\
      paced port t'
  | _ :: t' => paced port t'
  end.

Lemma sent_replicate port k t : sent port (replicate k (line_status port) ++ t) = sent port t.
Proof. induction k; done. Qed.
Lemma paced_replicate port k t : paced port t -> paced port (replicate k (line_status port) ++ t).
Proof. induction k; done. Qed.

Lemma write_serial_ok port c s :
  settles (line_status port) line_busy patience (k_io s) -> is_u8 c ->
  exists t, write_serial port c s = Ret tt (set_k_io t s) /\
    sent port t = c :: sent port (k_io s) /\ (paced port (k_io s) -> paced port t) /\ exists tr, t = tr ++ k_io s.
Proof.
  intros Hs Hc. unfold write_serial.
  destruct (poll_ok _ _ _ s Hs) as (k & Hk & E & Hb & _).
  exists (PortOut 1 (u16 port) (u8 c) :: replicate (S k) (line_status port) ++ k_io s).
  split; [|split].
  - erewrite bind_ret_eq; [|rewrite <- E; by apply loop_ext]. done.
  - cbn [sent omap list_omap]. fold (sent port (replicate (S k) (line_status port) ++ k_io s)).
    rewrite Z.eqb_refl, sent_replicate. by rewrite u8_small.
  - split; [|by eexists (_ :: replicate (S k) (line_status port))].
    intros Hp. split; [by eexists|]. by apply (paced_replicate port (S k)).
Qed.

Lemma write_serial_loop_ok port l : forall k str s,
  cstr (smem s) str l -> (forall t, settles (line_status port) line_busy patience t) ->
  exists t, write_serial_loop k port str s = Ret tt (set_k_io t s) /\
    sent port t = rev (take k l) ++ sent port (k_io s) /\ (paced port (k_io s) -> paced port t) /\
    exists tr, t = tr ++ k_io s.
Proof.
  induction l as [|c l IH]; intros k str s Hc Hr.
  - exists (k_io s). rewrite take_nil. split; [|split; [done|split; [done|by exists []]]].
    destruct k; [by destruct s|]. cbn [write_serial_loop].
    rewrite (bind_ret_eq _ _ _ _ _ (load_byte str 0 s (cstr_nil _ _ Hc) ltac:(lia))). by destruct s.
  - destruct k as [|k]; [exists (k_io s); split; [by destruct s|split; [done|split; [done|by exists []]]]|].
    destruct (cstr_cons _ _ _ _ Hc) as (Hp & Hc0 & Hrest). cbn [write_serial_loop].
    rewrite (bind_ret_eq _ _ _ _ _ (load_byte str c s Hp ltac:(lia))), (proj2 (Z.eqb_neq c 0)) by lia.
    destruct (write_serial_ok port c s (Hr _)) as (t & E & Hs & Hpc & tr & Etr); [unfold is_u8; lia|].
    rewrite (bind_ret_eq _ _ _ _ _ E).
    destruct (IH k (str + 1) (set_k_io t s) Hrest Hr) as (t' & E' & Hs' & Hpc' & tr' & Etr').
    exists t'. split; [exact E'|]. split; [|split; [by intros ?; apply Hpc', Hpc|]].
    2: { exists (tr' ++ tr). rewrite Etr'. cbn [k_io set_k_io]. by rewrite Etr, app_assoc. }
    rewrite Hs'. cbn [k_io set_k_io take rev]. by rewrite Hs, <- app_assoc.
Qed.

(** write_serial_str sends the string. On a device whose transmitter always
    empties within the bound on polling, it returns; the bytes that reach the
    port are those of the string in order, at most the first 256, each sent
    only after the line status said the transmitter is empty; nothing else of
    the kernel changes. *)
Theorem write_serial_str_sends port str l s :
  cstr (smem s) str l -> (forall t, settles (line_status port) line_busy patience t) ->
  exists t, write_serial_str port str s = Ret tt (set_k_io t s) /\
    sent port t = rev (take 256 l) ++ sent port (k_io s) /\ (paced port (k_io s) -> paced port t).
Proof. intros Hc Hr. destruct (write_serial_loop_ok port l 256 str s Hc Hr) as (t & E & Hs & Hp & _). eauto. Qed.
End serial_props.

(** A transmitter that is busy at every first look: it answers empty when the
    access before was a status read. *)
#[local] Instance slow_uart : Hardware := {|
  device t a := match t with PortIn _ _ :: _ => 0x60 | _ => 0 end;
  cpuid_regs _ _ := (0, 0, 0, 0); stale_eax := 0; patience := 4 |}.

Lemma write_serial_str_sends_witness :
  exists t, write_serial_str PORT_COM1 64 (kernel_at (<[64 := 72]> (<[65 := 105]> (<[66 := 0]> ∅))) 0 0 40) =
      Ret tt (set_k_io t (kernel_at (<[64 := 72]> (<[65 := 105]> (<[66 := 0]> ∅))) 0 0 40)) /\
    sent PORT_COM1 t = [105; 72] /\ (paced PORT_COM1 [] -> paced PORT_COM1 t).
Proof.
  apply (write_serial_str_sends PORT_COM1 64 [72; 105]).
  - split; [|done]. intros [|[|i]] c Hc; simpl in Hc; simplify_eq; done.
  - intros t. destruct t as [|[] t]; [exists 1%nat|exists 0%nat|exists 1%nat..]; (split; [cbn; lia|reflexivity]).
Defined.
