(* ===== verification/Desc.v ===== *)
(** * gdt.c and idt.c: the descriptor tables *)
From S2P Require Import Prelude Machine Pmm Slob Kstate Acpi Ioapic Hpet Lapic Queue.

(** ** gdt.c *)

Definition GDT_ENTRIES : nat := 3.
Definition sizeof_gdt_entry : Z := 8.
Definition SEGMENT_PRESENT : Z := 0x80.
Definition SEGMENT_EXECUTABLE : Z := 0x08.
Definition SEGMENT_READABLE : Z := 0x02.
Definition SEGMENT_WRITABLE : Z := 0x02.
Definition SEGMENT_GRANULARITY_BYTE : Z := 0x00.
Definition SEGMENT_SIZE_16BIT : Z := 0x00.
Definition SEGMENT_LONG_MODE : Z := 0x20.
Definition DESCRIPTOR_PRIVILEGE0 : Z := 0x00.
Definition DESCRIPTOR_TYPE_CODE : Z := 0x10.
Definition DESCRIPTOR_TYPE_DATA : Z := 0x10.

(** The descriptor set_gdt_entry builds. *)
Definition make_gdt_entry (base limit access gran : Z) : gdt_entry := {|
  gd_base_low := u16 (Z.land base 0xFFFF);
  gd_base_middle := u8 (Z.land (Z.shiftr base 16) 0xFF);
  gd_base_high := u8 (Z.land (Z.shiftr base 24) 0xFF);
  gd_limit_low := u16 (Z.land limit 0xFFFF);
  gd_granularity := Z.lor (u8 (Z.land (Z.shiftr limit 16) 0x0F)) (Z.land gran 0xF0);
  gd_access := access |}.

Definition set_gdt_entry (num base limit access gran : Z) : M kernel unit :=
  if (0 <=? num) && (num <? Z.of_nat GDT_ENTRIES)
  then mod_desc (fun d => set_gdt (<[Z.to_nat num := make_gdt_entry base limit access gran]> (gdt d)) d)
  else fail OutOfBounds.

(** The eight bytes of a packed descriptor, as one 64-bit number. *)
Definition gdt_bits (e : gdt_entry) : Z :=
  gd_limit_low e + 2 ^ 16 * gd_base_low e + 2 ^ 32 * gd_base_middle e + 2 ^ 40 * gd_access e +
  2 ^ 48 * gd_granularity e + 2 ^ 56 * gd_base_high e.

Section desc.
Context `{Hardware}.

(** lgdt and the far return that reloads the segment registers. *)
Definition _gdt_reload : M kernel unit :=
  b ← gets (fun s => gdtp_base (k_desc s)); io_do (Lgdt b).

(** [gdt_address] and [gdtp_address] are where the linker put the tables. *)
Definition init_gdt (gdt_address gdtp_address : Z) : M kernel unit :=
  mod_desc (set_gdtp_limit (u16 (sizeof_gdt_entry * Z.of_nat GDT_ENTRIES - 1))) ;;
  mod_desc (set_gdtp_base gdt_address) ;;
  set_gdt_entry 0 0 0 0 0 ;;
  set_gdt_entry 1 0 0xFFFFFFFF
    (Z.lor (Z.lor (Z.lor (Z.lor SEGMENT_PRESENT DESCRIPTOR_PRIVILEGE0) DESCRIPTOR_TYPE_CODE)
       SEGMENT_EXECUTABLE) SEGMENT_READABLE) SEGMENT_LONG_MODE ;;
  set_gdt_entry 2 0 0xFFFFFFFF
    (Z.lor (Z.lor (Z.lor SEGMENT_PRESENT DESCRIPTOR_PRIVILEGE0) DESCRIPTOR_TYPE_DATA) SEGMENT_WRITABLE)
    (Z.lor SEGMENT_GRANULARITY_BYTE SEGMENT_SIZE_16BIT) ;;
  _gdt_reload ;;
  kprintf ("Loading GDT at: 0x%X" +:+ nl) [KNum gdtp_address].

(** ** idt.c *)

Definition PRIVELEGE_RING0 : Z := 0x8E.
Definition KEYBOARD_VECTOR : Z := 33.
Definition IDT_LEN : nat := 256.
Definition sizeof_idt_entry : Z := 16.

Definition make_idt_entry (handler flags : Z) : idt_entry := {|
  id_base_low := u16 handler;
  id_base_mid := u16 (Z.shiftr handler 16);
  id_base_high := u32 (Z.shiftr handler 32);
  id_selector := 0x08;
  id_flags := flags;
  id_ist := 0;
  id_reserved := 0 |}.
Definition null_gate : idt_entry := IdtEntry 0 0 0 0 0 0 0.

Definition _idt_set_gate (vector handler flags : Z) : M kernel unit :=
  if (0 <=? vector) && (vector <? Z.of_nat IDT_LEN)
  then mod_desc (fun d => set_idt (<[Z.to_nat vector := make_idt_entry handler flags]> (idt d)) d)
  else fail OutOfBounds.

Definition _idt_load (idt_address : Z) : M kernel unit :=
  mod_desc (set_idtp_limit (u16 (sizeof_idt_entry * Z.of_nat IDT_LEN - 1))) ;;
  mod_desc (set_idtp_base idt_address) ;;
  io_do (Lidt idt_address).

(** The thunks are those of isr_faults.S, the three handlers the addresses of
    _handle_timer, ISR_Handler_PS2 and _handle_lapic_timer. *)
Definition idt_init (idt_address idtp_address : Z) (isr_thunks : Z -> Z)
    (timer ps2 lapic_timer : Z) : M kernel unit :=
  mod_desc (set_idt (replicate IDT_LEN null_gate)) ;;
  for_range 0 32 (fun i => _idt_set_gate i (isr_thunks i) PRIVELEGE_RING0) ;;
  _idt_set_gate TIMER_VECTOR timer PRIVELEGE_RING0 ;;
  _idt_set_gate KEYBOARD_VECTOR ps2 PRIVELEGE_RING0 ;;
  _idt_set_gate LAPICTMR_VECTOR lapic_timer PRIVELEGE_RING0 ;;
  _idt_load idt_address ;;
  kprintf ("Loading IDT at: 0x%X" +:+ nl) [KNum idtp_address].

(** fault_names[0] to fault_names[21]; the other ten slots are uninitialised. *)
Definition fault_names : list string :=
  ["Divide Error Exception"; "Debug Exception"; "NMI Interrupt"; "Breakpoint Exception";
   "Overflow Exception"; "BOUND Range Exceeded Exception"; "Invalid Opcode Exception";
   "Device Not Available Exception"; "Double Fault Exception"; "Coprocessor Segment Overrun";
   "Invalid TSS Exception"; "Segment Not Present"; "Stack Fault Exception";
   "General Protection Exception"; "Page Fault Exception"; "Unknown";
   "x87 FPU Floating-Point Error"; "Alignment Check Exception"; "Machine-Check Exception";
   "SIMD Floating-Point Exception"; "Virtualization Exception"; "Control Protection Exception"]%string.
Definition _handle_fault (vector : Z) : M kernel unit :=
  match fault_names !! Z.to_nat vector with
  | Some name => kprintf ("**FAULT**: (%lu) %s" +:+ nl) [KNum vector; KStr name]
  | None => fail BadArgument
  end.

(** The interrupt handlers, between isr_save and isr_restore. *)
Definition _handle_timer : M kernel unit := hpet_isr ;; hpet_ack ;; lapic_eoi.
Definition _handle_lapic_timer : M kernel unit :=
  t ← gets (fun s => kernel_timer_secs (k_desc s));
  mod_desc (set_kernel_timer_secs (t +64 1)) ;;
  lapic_eoi.
Definition ps2_read_no_wait : M kernel Z := inb 0x60.
Definition _handle_keyboard : M kernel unit :=
  key ← ps2_read_no_wait;
  q ← gets q_keyboard;
  cqueue_write q key ;;
  lapic_eoi.
End desc.
