(* ===== verification/DescProps.v ===== *)
(** * gdt.c and idt.c: the properties of the descriptor tables *)
From S2P Require Import Prelude Machine Pmm Slob Kstate VmProps Hpet Lapic Desc.

(** ** Reading descriptors back, as the processor does *)

Definition gdt_base (e : gdt_entry) : Z := gd_base_low e + 2 ^ 16 * gd_base_middle e + 2 ^ 24 * gd_base_high e.
Definition gdt_limit (e : gdt_entry) : Z := gd_limit_low e + 2 ^ 16 * Z.land (gd_granularity e) 15.
Definition gate_handler (e : idt_entry) : Z :=
  id_base_low e + 2 ^ 16 * id_base_mid e + 2 ^ 32 * id_base_high e.

(** Hardware that answers every read with zero, for the examples. *)
#[local] Instance null_hardware : Hardware := {|
  device _ _ := 0; cpuid_regs _ _ := (0, 0, 0, 0); stale_eax := 0; patience := 4 |}.

Lemma land_ffff z : Z.land z 0xFFFF = z `mod` 2 ^ 16.
Proof. change 0xFFFF with (Z.ones 16). by rewrite Z.land_ones. Qed.
Lemma land_ff z : Z.land z 0xFF = z `mod` 2 ^ 8.
Proof. change 0xFF with (Z.ones 8). by rewrite Z.land_ones. Qed.
Lemma land_f z : Z.land z 0xF = z `mod` 2 ^ 4.
Proof. change 0xF with (Z.ones 4). by rewrite Z.land_ones. Qed.

Lemma land_lor_low a b : 0 <= a < 16 -> Z.land b 15 = 0 -> Z.land (Z.lor a b) 15 = a.
Proof.
  intros Ha Hb. rewrite Z.land_lor_distr_l, Hb, Z.lor_0_r. change 15 with (Z.ones 4).
  rewrite Z.land_ones, Z.mod_small by lia. done.
Qed.

Lemma land_high_nibble z : Z.land (z `mod` 2 ^ 4) 0xF0 = 0.
Proof.
  bitwise. rewrite testbit_mod_pow2, Z.bits_0 by lia.
  case_bool_decide as D; [|done].
  assert (n = 0 \/ n = 1 \/ n = 2 \/ n = 3) as [->|[->|[->| ->]]] by lia; by rewrite andb_false_r.
Qed.

(** Encoding and decoding a segment descriptor. set_gdt_entry scatters the
    base and the limit over the fields of the packed entry; reading them back
    gives the base modulo 2^32, the limit modulo 2^20, the access byte and the
    high nibble of the flags unchanged. Entries of an index outside the three
    of the table are a fault, the others replace only their own slot. *)
Theorem gdt_entry_roundtrip num base limit access gran s :
  length (gdt (k_desc s)) = GDT_ENTRIES -> 0 <= num ->
  match set_gdt_entry num base limit access gran s with
  | Ret _ s' => num < 3 /\ exists e, gdt (k_desc s') = <[Z.to_nat num := e]> (gdt (k_desc s)) /\
      gdt (k_desc s') !! Z.to_nat num = Some e /\
      gdt_base e = base `mod` 2 ^ 32 /\ gdt_limit e = limit `mod` 2 ^ 20 /\
      gd_access e = access /\ Z.land (gd_granularity e) 0xF0 = Z.land gran 0xF0
  | Fault f => f = OutOfBounds /\ 3 <= num
  | _ => False
  end.
Proof.
  intros Hl Hn. unfold set_gdt_entry. change (Z.of_nat GDT_ENTRIES) with 3.
  rewrite (proj2 (Z.leb_le 0 num) Hn). destruct (Z.ltb_spec num 3) as [Hlt|Hge]; [|by split].
  cbn [andb]. split; [done|]. eexists. split; [reflexivity|]. split.
  { apply list_lookup_insert_eq. rewrite Hl. unfold GDT_ENTRIES. lia. }
  unfold gdt_base, gdt_limit, make_gdt_entry. cbn [gd_base_low gd_base_middle gd_base_high gd_limit_low gd_granularity gd_access].
  assert (Hlow : u8 (Z.land (Z.shiftr limit 16) 0x0F) = (limit `div` 2 ^ 16) `mod` 16)
    by (rewrite land_f, Z.shiftr_div_pow2 by lia; clear; word_lia).
  rewrite Hlow, land_lor_low by (by rewrite <- ?Z.land_assoc, ?Z.land_0_r || (clear; word_lia)).
  rewrite !land_ffff, !land_ff, !Z.shiftr_div_pow2 by lia. split_and!; [| |done|].
  - clear. word_lia.
  - clear. word_lia.
  - rewrite Z.land_lor_distr_l, <- Z.land_assoc. change (Z.land 0xF0 0xF0) with 0xF0.
    change 16 with (2 ^ 4). rewrite land_high_nibble. apply Z.lor_0_l.
Qed.

Lemma gdt_entry_roundtrip_witness :
  let s := set_k_desc (DescGlobals (replicate 3 (GdtEntry 0 0 0 0 0 0)) 0 0 [] 0 0 0) (kernel_at ∅ 0 0 40) in
  exists s', set_gdt_entry 1 0x12345678 0xFFFFFFFF 0x9A 0x20 s = Ret tt s' /\
    gdt_base <$> gdt (k_desc s') !! 1%nat = Some 0x12345678.
Proof.
  intros s. pose proof (gdt_entry_roundtrip 1 0x12345678 0xFFFFFFFF 0x9A 0x20 s eq_refl ltac:(lia)) as H.
  destruct (set_gdt_entry 1 0x12345678 0xFFFFFFFF 0x9A 0x20 s) as [[] s'|s'|s'|f|] eqn:E;
    [|done|done|by destruct H|done].
  exists s'. split; [done|]. destruct H as (_ & e & _ & Hl & Hb & _). change (Z.to_nat 1) with 1%nat in Hl.
  rewrite Hl. simpl. by rewrite Hb.
Defined.

(** ** The interrupt table *)

Lemma make_idt_entry_handler h f : is_u64 h -> gate_handler (make_idt_entry h f) = h.
Proof.
  intros Hh. unfold gate_handler, make_idt_entry. cbn [id_base_low id_base_mid id_base_high].
  rewrite !Z.shiftr_div_pow2 by lia. word_lia.
Qed.

Lemma _idt_set_gate_ok v h f s :
  0 <= v < 256 -> _idt_set_gate v h f s =
    Ret tt (set_k_desc (set_idt (<[Z.to_nat v := make_idt_entry h f]> (idt (k_desc s))) (k_desc s)) s).
Proof.
  intros Hv. unfold _idt_set_gate. change (Z.of_nat IDT_LEN) with 256.
  rewrite (proj2 (Z.leb_le _ _)), (proj2 (Z.ltb_lt _ _)) by lia. done.
Qed.

(** C31: idt_init fills the interrupt table. After it, the 256-entry table holds
    the fault thunks at 0 to 31 and the timer, keyboard and local APIC timer
    handlers at 32, 33 and 35, each gate giving back exactly the 64-bit address
    it was made from, present, ring 0, in the code segment; all other vectors
    are null gates; the processor was told to load this table, with limit
    4095. *)
Theorem idt_init_gates idt_address idtp_address isr_thunks timer ps2 lapic_timer `{!Hardware} s :
  (forall i, 0 <= i < 32 -> is_u64 (isr_thunks i)) ->
  is_u64 timer -> is_u64 ps2 -> is_u64 lapic_timer ->
  exists s', idt_init idt_address idtp_address isr_thunks timer ps2 lapic_timer s = Ret tt s' /\
    k_io s' = Lidt idt_address :: k_io s /\
    idtp_limit (k_desc s') = 4095 /\ idtp_base (k_desc s') = idt_address /\
    length (idt (k_desc s')) = 256%nat /\
    forall v, 0 <= v < 256 -> exists e, idt (k_desc s') !! Z.to_nat v = Some e /\
      if decide (v < 32 \/ v = 32 \/ v = 33 \/ v = 35) then
        id_flags e = 0x8E /\ id_selector e = 0x08 /\
        gate_handler e = (if decide (v < 32) then isr_thunks v else if decide (v = 32) then timer
                          else if decide (v = 33) then ps2 else lapic_timer)
      else e = null_gate.
Proof.
  intros Ht H1 H2 H3. unfold idt_init. erewrite bind_ret_eq; [|reflexivity].
  lazymatch goal with |- context [(for_range _ _ _ ≫= _) ?t] => set (s0 := t) end.
  destruct (for_range_inv (fun i => _idt_set_gate i (isr_thunks i) PRIVELEGE_RING0)
    (fun i t => exists l, t = set_k_desc (set_idt l (k_desc s0)) s0 /\ length l = 256%nat /\
       forall v, 0 <= v < 256 -> l !! Z.to_nat v =
         Some (if decide (v < i) then make_idt_entry (isr_thunks v) PRIVELEGE_RING0 else null_gate))
    0 32 s0) as (s1 & E & l & -> & Hl & Hg).
  - lia.
  - intros i t Hi (l & -> & Hl & Hg). rewrite _idt_set_gate_ok by lia. eexists. split; [reflexivity|].
    eexists. split; [reflexivity|]. split; [by rewrite length_insert|].
    intros v Hv. change (idt (k_desc _)) with l. destruct (decide (v = i)) as [->|Hne].
    + rewrite list_lookup_insert_eq by lia. by rewrite decide_True by lia.
    + rewrite list_lookup_insert_ne, Hg by lia. repeat case_decide; try lia; done.
  - exists (idt (k_desc s0)). split; [by destruct s0 as [? ? ? ? ? ? ? ? []]|]. split; [done|].
    intros v Hv. rewrite decide_False by lia. apply lookup_replicate. split; [done|]. unfold IDT_LEN. lia.
  - rewrite (bind_ret_eq _ _ _ _ _ E).
    do 3 (erewrite bind_ret_eq; [|apply _idt_set_gate_ok; unfold TIMER_VECTOR, KEYBOARD_VECTOR, LAPICTMR_VECTOR; lia]).
    eexists. split; [reflexivity|]. split; [reflexivity|]. split; [reflexivity|]. split; [reflexivity|].
    assert (Hgate : forall v e h, e = make_idt_entry h PRIVELEGE_RING0 -> is_u64 h -> v < 256 ->
      id_flags e = 0x8E /\ id_selector e = 0x08 /\ gate_handler e = h).
    { intros v e h -> Hh _. split; [done|]. split; [done|]. by apply make_idt_entry_handler. }
    lazymatch goal with |- length ?x = _ /\ _ =>
      change x with (<[35%nat := make_idt_entry lapic_timer PRIVELEGE_RING0]>
        (<[33%nat := make_idt_entry ps2 PRIVELEGE_RING0]>
        (<[32%nat := make_idt_entry timer PRIVELEGE_RING0]> l))) end.
    rewrite !length_insert. split; [done|]. intros v Hv. specialize (Hg v Hv).
    destruct (decide (v = 35)) as [->|]; [|destruct (decide (v = 33)) as [->|];
      [|destruct (decide (v = 32)) as [->|]]].
    + eexists. split; [apply list_lookup_insert_eq; rewrite !length_insert; lia|].
      by apply (Hgate 35 _ lapic_timer).
    + eexists. split; [rewrite list_lookup_insert_ne by lia; apply list_lookup_insert_eq; rewrite !length_insert; lia|].
      by apply (Hgate 33 _ ps2).
    + eexists. split; [rewrite !list_lookup_insert_ne by lia; apply list_lookup_insert_eq; lia|].
      by apply (Hgate 32 _ timer).
    + rewrite !list_lookup_insert_ne by lia. eexists. split; [exact Hg|].
      destruct (decide (v < 32)).
      * rewrite decide_True by tauto. by apply (Hgate v _ (isr_thunks v)); [| apply Ht; lia|lia].
      * by rewrite decide_False by lia.
Qed.

Lemma idt_init_gates_witness :
  exists s', idt_init 0x9000 0xA000 (fun i => 2 ^ 63 + 16 * i) 5 6 7 (kernel_at ∅ 0 0 40) = Ret tt s' /\
    gate_handler <$> idt (k_desc s') !! 14%nat = Some (2 ^ 63 + 224).
Proof.
  destruct (idt_init_gates 0x9000 0xA000 (fun i => 2 ^ 63 + 16 * i) 5 6 7 (kernel_at ∅ 0 0 40))
    as (s' & E & _ & _ & _ & _ & Hg).
  - intros i Hi. unfold is_u64. lia.
  - done.
  - done.
  - done.
  - exists s'. split; [exact E|]. destruct (Hg 14 ltac:(lia)) as (e & Hl & _ & _ & He).
    change (Z.to_nat 14) with 14%nat in Hl. rewrite Hl. simpl. by rewrite He.
Defined.

(** The fault handler names 22 of the 32 vectors idt_init installs it for.
    For a vector below 22 it logs the vector and its name and changes nothing
    else; for 22 to 31 it passes an uninitialised pointer to the "%s" of its
    message. *)
Theorem handle_fault_unnamed vector s :
  0 <= vector < 32 ->
  if decide (vector < 22) then
    exists name, fault_names !! Z.to_nat vector = Some name /\
      _handle_fault vector s =
        kprintf ("**FAULT**: (%lu) %s" +:+ nl) [KNum vector; KStr name] s
  else _handle_fault vector s = Fault BadArgument.
Proof.
  intros Hv. unfold _handle_fault. case_decide as D.
  - destruct (lookup_lt_is_Some_2 fault_names (Z.to_nat vector)) as [name Hn].
    { change (length fault_names) with 22%nat. lia. }
    exists name. by rewrite Hn.
  - rewrite lookup_ge_None_2; [done|]. change (length fault_names) with 22%nat. lia.
Qed.

Lemma handle_fault_unnamed_witness : _handle_fault 30 (kernel_at ∅ 0 0 40) = Fault BadArgument.
Proof. apply (handle_fault_unnamed 30 (kernel_at ∅ 0 0 40)). lia. Defined.
