(* ===== verification/Pci.v ===== *)
(** * pci.c and drivers/nvme.c: enumerating PCI devices *)
From S2P Require Import Prelude Machine Regions Heap Pmm Slob Kstate KernelHeap Acpi.

(** struct pci_device, with the padding the ABI puts before the pointer. *)
Definition off_class_code : Z := 0.
Definition off_sub_class_code : Z := 1.
Definition off_bus : Z := 2.
Definition off_device : Z := 3.
Definition off_function : Z := 4.
Definition off_prog_if : Z := 5.
Definition off_description : Z := 8.
Definition off_address : Z := 16.
Definition off_header_type : Z := 24.
Definition sizeof_pci_device : Z := 32.
Definition PCI_DEVICES_LEN : nat := 32.

Definition unknown_device : string := "Unknown Device".
(** The strings of _get_device_str; [None] where it logs the codes. *)
Definition device_str (class_code sub_class_code : Z) : option string :=
  if class_code =? 0x1 then
    if sub_class_code =? 0x6 then Some "Mass Storage Controller - Serial ATA Controller"%string
    else if sub_class_code =? 0x8 then
      Some "Mass Storage Controller - Non-Volatile Memory Controller"%string
    else None
  else if class_code =? 0x2 then
    if sub_class_code =? 0x0 then Some "Network Controller - Ethernet Controller"%string else None
  else if class_code =? 0x3 then
    if sub_class_code =? 0x0 then Some "Display Controller - VGA Compatible Controller"%string else None
  else if class_code =? 0x6 then
    if sub_class_code =? 0x0 then Some "Bridge - Host Bridge"%string
    else if sub_class_code =? 0x1 then Some "Bridge - ISA Bridge"%string
    else None
  else if class_code =? 0xC then
    if sub_class_code =? 0x5 then Some "Serial Bus Controller - SMBus Controller"%string else None
  else None.


Section pci.
Context `{Hardware} `{Image}.

Definition _get_device_str (class_code sub_class_code : Z) : M kernel string :=
  match device_str class_code sub_class_code with
  | Some t => mret t
  | None =>
      kprintf ("PCI: %d / %d" +:+ nl) [KNum class_code; KNum sub_class_code] ;;
      mret unknown_device
  end.

(** mcfg->mmio_base + vmm_higher_half_offset + offset +
    ((bus - mcfg->start) << 20 | device << 15 | function << 12);
    shifting a negative difference is undefined. *)
Definition config_address (bus device function offset : Z) : M kernel Z :=
  m ← gets (fun s => mcfg (k_acpi s));
  base ← load 8 (m + off_mcfg_mmio_base);
  hhdm ← vmm_offset;
  start ← load 1 (m + off_mcfg_start);
  (if bus <? start then fail BadShift else mret tt) ;;
  mret (base +64 hhdm +64 offset +64
    Z.lor (Z.lor (Z.shiftl (bus - start) 20) (Z.shiftl device 15)) (Z.shiftl function 12)).

Definition _pci_mm_read (bus device function offset size : Z) : M kernel Z :=
  addr ← config_address bus device function offset;
  if size =? 1 then mmio_read 1 addr
  else if size =? 2 then mmio_read 2 addr
  else if size =? 4 then mmio_read 4 addr
  else mret 0.

Definition pci_device_read (dev offset size : Z) : M kernel Z :=
  bus ← load 1 (dev + off_bus);
  device ← load 1 (dev + off_device);
  function ← load 1 (dev + off_function);
  _pci_mm_read bus device function offset (u8 size).

Definition pci_device_write (dev offset size val : Z) : M kernel unit :=
  bus ← load 1 (dev + off_bus);
  device ← load 1 (dev + off_device);
  function ← load 1 (dev + off_function);
  addr ← config_address bus device function offset;
  let size := u8 size in
  if size =? 1 then mmio_write 1 addr (u8 val)
  else if size =? 2 then mmio_write 2 addr (u16 val)
  else if size =? 4 then mmio_write 4 addr (u32 val)
  else mret tt.

Definition _pci_mm_read_vendor_id (bus device function : Z) : M kernel Z :=
  reg0 ← _pci_mm_read bus device function 0x0 2; mret (u16 reg0).
Definition _pci_mm_read_header_type (bus device function : Z) : M kernel Z :=
  reg3 ← _pci_mm_read bus device function 0xC 4; mret (u8 (Z.shiftr reg3 16)).
Definition _pci_mm_read_class_code (bus device function : Z) : M kernel Z :=
  reg2 ← _pci_mm_read bus device function 0x8 4; mret (u8 (Z.shiftr reg2 24)).
Definition _pci_mm_read_subclass_code (bus device function : Z) : M kernel Z :=
  reg2 ← _pci_mm_read bus device function 0x8 4; mret (u8 (Z.shiftr reg2 16)).
Definition _pci_mm_read_prog_if (bus device function : Z) : M kernel Z :=
  reg2 ← _pci_mm_read bus device function 0x8 4; mret (u8 (Z.shiftr reg2 8)).

(** pci_devices[pci_device_cnt++] = dev; the array has 32 slots. *)
Definition push_device (dev : Z) : M kernel unit :=
  p ← gets k_pci;
  if pci_device_cnt p <? Z.of_nat PCI_DEVICES_LEN then
    mod_pci (fun p => set_pci_device_cnt (u8 (pci_device_cnt p + 1))
                        (set_pci_devices (<[Z.to_nat (pci_device_cnt p) := dev]> (pci_devices p)) p))
  else fail OutOfBounds.

Definition _check_function (bus device function header_type : Z) : M kernel unit :=
  classcode ← _pci_mm_read_class_code bus device function;
  subclass ← _pci_mm_read_subclass_code bus device function;
  progif ← _pci_mm_read_prog_if bus device function;
  dev ← k_malloc sizeof_pci_device;
  push_device dev ;;
  store 1 (dev + off_class_code) classcode ;;
  store 1 (dev + off_sub_class_code) subclass ;;
  store 1 (dev + off_prog_if) progif ;;
  description ← _get_device_str classcode subclass;
  store 8 (dev + off_description) (literal description) ;;
  store 1 (dev + off_bus) bus ;;
  store 1 (dev + off_function) function ;;
  store 1 (dev + off_device) device ;;
  store 4 (dev + off_header_type) header_type ;;
  a ← config_address bus device function 0;
  store 8 (dev + off_address) a ;;
  kprintf ("PCI: %s" +:+ nl) [KStr description].

(** The loop over functions 1 to 7. *)
Definition check_functions (bus device headerType : Z) : M kernel unit :=
  for_range 1 8 (fun function =>
    v ← _pci_mm_read_vendor_id bus device function;
    if v =? 0xFFFF then mret tt else _check_function bus device function headerType).

Definition _check_device (bus device : Z) : M kernel unit :=
  vendorID ← _pci_mm_read_vendor_id bus device 0;
  if vendorID =? 0xFFFF then mret tt
  else
    headerType ← _pci_mm_read_header_type bus device 0;
    _check_function bus device 0 headerType ;;
    if Z.land headerType 0x80 =? 0 then mret tt
    else check_functions bus device headerType.

Definition _scan_all_buses : M kernel unit :=
  for_range 0 256 (fun bus => for_range 0 32 (fun device => _check_device bus device)).

Definition pci_init : M kernel unit :=
  _scan_all_buses ;;
  n ← gets (fun s => pci_device_cnt (k_pci s));
  kprintf ("PCI: Found %d PCI devices." +:+ nl) [KNum n] ;;
  kprintf ("PCI: Initialized." +:+ nl) [].

(** The loop over the first [pci_device_cnt] slots. *)
Fixpoint find_device_loop (class subclass : Z) (devs : list Z) : M kernel Z :=
  match devs with
  | [] => mret 0
  | dev :: devs' =>
      c ← load 1 (dev + off_class_code);
      if c =? class then
        sc ← load 1 (dev + off_sub_class_code);
        if sc =? subclass then mret dev else find_device_loop class subclass devs'
      else find_device_loop class subclass devs'
  end.
Definition pci_find_device (class subclass : Z) : M kernel Z :=
  p ← gets k_pci;
  find_device_loop (u8 class) (u8 subclass) (take (Z.to_nat (pci_device_cnt p)) (pci_devices p)).

(** ** drivers/nvme.c *)

Definition PCI_REG4_OFFSET : Z := 0x10.

(** ~(size_low & ~0b1111) + 1, in 32 bits. *)
Definition bar_length (size_low : Z) : Z := u32 (Z.lnot (Z.land size_low (u32 (Z.lnot 15)))) +32 1.
Definition bar_base (bar0 base_high : Z) : Z :=
  Z.lor (Z.land bar0 0xfffffff0) (u64 (Z.shiftl base_high 32)).

Definition nvme_init : M kernel unit :=
  dev ← pci_find_device 0x01 0x08;
  if dev =? 0 then kprintf ("NVME: Controller not found." +:+ nl) []
  else
    ht ← load 4 (dev + off_header_type);
    kprintf ("NVME Header Type: 0x%X" +:+ nl) [KNum ht] ;;
    bar0 ← pci_device_read dev PCI_REG4_OFFSET 4;
    pci_device_write dev PCI_REG4_OFFSET 4 (u32 (Z.lnot 0)) ;;
    size_low ← pci_device_read dev PCI_REG4_OFFSET 4;
    pci_device_write dev PCI_REG4_OFFSET 4 bar0 ;;
    (if negb (Z.land bar0 1 =? 0)
     then kprintf "**FATAL**: BAR0 in the NVME controller should be memory space." []
     else kprintf ("NVME: Memory Space BAR0 verified." +:+ nl) []) ;;
    (if Z.land bar0 7 =? 4 then kprintf ("BAR0 is 64-bit." +:+ nl) [] else mret tt) ;;
    base_high ← pci_device_read dev (PCI_REG4_OFFSET + 4) 4;
    kprintf ("NVME Base High: 0x%X" +:+ nl) [KNum base_high] ;;
    kprintf ("BAR0 Length: %lu" +:+ nl) [KNum (bar_length size_low)] ;;
    kprintf ("NVME: Initialized." +:+ nl) [].
End pci.
