(* ===== verification/PciProps.v ===== *)
(** * pci.c and drivers/nvme.c: the properties of the PCI scan *)
From S2P Require Import Prelude Machine Regions Heap Pmm Slob SlobProofs Kstate KernelHeap VmProps Poll Acpi Pci.

Lemma lor_disjoint_add a b k : 0 <= k -> 0 <= b < 2 ^ k -> Z.lor (Z.shiftl a k) b = a * 2 ^ k + b.
Proof.
  intros Hk Hb. rewrite <- Z.add_nocarry_lor; [by rewrite Z.shiftl_mul_pow2|].
  bitwise. rewrite Z.bits_0. destruct (decide (n < k)).
  - by rewrite Z.shiftl_spec_low.
  - rewrite <- (Z.mod_small b (2 ^ k)) by done. by rewrite Z.mod_pow2_bits_high, andb_false_r by lia.
Qed.

Section pci_props.
Context `{Hardware} `{Image}.

(** The window the MCFG table describes. *)
Definition mcfg_base (s : kernel) : Z := rd 8 (mcfg (k_acpi s) + off_mcfg_mmio_base) (smem s).
Definition mcfg_first_bus (s : kernel) : Z := rd 1 (mcfg (k_acpi s) + off_mcfg_start) (smem s).
Definition mcfg_mapped (s : kernel) : Prop := region (mcfg (k_acpi s)) 56 (smem s).

(** The configuration space of a function, in the direct map. *)
Definition config_space (s : kernel) (bus device function : Z) : Z :=
  mcfg_base s + vmm_higher_half_offset (slob_pmm (k_slob s)) +
  (bus - mcfg_first_bus s) * 2 ^ 20 + device * 2 ^ 15 + function * 2 ^ 12.

(** Where a register of a function is: the window's base, in the direct map,
    plus a megabyte per bus counted from the first one, 32 KiB per device and
    4 KiB per function; below the first bus the C shift is undefined. *)
Lemma config_address_ok bus device function offset s :
  mcfg_mapped s -> 0 <= device < 32 -> 0 <= function < 8 ->
  config_address bus device function offset s =
    if bus <? mcfg_first_bus s then Fault BadShift
    else Ret (u64 (config_space s bus device function + offset)) s.
Proof.
  intros Hm Hd Hf. unfold mcfg_mapped, config_address in *.
  unfold off_mcfg_mmio_base, off_mcfg_start in *.
  erewrite bind_ret_eq; [|reflexivity].
  erewrite bind_ret_eq; [|apply load_ok; mregion]. erewrite bind_ret_eq; [|reflexivity].
  erewrite bind_ret_eq; [|apply load_ok; mregion].
  change (rd 1 (mcfg (k_acpi s) + 54) (smem s)) with (mcfg_first_bus s).
  destruct (bus <? mcfg_first_bus s); [done|]. erewrite bind_ret_eq; [|reflexivity].
  unfold mret, M_ret. do 1 f_equal.
  rewrite <- Z.lor_assoc, (lor_disjoint_add device (Z.shiftl function 12) 15), lor_disjoint_add;
    rewrite ?Z.shiftl_mul_pow2 by lia; try lia.
  change (rd 8 (mcfg (k_acpi s) + 44) (smem s)) with (mcfg_base s). unfold config_space.
  set (a := mcfg_base s). set (h := vmm_higher_half_offset _). set (b := bus - _).
  unfold u64. rewrite Zplus_mod_idemp_l, <- (Z.add_assoc _ offset), Zplus_mod_idemp_l. f_equal. lia.
Qed.

(** ** Finding a device *)

Definition is_device (m : memory) (class subclass dev : Z) : bool :=
  (rd 1 (dev + off_class_code) m =? class) && (rd 1 (dev + off_sub_class_code) m =? subclass).

Lemma find_device_loop_ok class subclass devs s :
  Forall (fun dev => region dev sizeof_pci_device (smem s)) devs ->
  find_device_loop class subclass devs s =
    Ret (default 0 (snd <$> list_find (is_device (smem s) class subclass) devs)) s.
Proof.
  intros Hr. induction Hr as [|dev devs Hd _ IH]; [done|]. cbn [find_device_loop list_find].
  unfold sizeof_pci_device, off_class_code, off_sub_class_code in *.
  erewrite bind_ret_eq; [|apply load_ok; mregion].
  destruct (decide (is_device (smem s) class subclass dev)) as [D|D]; unfold is_device, off_class_code, off_sub_class_code in D.
  - apply Is_true_true, andb_true_iff in D as [D1 D2]. rewrite D1.
    erewrite bind_ret_eq; [|apply load_ok; mregion]. by rewrite D2.
  - assert (E : default 0 (snd <$> (prod_map S id <$> list_find (is_device (smem s) class subclass) devs)) =
      default 0 (snd <$> list_find (is_device (smem s) class subclass) devs))
      by (by destruct (list_find (is_device (smem s) class subclass) devs) as [[? ?]|]).
    rewrite E. destruct (rd 1 (dev + 0) (smem s) =? class); [|exact IH].
    erewrite bind_ret_eq; [|apply load_ok; mregion].
    destruct (rd 1 (dev + 1) (smem s) =? subclass); [by destruct D|exact IH].
Qed.

(** pci_find_device returns the first recorded device of the class and
    subclass, in the order of discovery, NULL if there is none; it changes
    nothing and looks at no slot past the count. *)
Theorem pci_find_device_first class subclass s :
  let devs := take (Z.to_nat (pci_device_cnt (k_pci s))) (pci_devices (k_pci s)) in
  Forall (fun dev => region dev sizeof_pci_device (smem s)) devs ->
  exists dev, pci_find_device class subclass s = Ret dev s /\
    ((exists i, devs !! i = Some dev /\ is_device (smem s) (u8 class) (u8 subclass) dev = true /\
        forall j d, (j < i)%nat -> devs !! j = Some d -> is_device (smem s) (u8 class) (u8 subclass) d = false) \/
     (dev = 0 /\ forall d, d ∈ devs -> is_device (smem s) (u8 class) (u8 subclass) d = false)).
Proof.
  intros devs Hr.
  exists (default 0 (snd <$> list_find (is_device (smem s) (u8 class) (u8 subclass)) devs)). split.
  { unfold pci_find_device. erewrite bind_ret_eq; [|reflexivity]. by apply find_device_loop_ok. }
  destruct (list_find (is_device (smem s) (u8 class) (u8 subclass)) devs) as [[i d]|] eqn:E; simpl.
  - left. apply list_find_Some in E as (Hi & Hd & Hj). exists i. split; [done|].
    split; [by apply Is_true_true|]. intros j d' Hlt Hd'. specialize (Hj j d' Hd' Hlt).
    by apply not_true_is_false; intros ?%Is_true_true.
  - right. split; [done|]. intros d Hd. apply list_find_None in E. rewrite Forall_forall in E.
    specialize (E d Hd). by apply not_true_is_false; intros ?%Is_true_true.
Qed.

(** ** Sizing a base address register *)

Lemma land_address_bits z : 0 <= z < 2 ^ 32 -> Z.land z (u32 (Z.lnot 15)) = 16 * (z `div` 16).
Proof.
  intros Hz. change (u32 (Z.lnot 15)) with (Z.ldiff (Z.ones 32) (Z.ones 4)).
  transitivity (Z.shiftl (Z.shiftr z 4) 4); [|rewrite Z.shiftl_mul_pow2, Z.shiftr_div_pow2 by lia; change (2 ^ 4) with 16; lia].
  bitwise. destruct (decide (n < 4)).
  - rewrite Z.shiftl_spec_low by done. rewrite (Z.ones_spec_low 4) by lia. by rewrite andb_false_r, andb_false_r.
  - rewrite Z.shiftl_spec, Z.shiftr_spec, (Z.ones_spec_high 4) by lia. replace (n - 4 + 4) with n by lia.
    destruct (decide (n < 32)); [by rewrite Z.ones_spec_low, andb_true_r by lia|].
    rewrite <- (Z.mod_small z (2 ^ 32)) by done. by rewrite Z.mod_pow2_bits_high by lia.
Qed.

(** The answer of a BAR of 2^k bytes to the write of all ones gives 2^k back. *)
Lemma bar_length_pow2 k low : 4 <= k < 32 -> 0 <= low < 16 -> bar_length (2 ^ 32 - 2 ^ k + low) = 2 ^ k.
Proof.
  intros Hk Hlow. unfold bar_length.
  assert (H4 : 2 ^ k = 16 * 2 ^ (k - 4)).
  { change 16 with (2 ^ 4). rewrite <- Z.pow_add_r by lia. f_equal. lia. }
  assert (Hb : 0 < 2 ^ (k - 4) < 2 ^ 28).
  { split; [apply Z.pow_pos_nonneg; lia|]. apply Z.pow_lt_mono_r; lia. }
  rewrite land_address_bits by lia. generalize dependent (2 ^ (k - 4)). intros x H4 Hx. rewrite H4.
  replace ((2 ^ 32 - 16 * x + low) `div` 16) with (2 ^ 28 - x) by (Z.to_euclidean_division_equations; lia).
  unfold Z.lnot. clear H4 Hk. word_lia.
Qed.

(** A recorded device whose configuration space the MCFG window covers. *)
Record device_ok (s : kernel) (dev : Z) : Prop := {
  do_mcfg : mcfg_mapped s;
  do_region : region dev sizeof_pci_device (smem s);
  do_bus : mcfg_first_bus s <= rd 1 (dev + off_bus) (smem s);
  do_device : rd 1 (dev + off_device) (smem s) < 32;
  do_function : rd 1 (dev + off_function) (smem s) < 8
}.
(** The address of a register of a recorded device. *)
Definition device_reg (s : kernel) (dev offset : Z) : Z :=
  u64 (config_space s (rd 1 (dev + off_bus) (smem s)) (rd 1 (dev + off_device) (smem s))
         (rd 1 (dev + off_function) (smem s)) + offset).

Lemma device_config_address s dev offset :
  device_ok s dev ->
  config_address (rd 1 (dev + off_bus) (smem s)) (rd 1 (dev + off_device) (smem s))
    (rd 1 (dev + off_function) (smem s)) offset s = Ret (device_reg s dev offset) s.
Proof.
  intros [Hm Hr Hb Hd Hf].
  rewrite config_address_ok; [by rewrite (proj2 (Z.ltb_ge _ _)) by done|done| |].
  - pose proof (rd_range 1 (dev + off_device) (smem s)). lia.
  - pose proof (rd_range 1 (dev + off_function) (smem s)). lia.
Qed.

Lemma pci_device_read4_ok s dev offset :
  device_ok s dev ->
  pci_device_read dev offset 4 s =
    Ret (device (k_io s) (MmioRead 4 (device_reg s dev offset)) `mod` 2 ^ 32)
      (after_io [MmioRead 4 (device_reg s dev offset)] s).
Proof.
  intros Hd. pose proof (do_region _ _ Hd) as Hr. unfold sizeof_pci_device in Hr.
  unfold pci_device_read. 
  do 3 (erewrite bind_ret_eq; [|apply load_ok; unfold off_bus, off_device, off_function; mregion]).
  unfold _pci_mm_read. change (u8 4) with 4. rewrite (bind_ret_eq _ _ _ _ _ (device_config_address s dev offset Hd)).
  cbn [Z.eqb Pos.eqb]. unfold mmio_read, device_reg. rewrite (u64_small (u64 _)) by apply u64_range. done.
Qed.

Lemma pci_device_write4_ok s dev offset v :
  device_ok s dev -> is_u32 v ->
  pci_device_write dev offset 4 v s = Ret tt (after_io [MmioWrite 4 (device_reg s dev offset) v] s).
Proof.
  intros Hd Hv. pose proof (do_region _ _ Hd) as Hr. unfold sizeof_pci_device in Hr.
  unfold pci_device_write.
  do 3 (erewrite bind_ret_eq; [|apply load_ok; unfold off_bus, off_device, off_function; mregion]).
  rewrite (bind_ret_eq _ _ _ _ _ (device_config_address s dev offset Hd)).
  change (u8 4) with 4. cbn [Z.eqb Pos.eqb]. unfold mmio_write, device_reg.
  rewrite (u64_small (u64 _)) by apply u64_range. rewrite u32_small by done.
  change (8 * 4) with 32. by rewrite Z.mod_small.
Qed.

(** Accesses and log lines change neither the device nor its registers. *)
Definition during (t : list io) (lg : list log_entry) (s : kernel) : kernel := after_io t (logged lg s).
Lemma device_ok_during t lg s dev : device_ok s dev -> device_ok (during t lg s) dev.
Proof. by intros []. Qed.
Lemma read_during t lg s dev offset : device_ok s dev ->
  pci_device_read dev offset 4 (during t lg s) =
    Ret (device (t ++ k_io s) (MmioRead 4 (device_reg s dev offset)) `mod` 2 ^ 32)
      (during (MmioRead 4 (device_reg s dev offset) :: t) lg s).
Proof. intros Hd. by rewrite pci_device_read4_ok by by apply device_ok_during. Qed.
Lemma write_during t lg s dev offset v : device_ok s dev -> is_u32 v ->
  pci_device_write dev offset 4 v (during t lg s) =
    Ret tt (during (MmioWrite 4 (device_reg s dev offset) v :: t) lg s).
Proof. intros Hd Hv. by rewrite pci_device_write4_ok by (try apply device_ok_during; done). Qed.
Lemma kprintf_during fmt args t lg s :
  kprintf fmt args (during t lg s) = Ret tt (during t (Log fmt args :: lg) s).
Proof. done. Qed.

Lemma log_either t s (b : bool) f a (m : M kernel unit) (k : unit -> M kernel unit) lg :
  (forall l, exists l', m (during t l s) = Ret tt (during t l' s)) ->
  exists l', ((if b then kprintf f a else m) ≫= k) (during t lg s) = k tt (during t l' s).
Proof.
  intros Hm. destruct b.
  - eexists. by rewrite (bind_ret_eq _ _ _ _ _ (kprintf_during f a t lg s)).
  - destruct (Hm lg) as [l' E]. exists l'. by rewrite (bind_ret_eq _ _ _ _ _ E).
Qed.

(** Sizing the NVMe controller's BAR0 is harmless. If the scan recorded the
    controller at [dev], nvme_init makes exactly five accesses to its
    configuration space: it reads BAR0, writes all ones, reads the size mask,
    writes the first value back and reads the upper half of the base; no memory
    changes, and the length it reports for a mask of 2^32 - 2^k, whatever its
    four type bits, is 2^k. *)
Theorem nvme_init_probes_bar dev s :
  let bar0 := device_reg s dev PCI_REG4_OFFSET in
  let v := device (k_io s) (MmioRead 4 bar0) `mod` 2 ^ 32 in
  let probe := [MmioWrite 4 bar0 (2 ^ 32 - 1); MmioRead 4 bar0] ++ k_io s in
  let mask := device probe (MmioRead 4 bar0) `mod` 2 ^ 32 in
  pci_find_device 0x01 0x08 s = Ret dev s -> dev <> 0 -> device_ok s dev ->
  exists s' lg, nvme_init s = Ret tt s' /\ smem s' = smem s /\
    k_io s' = [MmioRead 4 (device_reg s dev (PCI_REG4_OFFSET + 4)); MmioWrite 4 bar0 v; MmioRead 4 bar0] ++ probe /\
    klog (get_mach s') = Log ("NVME: Initialized." +:+ nl) [] ::
                         Log ("BAR0 Length: %lu" +:+ nl) [KNum (bar_length mask)] :: lg /\
    forall k low, 4 <= k < 32 -> 0 <= low < 16 -> mask = 2 ^ 32 - 2 ^ k + low -> bar_length mask = 2 ^ k.
Proof.
  intros bar0 v probe mask Hf Hne Hd. pose proof (do_region _ _ Hd) as Hr. unfold sizeof_pci_device in Hr.
  assert (Hv : is_u32 v) by (apply Z.mod_pos_bound; lia).
  unfold nvme_init. rewrite (bind_ret_eq _ _ _ _ _ Hf), (proj2 (Z.eqb_neq dev 0) Hne).
  erewrite bind_ret_eq; [|apply load_ok; unfold off_header_type; mregion].
  lazymatch goal with |- context [(kprintf ?f ?a ≫= _) s] =>
    rewrite (bind_ret_eq (kprintf f a) _ s tt (during [] (Log f a :: klog (get_mach s)) s)) by done end.
  rewrite (bind_ret_eq _ _ _ _ _ (read_during [] _ s dev PCI_REG4_OFFSET Hd)). cbn [app]. fold bar0 v.
  change (u32 (Z.lnot 0)) with (2 ^ 32 - 1).
  rewrite (bind_ret_eq _ _ _ _ _ (write_during _ _ s dev PCI_REG4_OFFSET (2 ^ 32 - 1) Hd ltac:(done))). fold bar0.
  rewrite (bind_ret_eq _ _ _ _ _ (read_during _ _ s dev PCI_REG4_OFFSET Hd)). cbn [app]. fold bar0.
  change (MmioWrite 4 bar0 (2 ^ 32 - 1) :: MmioRead 4 bar0 :: k_io s) with probe. fold mask.
  rewrite (bind_ret_eq _ _ _ _ _ (write_during _ _ s dev PCI_REG4_OFFSET v Hd Hv)). fold bar0.
  lazymatch goal with |- context [during ?t ?l s] => set (t1 := t); set (l1 := l) end.
  lazymatch goal with |- context [((if ?b then kprintf ?f ?a else ?m2) ≫= ?k) (during t1 l1 s)] =>
    destruct (log_either t1 s b f a m2 k l1) as [l2 ->] end.
  { intros l. eexists. apply kprintf_during. }
  lazymatch goal with |- context [((if ?b then kprintf ?f ?a else ?m2) ≫= ?k) (during t1 l2 s)] =>
    destruct (log_either t1 s b f a m2 k l2) as [l3 ->] end.
  { intros l. by exists l. }
  rewrite (bind_ret_eq _ _ _ _ _ (read_during _ _ s dev (PCI_REG4_OFFSET + 4) Hd)).
  do 2 (rewrite (bind_ret_eq _ _ _ _ _ (kprintf_during _ _ _ _ s))). rewrite kprintf_during.
  eexists _, _. split; [reflexivity|]. split; [reflexivity|]. split; [reflexivity|]. split; [reflexivity|].
  intros k low Hk Hlow ->. by apply bar_length_pow2.
Qed.
End pci_props.

(** An MCFG table at 64 for a window at 0xB0000000 and one recorded NVMe
    controller, device 3 of bus 0, at 128; every read answers 0xFFFFC004. *)
#[local] Instance nvme_hardware : Hardware := {|
  device _ _ := 0xFFFFC004; cpuid_regs _ _ := (0, 0, 0, 0); stale_eax := 0; patience := 4 |}.
#[local] Instance some_image : Image := {| literal _ := 0; tprintf_buffer := 0 |}.
Definition pci_mem : memory :=
  wr 1 131 3 (wr 1 129 8 (wr 1 128 1 (wr 8 108 0xB0000000 (zeros 64 96)))).
Definition pci_kernel : kernel :=
  set_k_pci (PciGlobals (128 :: replicate 31 0) 1) (set_k_acpi (AcpiGlobals 0 0 0 0 0 64 0 [] []) (kernel_at pci_mem (2 ^ 47) 0 40)).
Lemma pci_mem_region a n : 64 <= a -> a + n <= 160 -> region a n (smem pci_kernel).
Proof.
  intros Ha Hn. change (smem pci_kernel) with pci_mem. unfold pci_mem. do 4 apply region_wr.
  apply (region_sub _ _ _ _ _ (region_zeros 64 96)); lia.
Qed.

Lemma pci_find_device_first_witness : exists dev, pci_find_device 1 8 pci_kernel = Ret dev pci_kernel.
Proof.
  destruct (pci_find_device_first 1 8 pci_kernel) as (dev & E & _); [|by exists dev].
  change (take _ _) with [128]. apply Forall_singleton. apply pci_mem_region; unfold sizeof_pci_device; lia.
Defined.

Lemma pci_kernel_device : device_ok pci_kernel 128.
Proof.
  split; [apply pci_mem_region; change (mcfg (k_acpi pci_kernel)) with 64; lia|
          apply pci_mem_region; unfold sizeof_pci_device; lia| | |]; vm_compute; [discriminate|reflexivity..].
Qed.

Lemma nvme_init_probes_bar_witness :
  exists s', nvme_init pci_kernel = Ret tt s' /\
    take 5 (k_io s') = [MmioRead 4 (2 ^ 47 + 0xB0018014); MmioWrite 4 (2 ^ 47 + 0xB0018010) 0xFFFFC004;
      MmioRead 4 (2 ^ 47 + 0xB0018010); MmioWrite 4 (2 ^ 47 + 0xB0018010) 0xFFFFFFFF; MmioRead 4 (2 ^ 47 + 0xB0018010)].
Proof.
  assert (E1 : device_reg pci_kernel 128 0x10 = 2 ^ 47 + 0xB0018010) by (vm_compute; reflexivity).
  assert (E2 : device_reg pci_kernel 128 0x14 = 2 ^ 47 + 0xB0018014) by (vm_compute; reflexivity).
  assert (Ef : pci_find_device 1 8 pci_kernel = Ret 128 pci_kernel).
  { unfold pci_find_device. erewrite bind_ret_eq; [|reflexivity].
    rewrite find_device_loop_ok; [f_equal; vm_compute; reflexivity|].
    change (take _ _) with [128]. apply Forall_singleton. apply pci_mem_region; unfold sizeof_pci_device; lia. }
  assert (Eio : k_io pci_kernel = []) by reflexivity.
  pose proof pci_kernel_device as Hd. revert Ef E1 E2 Eio Hd. generalize pci_kernel. intros s Ef E1 E2 Eio Hd.
  destruct (nvme_init_probes_bar 128 s Ef ltac:(done) Hd) as (s' & lg & E & _ & Hio & _).
  exists s'. split; [exact E|]. rewrite Hio.
  change (PCI_REG4_OFFSET + 4) with 0x14. change PCI_REG4_OFFSET with 0x10. rewrite E1, E2, Eio. reflexivity.
Defined.
