(* ===== verification/PciScan.v ===== *)
(** * pci.c: what the scan of the buses records *)
From S2P Require Import Prelude Machine Regions Heap Pmm PmmInit Slob SlobProofs SlobProps SlobInit Kstate KernelHeap VmProps Poll Acpi Pci PciProps.

(** ** The abstract scan *)

Record location := Location { lo_bus : Z; lo_device : Z; lo_function : Z }.

Lemma after_io_nil s : after_io [] s = s.
Proof. by destruct s. Qed.

Section scan.
Context `{Hardware} `{Image} (sb : kernel).
Let hhdm := vmm_higher_half_offset (slob_pmm (k_slob sb)).
Let table := mcfg (k_acpi sb).

(** The registers of a function, as the configuration space answers before the
    scan. *)
Definition config_reg (l : location) (offset : Z) : Z :=
  u64 (config_space sb (lo_bus l) (lo_device l) (lo_function l) + offset).
Definition config_value (w : Z) (l : location) (offset : Z) : Z :=
  device (k_io sb) (MmioRead w (config_reg l offset)) `mod` 2 ^ (8 * w).
Definition reg2 (l : location) : Z := config_value 4 l 0x8.
Definition present (l : location) : bool := negb (config_value 2 l 0 =? 0xFFFF).
Definition header_of (bus device : Z) : Z :=
  u8 (Z.shiftr (config_value 4 (Location bus device 0) 0xC) 16).

(** The accesses of the scan: the vendor, the class and the header type of some
    function. *)
Definition scan_registers : list (Z * Z) := [(2, 0); (4, 0x8); (4, 0xC)].
Definition scan_read (a : io) : Prop := exists l w offset,
  (0 <= lo_bus l < 256 /\ 0 <= lo_device l < 32 /\ 0 <= lo_function l < 8) /\
  (w, offset) ∈ scan_registers /\ a = MmioRead w (config_reg l offset).

(** The functions of a device, and those of all buses, in the order of the
    scan: the first, and the others of a device that says it has more. *)
Definition device_functions (bus device : Z) : list location :=
  if present (Location bus device 0) then
    Location bus device 0 ::
      (if Z.land (header_of bus device) 0x80 =? 0 then []
       else concat ((fun f => if present (Location bus device f) then [Location bus device f] else []) <$> seqZ 1 7))
  else [].
Definition all_functions : list location :=
  concat ((fun bus => concat (device_functions bus <$> seqZ 0 32)) <$> seqZ 0 256).

(** What struct pci_device must say about a function. *)
Definition class_of (l : location) : Z := u8 (Z.shiftr (reg2 l) 24).
Definition subclass_of (l : location) : Z := u8 (Z.shiftr (reg2 l) 16).
Definition description_of (l : location) : string := default unknown_device (device_str (class_of l) (subclass_of l)).
Record record_at (m : memory) (l : location) (p : Z) : Prop := {
  ra_class : rd 1 (p + off_class_code) m = class_of l;
  ra_subclass : rd 1 (p + off_sub_class_code) m = subclass_of l;
  ra_prog_if : rd 1 (p + off_prog_if) m = u8 (Z.shiftr (reg2 l) 8);
  ra_bus : rd 1 (p + off_bus) m = lo_bus l;
  ra_device : rd 1 (p + off_device) m = lo_device l;
  ra_function : rd 1 (p + off_function) m = lo_function l;
  ra_header : rd 4 (p + off_header_type) m = header_of (lo_bus l) (lo_device l);
  ra_address : rd 8 (p + off_address) m = config_reg l 0;
  ra_description : rd 8 (p + off_description) m = u64 (literal (description_of l))
}.

Lemma record_at_same m m' l p :
  (forall x, p <= x < p + sizeof_pci_device -> m' !! x = m !! x) -> record_at m l p -> record_at m' l p.
Proof.
  intros E. assert (R : forall n a, p <= a -> a + Z.of_nat n <= p + 32 -> rd n a m' = rd n a m).
  { intros n a Ha Hn. apply rd_outside. intros x Hx. apply E. unfold sizeof_pci_device. lia. }
  intros []. unfold off_class_code, off_sub_class_code, off_prog_if, off_bus, off_device, off_function,
    off_header_type, off_address, off_description in *. split;
    unfold off_class_code, off_sub_class_code, off_prog_if, off_bus, off_device, off_function,
    off_header_type, off_address, off_description; rewrite R by lia; done.
Qed.

(** The addresses malloc gives for [k] more devices. *)
Fixpoint device_blocks (k : nat) (ns : list node) : option (list Z * list node) :=
  match k with
  | O => Some ([], ns)
  | S k' =>
      '(n, ns1) ← first_fit (sizeof_pci_device + 8) ns;
      '(ps, ns2) ← device_blocks k' ns1;
      Some (nd_base n + hhdm + 8 :: ps, ns2)
  end.

Lemma device_blocks_length k : forall ns qs ns', device_blocks k ns = Some (qs, ns') -> length qs = k.
Proof.
  induction k as [|k IH]; intros ns qs ns' E; cbn [device_blocks] in E; [by injection E as <- _|].
  destruct (first_fit _ ns) as [[n ns1]|]; [|done]. cbn [mbind option_bind] in E.
  destruct (device_blocks k ns1) as [[ps ns2]|] eqn:E1; [|done]. injection E as <- _. cbn. f_equal. by apply (IH ns1 ps ns2).
Qed.
Lemma device_blocks_app a b : forall ns qs ns', device_blocks (a + b) ns = Some (qs, ns') ->
  exists q1 q2 ns1, qs = q1 ++ q2 /\ device_blocks a ns = Some (q1, ns1) /\ device_blocks b ns1 = Some (q2, ns').
Proof.
  induction a as [|a IH]; intros ns qs ns' E; cbn [device_blocks Nat.add] in *; [by exists [], qs, ns|].
  destruct (first_fit _ ns) as [[n ns0']|]; [|done]. cbn [mbind option_bind] in E |- *.
  destruct (device_blocks (a + b) ns0') as [[ps ns2]|] eqn:E1; [|done]. injection E as <- <-.
  destruct (IH _ _ _ E1) as (q1 & q2 & ns1 & -> & E2 & E3). rewrite E2. by exists (nd_base n + hhdm + 8 :: q1), q2, ns1.
Qed.

(** A request that fits some node is served, from that one or from another. *)
Lemma first_fit_room total size ns : 0 <= total <= size -> Exists (fun n => size <= nd_length n) ns ->
  exists n ns', first_fit total ns = Some (n, ns') /\ Exists (fun n => size - total <= nd_length n) ns'.
Proof.
  intros Ht. induction 1 as [n ns Hn|n ns Hex IH]; cbn [first_fit].
  - rewrite (proj2 (Z.leb_le _ _)) by lia. eexists _, _. split; [reflexivity|]. apply Exists_cons_hd. cbn. lia.
  - destruct IH as (k & ns' & E & Hr). destruct (total <=? nd_length n) eqn:Hle.
    + eexists _, _. split; [reflexivity|]. apply Exists_cons_tl. apply (Exists_impl _ _ _ Hex). cbn. lia.
    + rewrite E. eexists _, _. split; [reflexivity|]. by apply Exists_cons_tl.
Qed.
Lemma device_blocks_room k : forall ns, Exists (fun n => 40 * Z.of_nat k <= nd_length n) ns ->
  exists qs ns', device_blocks k ns = Some (qs, ns').
Proof.
  induction k as [|k IH]; intros ns Hr; cbn [device_blocks]; [by eexists _, _|].
  destruct (first_fit_room (sizeof_pci_device + 8) (40 * Z.of_nat (S k)) ns) as (n & ns1 & -> & Hr1); [by split; [done|change (sizeof_pci_device + 8) with 40; lia]|done|].
  destruct (IH ns1) as (qs & ns' & E).
  { apply (Exists_impl _ _ _ Hr1). intros m Hm. cbn in Hm. change (sizeof_pci_device + 8) with 40 in Hm. lia. }
  cbn [mbind option_bind]. rewrite E. by eexists _, _.
Qed.

(** ** The state of the scan *)

Definition with_devices (ps : list Z) : list block := (fun p => (p, sizeof_pci_device)) <$> ps.

(** The heap has not been built yet; [t0] is what the first malloc builds it
    to, inside the free memory [free]. *)
Context (t0 : slob) (ns0 : list node) (free : Z -> Prop).
Context (Hinit : _init (k_slob sb) = 0) (Hbuilt : slob_init (k_slob sb) = Ret tt t0).
Context (Hheap : slob_heap_ns ns0 [] (set__init 1 t0)) (Hhhdm : vmm_higher_half_offset (slob_pmm t0) = hhdm).
Context (Hkept : forall x, ~ free x -> smem t0 !! x = smem sb !! x).
Context (Hblocks : forall x, ~ free x -> cover x (slob_blocks hhdm ns0 []) = 0%nat).
Let s0 := set_k_slob (set__init 1 t0) sb.

Record scanned (fs : list location) (ps : list Z) (ns : list node) (s : kernel) : Prop := {
  sd_eq : exists mc t p, Forall scan_read t /\ s = set_k_pci p (set_k_io (t ++ k_io sb) (set_mach mc s0));
  sd_heap : slob_heap_ns ns (with_devices (rev ps)) (k_slob s);
  sd_cover : forall x, cover x (slob_blocks hhdm ns (with_devices (rev ps))) = cover x (slob_blocks hhdm ns0 []);
  sd_frame : forall x, ~ free x -> smem s !! x = smem sb !! x;
  sd_count : pci_device_cnt (k_pci s) = Z.of_nat (length ps);
  sd_slots : length (pci_devices (k_pci s)) = PCI_DEVICES_LEN;
  sd_devices : take (length ps) (pci_devices (k_pci s)) = ps;
  sd_records : Forall2 (record_at (smem s)) fs ps
}.

(** Before the first function is found nothing but reads has happened, and the
    heap is still to be built. *)
Definition at_scan (fs : list location) (ps : list Z) (ns : list node) (s : kernel) : Prop :=
  match fs with
  | [] => ps = [] /\ ns = ns0 /\ exists t, Forall scan_read t /\ s = after_io t sb
  | _ => scanned fs ps ns s
  end.

Context (Htable : mcfg_mapped sb) (Hbus : mcfg_first_bus sb = 0).
Context (Hout : forall x, table <= x < table + 56 -> ~ free x).
Context (Hcount : pci_device_cnt (k_pci sb) = 0) (Hslots : length (pci_devices (k_pci sb)) = PCI_DEVICES_LEN).
Hypothesis Hspace : forall t a, Forall scan_read t -> scan_read a -> device (t ++ k_io sb) a = device (k_io sb) a.

Lemma scanned_same fs ps ns s : scanned fs ps ns s ->
  k_acpi s = k_acpi sb /\ vmm_higher_half_offset (slob_pmm (k_slob s)) = hhdm.
Proof. intros Hs. destruct (sd_eq _ _ _ _ Hs) as (mc & t & p & _ & ->). done. Qed.

(** The first malloc serves its request from the heap it builds. *)
Lemma k_malloc_first n t : k_malloc n (after_io t sb) = k_malloc n (after_io t s0).
Proof.
  unfold k_malloc, in_slob, zoom. change (k_slob (after_io t sb)) with (k_slob sb).
  change (k_slob (after_io t s0)) with (set__init 1 t0).
  assert (E : malloc n (k_slob sb) = malloc n (set__init 1 t0)).
  { unfold malloc. rewrite (slob_malloc_init_eq (set__init 1 t0)) by done. unfold slob_malloc.
    erewrite bind_ret_eq; [|reflexivity]. rewrite Hinit. cbn [Z.eqb].
    erewrite bind_ret_eq; [reflexivity|]. erewrite bind_ret_eq; [|exact Hbuilt]. reflexivity. }
  rewrite E. by destruct (malloc n (set__init 1 t0)).
Qed.
Lemma built_scanned t : Forall scan_read t -> scanned [] [] ns0 (after_io t s0).
Proof.
  intros Ht. split; try done. exists (get_mach s0), t, (k_pci sb). split; [done|]. rewrite set_get_mach. by destruct sb.
Qed.
Lemma at_scan_malloc fs ps ns s : at_scan fs ps ns s ->
  exists s1, scanned fs ps ns s1 /\ forall n, k_malloc n s = k_malloc n s1.
Proof.
  destruct fs as [|f fs]; [|by eexists]. intros (-> & -> & t & Ht & ->). exists (after_io t s0).
  split; [by apply built_scanned|]. intros n. apply k_malloc_first.
Qed.
Lemma scanned_at fs ps ns s : fs <> [] -> scanned fs ps ns s -> at_scan fs ps ns s.
Proof. by destruct fs. Qed.

(** Where the scan's window is, in a state with the same table. *)
Lemma config_same s bus device function offset :
  k_acpi s = k_acpi sb -> vmm_higher_half_offset (slob_pmm (k_slob s)) = hhdm ->
  (forall x, table <= x < table + 56 -> smem s !! x = smem sb !! x) ->
  0 <= bus -> 0 <= device < 32 -> 0 <= function < 8 ->
  config_address bus device function offset s = Ret (config_reg (Location bus device function) offset) s.
Proof.
  intros Ea Eh Et Hb Hd Hf. unfold mcfg_mapped in Htable. fold table in Htable.
  assert (Em : mcfg_mapped s).
  { unfold mcfg_mapped. rewrite Ea. fold table. intros x Hx. rewrite Et by exact Hx. by apply Htable. }
  assert (E1 : mcfg_first_bus s = mcfg_first_bus sb).
  { unfold mcfg_first_bus. rewrite Ea. fold table. apply rd_outside. intros x Hx. apply Et. unfold off_mcfg_start in Hx. lia. }
  assert (E2 : mcfg_base s = mcfg_base sb).
  { unfold mcfg_base. rewrite Ea. fold table. apply rd_outside. intros x Hx. apply Et. unfold off_mcfg_mmio_base in Hx. lia. }
  rewrite config_address_ok by done. rewrite E1, Hbus, (proj2 (Z.ltb_ge _ _)) by exact Hb.
  unfold config_reg, config_space. rewrite E1, E2, Eh. done.
Qed.
Lemma at_scan_config fs ps ns s bus device function offset :
  at_scan fs ps ns s -> 0 <= bus -> 0 <= device < 32 -> 0 <= function < 8 ->
  config_address bus device function offset s = Ret (config_reg (Location bus device function) offset) s.
Proof.
  intros Hs Hb Hd Hf. destruct fs as [|f fs]; [destruct Hs as (_ & _ & t & _ & ->); by apply config_same|].
  destruct (scanned_same _ _ _ _ Hs) as [Ea Eh]. apply config_same; [done|done| |done..].
  intros x Hx. by apply (sd_frame _ _ _ _ Hs), Hout.
Qed.

Lemma at_scan_io fs ps ns s t : Forall scan_read t -> at_scan fs ps ns s -> at_scan fs ps ns (after_io t s).
Proof.
  intros Ht. destruct fs as [|f fs].
  - intros (-> & -> & t' & Ht' & ->). split_and!; try done. exists (t ++ t'). split; [by apply Forall_app|].
    by rewrite after_io_app.
  - intros [(mc & t' & p & Ht' & ->) S2 S3 S4 S5 S6 S7 S8]. split; try done. exists mc, (t ++ t'), p.
    split; [by apply Forall_app|]. by rewrite <- app_assoc.
Qed.
Lemma at_scan_device fs ps ns s a : at_scan fs ps ns s -> scan_read a -> device (k_io s) a = device (k_io sb) a.
Proof.
  destruct fs as [|f fs].
  - intros (_ & _ & t & Ht & ->). by apply Hspace.
  - intros [(mc & t & p & Ht & ->) _ _ _ _ _ _ _]. by apply Hspace.
Qed.
Lemma scanned_log fs ps ns s f a : scanned fs ps ns s ->
  exists s', kprintf f a s = Ret tt s' /\ scanned fs ps ns s' /\ smem s' = smem s.
Proof.
  intros [(mc & t & p & Ht & ->) S2 S3 S4 S5 S6 S7 S8]. eexists. split; [reflexivity|]. split; [|done].
  split; try done.
  - eexists _, t, p. split; [exact Ht|reflexivity].
  - by apply (slob_heap_frame ns (with_devices (rev ps)) _ (Machine _ _) S2).
Qed.

(** A read of the configuration space. *)
Lemma at_scan_read fs ps ns s bus device function offset size :
  at_scan fs ps ns s -> 0 <= bus < 256 -> 0 <= device < 32 -> 0 <= function < 8 -> (size, offset) ∈ scan_registers ->
  exists s', _pci_mm_read bus device function offset size s =
    Ret (config_value size (Location bus device function) offset) s' /\ at_scan fs ps ns s'.
Proof.
  intros Hs Hb Hd Hf Hreg. set (l := Location bus device function). set (r := config_reg l offset).
  assert (Hread : scan_read (MmioRead size r)) by (exists l, size, offset; split; [exact (conj Hb (conj Hd Hf))|by split]).
  exists (after_io [MmioRead size r] s). split; [|apply at_scan_io; [by apply Forall_singleton|done]].
  unfold _pci_mm_read. rewrite (bind_ret_eq _ _ _ _ _ (at_scan_config _ _ _ _ _ _ _ _ Hs (proj1 Hb) Hd Hf)). fold l r.
  assert (Er : u64 r = r) by (apply u64_small, u64_range).
  assert (E : mmio_read size r s = Ret (config_value size l offset) (after_io [MmioRead size r] s)).
  { unfold mmio_read. rewrite Er. erewrite bind_ret_eq; [|reflexivity]. unfold config_value. fold r.
    by rewrite (at_scan_device _ _ _ _ _ Hs Hread). }
  unfold scan_registers in Hreg.
  apply elem_of_cons in Hreg as [[= -> _]|[[= -> _]|[= -> _]%list_elem_of_singleton]%elem_of_cons]; exact E.
Qed.

(** ** One function *)

(** push_device stores the pointer in the next of the 32 slots. *)
Lemma push_device_ok ps s dev :
  pci_device_cnt (k_pci s) = Z.of_nat (length ps) -> length (pci_devices (k_pci s)) = PCI_DEVICES_LEN ->
  take (length ps) (pci_devices (k_pci s)) = ps -> (length ps < PCI_DEVICES_LEN)%nat ->
  exists p, push_device dev s = Ret tt (set_k_pci p s) /\ pci_device_cnt p = Z.of_nat (length (ps ++ [dev])) /\
    length (pci_devices p) = PCI_DEVICES_LEN /\ take (length (ps ++ [dev])) (pci_devices p) = ps ++ [dev].
Proof.
  intros Hc Hl Ht Hlen. unfold push_device, PCI_DEVICES_LEN in *. erewrite bind_ret_eq; [|reflexivity].
  rewrite Hc, (proj2 (Z.ltb_lt _ _)) by lia. eexists. split; [reflexivity|].
  rewrite length_app. cbn [length pci_device_cnt pci_devices set_pci_device_cnt set_pci_devices].
  rewrite Hc, Nat2Z.id. split_and!.
  - rewrite u8_small by lia. lia.
  - by rewrite length_insert.
  - rewrite Nat.add_comm. cbn [Nat.add]. rewrite (take_S_r _ _ dev) by (apply list_lookup_insert_eq; lia).
    by rewrite take_insert_ge, Ht by lia.
Qed.

Lemma get_device_str_ok class subclass s : exists lg,
  _get_device_str class subclass s = Ret (default unknown_device (device_str class subclass)) (logged lg s).
Proof.
  unfold _get_device_str. destruct (device_str class subclass) as [d|].
  - exists (klog (get_mach s)). unfold logged, mret, M_ret. f_equal. transitivity (set_mach (get_mach s) s).
    + by rewrite set_get_mach.
    + f_equal. unfold smem. by destruct (get_mach s).
  - eexists. reflexivity.
Qed.

Lemma new_block_covered ns dev live x : dev <= x < dev + sizeof_pci_device ->
  (1 <= cover x (slob_blocks hhdm ns ((dev, sizeof_pci_device) :: live)))%nat.
Proof.
  intros Hx. apply (cover_in x (with_header (dev, sizeof_pci_device))); [apply with_header_in, elem_of_cons; by left|].
  unfold inside, with_header, sizeof_SlobHeader. simpl. lia.
Qed.

(** A new device whose structure is filled in. *)
Lemma scanned_push fs ps ns s n ns' l pci lg m :
  let dev := nd_base n + hhdm + 8 in
  scanned fs ps ns s -> first_fit (sizeof_pci_device + 8) ns = Some (n, ns') ->
  pci_device_cnt pci = Z.of_nat (length (ps ++ [dev])) -> length (pci_devices pci) = PCI_DEVICES_LEN ->
  take (length (ps ++ [dev])) (pci_devices pci) = ps ++ [dev] ->
  (forall x, ~ (dev <= x < dev + sizeof_pci_device) -> m !! x = taken hhdm n (sizeof_pci_device + 8) (smem s) !! x) ->
  (forall x, is_Some (taken hhdm n (sizeof_pci_device + 8) (smem s) !! x) -> is_Some (m !! x)) ->
  record_at m l dev ->
  scanned (fs ++ [l]) (ps ++ [dev]) ns' (set_k_pci pci (set_mach (Machine m lg) s)).
Proof.
  intros dev Hs Ef Hcnt Hlen Htake Hm Hmap Hrec. pose proof Hs as [(mc & t & p & Ht & Es) S2 S3 S4 S5 S6 S7 S8].
  destruct (scanned_same _ _ _ _ Hs) as [_ Eh].
  destruct (k_malloc_ok s ns _ sizeof_pci_device n ns' S2 ltac:(done) ltac:(by vm_compute) Ef) as (_ & Hh & Hf & Hc).
  rewrite Eh in Hh, Hf, Hc. fold dev in Hh, Hc. rewrite smem_set_mem in Hf.
  assert (Hlive : with_devices (rev (ps ++ [dev])) = (dev, sizeof_pci_device) :: with_devices (rev ps)).
  { by rewrite rev_app_distr. }
  assert (Hother : forall x b, b ∈ with_devices (rev ps) -> inside x b -> m !! x = smem s !! x).
  { intros x b Hb Hx. rewrite Hm.
    - apply Hf. right. apply (cover_in x (with_header b)); [by apply list_elem_of_fmap_2|].
      unfold inside, with_header, sizeof_SlobHeader in *. cbn. lia.
    - intros Hin. pose proof (proj1 (@heap_live slob _ slob_heap_instance _ _ (ex_intro _ ns' Hh))) as Hd.
      by apply (disjoint_blocks_cons x _ _ b Hd Hb). }
  split.
  - exists (Machine m lg), t, pci. split; [exact Ht|]. by rewrite Es.
  - rewrite Hlive.
    apply (slob_heap_frame ns' _ (k_slob (set_mem (taken hhdm n (sizeof_pci_device + 8) (smem s)) s)) (Machine m lg) Hh).
    + intros x Hx. cbn [mem]. apply Hm. intros Hin. cbn [cover] in Hx. rewrite decide_True in Hx by exact Hin. lia.
    + exact Hmap.
  - intros x. rewrite Hlive, Hc. apply S3.
  - intros x Hx. change (smem (set_k_pci pci (set_mach (Machine m lg) s))) with m. rewrite <- S4 by exact Hx.
    specialize (Hblocks x Hx). rewrite Hm; [apply Hf; left; by rewrite S3|]. intros Hin.
    pose proof (new_block_covered ns' dev (with_devices (rev ps)) x Hin) as Hcx. rewrite Hc, S3 in Hcx. lia.
  - done.
  - done.
  - exact Htake.
  - change (smem (set_k_pci pci (set_mach (Machine m lg) s))) with m. apply Forall2_app; [|by apply Forall2_cons; split; [exact Hrec|apply Forall2_nil]].
    apply Forall2_same_length_lookup in S8 as [Hl S8]. apply Forall2_same_length_lookup. split; [done|].
    intros i l' p' Hl' Hp'. apply (record_at_same (smem s)); [|by apply (S8 i)]. intros x Hx.
    apply (Hother x (p', sizeof_pci_device)); [|exact Hx]. apply list_elem_of_fmap.
    exists p'. split; [done|]. rewrite list_elem_of_In, <- List.in_rev, <- list_elem_of_In. by apply list_elem_of_lookup_2 in Hp'.
Qed.

(** The fields a function's registers hold. *)
Lemma at_scan_reg2 fs ps ns s l k (f : Z -> Z -> Z -> M kernel Z) :
  (forall b d u, f b d u = (r ← _pci_mm_read b d u 0x8 4; mret (u8 (Z.shiftr r k)))) ->
  at_scan fs ps ns s -> 0 <= lo_bus l < 256 -> 0 <= lo_device l < 32 -> 0 <= lo_function l < 8 ->
  exists s', f (lo_bus l) (lo_device l) (lo_function l) s = Ret (u8 (Z.shiftr (reg2 l) k)) s' /\ at_scan fs ps ns s'.
Proof.
  intros Ef Hs Hb Hd Hf. rewrite Ef.
  destruct (at_scan_read _ _ _ _ _ _ _ 0x8 4 Hs Hb Hd Hf ltac:(by apply (bool_decide_unpack _))) as (s' & E & Hs').
  exists s'. rewrite (bind_ret_eq _ _ _ _ _ E). split; [|done]. by destruct l.
Qed.

(** The reads before a structure is requested, and the request. *)
Lemma _check_function_start fs ps ns s n ns' l (k : Z -> Z -> Z -> Z -> M kernel unit) :
  let dev := nd_base n + hhdm + 8 in
  at_scan fs ps ns s -> first_fit (sizeof_pci_device + 8) ns = Some (n, ns') ->
  0 <= lo_bus l < 256 -> 0 <= lo_device l < 32 -> 0 <= lo_function l < 8 ->
  exists s1, scanned fs ps ns s1 /\
    (classcode ← _pci_mm_read_class_code (lo_bus l) (lo_device l) (lo_function l);
     subclass ← _pci_mm_read_subclass_code (lo_bus l) (lo_device l) (lo_function l);
     progif ← _pci_mm_read_prog_if (lo_bus l) (lo_device l) (lo_function l);
     dev ← k_malloc sizeof_pci_device;
     k classcode subclass progif dev) s =
    k (class_of l) (subclass_of l) (u8 (Z.shiftr (reg2 l) 8)) dev
      (set_mem (taken hhdm n (sizeof_pci_device + 8) (smem s1)) s1).
Proof.
  intros dev Hs Ef Hb Hd Hfn.
  destruct (at_scan_reg2 fs ps ns s l 24 _pci_mm_read_class_code ltac:(done) Hs Hb Hd Hfn) as (s1 & E1 & H1).
  rewrite (bind_ret_eq _ _ _ _ _ E1). clear E1 Hs s. fold (class_of l).
  destruct (at_scan_reg2 fs ps ns s1 l 16 _pci_mm_read_subclass_code ltac:(done) H1 Hb Hd Hfn) as (s2 & E2 & H2).
  rewrite (bind_ret_eq _ _ _ _ _ E2). clear E2 H1 s1. fold (subclass_of l).
  destruct (at_scan_reg2 fs ps ns s2 l 8 _pci_mm_read_prog_if ltac:(done) H2 Hb Hd Hfn) as (s3 & E3 & H3).
  rewrite (bind_ret_eq _ _ _ _ _ E3). clear E3 H2 s2.
  destruct (at_scan_malloc _ _ _ _ H3) as (s & Hs & Ek). destruct (scanned_same _ _ _ _ Hs) as [_ Eh].
  destruct (k_malloc_ok s ns _ sizeof_pci_device n ns' (sd_heap _ _ _ _ Hs) ltac:(done) ltac:(by vm_compute) Ef) as (Em & _).
  rewrite Eh in Em. exists s. split; [done|]. rewrite <- Ek in Em. by rewrite (bind_ret_eq _ _ _ _ _ Em).
Qed.

Lemma _check_function_ok fs ps ns s n ns' l :
  let dev := nd_base n + hhdm + 8 in
  at_scan fs ps ns s -> (length ps < PCI_DEVICES_LEN)%nat ->
  first_fit (sizeof_pci_device + 8) ns = Some (n, ns') ->
  0 <= lo_bus l < 256 -> 0 <= lo_device l < 32 -> 0 <= lo_function l < 8 ->
  exists s', _check_function (lo_bus l) (lo_device l) (lo_function l) (header_of (lo_bus l) (lo_device l)) s = Ret tt s' /\
    scanned (fs ++ [l]) (ps ++ [dev]) ns' s'.
Proof.
  intros dev Hat Hlen Ef Hb Hd Hfn. unfold _check_function.
  edestruct (_check_function_start fs ps ns s n ns' l) as (s1 & Hs & E); [exact Hat|exact Ef|exact Hb|exact Hd|exact Hfn|].
  rewrite E. clear E Hat s. rename s1 into s. fold dev. set (progif := u8 (Z.shiftr (reg2 l) 8)).
  destruct (scanned_same _ _ _ _ Hs) as [Ea Eh].
  destruct (k_malloc_ok s ns _ sizeof_pci_device n ns' (sd_heap _ _ _ _ Hs) ltac:(done) ltac:(by vm_compute) Ef) as (_ & Hh & Hf & Hc).
  rewrite Eh in Hh, Hf, Hc. fold dev in Hh, Hc. rewrite smem_set_mem in Hf.
  remember (taken hhdm n (sizeof_pci_device + 8) (smem s)) as m0 eqn:Em0.
  assert (Hr : region dev 32 m0).
  { pose proof (proj2 (@heap_live slob _ slob_heap_instance _ _ (ex_intro _ ns' Hh))) as Hok.
    apply Forall_cons in Hok as [(_ & _ & _ & Hr) _]. exact Hr. }
  assert (Ek : k_pci (set_mem m0 s) = k_pci s) by reflexivity.
  destruct (push_device_ok ps (set_mem m0 s) dev) as (pci & Ep & P1 & P2 & P3);
    [rewrite Ek; apply Hs..|exact Hlen|].
  rewrite (bind_ret_eq _ _ _ _ _ Ep). clear Ep.
  change (set_k_pci pci (set_mem m0 s)) with (set_mem m0 (set_k_pci pci s)).
  unfold off_class_code, off_sub_class_code, off_prog_if.
  do 3 mstep.
  match goal with |- context [set_mem ?m (set_k_pci pci s)] => remember m as m1 eqn:Em1 end.
  destruct (get_device_str_ok (class_of l) (subclass_of l) (set_mem m1 (set_k_pci pci s))) as (lg & Eg).
  rewrite (bind_ret_eq _ _ _ _ _ Eg). clear Eg. fold (description_of l).
  change (logged lg (set_mem m1 (set_k_pci pci s))) with (set_mem m1 (logged lg (set_k_pci pci s))).
  unfold off_description, off_bus, off_function, off_device, off_header_type, off_address.
  assert (Hr1 : region dev 32 m1) by (rewrite Em1; by repeat apply region_wr).
  do 5 mstep.
  match goal with |- context [set_mem ?m (logged lg _)] => remember m as m2 eqn:Em2 end.
  assert (Hsame : forall x, ~ (dev <= x < dev + 32) -> m2 !! x = m0 !! x).
  { intros x Hx. rewrite Em2, Em1. rewrite !wr_lookup_ne by lia. done. }
  assert (Hmap : forall x, is_Some (m0 !! x) -> is_Some (m2 !! x)).
  { intros x Hx. rewrite Em2, Em1. by repeat apply wr_is_Some. }
  assert (Et : forall x, table <= x < table + 56 -> m2 !! x = smem sb !! x).
  { intros x Hx. specialize (Hout x Hx). rewrite <- (sd_frame _ _ _ _ Hs) by exact Hout. apply Hblocks in Hout.
    rewrite <- (sd_cover _ _ _ _ Hs) in Hout. rewrite Hsame; [apply Hf; by left|]. intros Hin. rewrite <- Hc in Hout.
    pose proof (new_block_covered ns' dev (with_devices (rev ps)) x Hin). lia. }
  set (s' := set_mem m2 (logged lg (set_k_pci pci s))).
  assert (Ea' : k_acpi s' = k_acpi s) by reflexivity.
  assert (Eh' : vmm_higher_half_offset (slob_pmm (k_slob s')) = vmm_higher_half_offset (slob_pmm (k_slob s))) by reflexivity.
  rewrite (bind_ret_eq _ _ _ _ _ (config_same s' (lo_bus l) (lo_device l) (lo_function l) 0 (eq_trans Ea' Ea) (eq_trans Eh' Eh) Et (proj1 Hb) Hd Hfn)).
  unfold s'. clear Ea' Eh' s'.
  assert (Hr2 : region dev 32 m2) by (intros x Hx; by apply Hmap, Hr).
  mstep. set (reg := config_reg _ 0). set (m3 := wr 8 (dev + 16) reg m2).
  eexists. split; [reflexivity|].
  change (set_mach _ _) with (set_k_pci pci (set_mach (Machine m3 (Log ("PCI: %s" +:+ nl) [KStr (description_of l)] :: lg)) s)).
  apply (scanned_push fs ps ns s n ns' l pci _ m3 Hs Ef P1 P2 P3); rewrite <- ?Em0.
  - intros x Hx. unfold sizeof_pci_device in Hx. fold dev in Hx. unfold m3. rewrite wr_lookup_ne by lia. by apply Hsame.
  - intros x Hx. unfold m3. by apply wr_is_Some, Hmap.
  - fold dev. unfold m3. rewrite Em2, Em1. assert (Ereg : config_reg l 0 = reg) by (by destruct l).
    assert (Hreg : is_u64 reg) by apply u64_range. clearbody dev reg.
    pose proof (u8_range (Z.shiftr (reg2 l) 24)) as Hc1. pose proof (u8_range (Z.shiftr (reg2 l) 16)) as Hc2.
    pose proof (u8_range (Z.shiftr (reg2 l) 8)) as Hc3. fold progif in Hc3. fold (class_of l) in Hc1. fold (subclass_of l) in Hc2.
    pose proof (u8_range (Z.shiftr (config_value 4 (Location (lo_bus l) (lo_device l) 0) 0xC) 16)) as Hc4.
    fold (header_of (lo_bus l) (lo_device l)) in Hc4. unfold is_u8, is_u64 in *.
    split; unfold off_class_code, off_sub_class_code, off_prog_if, off_bus, off_device, off_function,
      off_header_type, off_address, off_description; rdsimp; try reflexivity; rewrite ?Ereg; apply Z.mod_small; change (256 ^ Z.of_nat 1) with (2 ^ 8);
      change (256 ^ Z.of_nat 4) with (2 ^ 32); change (256 ^ Z.of_nat 8) with (2 ^ 64); lia.
Qed.

(** With all 32 slots taken the pointer goes past the array. *)
Lemma _check_function_full fs ps ns s n ns' l ht :
  at_scan fs ps ns s -> (PCI_DEVICES_LEN <= length ps)%nat -> first_fit (sizeof_pci_device + 8) ns = Some (n, ns') ->
  0 <= lo_bus l < 256 -> 0 <= lo_device l < 32 -> 0 <= lo_function l < 8 ->
  _check_function (lo_bus l) (lo_device l) (lo_function l) ht s = Fault OutOfBounds.
Proof.
  intros Hat Hlen Ef Hb Hd Hfn. unfold _check_function.
  edestruct (_check_function_start fs ps ns s n ns' l) as (s1 & Hs & E); [exact Hat|exact Ef|exact Hb|exact Hd|exact Hfn|].
  rewrite E. clear E. set (dev := nd_base n + hhdm + 8).
  lazymatch goal with |- (_ ≫= _) ?st = _ => assert (E : push_device dev st = Fault OutOfBounds) end.
  { unfold push_device. erewrite bind_ret_eq; [|reflexivity].
    lazymatch goal with |- context [pci_device_cnt ?p] => assert (Ec : p = k_pci s1) by reflexivity; rewrite Ec end.
    rewrite (sd_count _ _ _ _ Hs), (proj2 (Z.ltb_ge _ _)) by lia. done. }
  unfold mbind at 1, M_bind at 1. by rewrite E.
Qed.

(** ** Composition *)

(** [m] appends the functions [l] to the table, as far as it has room: with
    more than 32 in all it overruns. *)
Definition finds (m : M kernel unit) (l : list location) : Prop :=
  forall fs ps ns s qs ns', at_scan fs ps ns s -> (length ps <= PCI_DEVICES_LEN)%nat ->
    device_blocks (length l) ns = Some (qs, ns') ->
    if decide (length ps + length l <= PCI_DEVICES_LEN)%nat
    then exists s', m s = Ret tt s' /\ at_scan (fs ++ l) (ps ++ qs) ns' s'
    else m s = Fault OutOfBounds.

Lemma finds_ret : finds (mret tt) [].
Proof.
  intros fs ps ns s qs ns' Hs Hlen [= <- <-]. rewrite decide_True by (cbn; lia). exists s. rewrite !app_nil_r. by split.
Qed.
Lemma finds_seq m1 m2 l1 l2 : finds m1 l1 -> finds m2 l2 -> finds (m1 ;; m2) (l1 ++ l2).
Proof.
  intros F1 F2 fs ps ns s qs ns' Hs Hlen E. rewrite length_app in E.
  destruct (device_blocks_app _ _ _ _ _ E) as (q1 & q2 & ns1 & -> & E1 & E2).
  pose proof (device_blocks_length _ _ _ _ E1) as L1. specialize (F1 fs ps ns s q1 ns1 Hs Hlen E1). rewrite length_app.
  destruct (decide (length ps + length l1 <= PCI_DEVICES_LEN)%nat) as [D|D].
  - destruct F1 as (s1 & Em & Hs1). specialize (F2 _ _ _ _ _ _ Hs1 ltac:(rewrite length_app; lia) E2).
    rewrite (bind_ret_eq _ _ _ _ _ Em). rewrite length_app, L1 in F2. rewrite !app_assoc, Nat.add_assoc. exact F2.
  - rewrite decide_False by lia. unfold mbind, M_bind. by rewrite F1.
Qed.
Lemma finds_count (body : Z -> M kernel unit) (f : Z -> list location) k : forall i,
  (forall j, i <= j < i + Z.of_nat k -> finds (body j) (f j)) -> finds (for_count k i body) (concat (f <$> seqZ i (Z.of_nat k))).
Proof.
  induction k as [|k IH]; intros i Hb; [apply finds_ret|].
  rewrite seqZ_cons by lia. cbn [for_count fmap list_fmap concat]. apply finds_seq; [apply Hb; lia|].
  replace (Z.pred (Z.of_nat (S k))) with (Z.of_nat k) by lia. apply (IH (i + 1)). intros j Hj. apply Hb. lia.
Qed.
Lemma finds_range (body : Z -> M kernel unit) (f : Z -> list location) lo n :
  0 <= n -> (forall j, lo <= j < lo + n -> finds (body j) (f j)) -> finds (for_range lo (lo + n) body) (concat (f <$> seqZ lo n)).
Proof.
  intros Hn Hb. unfold for_range. rewrite <- (Z2Nat.id n) at 2 by done.
  replace (lo + n - lo) with n by lia. apply finds_count. rewrite Z2Nat.id by done. exact Hb.
Qed.

Lemma finds_function bus device function :
  0 <= bus < 256 -> 0 <= device < 32 -> 0 <= function < 8 ->
  finds (_check_function bus device function (header_of bus device)) [Location bus device function].
Proof.
  intros Hb Hd Hf fs ps ns s qs ns' Hs Hlen E. cbn [length device_blocks] in E.
  destruct (first_fit (sizeof_pci_device + 8) ns) as [[n ns1]|] eqn:Ef; [|done]. injection E as <- <-. cbn [length].
  set (l := Location bus device function). case_decide as D.
  - destruct (_check_function_ok fs ps ns s n ns1 l Hs) as (s' & E & Hs'); [lia|done|done|done|done|].
    exists s'. split; [exact E|]. apply scanned_at; [by destruct fs|exact Hs'].
  - apply (_check_function_full fs ps ns s n ns1 l _ Hs); (done || lia).
Qed.

(** Reading a register before. *)
Lemma finds_vendor bus device function (k : Z -> M kernel unit) l :
  0 <= bus < 256 -> 0 <= device < 32 -> 0 <= function < 8 ->
  finds (k (config_value 2 (Location bus device function) 0)) l ->
  finds (v ← _pci_mm_read_vendor_id bus device function; k v) l.
Proof.
  intros Hb Hd Hf Hk fs ps ns s qs ns' Hs. destruct (at_scan_read _ _ _ _ bus device function 0 2 Hs Hb Hd Hf ltac:(by apply (bool_decide_unpack _))) as (s1 & E & Hs1).
  assert (Ev : _pci_mm_read_vendor_id bus device function s =
    Ret (config_value 2 (Location bus device function) 0) s1).
  { unfold _pci_mm_read_vendor_id. rewrite (bind_ret_eq _ _ _ _ _ E). unfold mret, M_ret. f_equal.
    apply u16_small. by apply Z.mod_pos_bound. }
  rewrite (bind_ret_eq _ _ _ _ _ Ev). by apply Hk.
Qed.
Lemma finds_header bus device (k : Z -> M kernel unit) l :
  0 <= bus < 256 -> 0 <= device < 32 ->
  finds (k (header_of bus device)) l -> finds (h ← _pci_mm_read_header_type bus device 0; k h) l.
Proof.
  intros Hb Hd Hk fs ps ns s qs ns' Hs. destruct (at_scan_read _ _ _ _ bus device 0 0xC 4 Hs Hb Hd ltac:(lia) ltac:(by apply (bool_decide_unpack _))) as (s1 & E & Hs1).
  assert (Ev : _pci_mm_read_header_type bus device 0 s = Ret (header_of bus device) s1).
  { unfold _pci_mm_read_header_type. rewrite (bind_ret_eq _ _ _ _ _ E). done. }
  rewrite (bind_ret_eq _ _ _ _ _ Ev). by apply Hk.
Qed.

Lemma finds_device bus device : 0 <= bus < 256 -> 0 <= device < 32 ->
  finds (_check_device bus device) (device_functions bus device).
Proof.
  intros Hb Hd. unfold _check_device. apply finds_vendor; [done|done|lia|].
  unfold device_functions, present. destruct (_ =? 0xFFFF); cbn [negb]; [apply finds_ret|].
  apply finds_header; [done|done|]. apply (finds_seq _ _ [Location bus device 0]); [apply finds_function; (done || lia)|].
  destruct (_ =? 0); [apply finds_ret|]. unfold check_functions.
  apply (finds_range _ (fun f => if present (Location bus device f) then [Location bus device f] else []) 1 7); [lia|].
  intros f Hf. apply finds_vendor; [done|done|lia|]. unfold present. destruct (_ =? 0xFFFF); cbn [negb]; [apply finds_ret|].
  apply finds_function; (done || lia).
Qed.

Lemma finds_scan : finds _scan_all_buses all_functions.
Proof.
  unfold _scan_all_buses, all_functions.
  apply (finds_range _ (fun bus => concat (device_functions bus <$> seqZ 0 32)) 0 256); [lia|]. intros bus Hb.
  apply (finds_range _ (device_functions bus) 0 32); [lia|]. intros device Hd. apply finds_device; lia.
Qed.

(** After the scan pci_init reports what it found. *)
Lemma pci_init_scanned qs ns' :
  device_blocks (length all_functions) ns0 = Some (qs, ns') ->
  if decide (length all_functions <= PCI_DEVICES_LEN)%nat then
    exists s', pci_init sb = Ret tt s' /\
      match all_functions with
      | [] => smem s' = smem sb /\ k_pci s' = k_pci sb
      | _ => scanned all_functions qs ns' s'
      end
  else pci_init sb = Fault OutOfBounds.
Proof.
  intros E. assert (Hs : at_scan [] [] ns0 sb).
  { split_and!; try done. exists []. split; [by apply Forall_nil|]. by rewrite after_io_nil. }
  pose proof (finds_scan [] [] ns0 sb qs ns' Hs ltac:(cbn; lia) E) as Hscan. cbn [length Nat.add app] in Hscan.
  unfold pci_init. case_decide as D; [|unfold mbind, M_bind; by rewrite Hscan].
  destruct Hscan as (s1 & E1 & H1). rewrite (bind_ret_eq _ _ _ _ _ E1). erewrite bind_ret_eq; [|reflexivity].
  unfold at_scan in H1. destruct all_functions as [|f fs] eqn:Eall.
  - destruct H1 as (_ & _ & t & _ & ->). eexists. split; [reflexivity|]. done.
  - lazymatch goal with |- context [(kprintf ?f ?a ≫= _) s1] => destruct (scanned_log _ _ _ s1 f a H1) as (s2 & E2 & H2 & _) end.
    rewrite (bind_ret_eq _ _ _ _ _ E2).
    lazymatch goal with |- context [kprintf ?f ?a s2] => destruct (scanned_log _ _ _ s2 f a H2) as (s3 & E3 & H3 & _) end.
    by exists s3.
Qed.
End scan.

(** The nodes slob_init writes stand for the usable entries. *)
Lemma init_nodes_room e es size : e ∈ es -> fits size e -> forall a,
  Exists (fun n => size <= nd_length n) (init_nodes a es).
Proof.
  intros He [Hu Hl]. induction es as [|e' es IH]; intros a; [by apply not_elem_of_nil in He|].
  cbn [init_nodes]. apply elem_of_cons in He as [<-|He].
  - rewrite Hu. by apply Exists_cons_hd.
  - destruct (is_usable e'); [apply Exists_cons_tl|]; by apply IH.
Qed.

(** What slob_init builds from a well-formed map with room. *)
Lemma heap_from_map (s : kernel) room size :
  let es := memmap (slob_pmm (k_slob s)) in
  let hhdm := vmm_higher_half_offset (slob_pmm (k_slob s)) in
  memmap_ok hhdm (smem s) es -> 0 < hhdm < 2 ^ 64 -> count_usable es < 2 ^ 32 ->
  room ∈ es -> fits (table_bytes (count_usable es) + size) room -> 0 <= size ->
  exists t ns, slob_init (k_slob s) = Ret tt t /\ slob_heap_ns ns [] (set__init 1 t) /\
    vmm_higher_half_offset (slob_pmm t) = hhdm /\
    (forall x, ~ in_usable es (x - hhdm) -> smem t !! x = smem s !! x) /\
    (forall x, ~ in_usable es (x - hhdm) -> cover x (slob_blocks hhdm ns []) = 0%nat) /\
    Exists (fun n => size <= nd_length n) ns.
Proof.
  intros es hhdm K Hh Hn He Hf Hsize. pose proof (count_usable_nonneg es) as Hn0.
  destruct (table_bytes_ok (count_usable es) ltac:(lia)) as ([T0 T1] & T2 & T3).
  assert (Hf0 : fits (table_bytes (count_usable es)) room) by (destruct Hf; split; [done|lia]).
  destruct (slob_init_ok hhdm (k_slob s) room K Hh eq_refl Hn He Hf0) as (j & e & mc & Hj & Fe & E & Hheap & _ & F).
  fold es in Hj, Fe, E, Hheap, F. set (size0 := table_bytes (count_usable es)) in *. pose proof Fe as [Ue Le].
  pose proof (list_elem_of_lookup_2 _ _ _ Hj) as Hin. destruct (mo_range _ _ _ K e Hin Ue) as (R1 & R2 & R3). unfold me_end in R3.
  set (es' := <[j := carved e size0]> es) in *.
  destruct (fits_after_carve es j room e size0 size He Hf Hj Fe) as (room' & He' & Hf'); [lia..|].
  assert (Hcell : forall x, ~ in_usable es (x - hhdm) -> ~ (me_base e + hhdm <= x < me_base e + hhdm + size0)).
  { intros x Hx Hi. apply Hx. exists e. split; [done|]. split; [done|]. unfold me_end. lia. }
  eexists _, (init_nodes (me_base e + hhdm) es'). split; [exact E|]. split; [exact Hheap|]. split; [reflexivity|].
  split; [|split; [|by apply (init_nodes_room room')]].
  - intros x Hx. cbn [smem]. by apply F, Hcell.
  - intros x Hx. unfold slob_blocks. rewrite !cover_app. cbn [fmap list_fmap cover].
    pose proof (cover_cells x es' (me_base e + hhdm)) as Hcells.
    pose proof (count_usable_carve es e size0 j Hj : count_usable es' = count_usable es) as Ec'.
    rewrite decide_False in Hcells by (intros Hi; apply (Hcell x Hx); rewrite Ec' in Hi; lia).
    destruct (cover x (node_free hhdm <$> init_nodes (me_base e + hhdm) es')) eqn:Ec; [lia|]. exfalso. apply Hx.
    apply (in_usable_carve hhdm (smem s) es j e size0); try done; try lia.
    apply (free_usable hhdm x es' (me_base e + hhdm)). lia.
Qed.

(** C13: the scan of the PCI buses. pci_init makes the kernel's first malloc:
    [_init] is zero, so the first structure's request builds the heap from the
    memory map, which must be well formed and have an entry with room for the
    table of nodes and the structures, 40 bytes each. The first bus of the MCFG
    table is 0, and the table is not in memory the map has as free; the vendor,
    class and header registers of the functions do not change while only such
    registers are read. Then pci_init finds exactly the functions that are there
    (function 0 of a device, and the other seven of a device whose header says
    it has them), in the order bus, device, function: their count and their
    structures, each in a block of its own, are in the table, and every structure
    says what the registers of its function say. Only memory that was free
    changes, and none if there is no function. If there are more than 32
    functions the table overruns. *)
Theorem pci_init_finds_all `{Hardware} `{Image} (s : kernel) room :
  let es := memmap (slob_pmm (k_slob s)) in
  let hhdm := vmm_higher_half_offset (slob_pmm (k_slob s)) in
  let table := mcfg (k_acpi s) in
  let found := all_functions s in
  mcfg_mapped s -> mcfg_first_bus s = 0 ->
  (forall x, table <= x < table + 56 -> ~ in_usable es (x - hhdm)) ->
  (forall t a, Forall (scan_read s) t -> scan_read s a -> device (t ++ k_io s) a = device (k_io s) a) ->
  _init (k_slob s) = 0 -> memmap_ok hhdm (smem s) es -> 0 < hhdm < 2 ^ 64 -> count_usable es < 2 ^ 32 ->
  room ∈ es -> fits (table_bytes (count_usable es) + 40 * Z.of_nat (length found)) room ->
  pci_device_cnt (k_pci s) = 0 -> length (pci_devices (k_pci s)) = PCI_DEVICES_LEN ->
  if decide (length found <= PCI_DEVICES_LEN)%nat then
    exists s' qs, pci_init s = Ret tt s' /\
      pci_device_cnt (k_pci s') = Z.of_nat (length found) /\
      take (length found) (pci_devices (k_pci s')) = qs /\
      Forall2 (record_at s (smem s')) found qs /\
      (found <> [] -> exists ns, slob_heap_ns ns ((fun p => (p, sizeof_pci_device)) <$> rev qs) (k_slob s')) /\
      (forall x, found = [] \/ ~ in_usable es (x - hhdm) -> smem s' !! x = smem s !! x)
  else pci_init s = Fault OutOfBounds.
Proof.
  intros es hhdm table found Htable Hbus Hout Hspace Hinit K Hh Hn He Hf Hc Hl.
  destruct (heap_from_map s room (40 * Z.of_nat (length found)) K Hh Hn He Hf ltac:(lia))
    as (t0 & ns0 & E0 & Hheap & Hv & Hkept & Hblocks & Hroom).
  destruct (device_blocks_room s (length found) ns0 Hroom) as (qs & ns' & Ed).
  pose proof (pci_init_scanned s t0 ns0 (fun x => in_usable es (x - hhdm)) Hinit E0 Hheap Hv Hkept Hblocks
    Htable Hbus Hout Hc Hl Hspace qs ns' Ed) as Hp. fold found in Hp. case_decide as D; [|exact Hp].
  destruct Hp as (s' & E & Hs). exists s', qs. pose proof (device_blocks_length s _ _ _ _ Ed) as Hq.
  split; [exact E|]. destruct found as [|f fs].
  - destruct Hs as [Em Ep]. rewrite Ep, Hc. destruct qs; [|done]. split_and!; try done.
    intros x _. by rewrite Em.
  - destruct Hs as [_ S2 _ S4 S5 _ S7 S8]. rewrite <- Hq. split_and!; try done.
    + intros _. by exists ns'.
    + intros x [|Hx]; [done|]. by apply S4.
Qed.

(** A map with two free pages, an MCFG table at 64, and an NVMe controller as
    device 3 of bus 0, the only one there is; other devices count accesses. *)
Definition one_device (w a : Z) : Z :=
  if w =? 2 then (if a =? 2 ^ 47 + 0xB0018000 then 0x1234 else 0xFFFF)
  else if a =? 2 ^ 47 + 0xB0018008 then 0x01080200 else 0.
#[local] Instance scan_hardware : Hardware := {|
  device t a := match a with MmioRead w x => one_device w x | _ => Z.of_nat (length t) end;
  cpuid_regs _ _ := (0, 0, 0, 0); stale_eax := 0; patience := 4 |}.
#[local] Instance scan_image : Image := {| literal _ := 0; tprintf_buffer := 0 |}.
Definition scan_mem : memory := wr 8 (64 + 44) 0xB0000000 (zeros 64 56) ∪ zeros (2 ^ 47 + 1048576) 8192.
Definition scan_map : list memmap_entry := [MemmapEntry 1048576 8192 0].
Definition scan_kernel_at (m : memory) : kernel :=
  set_k_pci (PciGlobals (replicate 32 0) 0) (set_k_acpi (AcpiGlobals 0 0 0 0 0 64 0 [] [])
    (set_k_slob (Slob (Pmm (Machine m []) 0 0 0 scan_map 0 0 0 0 (2 ^ 47) 0 0 0) 0 0) (kernel_at ∅ (2 ^ 47) 0 40))).
Definition scan_kernel : kernel := scan_kernel_at scan_mem.

Lemma scan_map_ok m : region (2 ^ 47 + 1048576) 8192 m -> memmap_ok (2 ^ 47) m scan_map.
Proof.
  intros Hr. split.
  - by intros e ->%list_elem_of_singleton.
  - intros e ->%list_elem_of_singleton. unfold me_end. cbn. lia.
  - intros [|i] [|j] e e' Hij Hi Hj; simpl in Hi, Hj; simplify_eq; lia.
  - by intros e ->%list_elem_of_singleton _.
Qed.

Lemma pci_init_finds_all_witness :
  exists s' p ns, pci_init scan_kernel = Ret tt s' /\ pci_device_cnt (k_pci s') = 1 /\
    rd 1 (p + off_class_code) (smem s') = 1 /\ rd 1 (p + off_device) (smem s') = 3 /\
    rd 8 (p + off_address) (smem s') = 2 ^ 47 + 0xB0018000 /\
    slob_heap_ns ns [(p, sizeof_pci_device)] (k_slob s').
Proof.
  assert (Eall : all_functions scan_kernel = [Location 0 3 0]) by (vm_compute; reflexivity).
  assert (Er : class_of scan_kernel (Location 0 3 0) = 1 /\
    config_reg scan_kernel (Location 0 3 0) 0 = 2 ^ 47 + 0xB0018000) by (split; vm_compute; reflexivity).
  assert (Eb : mcfg_first_bus scan_kernel = 0) by (vm_compute; reflexivity).
  assert (Hr : region (2 ^ 47 + 1048576) 8192 scan_mem) by apply region_union_r, region_zeros.
  assert (Ht : region 64 56 scan_mem) by apply region_union_l, region_wr, region_zeros.
  unfold scan_kernel in *. revert Eall Er Eb Hr Ht. generalize scan_mem. intros m Eall Er Eb Hr Ht.
  pose proof (pci_init_finds_all (scan_kernel_at m) (MemmapEntry 1048576 8192 0)) as Hp. cbv zeta in Hp. rewrite Eall in Hp.
  rewrite decide_True in Hp by (vm_compute; lia).
  destruct Hp as (s' & qs & E & Hn & _ & Hrec & Hheap & _); try done.
  - intros x Hx (e & ->%list_elem_of_singleton & _ & He). unfold me_end in He. cbn in He, Hx. lia.
  - intros t a _ (l & w & o & _ & _ & ->). reflexivity.
  - by apply scan_map_ok.
  - by apply list_elem_of_singleton.
  - destruct (Hheap ltac:(done)) as (ns & Hh). apply Forall2_cons_inv_l in Hrec as (p & qs' & Hrec & ->%Forall2_nil_inv_l & ->).
    exists s', p, ns. split; [exact E|]. split; [exact Hn|].
    split; [rewrite (ra_class _ _ _ _ Hrec); apply Er|]. split; [apply (ra_device _ _ _ _ Hrec)|].
    split; [rewrite (ra_address _ _ _ _ Hrec); apply Er|exact Hh].
Defined.
