(* ===== verification/Ps2.v ===== *)
(** * drivers/ps2.c: the keyboard controller and the scan codes *)
From S2P Require Import Prelude Machine Pmm Slob Kstate Acpi Ioapic Hpet Lapic Queue Desc.

(** KeyEvent_t *)
Record key_event := KeyEvent { scan_code : Z; event_type : Z; ascii : Z; is_control : bool }.
#[export] Instance key_event_eq_dec : EqDecision key_event.
Proof. solve_decision. Defined.
Definition PS2_KEYDOWN : Z := 0.
Definition PS2_KEYUP : Z := 1.
Definition PS2_SCANCODE_ENTER : Z := 28.
Definition PS2_SCANCODE_BACKSPACE : Z := 14.

(** The UK layout, in the order of the source. *)
Definition key_map : list key_event :=
  [KeyEvent 2 0 49 false; KeyEvent 130 1 49 false; KeyEvent 3 0 50 false; KeyEvent 131 1 50 false;
    KeyEvent 4 0 51 false; KeyEvent 132 1 51 false; KeyEvent 5 0 52 false;
    KeyEvent 133 1 52 false; KeyEvent 6 0 53 false; KeyEvent 134 1 53 false;
    KeyEvent 7 0 54 false; KeyEvent 135 1 54 false; KeyEvent 8 0 55 false;
    KeyEvent 136 1 55 false; KeyEvent 9 0 56 false; KeyEvent 137 1 56 false;
    KeyEvent 10 0 57 false; KeyEvent 138 1 57 false; KeyEvent 11 0 48 false;
    KeyEvent 139 1 48 false; KeyEvent 12 0 45 false; KeyEvent 140 1 45 false;
    KeyEvent 13 0 61 false; KeyEvent 141 1 61 false; KeyEvent 16 0 113 false;
    KeyEvent 144 1 113 false; KeyEvent 17 0 119 false; KeyEvent 145 1 119 false;
    KeyEvent 18 0 101 false; KeyEvent 146 1 101 false; KeyEvent 19 0 114 false;
    KeyEvent 147 1 114 false; KeyEvent 20 0 116 false; KeyEvent 148 1 116 false;
    KeyEvent 21 0 121 false; KeyEvent 149 1 121 false; KeyEvent 22 0 117 false;
    KeyEvent 150 1 117 false; KeyEvent 23 0 105 false; KeyEvent 151 1 105 false;
    KeyEvent 24 0 111 false; KeyEvent 152 1 111 false; KeyEvent 25 0 112 false;
    KeyEvent 153 1 112 false; KeyEvent 26 0 91 false; KeyEvent 154 1 91 false;
    KeyEvent 27 0 93 false; KeyEvent 155 1 93 false; KeyEvent 30 0 97 false;
    KeyEvent 158 1 97 false; KeyEvent 31 0 115 false; KeyEvent 159 1 115 false;
    KeyEvent 32 0 100 false; KeyEvent 160 1 100 false; KeyEvent 33 0 102 false;
    KeyEvent 161 1 102 false; KeyEvent 34 0 103 false; KeyEvent 162 1 103 false;
    KeyEvent 35 0 104 false; KeyEvent 163 1 104 false; KeyEvent 36 0 106 false;
    KeyEvent 164 1 106 false; KeyEvent 37 0 107 false; KeyEvent 165 1 107 false;
    KeyEvent 38 0 108 false; KeyEvent 166 1 108 false; KeyEvent 39 0 59 false;
    KeyEvent 167 1 59 false; KeyEvent 40 0 39 false; KeyEvent 168 1 39 false;
    KeyEvent 43 0 35 false; KeyEvent 171 1 35 false; KeyEvent 57 0 32 false;
    KeyEvent 185 1 32 false; KeyEvent 53 0 47 false; KeyEvent 181 1 47 false;
    KeyEvent 41 0 96 false; KeyEvent 169 1 96 false; KeyEvent 44 0 122 false;
    KeyEvent 172 1 122 false; KeyEvent 45 0 120 false; KeyEvent 173 1 120 false;
    KeyEvent 46 0 99 false; KeyEvent 174 1 99 false; KeyEvent 47 0 118 false;
    KeyEvent 175 1 118 false; KeyEvent 48 0 98 false; KeyEvent 176 1 98 false;
    KeyEvent 49 0 110 false; KeyEvent 177 1 110 false; KeyEvent 50 0 109 false;
    KeyEvent 178 1 109 false; KeyEvent 51 0 44 false; KeyEvent 179 1 44 false;
    KeyEvent 52 0 46 false; KeyEvent 180 1 46 false; KeyEvent 71 0 55 false;
    KeyEvent 199 1 55 false; KeyEvent 72 0 56 false; KeyEvent 200 1 56 false;
    KeyEvent 73 0 57 false; KeyEvent 201 1 57 false; KeyEvent 75 0 52 false;
    KeyEvent 203 1 52 false; KeyEvent 76 0 53 false; KeyEvent 204 1 53 false;
    KeyEvent 77 0 54 false; KeyEvent 205 1 54 false; KeyEvent 79 0 49 false;
    KeyEvent 207 1 49 false; KeyEvent 80 0 50 false; KeyEvent 208 1 50 false;
    KeyEvent 81 0 51 false; KeyEvent 209 1 51 false; KeyEvent 82 0 48 false;
    KeyEvent 210 1 48 false; KeyEvent 83 0 46 false; KeyEvent 211 1 46 false;
    KeyEvent 224 1 47 false; KeyEvent 55 0 42 false; KeyEvent 183 1 42 false;
    KeyEvent 74 0 45 false; KeyEvent 202 1 45 false; KeyEvent 78 0 43 false;
    KeyEvent 206 1 43 false; KeyEvent 69 0 0 false; KeyEvent 197 1 0 false; KeyEvent 28 0 10 true;
    KeyEvent 156 1 0 true; KeyEvent 14 0 0 true; KeyEvent 142 1 0 true; KeyEvent 42 0 0 true;
    KeyEvent 170 1 0 true; KeyEvent 54 0 0 true; KeyEvent 182 1 0 true; KeyEvent 29 0 0 true;
    KeyEvent 157 1 0 true; KeyEvent 56 0 0 true; KeyEvent 184 1 0 true; KeyEvent 15 0 9 true;
    KeyEvent 143 1 0 true; KeyEvent 1 0 0 true; KeyEvent 129 1 0 true; KeyEvent 58 0 0 true;
    KeyEvent 186 1 0 true].

Definition PORT_PS2_CONFIG : Z := 0x20.
Definition PORT_PS2_DATA : Z := 0x60.
Definition PORT_PS2_STATUSCMD : Z := 0x64.

Section ps2.
Context `{Hardware} `{!Printf kernel}.

(** The two busy waits on the status register. *)
Definition read_wait_iter (_ : unit) : M kernel (unit + unit) :=
  v ← inb PORT_PS2_STATUSCMD; mret (if Z.land v 1 =? 0 then inl tt else inr tt).
Definition write_wait_iter (_ : unit) : M kernel (unit + unit) :=
  v ← inb PORT_PS2_STATUSCMD; mret (if negb (Z.land v 2 =? 0) then inl tt else inr tt).

Definition ps2_read : M kernel Z :=
  loop patience read_wait_iter tt ;;
  inb 0x60.
Definition ps2_write (port value : Z) : M kernel unit :=
  loop patience write_wait_iter tt ;;
  outb port value.
Definition ps2_read_config : M kernel Z :=
  ps2_write PORT_PS2_STATUSCMD PORT_PS2_CONFIG ;;
  ps2_read.
(** The "write configuration" command is the data port's number, 0x60. *)
Definition ps2_write_config (value : Z) : M kernel unit :=
  ps2_write PORT_PS2_STATUSCMD PORT_PS2_DATA ;;
  ps2_write PORT_PS2_DATA value.

(** One entry of the loop that fills scancode_map. *)
Definition register_key (i : nat) (ke : key_event) : M kernel unit :=
  m ← gets scancode_map;
  (if decide (is_Some (mjoin (m !! Z.to_nat (scan_code ke)))) then
     kprintf ("Map Error: Scan code %d already registered." +:+ nl) [KNum (scan_code ke)]
   else mret tt) ;;
  modify (fun s => set_scancode_map (<[Z.to_nat (scan_code ke) := Some i]> (scancode_map s)) s).
Fixpoint register_keys (i : nat) (kes : list key_event) : M kernel unit :=
  match kes with
  | [] => mret tt
  | ke :: kes' => register_key i ke ;; register_keys (S i) kes'
  end.

Definition ps2_init : M kernel unit :=
  ps2_write PORT_PS2_STATUSCMD 0xAD ;;
  ps2_write PORT_PS2_STATUSCMD 0xA7 ;;
  ps2_read_no_wait ;;
  config ← ps2_read_config;
  let config := Z.lor config (Z.lor (Z.shiftl 1 0) (Z.shiftl 1 6)) in
  let config := if negb (Z.land config (Z.shiftl 1 5) =? 0) then Z.lor config (Z.shiftl 1 1) else config in
  ps2_write_config config ;;
  id ← gets (fun s => bsp_lapic_id (k_lapic s));
  ioapic_redirect_irq id KEYBOARD_VECTOR 1 true ;;
  ps2_write PORT_PS2_STATUSCMD 0xAE ;;
  (if negb (Z.land config (Z.shiftl 1 5) =? 0) then ps2_write PORT_PS2_STATUSCMD 0xA8 else mret tt) ;;
  register_keys 0 key_map ;;
  kprintf ("PS2 initialized." +:+ nl) [].
End ps2.

(** scancode_map[scanCode], followed to the event it points to. *)
Definition key_for (m : list (option nat)) (code : Z) : option key_event :=
  i ← mjoin (m !! Z.to_nat code); key_map !! i.
