(* ===== verification/Ps2Props.v ===== *)
(** * drivers/ps2.c: the properties of the scan code map *)
From S2P Require Import Prelude Machine Pmm Slob Kstate VmProps Queue Desc Ps2.

(** What the registration loop stores. *)
Fixpoint registered (i : nat) (kes : list key_event) (m : list (option nat)) : list (option nat) :=
  match kes with
  | [] => m
  | ke :: kes' => registered (S i) kes' (<[Z.to_nat (scan_code ke) := Some i]> m)
  end.
(** No code of [kes] is taken in [m] or met twice. *)
Fixpoint all_fresh (i : nat) (kes : list key_event) (m : list (option nat)) : bool :=
  match kes with
  | [] => true
  | ke :: kes' => bool_decide (mjoin (m !! Z.to_nat (scan_code ke)) = None) &&
      all_fresh (S i) kes' (<[Z.to_nat (scan_code ke) := Some i]> m)
  end.

Lemma register_keys_ok `{!Printf kernel} kes : forall i s,
  all_fresh i kes (scancode_map s) = true ->
  register_keys i kes s = Ret tt (set_scancode_map (registered i kes (scancode_map s)) s).
Proof.
  induction kes as [|ke kes IH]; intros i s Hf; cbn [register_keys registered].
  - by destruct s.
  - cbn [all_fresh] in Hf. apply andb_true_iff in Hf as [Hn Hf]. apply bool_decide_eq_true in Hn.
    erewrite bind_ret_eq.
    2: { unfold register_key. erewrite bind_ret_eq; [|reflexivity].
         rewrite decide_False by (rewrite Hn; apply is_Some_None). reflexivity. }
    by rewrite IH.
Qed.

(** The event the layout lists for a scan code. *)
Definition layout_event (code : Z) : option key_event := snd <$> list_find (fun ke => scan_code ke = code) key_map.

Definition empty_map : list (option nat) := replicate 256 None.
Definition full_map : list (option nat) := registered 0 key_map empty_map.

Lemma full_map_ok : all_fresh 0 key_map empty_map = true /\
  Forall (fun code => key_for full_map code = layout_event code) (seqZ 0 256).
Proof. split; [by vm_compute|]. apply (bool_decide_unpack _). by vm_compute. Qed.

(** The registration loop of ps2_init builds the layout. From the empty
    map every scan code of the layout is stored, none is registered twice (no
    map error is logged), and a lookup of any of the 256 codes gives exactly
    the event the layout lists for it, or none. Where the layout has a press,
    it has the release too, at the code plus 128. *)
Theorem register_keys_layout s :
  scancode_map s = replicate 256 None ->
  exists s', register_keys 0 key_map s = Ret tt s' /\
    s' = set_scancode_map (scancode_map s') s /\ length (scancode_map s') = 256%nat /\
    (forall code, 0 <= code < 256 -> key_for (scancode_map s') code = layout_event code) /\
    (forall ke, ke ∈ key_map -> event_type ke = PS2_KEYDOWN ->
       exists up, key_for (scancode_map s') (scan_code ke + 128) = Some up /\
         event_type up = PS2_KEYUP /\ is_control up = is_control ke).
Proof.
  intros Hm. destruct full_map_ok as [Hf Hall]. rewrite Forall_forall in Hall.
  exists (set_scancode_map full_map s). split; [|split; [done|split; [by vm_compute|split]]].
  - rewrite register_keys_ok; [by rewrite Hm|]. by rewrite Hm.
  - intros code Hc. apply Hall, elem_of_seqZ. lia.
  - cbn [scancode_map set_scancode_map]. intros ke Hke Hd. revert ke Hke Hd.
    apply (Forall_forall (fun ke => event_type ke = PS2_KEYDOWN -> exists up,
      key_for full_map (scan_code ke + 128) = Some up /\ event_type up = PS2_KEYUP /\ is_control up = is_control ke)).
    assert (Hd : forallb (fun ke => (negb (event_type ke =? PS2_KEYDOWN)) ||
      match key_for full_map (scan_code ke + 128) with
      | Some up => (event_type up =? PS2_KEYUP) && eqb (is_control up) (is_control ke)
      | None => false end) key_map = true) by (by vm_compute).
    apply Forall_forall. intros ke Hke Hdown. rewrite forallb_forall in Hd.
    specialize (Hd ke). rewrite <- list_elem_of_In in Hd. specialize (Hd Hke).
    rewrite Hdown in Hd. cbn [Z.eqb negb orb] in Hd.
    destruct (key_for full_map (scan_code ke + 128)) as [up|]; [|done].
    apply andb_true_iff in Hd as [H1 H2]. exists up. split; [done|]. split; [by apply Z.eqb_eq|by apply eqb_prop].
Qed.

Lemma register_keys_layout_witness :
  exists s', register_keys 0 key_map (set_scancode_map (replicate 256 None) (kernel_at ∅ 0 0 40)) = Ret tt s' /\
    ascii <$> key_for (scancode_map s') 30 = Some 97 /\ key_for (scancode_map s') 250 = None.
Proof.
  destruct (register_keys_layout (set_scancode_map (replicate 256 None) (kernel_at ∅ 0 0 40)))
    as (s' & E & _ & _ & Hk & _); [reflexivity|].
  exists s'. split; [exact E|]. rewrite !Hk by lia. split; vm_compute; reflexivity.
Defined.
