(* ===== verification/Ps2Init.v ===== *)
(** * drivers/ps2.c: the set-up of the keyboard controller *)
From S2P Require Import Prelude Machine Pmm Slob Kstate VmProps Poll Printing Acpi Ioapic IoapicProps Queue Desc Ps2 Ps2Props.

(** What was written to the ports, in the order of the writes. *)
Definition port_write (a : io) : option (Z * Z) := match a with PortOut 1 p v => Some (p, v) | _ => None end.
Definition port_writes (t : list io) : list (Z * Z) := omap port_write (rev t).

Lemma port_writes_app t1 t2 : port_writes (t2 ++ t1) = port_writes t1 ++ port_writes t2.
Proof. unfold port_writes. by rewrite rev_app_distr, omap_app. Qed.

Section ps2_init.
Context `{Hardware}.

Definition status : io := PortIn 1 0x64.
Definition in_full (v : Z) : bool := negb (Z.land (u8 v) 2 =? 0).
Definition out_empty (v : Z) : bool := Z.land (u8 v) 1 =? 0.

(** Every byte for the controller is sent behind a read of the status register
    that said its input buffer is empty. *)
Fixpoint courteous (base t : list io) : Prop :=
  match t with
  | [] => True
  | a :: t' => courteous base t' /\
      match a with
      | PortOut _ _ _ => exists t'', t' = status :: t'' /\ in_full (device (t'' ++ base) status) = false
      | _ => True
      end
  end.

Lemma courteous_app base t1 t2 : courteous base t1 -> courteous (t1 ++ base) t2 -> courteous base (t2 ++ t1).
Proof.
  intros H1. induction t2 as [|a t2 IH]; [done|]. intros [H2 Ha]. split; [by apply IH|].
  destruct a; try done. destruct Ha as (t'' & -> & Hd). exists (t'' ++ t1). split; [done|]. by rewrite <- app_assoc.
Qed.
Lemma courteous_reads base a k : match a with PortOut _ _ _ => False | _ => True end -> courteous base (replicate k a).
Proof. intros Ha. induction k as [|k IH]; [done|]. split; [done|]. by destruct a. Qed.
Lemma port_writes_reads k : port_writes (replicate k status) = [].
Proof.
  induction k as [|k IH]; [done|]. change (replicate (S k) status) with ([status] ++ replicate k status).
  by rewrite port_writes_app, IH.
Qed.

(** The controller takes every byte out of its input buffer in time; and once it
    was sent the command to read the configuration, when its input buffer was
    empty, it puts a byte into its output buffer in time. *)
Hypothesis Hin : forall t, settles status in_full patience t.
Hypothesis Hout : forall t, in_full (device t status) = false ->
  settles status out_empty patience (PortOut 1 0x64 0x20 :: status :: t).

Lemma ps2_write_ok port v s : exists k,
  let t := PortOut 1 (u16 port) (u8 v) :: replicate (S k) status in
  ps2_write port v s = Ret tt (after_io t s) /\ port_writes t = [(u16 port, u8 v)] /\ courteous (k_io s) t /\
  in_full (device (replicate k status ++ k_io s) status) = false.
Proof.
  destruct (poll_ok status in_full patience s (Hin (k_io s))) as (k & _ & E & Hb & _). exists k.
  split; [|split; [|split; [|exact Hb]]].
  - unfold ps2_write. erewrite bind_ret_eq; [|rewrite <- E; by apply loop_ext]. done.
  - change (PortOut 1 (u16 port) (u8 v) :: replicate (S k) status) with ([PortOut 1 (u16 port) (u8 v)] ++ replicate (S k) status).
    by rewrite port_writes_app, port_writes_reads.
  - split; [by apply courteous_reads|]. exists (replicate k status). by split.
Qed.

Lemma ps2_write_any port v s : exists t,
  ps2_write port v s = Ret tt (after_io t s) /\ port_writes t = [(u16 port, u8 v)] /\ courteous (k_io s) t.
Proof. destruct (ps2_write_ok port v s) as (k & E & W & C & _). eauto. Qed.

Lemma ps2_read_ok s : settles status out_empty patience (k_io s) -> exists k,
  ps2_read s = Ret (u8 (device (replicate k status ++ k_io s) (PortIn 1 0x60)))
    (after_io (PortIn 1 0x60 :: replicate k status) s).
Proof.
  intros Ho. destruct (poll_ok status out_empty patience s Ho) as (k & _ & E & Hb & _).
  exists (S k). unfold ps2_read. erewrite bind_ret_eq; [|rewrite <- E; by apply loop_ext]. done.
Qed.

(** The configuration byte that is written back for [b]. *)
Definition ps2_config (b : Z) : Z :=
  let config := Z.lor b (Z.lor (Z.shiftl 1 0) (Z.shiftl 1 6)) in
  if negb (Z.land config (Z.shiftl 1 5) =? 0) then Z.lor config (Z.shiftl 1 1) else config.

Lemma ps2_config_bit b i : 0 <= i < 8 ->
  Z.testbit (u8 (ps2_config b)) i =
    bool_decide (i = 0 \/ i = 6) || Z.testbit b i || bool_decide (i = 1) && Z.testbit b 5.
Proof.
  intros Hi. unfold ps2_config, u8. rewrite testbit_mod_pow2, bool_decide_eq_true_2, andb_true_l by lia.
  rewrite land_bit_nonzero, negb_involutive, !Z.lor_spec, !testbit_one_shift by lia.
  rewrite (bool_decide_eq_false_2 (5 = 0)), (bool_decide_eq_false_2 (5 = 6)), !orb_false_r by lia.
  destruct (Z.testbit b 5) eqn:E5; rewrite ?Z.lor_spec, ?testbit_one_shift by lia;
    repeat case_bool_decide; try lia; destruct (Z.testbit b i); done.
Qed.
Lemma ps2_config_mouse b : negb (Z.land (let config := Z.lor b (Z.lor (Z.shiftl 1 0) (Z.shiftl 1 6)) in
  if negb (Z.land config (Z.shiftl 1 5) =? 0) then Z.lor config (Z.shiftl 1 1) else config) (Z.shiftl 1 5) =? 0) = Z.testbit b 5.
Proof.
  cbv zeta. rewrite land_bit_nonzero, negb_involutive by lia.
  destruct (Z.land _ _ =? 0); cbn [negb]; rewrite !Z.lor_spec, !testbit_one_shift by lia;
    repeat case_bool_decide; try lia; by rewrite !orb_false_r.
Qed.

(** The I/O APIC that line 1 goes to, as the firmware describes it. *)
Context (p addr gb : Z) (l : list Z).
Definition key_route : kernel -> Z * Z := irq_route 1.
Definition key_line_ok (s : kernel) : Prop := irq_line_ok p addr gb l 1 s.
Definition key_redirect : kernel -> list io -> list io := irq_redirect addr gb 1 KEYBOARD_VECTOR.

Ltac ps2_step t E W C :=
  match goal with |- context [mbind ?f (ps2_write ?port ?v) ?st] =>
    destruct (ps2_write_any port v st) as (t & E & W & C);
    rewrite (bind_ret_eq _ _ _ _ _ E), ?after_io_app; clear E end.

Lemma ps2_read_config_ok s : exists t,
  ps2_read_config s = Ret (u8 (device (t ++ k_io s) (PortIn 1 0x60))) (after_io (PortIn 1 0x60 :: t) s) /\
  port_writes t = [(0x64, 0x20)] /\ courteous (k_io s) t.
Proof.
  unfold ps2_read_config. destruct (ps2_write_ok PORT_PS2_STATUSCMD PORT_PS2_CONFIG s) as (j & E & W & C & Hb).
  cbv zeta in E, W, C. rewrite (bind_ret_eq _ _ _ _ _ E). set (t := PortOut _ _ _ :: _) in *.
  destruct (ps2_read_ok (after_io t s)) as (k & Ek).
  { exact (Hout (replicate j status ++ k_io s) Hb). }
  exists (replicate k status ++ t). rewrite Ek, after_io_app. split; [by rewrite <- app_assoc|]. split.
  - by rewrite port_writes_app, port_writes_reads, app_nil_r.
  - apply courteous_app; [done|]. by apply courteous_reads.
Qed.
Lemma ps2_write_config_ok v s : exists t,
  ps2_write_config v s = Ret tt (after_io t s) /\
  port_writes t = [(0x64, 0x60); (0x60, u8 v)] /\ courteous (k_io s) t.
Proof.
  unfold ps2_write_config. ps2_step ta E Wa Ca.
  destruct (ps2_write_any PORT_PS2_DATA v (after_io ta s)) as (tb & E & Wb & Cb).
  rewrite E, after_io_app. exists (tb ++ ta). split; [done|]. split; [by rewrite port_writes_app, Wa, Wb|by apply courteous_app].
Qed.

Lemma courteous_redirect base s t : courteous base (key_redirect s t).
Proof. unfold key_redirect, irq_redirect, redirect_trace, io_write, io_read. cbn [app courteous]. by split_and!. Qed.
(** The controller's set-up up to the routing of its interrupt. *)
Lemma ps2_config_phase `{!Printf kernel} s (k : Z -> M kernel unit) :
  exists t1 t2, let b := u8 (device (t1 ++ k_io s) (PortIn 1 0x60)) in
    let before := t2 ++ PortIn 1 0x60 :: t1 in
    (ps2_write PORT_PS2_STATUSCMD 0xAD ;; ps2_write PORT_PS2_STATUSCMD 0xA7 ;; ps2_read_no_wait ;;
     config ← ps2_read_config; ps2_write_config (ps2_config config) ;; k (ps2_config config)) s =
      k (ps2_config b) (after_io before s) /\
    port_writes t1 = [(0x64, 0xAD); (0x64, 0xA7); (0x64, 0x20)] /\
    port_writes t2 = [(0x64, 0x60); (0x60, u8 (ps2_config b))] /\ courteous (k_io s) before.
Proof.
  ps2_step ta E Wa Ca. ps2_step tb E Wb Cb.
  change (k_io (after_io ta s)) with (ta ++ k_io s) in Cb.
  rewrite (bind_ret_eq ps2_read_no_wait _ _ (u8 (device ((tb ++ ta) ++ k_io s) (PortIn 1 0x60)))
    (after_io ([PortIn 1 0x60] ++ tb ++ ta) s)) by reflexivity.
  set (tf := [PortIn 1 0x60] ++ tb ++ ta).
  destruct (ps2_read_config_ok (after_io tf s)) as (tc & E & Wc & Cc). rewrite (bind_ret_eq _ _ _ _ _ E), after_io_app. clear E.
  change (k_io (after_io tf s)) with (tf ++ k_io s) in *. rewrite app_assoc. set (t1 := tc ++ tf).
  set (b := u8 (device (t1 ++ k_io s) (PortIn 1 0x60))). change ((PortIn 1 0x60 :: tc) ++ tf) with (PortIn 1 0x60 :: t1).
  destruct (ps2_write_config_ok (ps2_config b) (after_io (PortIn 1 0x60 :: t1) s)) as (t2 & E & W2 & C2).
  rewrite (bind_ret_eq _ _ _ _ _ E), after_io_app. clear E. exists t1, t2. cbv zeta. fold b.
  split; [done|]. split; [unfold t1, tf; by rewrite !port_writes_app, Wa, Wb, Wc|]. split; [done|].
  apply courteous_app; [|done]. split; [|done]. apply courteous_app; [|done].
  apply (courteous_app _ (tb ++ ta) [PortIn 1 0x60]); [by apply courteous_app|by split].
Qed.
(** The devices switched on, and the layout registered. *)
Lemma ps2_enable_phase `{!Printf kernel} b s :
  scancode_map s = empty_map ->
  exists t3, (ps2_write PORT_PS2_STATUSCMD 0xAE ;;
      (if negb (Z.land (ps2_config b) (Z.shiftl 1 5) =? 0) then ps2_write PORT_PS2_STATUSCMD 0xA8 else mret tt) ;;
      register_keys 0 key_map ;; kprintf ("PS2 initialized." +:+ nl) []) s =
    kprintf ("PS2 initialized." +:+ nl) [] (set_scancode_map full_map (after_io t3 s)) /\
    port_writes t3 = (0x64, 0xAE) :: (if Z.testbit b 5 then [(0x64, 0xA8)] else []) /\ courteous (k_io s) t3.
Proof.
  intros Hmap. ps2_step td E Wd Cd.
  assert (Hmouse : exists t3, (if negb (Z.land (ps2_config b) (Z.shiftl 1 5) =? 0) then ps2_write PORT_PS2_STATUSCMD 0xA8 else mret tt)
      (after_io td s) = Ret tt (after_io t3 s) /\
    port_writes t3 = (0x64, 0xAE) :: (if Z.testbit b 5 then [(0x64, 0xA8)] else []) /\ courteous (k_io s) t3).
  { unfold ps2_config. rewrite ps2_config_mouse. destruct (Z.testbit b 5); [|by exists td].
    destruct (ps2_write_any PORT_PS2_STATUSCMD 0xA8 (after_io td s)) as (te & E & We & Ce).
    exists (te ++ td). rewrite E, after_io_app. split; [done|].
    split; [by rewrite port_writes_app, Wd, We|]. by apply courteous_app. }
  destruct Hmouse as (t3 & E & W3 & C3). rewrite (bind_ret_eq _ _ _ _ _ E). clear E. exists t3. split; [|by split].
  destruct full_map_ok as [Hf _].
  assert (Er : register_keys 0 key_map (after_io t3 s) = Ret tt (set_scancode_map full_map (after_io t3 s))).
  { rewrite register_keys_ok; change (scancode_map (after_io t3 s)) with (scancode_map s); by rewrite Hmap. }
  by rewrite (bind_ret_eq _ _ _ _ _ Er).
Qed.

(** ps2_init behind the configuration byte. *)
Definition ps2_finish `{!Printf kernel} (c : Z) : M kernel unit :=
  id ← gets (fun s => bsp_lapic_id (k_lapic s));
  ioapic_redirect_irq id KEYBOARD_VECTOR 1 true ;;
  ps2_write PORT_PS2_STATUSCMD 0xAE ;;
  (if negb (Z.land c (Z.shiftl 1 5) =? 0) then ps2_write PORT_PS2_STATUSCMD 0xA8 else mret tt) ;;
  register_keys 0 key_map ;;
  kprintf ("PS2 initialized." +:+ nl) [].
Lemma ps2_init_eq `{!Printf kernel} s : ps2_init s =
  (ps2_write PORT_PS2_STATUSCMD 0xAD ;; ps2_write PORT_PS2_STATUSCMD 0xA7 ;; ps2_read_no_wait ;;
   config ← ps2_read_config; ps2_write_config (ps2_config config) ;; ps2_finish (ps2_config config)) s.
Proof. done. Qed.

(** The whole set-up, whatever prints its messages. *)
Lemma ps2_init_says (P : Printf kernel) msgs ready said kept (Hsp : speaks P msgs ready said kept) (good_gsi : Z -> Prop) s :
  (forall v g, is_u8 v -> is_u8 g -> msgs applied_message [v; g]) ->
  (forall i g, is_u8 i -> is_u32 g -> good_gsi g -> msgs override_message [i; g]) -> msgs ("PS2 initialized." +:+ nl)%string [] ->
  ready s -> scancode_map s = empty_map -> key_line_ok s -> tables_kept p (kept := kept) (good_gsi := good_gsi) s ->
  exists t1 t2 t3 t4 s1 s2 s', let b := u8 (device (t1 ++ k_io s) (PortIn 1 0x60)) in
    let before := t2 ++ PortIn 1 0x60 :: t1 in
    said (after_io before s) s1 /\ k_io s1 = t4 ++ before ++ k_io s /\
    said (after_io (key_redirect s (t4 ++ before)) s1) s2 /\
    said (set_scancode_map full_map (after_io t3 s2)) s' /\ ready s' /\ ps2_init s = Ret tt s' /\
    port_writes t1 = [(0x64, 0xAD); (0x64, 0xA7); (0x64, 0x20)] /\
    port_writes t2 = [(0x64, 0x60); (0x60, u8 (ps2_config b))] /\
    port_writes t3 = (0x64, 0xAE) :: (if Z.testbit b 5 then [(0x64, 0xA8)] else []) /\
    courteous (k_io s) before /\ courteous (k_io s2) t3.
Proof.
  intros M1 M2 M3 Hrd Hmap Hk Hkept. rewrite ps2_init_eq.
  destruct (ps2_config_phase s ps2_finish) as (t1 & t2 & E & W1 & W2 & C1).
  cbv zeta in E, W2, C1. rewrite E. clear E. set (b := u8 (device (t1 ++ k_io s) (PortIn 1 0x60))) in *.
  set (before := t2 ++ PortIn 1 0x60 :: t1) in *. unfold ps2_finish.
  erewrite bind_ret_eq; [|reflexivity].
  destruct (irq_redirect_says p addr gb Hsp M1 M2 l 1 KEYBOARD_VECTOR (after_io before s)) as (t4 & s1 & s2 & Hs1 & Ht4 & E & Hrd2 & Hs2);
    [done|done|by apply (sp_after _ _ _ _ _ Hsp)| |exact Hkept|].
  { destruct Hk as [K1 K2 K3 K4 K5]. split; try done. intros t. rewrite after_io_app. apply K5. }
  change (bsp_lapic_id (k_lapic (after_io before s))) with (bsp_lapic_id (k_lapic s)) in *.
  rewrite (bind_ret_eq _ _ _ _ _ E). clear E.
  assert (Em : scancode_map s2 = empty_map).
  { rewrite (sp_codes _ _ _ _ _ Hsp _ _ Hs2). change (scancode_map s1 = empty_map). by rewrite (sp_codes _ _ _ _ _ Hsp _ _ Hs1). }
  destruct (ps2_enable_phase b s2 Em) as (t3 & E & W3 & C3). rewrite E. clear E.
  destruct (sp_print _ _ _ _ _ Hsp ("PS2 initialized." +:+ nl)%string [] (set_scancode_map full_map (after_io t3 s2)))
    as (s' & E & Hs' & Hrd'); [by apply (sp_map _ _ _ _ _ Hsp), (sp_after _ _ _ _ _ Hsp)|done|].
  exists t1, t2, t3, t4, s1, s2, s'. cbv zeta. fold b before. split; [exact Hs1|]. split; [exact Ht4|].
  split; [|split; [exact Hs'|]; split; [exact Hrd'|]; split; [exact E|]; by split_and!].
  revert Hs2. unfold key_redirect, irq_redirect. by rewrite after_io_app.
Qed.

(** With the log the accesses are those of the set-up alone. *)
Lemma ps2_init_ok s : scancode_map s = empty_map -> key_line_ok s ->
  exists t1 t2 t3 lg, let b := u8 (device (t1 ++ k_io s) (PortIn 1 0x60)) in
    let before := t2 ++ PortIn 1 0x60 :: t1 in
    let t := t3 ++ key_redirect s before ++ before in
    ps2_init s = Ret tt (set_scancode_map full_map (logged lg (after_io t s))) /\
    port_writes t1 = [(0x64, 0xAD); (0x64, 0xA7); (0x64, 0x20)] /\
    port_writes t2 = [(0x64, 0x60); (0x60, u8 (ps2_config b))] /\
    port_writes t3 = (0x64, 0xAE) :: (if Z.testbit b 5 then [(0x64, 0xA8)] else []) /\
    courteous (k_io s) t.
Proof.
  intros Hmap Hk. destruct (ps2_init_says printf_log _ _ _ _ log_speaks (fun _ => True) s (fun _ _ _ _ => I) (fun _ _ _ _ _ => I) I I Hmap Hk)
    as (t1 & t2 & t3 & t4 & s1 & s2 & s' & H1 & Ht4 & H2 & H3 & _ & E & W1 & W2 & W3 & C1 & C3).
  { split; [done|]. apply Forall_forall. done. }
  cbv zeta in *. set (before := t2 ++ PortIn 1 0x60 :: t1) in *. destruct H1 as [l1 ->], H2 as [l2 ->], H3 as [l3 ->].
  change (k_io (logged l1 (after_io before s))) with ([] ++ before ++ k_io s) in Ht4. apply app_inv_tail in Ht4 as <-.
  exists t1, t2, t3, l3. split; [|split; [done|split; [done|split; [done|]]]].
  - rewrite E. f_equal. unfold logged, after_io. cbn. by rewrite <- !app_assoc.
  - apply courteous_app; [apply courteous_app; [done|apply courteous_redirect]|]. rewrite <- app_assoc. exact C3.
Qed.

(** C37: setting up the keyboard. With a controller that takes in every byte it
    is sent and answers the command to read its configuration, and the line of
    IRQ 1 in the first I/O APIC, ps2_init returns after
    exactly these writes to the controller, each sent only when the status
    register said its input buffer was empty: both devices off, the command to
    read the configuration; the command to write it and the byte read, with the
    keyboard's interrupt and the scan code translation switched on and, where
    the byte says there is a second device, that one's interrupt too; then, with
    IRQ 1 routed to the keyboard's vector in between, the devices on again. All
    256 lookups in the scan code map give what the layout lists, and memory is
    untouched. *)
Theorem ps2_init_programs s : scancode_map s = empty_map -> key_line_ok s ->
  exists t1 t2 t3 s', let b := u8 (device (t1 ++ k_io s) (PortIn 1 0x60)) in
    let before := t2 ++ PortIn 1 0x60 :: t1 in
    let t := t3 ++ key_redirect s before ++ before in
    ps2_init s = Ret tt s' /\ k_io s' = t ++ k_io s /\ smem s' = smem s /\ courteous (k_io s) t /\
    port_writes t1 = [(0x64, 0xAD); (0x64, 0xA7); (0x64, 0x20)] /\
    port_writes t2 = [(0x64, 0x60); (0x60, u8 (ps2_config b))] /\
    port_writes t3 = (0x64, 0xAE) :: (if Z.testbit b 5 then [(0x64, 0xA8)] else []) /\
    (forall i, 0 <= i < 8 -> Z.testbit (u8 (ps2_config b)) i =
       bool_decide (i = 0 \/ i = 6) || Z.testbit b i || bool_decide (i = 1) && Z.testbit b 5) /\
    length (scancode_map s') = 256%nat /\
    (forall code, 0 <= code < 256 -> key_for (scancode_map s') code = layout_event code).
Proof.
  intros Hmap Hk. destruct (ps2_init_ok s Hmap Hk) as (t1 & t2 & t3 & lg & E & W1 & W2 & W3 & C).
  exists t1, t2, t3. eexists. split; [exact E|]. split; [done|]. split; [done|]. split; [exact C|].
  split; [exact W1|]. split; [exact W2|]. split; [exact W3|]. split; [intros i Hi; by apply ps2_config_bit|].
  split; [by vm_compute|]. intros code Hc. destruct full_map_ok as [_ Hall]. rewrite Forall_forall in Hall.
  apply Hall, elem_of_seqZ. lia.
Qed.
End ps2_init.

(** A controller that holds a byte in its output buffer only between the command
    to read the configuration and the read of the byte, with a second device,
    and the I/O APIC of [IoapicProps]. *)
Fixpoint config_waits (t : list io) : bool :=
  match t with
  | [] => false
  | PortOut 1 0x64 0x20 :: _ => true
  | PortIn 1 0x60 :: _ => false
  | _ :: t' => config_waits t'
  end.
Definition keyboard_controller (t : list io) (a : io) : Z :=
  match a with
  | PortIn 1 0x64 => if config_waits t then 1 else 0
  | PortIn 1 0x60 => 0x20
  | _ => 0x170020
  end.
#[local] Instance ps2_hardware : Hardware := {|
  device := keyboard_controller; cpuid_regs _ _ := (0, 0, 0, 0); stale_eax := 0; patience := 4 |}.
Lemma ps2_takes t : settles status in_full patience t.
Proof.
  exists 0%nat. split; [cbn; lia|]. cbn [replicate app]. change (device t status) with (if config_waits t then 1 else 0).
  by destruct (config_waits t).
Qed.
Lemma ps2_answers t : settles status out_empty patience (PortOut 1 0x64 0x20 :: status :: t).
Proof. exists 0%nat. split; [cbn; lia|reflexivity]. Qed.

Lemma ps2_kernel_line : key_line_ok 64 0xFEC00000 0 (replicate 31 0) (set_scancode_map empty_map (ioapic_kernel 2)).
Proof.
  assert (Er : iso_route (ioapic_mem 2) 1 (iso_slots 80) = (1, 0)) by (by vm_compute).
  split; [apply (ioapic_kernel_isos 2)|done|by apply (ioapic_kernel_at 2); vm_compute|done|].
  intros t. change (irq_route 1 (set_scancode_map empty_map (ioapic_kernel 2))) with (iso_route (ioapic_mem 2) 1 (iso_slots 80)).
  rewrite Er. change (last_line 0xFEC00000 (after_io t (set_scancode_map empty_map (ioapic_kernel 2)))) with 23. by vm_compute.
Qed.

Lemma ps2_init_programs_witness :
  exists t s', ps2_init (set_scancode_map empty_map (ioapic_kernel 2)) = Ret tt s' /\ k_io s' = t /\
    port_writes t = [(0x64, 0xAD); (0x64, 0xA7); (0x64, 0x20); (0x64, 0x60); (0x60, 0x63); (0x64, 0xAE); (0x64, 0xA8)] /\
    ascii <$> key_for (scancode_map s') 30 = Some 97.
Proof.
  destruct (ps2_init_programs ps2_takes (fun t _ => ps2_answers t)
    64 0xFEC00000 0 (replicate 31 0) (set_scancode_map empty_map (ioapic_kernel 2)) eq_refl ps2_kernel_line)
    as (t1 & t2 & t3 & s' & E & Eio & _ & _ & W1 & W2 & W3 & _ & _ & Hk).
  eexists _, s'. split; [exact E|]. split; [exact Eio|]. split.
  - change (k_io (set_scancode_map empty_map (ioapic_kernel 2))) with (@nil io). rewrite app_nil_r, !port_writes_app.
    change (PortIn 1 0x60 :: t1) with ([PortIn 1 0x60] ++ t1). by rewrite port_writes_app, W1, W2, W3.
  - rewrite Hk by lia. vm_compute. reflexivity.
Defined.
