(* ===== verification/Terminal.v ===== *)
(** * terminal.c: text on the frame buffer, and the input line *)
From S2P Require Import Prelude Machine Atomic MemLib Str Pmm Slob Kstate Acpi Ioapic Hpet Lapic Queue Desc Ps2.

Definition TERM_DEFAULT_FGCOLOR : Z := 0xCCCCCC.
Definition TERM_CURSOR_COLOR : Z := 0xFFFFFF.
Definition glyph_padding : Z := 1.
(** PSF1_Header, packed. *)
Definition off_magic : Z := 0.
Definition off_char_height : Z := 3.
Definition sizeof_PSF1_Header : Z := 4.
Definition ch_newline : Z := 10.

Definition term {A} (f : term_globals -> A) : M kernel A := gets (fun s => f (k_term s)).

Definition term_fgcolor (color : Z) : M kernel unit := mod_term (set_fgcolor color).
Definition term_bgcolor (color : Z) : M kernel unit := mod_term (set_bgcolor color).

(** ** Pixels *)

Definition fbindex (x y : Z) : M kernel Z :=
  pitch ← term fb_pitch; mret (u32 ((y *64 (pitch `div` 4)) +64 x)).

(** memset(&fb[from], 0, &fb[to] - &fb[from]) *)
Definition blank_pixels (from to : Z) : M kernel unit :=
  fb ← term fb_address;
  memset (fb + 4 * from) 0 (u64 (4 * to - 4 * from)) ;;
  mret tt.
(** Blank from the start of pixel row [y] to the index of (width, y + rows). *)
Definition blank_rows (y rows : Z) : M kernel unit :=
  w ← term fb_width;
  blank_start ← fbindex 0 y;
  blank_end ← fbindex (u32 w) (y +32 rows);
  blank_pixels blank_start blank_end.

Definition _clear_screen : M kernel unit :=
  w ← term fb_width;
  h ← term fb_height;
  blank_start ← fbindex 0 0;
  blank_end ← fbindex (u32 w) (u32 h);
  blank_pixels blank_start blank_end.

Definition _put_pixel (x y color : Z) : M kernel unit :=
  fb ← term fb_address;
  index ← fbindex x y;
  store 4 (fb + 4 * index) color.

Definition _shift_screen_up : M kernel unit :=
  fb ← term fb_address;
  w ← term fb_width;
  h ← term fb_height;
  gh ← term glyph_height;
  start_pixel_index ← fbindex 0 gh;
  end_pixel_index ← fbindex (u32 w) (u32 h);
  memmove fb (fb + 4 * start_pixel_index) (u64 (4 * end_pixel_index - 4 * start_pixel_index)) ;;
  blank_start ← fbindex 0 (u32 (h - gh));
  blank_end ← fbindex (u32 w) (u32 h);
  blank_pixels blank_start blank_end.

(** ** Glyphs *)

(** One bit of a row; [rowData] is a char, promoted to int. *)
Definition render_bit (rowData x y glyphRow bitIndex : Z) : M kernel unit :=
  fg ← term fgcolor;
  bg ← term bgcolor;
  _put_pixel (x +32 (8 - bitIndex)) (y +32 glyphRow)
    (if Z.land rowData (u8 (Z.shiftl 1 (bitIndex `mod` 8))) =? 0 then bg else fg).

(** The rows from [glyphRow] on; a height is below 256. *)
Fixpoint render_rows (k : nat) (dataIndex x y glyphRow : Z) : M kernel unit :=
  match k with
  | O => mret tt
  | S k' =>
      hdr ← term font_header;
      height ← load 1 (hdr + off_char_height);
      if glyphRow <? height then
        glyphs ← term glyph_data;
        rowData ← load 1 (glyphs + dataIndex);
        for_range 0 8 (render_bit (s8 rowData) x y glyphRow) ;;
        render_rows k' (dataIndex +32 1) x y (glyphRow + 1)
      else mret tt
  end.

(** [ch] is a char, so codes from 128 on are negative. *)
Definition _render_glyph (ch x y : Z) : M kernel unit :=
  hdr ← term font_header;
  bytesPerGlyph ← load 1 (hdr + off_char_height);
  render_rows 257 (u32 (s8 ch * bytesPerGlyph)) x y 0.

(** ** The cursor *)

Definition _clear_cursor : M kernel unit :=
  gh ← term glyph_height;
  for_range 0 gh (fun i =>
    x ← term cursor_x;
    y ← term cursor_y;
    bg ← term bgcolor;
    _put_pixel x (y +32 i) bg).

Definition _render_cursor : M kernel unit :=
  v ← term cursor_visible;
  if negb v then mret tt
  else
    gh ← term glyph_height;
    for_range 0 gh (fun i =>
      x ← term input_render_x;
      y ← term input_render_y;
      _put_pixel x (y +32 i) TERM_CURSOR_COLOR) ;;
    x ← term input_render_x;
    y ← term input_render_y;
    mod_term (set_cursor_x x) ;;
    mod_term (set_cursor_y y).

Definition term_cblink `{Hardware} : M kernel unit :=
  disable_interrupts ;;
  spinlock_lock (tas_global (fun s => cursor_lock (k_term s))
    (fun v s => set_k_term (set_cursor_lock v (k_term s)) s)) ;;
  v ← term cursor_visible;
  mod_term (set_cursor_visible (negb v)) ;;
  _clear_cursor ;;
  _render_cursor ;;
  spinlock_unlock (fun v s => set_k_term (set_cursor_lock v (k_term s)) s) ;;
  enable_interrupts.

(** ** Lines *)

Definition _render_input_line : M kernel unit :=
  mod_term (set_input_render_x 0) ;;
  rx ← term render_x;
  ry ← term render_y;
  gh ← term glyph_height;
  mod_term (set_input_render_y (if 0 <? rx then ry +32 gh else ry)) ;;
  term_fgcolor 0x44AAFF ;;
  (* the do-while over "# " *)
  for_range 0 2 (fun i =>
    x ← term input_render_x;
    y ← term input_render_y;
    _render_glyph (if i =? 0 then 35 else 32) x y ;;
    x ← term input_render_x;
    gw ← term glyph_width;
    mod_term (set_input_render_x (x +32 gw))) ;;
  term_fgcolor TERM_DEFAULT_FGCOLOR ;;
  _render_cursor.

Definition _move_to_next_line : M kernel unit :=
  rx ← term render_x;
  ry ← term render_y;
  gh ← term glyph_height;
  (if rx =? 0 then blank_rows ry gh else mret tt) ;;
  mod_term (set_render_x 0) ;;
  mod_term (set_render_y (ry +32 gh)) ;;
  h ← term fb_height;
  ry ← term render_y;
  (* the comparison is in 64 bits *)
  (if ry >? h -64 gh then _shift_screen_up ;; mod_term (set_render_y (ry -32 gh)) else mret tt) ;;
  ry ← term render_y;
  blank_rows ry gh ;;
  _render_input_line.

(** ** tprintf *)

(** One round of the do-while over the buffer: the body, then the test of the
    next character. *)
Definition print_iter (ch : Z) : M kernel (Z + unit) :=
  c ← load 1 ch;
  (if c =? ch_newline then _move_to_next_line
   else
     x ← term render_x;
     y ← term render_y;
     _render_glyph c x y ;;
     mod_term (set_render_x (x +32 (8 + glyph_padding))) ;;
     x ← term render_x;
     w ← term fb_width;
     gw ← term glyph_width;
     if x >? w -64 gw then _move_to_next_line else mret tt) ;;
  next ← load 1 (ch + 1);
  mret (if next =? ch_nul then inr tt else inl (ch + 1)).
Definition print_buffer (buffer : Z) : M kernel unit :=
  fuel ← gets mem_fuel; loop fuel print_iter buffer.

Section tprintf.
Context `{Image}.

Definition tprintf (format : Z) (args : list Z) : M kernel unit :=
  ready ← term is_ready;
  if negb ready then mret tt
  else
    vsnprintf tprintf_buffer 256 format args ;;
    rx ← term render_x;
    (if rx =? 0 then
       ry ← term render_y;
       gh ← term glyph_height;
       blank_rows ry gh
     else mret tt) ;;
    print_buffer tprintf_buffer.
Definition tprintf_lit (format : string) (args : list Z) : M kernel unit := tprintf (literal format) args.

Definition term_clear : M kernel unit :=
  _clear_screen ;;
  mod_term (fun t => set_render_x 0 (set_render_y 0 (set_input_render_x 0
    (set_input_render_y 0 (set_cursor_x 0 (set_cursor_y 0 t)))))) ;;
  _render_input_line.

(** ** Commands and keys *)

Definition cmd_is (name : string) : M kernel bool :=
  p ← term input_str; r ← strcmp p (literal name); mret (r =? 0).
Definition _handle_cmd : M kernel unit :=
  is_hello ← cmd_is "hello";
  if (is_hello : bool) then tprintf_lit ("World!" +:+ nl) []
  else
    is_cls ← cmd_is "cls";
    if (is_cls : bool) then term_clear
    else
      is_time ← cmd_is "time";
      t ← gets (fun s => kernel_timer_secs (k_desc s));
      if (is_time : bool) then tprintf_lit ("Kerner Time: %lums" +:+ nl) [t]
      else
        is_stime ← cmd_is "stime";
        if (is_stime : bool) then tprintf_lit ("Kerner Time: %lus" +:+ nl) [t `div` 1000]
        else tprintf_lit ("Unknown command." +:+ nl) [].

Definition term_enter : M kernel unit :=
  tprintf_lit "# " [] ;;
  p ← term input_str;
  tprintf p [] ;;
  tprintf_lit nl [] ;;
  _handle_cmd ;;
  p ← term input_str;
  store 1 p ch_nul.

(** The glyph before the input position is blanked, row by row. *)
Definition blank_glyph : M kernel unit :=
  gh ← term glyph_height;
  for_range 0 gh (fun y =>
    x ← term input_render_x;
    gw ← term glyph_width;
    iy ← term input_render_y;
    blank_start ← fbindex (x -32 gw) (iy +32 y);
    blank_end ← fbindex x (iy +32 y);
    blank_pixels blank_start blank_end).
Definition term_backspace : M kernel unit :=
  p ← term input_str;
  len ← strlen p;
  store 1 (p +64 (len -64 1)) ch_nul ;;
  _clear_cursor ;;
  blank_glyph ;;
  x ← term input_render_x;
  gw ← term glyph_width;
  mod_term (set_input_render_x (x -32 gw)) ;;
  _render_cursor.

Definition term_type (c : Z) : M kernel unit :=
  x ← term input_render_x;
  y ← term input_render_y;
  _render_glyph c x y ;;
  gw ← term glyph_width;
  mod_term (set_input_render_x (x +32 gw)) ;;
  p ← term input_str;
  len ← strlen p;
  store 1 (p +64 len) c ;;
  store 1 (p +64 (len +64 1)) ch_nul ;;
  _clear_cursor ;;
  _render_cursor.

(** Anything but Enter and an effective backspace. *)
Definition term_key_char (ke : key_event) : M kernel unit :=
  if (event_type ke =? 0) && negb (ascii ke =? 0) then term_type (ascii ke) else mret tt.

Definition term_keyevent (ke : key_event) : M kernel unit :=
  if (event_type ke =? PS2_KEYDOWN) && (scan_code ke =? PS2_SCANCODE_ENTER) then term_enter
  else if (event_type ke =? PS2_KEYDOWN) && (scan_code ke =? PS2_SCANCODE_BACKSPACE) then
    p ← term input_str;
    c ← load 1 p;
    if negb (c =? ch_nul) then term_backspace else term_key_char ke
  else term_key_char ke.
End tprintf.

(** ** Initialisation *)

(** memcmp("/Font.psf", path, 9) == 0 over the boot loader's modules, given as
    (path, address). *)
Definition font_path : list Z := [47; 70; 111; 110; 116; 46; 112; 115; 102].
Fixpoint _load_font (modules : list (Z * Z)) : M kernel unit :=
  match modules with
  | [] => mret tt
  | (path, address) :: modules' =>
      is_font ← matches path font_path;
      if (is_font : bool) then
        mod_term (set_font_header address) ;;
        magic ← load 2 (address + off_magic);
        (if negb (magic =? 0x0436) then kprintf "FATAL: Failed to load font." [] ;; hcf else mret tt) ;;
        mod_term (set_glyph_data (address + sizeof_PSF1_Header))
      else _load_font modules'
  end.

(** The frame buffer is the boot loader's first one. *)
Definition term_init (address width height pitch bpp : Z) (modules : list (Z * Z)) : M kernel unit :=
  mod_term (fun t => set_fb_address address (set_fb_width width (set_fb_height height
    (set_fb_pitch pitch (set_fb_bpp bpp t))))) ;;
  _load_font modules ;;
  hdr ← term font_header;
  char_height ← load 1 (hdr + off_char_height);
  mod_term (set_max_rows (u32 (height `div` (char_height + glyph_padding)))) ;;
  mod_term (set_max_cols (u32 (width `div` (8 + glyph_padding)))) ;;
  mod_term (set_glyph_width (8 + glyph_padding)) ;;
  mod_term (set_glyph_height (char_height + glyph_padding)) ;;
  kprintf ("Font: %dx%d" +:+ nl) [KNum 8; KNum char_height] ;;
  kprintf ("Resolution: %dx%d" +:+ nl) [KNum width; KNum height] ;;
  kprintf ("BPP: %d" +:+ nl) [KNum bpp] ;;
  kprintf ("Pitch: %d" +:+ nl) [KNum pitch] ;;
  _render_input_line ;;
  mod_term (set_is_ready true).
