(* ===== verification/TermProps.v ===== *)
(** * terminal.c: the properties of drawing on the frame buffer *)
From S2P Require Import Prelude Machine MemLib Pmm Slob Kstate VmProps Terminal.

(** ** Pixels *)

Section screen.
Context (s0 : kernel).
(** The geometry, which drawing does not change. *)
Let fb := fb_address (k_term s0).
Let stride := fb_pitch (k_term s0) `div` 4.
Let height := fb_height (k_term s0).
Let width := fb_width (k_term s0).

Record screen_ok : Prop := {
  sc_fb : 0 <= fb;
  sc_width : 0 < width <= stride;
  sc_height : 0 < height;
  sc_small : stride * (height + 1) < 2 ^ 32;
  sc_region : region fb (4 * (stride * height)) (smem s0)
}.

Definition pixel_addr (x y : Z) : Z := fb + 4 * (y * stride + x).
Definition pixel (m : memory) (x y : Z) : Z := rd 4 (pixel_addr x y) m.
Definition on_screen (x y : Z) : Prop := 0 <= x < stride /\ 0 <= y < height.
Definition in_fb (a : Z) : Prop := fb <= a < fb + 4 * (stride * height).

(** [m'] is [m] with the pixels [d] tells painted, and nothing else changed
    outside the frame buffer. *)
Record painted (d : Z -> Z -> option Z) (m m' : memory) : Prop := {
  pa_pixel : forall x y, on_screen x y ->
    pixel m' x y = match d x y with Some c => c | None => pixel m x y end;
  pa_frame : forall a, ~ in_fb a -> m' !! a = m !! a;
  pa_mapped : forall a, is_Some (m !! a) -> is_Some (m' !! a)
}.

Lemma painted_refl m : painted (fun _ _ => None) m m.
Proof. by split. Qed.
Lemma painted_ext d d' m m' :
  painted d m m' -> (forall x y, on_screen x y -> d x y = d' x y) -> painted d' m m'.
Proof. intros [P F M] E. split; [|done|done]. intros x y Hxy. by rewrite <- E, P. Qed.

Lemma on_screen_index x y : on_screen x y -> 0 <= y * stride + x < stride * height.
Proof. intros [Hx Hy]. nia. Qed.
Lemma pixel_addr_inj x y x' y' :
  on_screen x y -> on_screen x' y' -> (x, y) <> (x', y') ->
  pixel_addr x y + 4 <= pixel_addr x' y' \/ pixel_addr x' y' + 4 <= pixel_addr x y.
Proof.
  intros [Hx Hy] [Hx' Hy'] Hne. unfold pixel_addr.
  assert (y * stride + x <> y' * stride + x').
  { intros E. apply Hne. assert (y = y') by nia. subst. f_equal. nia. }
  lia.
Qed.

(** Painting one pixel of the screen. *)
Lemma painted_put d m m' x y c :
  painted d m m' -> on_screen x y -> is_u32 c ->
  painted (fun px py => if decide (px = x /\ py = y) then Some c else d px py) m
    (wr 4 (pixel_addr x y) c m').
Proof.
  intros [P F M] Hxy Hc. pose proof (on_screen_index x y Hxy). split.
  - intros px py Hp. unfold pixel. case_decide as D.
    + destruct D as [-> ->]. rewrite rd_wr_eq. change (256 ^ Z.of_nat 4) with (2 ^ 32). by apply Z.mod_small.
    + rewrite rd_wr_ne; [by apply P|]. change (Z.of_nat 4) with 4.
      apply pixel_addr_inj; [done|done|]. intros [= -> ->]. by apply D.
  - intros a Ha. rewrite wr_lookup_ne; [by apply F|]. intros Hin. apply Ha. unfold in_fb, pixel_addr in *. lia.
  - intros a Ha. by apply wr_is_Some, M.
Qed.

(** What drawing works on: the kernel of the start with another memory. *)
Definition drawing (m : memory) : kernel := set_mem m s0.

Context (Hok : screen_ok).

Lemma fbindex_ok x y s : fb_pitch (k_term s) = fb_pitch (k_term s0) ->
  0 <= x -> 0 <= y -> y * stride + x < 2 ^ 32 -> fbindex x y s = Ret (y * stride + x) s.
Proof.
  intros Hp Hx Hy Hb. unfold fbindex. erewrite bind_ret_eq; [|reflexivity]. rewrite Hp. fold stride.
  assert (0 <= y * stride) by (destruct Hok; nia).
  unfold mret, M_ret. rewrite u32_small; rewrite ?(u64_small (y * stride)) by lia; rewrite ?u64_small by lia; [done|lia].
Qed.

Lemma _put_pixel_ok x y c m :
  (forall a, is_Some (smem s0 !! a) -> is_Some (m !! a)) -> on_screen x y ->
  _put_pixel x y c (drawing m) = Ret tt (drawing (wr 4 (pixel_addr x y) c m)).
Proof.
  intros Hm Hxy. pose proof (on_screen_index x y Hxy). destruct Hxy as [Hx Hy]. destruct Hok as [H1 H2 H3 H4 H5].
  unfold _put_pixel. erewrite bind_ret_eq; [|reflexivity].
  rewrite (bind_ret_eq _ _ _ _ _ (fbindex_ok x y (drawing m) eq_refl ltac:(lia) ltac:(lia) ltac:(nia))).
  rewrite store_ok; [done|]. intros a Ha. change (is_Some (m !! a)). apply Hm, H5.
  change (fb_address (k_term (drawing m))) with fb in Ha. lia.
Qed.

(** ** Glyphs *)

Let hdr := font_header (k_term s0).
Let glyphs := glyph_data (k_term s0).
Let rows := rd 1 (hdr + off_char_height) (smem s0).

(** The font is mapped and does not overlap the frame buffer. *)
Record font_ok : Prop := {
  fo_header : region hdr 4 (smem s0);
  fo_glyphs : region glyphs (128 * rows) (smem s0);
  fo_apart : forall a, in_fb a -> ~ (hdr <= a < hdr + 4) /\ ~ (glyphs <= a < glyphs + 128 * rows)
}.

(** Bit [b] of row [r] of the glyph of [ch]. *)
Definition glyph_bit (ch r b : Z) : bool := Z.testbit (rd 1 (glyphs + (ch * rows + r)) (smem s0)) b.
Definition glyph_color (ch r b : Z) : Z :=
  if glyph_bit ch r b then fgcolor (k_term s0) else bgcolor (k_term s0).

(** The glyph's box: eight columns, one to the right of [x]. *)
Definition glyph_box (ch x y r px py : Z) : option Z :=
  if decide (x < px <= x + 8 /\ y <= py < y + r) then Some (glyph_color ch (py - y) (8 - (px - x))) else None.

Context (Hfont : font_ok).
Context (Hfg : is_u32 (fgcolor (k_term s0))) (Hbg : is_u32 (bgcolor (k_term s0))).

Lemma s8_bit v b : 0 <= v < 256 -> 0 <= b < 8 -> Z.testbit (s8 v) b = Z.testbit v b.
Proof.
  intros Hv Hb. replace (s8 v) with (if v <? 128 then v else v - 2 ^ 8).
  - destruct (v <? 128); [done|]. rewrite <- (Z.mod_pow2_bits_low (v - 2 ^ 8) 8 b) by lia.
    rewrite <- (Z.mod_pow2_bits_low v 8 b) by lia. f_equal.
    rewrite <- (Z_mod_plus_full (v - 2 ^ 8) 1). f_equal. lia.
  - clear - Hv. destruct (Z.ltb_spec v 128); word_lia.
Qed.

Lemma render_bit_ok ch x y r b m :
  (forall a, is_Some (smem s0 !! a) -> is_Some (m !! a)) ->
  0 <= b < 8 -> 0 <= x -> x + 8 < stride -> 0 <= y -> 0 <= r -> y + r < height ->
  let row := s8 (rd 1 (glyphs + (ch * rows + r)) (smem s0)) in
  render_bit row x y r b (drawing m) =
    Ret tt (drawing (wr 4 (pixel_addr (x + (8 - b)) (y + r)) (glyph_color ch r b) m)).
Proof.
  intros Hm Hb Hx Hxs Hy Hr Hys row. destruct Hok as [H1 H2 H3 H4 H5].
  unfold render_bit. do 2 (erewrite bind_ret_eq; [|reflexivity]).
  rewrite (u32_small (x + (8 - b))), (u32_small (y + r)) by nia.
  rewrite Z.mod_small, (u8_small (Z.shiftl 1 b)) by
    first [lia | rewrite Z.shiftl_1_l; split; [apply Z.pow_nonneg; lia|apply Z.pow_lt_mono_r; lia]].
  rewrite land_bit_nonzero by lia. unfold row.
  rewrite (s8_bit _ b) by (try apply rd_range; lia).
  rewrite _put_pixel_ok by (done || (split; lia)). unfold glyph_color, glyph_bit.
  by destruct (Z.testbit _ b).
Qed.

(** Font bytes are those of the start, whatever was painted. *)
Lemma painted_header d m : painted d (smem s0) m -> load 1 (hdr + off_char_height) (drawing m) = Ret rows (drawing m).
Proof.
  intros [_ F M]. rewrite load_ok.
  - change (smem (drawing m)) with m. f_equal. apply rd_ext. intros a Ha. unfold byte_at. rewrite F; [done|].
    intros Hin. destruct (fo_apart Hfont a Hin) as [Hn _]. unfold off_char_height in Ha. lia.
  - intros a Ha. change (is_Some (m !! a)). apply M, (fo_header Hfont). unfold off_char_height in Ha. lia.
Qed.
Lemma painted_glyph d m i :
  painted d (smem s0) m -> 0 <= i < 128 * rows ->
  load 1 (glyphs + i) (drawing m) = Ret (rd 1 (glyphs + i) (smem s0)) (drawing m).
Proof.
  intros [_ F M] Hi. rewrite load_ok.
  - change (smem (drawing m)) with m. f_equal. apply rd_ext. intros a Ha. unfold byte_at. rewrite F; [done|].
    intros Hin. destruct (fo_apart Hfont a Hin) as [_ Hn]. lia.
  - intros a Ha. change (is_Some (m !! a)). apply M, (fo_glyphs Hfont). lia.
Qed.

Lemma glyph_color_u32 ch r b : is_u32 (glyph_color ch r b).
Proof. unfold glyph_color. by case_match. Qed.

Context (ch x y : Z) (Hch : 0 <= ch < 128) (Hx : 0 <= x /\ x + 8 < stride).
Context (Hy : 0 <= y /\ y + rows <= height).

Lemma render_row_ok r m :
  0 <= r < rows -> painted (glyph_box ch x y r) (smem s0) m ->
  exists m', for_range 0 8 (render_bit (s8 (rd 1 (glyphs + (ch * rows + r)) (smem s0))) x y r) (drawing m) =
      Ret tt (drawing m') /\ painted (glyph_box ch x y (r + 1)) (smem s0) m'.
Proof.
  intros Hr Hp.
  destruct (for_range_inv (render_bit (s8 (rd 1 (glyphs + (ch * rows + r)) (smem s0))) x y r)
    (fun b s => exists m', s = drawing m' /\ painted (fun px py =>
       if decide (x + 8 - b < px <= x + 8 /\ py = y + r) then Some (glyph_color ch r (8 - (px - x)))
       else glyph_box ch x y r px py) (smem s0) m') 0 8 (drawing m)) as (s' & E & m' & -> & Hp'); [done| | |].
  - intros b s Hb (m1 & -> & Hp1).
    rewrite (render_bit_ok ch x y r b m1) by (lia || apply (pa_mapped _ _ _ Hp1)).
    eexists. split; [reflexivity|]. eexists. split; [reflexivity|].
    eapply painted_ext; [apply (painted_put _ _ _ _ _ _ Hp1); [split; lia|apply glyph_color_u32]|].
    intros px py Hxy. cbn beta. repeat case_decide; try lia; try done.
    do 2 f_equal. lia.
  - exists m. split; [done|]. eapply painted_ext; [exact Hp|]. intros px py _. cbn beta. rewrite decide_False by lia. done.
  - exists m'. split; [done|]. eapply painted_ext; [exact Hp'|]. intros px py _. cbn beta. unfold glyph_box.
    repeat case_decide; try lia; try done. do 2 f_equal. lia.
Qed.

Lemma render_rows_ok k : forall r m,
  0 <= r <= rows -> (Z.to_nat (rows - r) < k)%nat -> painted (glyph_box ch x y r) (smem s0) m ->
  exists m', render_rows k (ch * rows + r) x y r (drawing m) = Ret tt (drawing m') /\
    painted (glyph_box ch x y rows) (smem s0) m'.
Proof.
  pose proof (rd_range 1 (hdr + off_char_height) (smem s0)) as Hrows. fold rows in Hrows.
  induction k as [|k IH]; intros r m Hr Hk Hp; [lia|]. cbn [render_rows].
  erewrite bind_ret_eq; [|reflexivity]. rewrite (bind_ret_eq _ _ _ _ _ (painted_header _ _ Hp)).
  destruct (Z.ltb_spec r rows) as [Hlt|Hge].
  - erewrite bind_ret_eq; [|reflexivity].
    rewrite (bind_ret_eq _ _ _ _ _ (painted_glyph _ _ (ch * rows + r) Hp ltac:(nia))).
    destruct (render_row_ok r m ltac:(lia) Hp) as (m1 & E & Hp1). rewrite (bind_ret_eq _ _ _ _ _ E).
    rewrite u32_small by nia. replace (ch * rows + r + 1) with (ch * rows + (r + 1)) by lia.
    apply IH; [lia|lia|done].
  - assert (r = rows) as -> by lia. by exists m.
Qed.

Lemma render_glyph_ok :
  exists m', _render_glyph ch x y s0 = Ret tt (drawing m') /\ painted (glyph_box ch x y rows) (smem s0) m'.
Proof.
  pose proof (rd_range 1 (hdr + off_char_height) (smem s0)) as Hrows. fold rows in Hrows.
  assert (Es : drawing (smem s0) = s0) by apply set_mem_smem.
  assert (Hp0 : painted (glyph_box ch x y 0) (smem s0) (smem s0)).
  { eapply painted_ext; [apply painted_refl|]. intros px py _. unfold glyph_box. by rewrite decide_False by lia. }
  enough (Hd : exists m', _render_glyph ch x y (drawing (smem s0)) = Ret tt (drawing m') /\
    painted (glyph_box ch x y rows) (smem s0) m') by (rewrite Es in Hd; exact Hd).
  unfold _render_glyph. erewrite bind_ret_eq; [|reflexivity].
  rewrite (bind_ret_eq _ _ _ _ _ (painted_header _ _ Hp0)).
  assert (Ech : s8 ch = ch) by (clear - Hch; word_lia). rewrite Ech, u32_small by nia.
  replace (ch * rows) with (ch * rows + 0) by lia. apply render_rows_ok; [lia|lia|done].
Qed.
End screen.

(** A glyph is drawn from its font bitmap. For an ASCII character inside the
    screen, _render_glyph returns; the pixel [8 - b] columns right of [x] and
    [r] rows below [y] takes the foreground colour where bit [b] of the glyph's
    row [r] is set and the background colour where it is not; every other pixel
    and all memory outside the frame buffer stay as they were. *)
Theorem render_glyph_draws ch x y s :
  let height := rd 1 (font_header (k_term s) + off_char_height) (smem s) in
  screen_ok s -> font_ok s -> is_u32 (fgcolor (k_term s)) -> is_u32 (bgcolor (k_term s)) ->
  0 <= ch < 128 -> 0 <= x -> x + 8 < fb_pitch (k_term s) `div` 4 ->
  0 <= y -> y + height <= fb_height (k_term s) ->
  exists m', _render_glyph ch x y s = Ret tt (set_mem m' s) /\
    (forall px py, on_screen s px py ->
       pixel s m' px py =
         if decide (x < px <= x + 8 /\ y <= py < y + height) then
           if Z.testbit (rd 1 (glyph_data (k_term s) + (ch * height + (py - y))) (smem s)) (8 - (px - x))
           then fgcolor (k_term s) else bgcolor (k_term s)
         else pixel s (smem s) px py) /\
    (forall a, ~ in_fb s a -> smem (set_mem m' s) !! a = smem s !! a).
Proof.
  intros height Hs Hf Hfg Hbg Hch Hx Hxs Hy Hys.
  destruct (render_glyph_ok s Hs Hf Hfg Hbg ch x y Hch ltac:(lia) ltac:(fold height; lia)) as (m' & E & P).
  exists m'. split; [exact E|]. split.
  - intros px py Hp. rewrite (pa_pixel _ _ _ _ P px py Hp). unfold glyph_box, glyph_color, glyph_bit. fold height.
    by case_decide.
  - intros a Ha. rewrite smem_set_mem. by apply (pa_frame _ _ _ _ P).
Qed.

(** A screen of 16 by 2 pixels at 4096 with a pitch of 64 bytes, and a font of
    one-row glyphs: the header at 512, the glyphs at 516; 'A' is 0x81. *)
Definition term_mem : memory :=
  wr 1 (516 + 65) 0x81 (wr 1 515 1 (zeros 512 132 ∪ zeros 4096 128)).
Definition term_kernel_at (m : memory) : kernel :=
  set_k_term (TermGlobals 4096 16 2 64 32 512 516 1 1 9 2 true 0xCCCCCC 0 0 0 0 0 0 0 0 0 false)
    (kernel_at m (2 ^ 47) 0 40).

Lemma term_screen_ok m : region 4096 128 m -> screen_ok (term_kernel_at m).
Proof. intros Hr. split; try done; cbn; lia. Qed.
Lemma term_font_ok m : region 512 132 m -> rd 1 515 m = 1 -> font_ok (term_kernel_at m).
Proof.
  intros Hr E. split.
  - apply (region_sub _ _ _ _ _ Hr); cbn; lia.
  - change (region 516 (128 * rd 1 515 m) m). rewrite E. apply (region_sub _ _ _ _ _ Hr); lia.
  - intros a Ha. change (4096 <= a < 4224) in Ha.
    change (~ 512 <= a < 516 /\ ~ 516 <= a < 516 + 128 * rd 1 515 m). rewrite E. lia.
Qed.
Lemma term_mem_regions : region 512 132 term_mem /\ region 4096 128 term_mem.
Proof.
  unfold term_mem. split; do 2 apply region_wr.
  - apply region_union_l, region_zeros.
  - apply region_union_r, region_zeros.
Qed.

Lemma render_glyph_draws_witness :
  exists m', _render_glyph 65 0 0 (term_kernel_at term_mem) = Ret tt (set_mem m' (term_kernel_at term_mem)) /\
    pixel (term_kernel_at term_mem) m' 1 0 = 0xCCCCCC /\ pixel (term_kernel_at term_mem) m' 2 0 = 0.
Proof.
  assert (Eh : rd 1 515 term_mem = 1) by (vm_compute; reflexivity).
  assert (Eg : rd 1 581 term_mem = 0x81) by (vm_compute; reflexivity).
  destruct term_mem_regions as [Hf Hs]. revert Eh Eg Hf Hs. generalize term_mem. intros m Eh Eg Hf Hs.
  destruct (render_glyph_draws 65 0 0 (term_kernel_at m) (term_screen_ok m Hs) (term_font_ok m Hf Eh))
    as (m' & E & P & _); try done.
  - change (0 + rd 1 515 m <= 2). rewrite Eh. done.
  - change (rd 1 (font_header (k_term (term_kernel_at m)) + off_char_height) (smem (term_kernel_at m)))
      with (rd 1 515 m) in P. rewrite Eh in P.
    exists m'. split; [exact E|]. split.
    + rewrite P by done. change (glyph_data (k_term (term_kernel_at m)) + (65 * 1 + (0 - 0))) with 581.
      change (smem (term_kernel_at m)) with m. by rewrite Eg.
    + rewrite P by done. change (glyph_data (k_term (term_kernel_at m)) + (65 * 1 + (0 - 0))) with 581.
      change (smem (term_kernel_at m)) with m. by rewrite Eg.
Defined.
