(* ===== verification/TermRows.v ===== *)
(** * terminal.c: text rows as an abstract teletype

    What a row of text looks like in pixels, and the machine that printing
    implements: a current row that characters are put into, and the rows above
    it, of which those that still fit are on the screen. *)
From S2P Require Import Prelude Machine MemLib Pmm Slob Kstate VmProps Terminal TermProps.

(** A character in its two colours. *)
Record cell := Cell { cell_char : Z; ink : Z; paper : Z }.
(** The cells of a row, and whether the input cursor's bar stands in it. *)
Record row := Row { cells : list cell; cursor_bar : bool }.

Definition blank_row : row := Row [] false.
(** The row the input line is drawn in: the prompt, and the bar behind it. *)
Definition prompt_cells (bg : Z) : list cell := [Cell 35 0x44AAFF bg; Cell 32 0x44AAFF bg].
Definition prompt_row (bg : Z) (visible : bool) : row := Row (prompt_cells bg) visible.
(** A cell written over the one in its place, or behind the last. *)
Definition row_put (n : nat) (c : cell) (r : row) : row :=
  Row (take n (cells r) ++ c :: drop (S n) (cells r)) (cursor_bar r).

(** The colour of the pixel at column [x] and line [y] of a row, with glyphs of
    [h] lines: eight of nine columns belong to a cell. *)
Definition row_pixel (bit : Z -> Z -> Z -> bool) (h : Z) (r : row) (x y : Z) : Z :=
  if cursor_bar r && (x =? 18) then TERM_CURSOR_COLOR
  else if (x `mod` 9 =? 0) || (h <=? y) then 0
  else match cells r !! Z.to_nat (x `div` 9) with
       | Some c => if bit (cell_char c) y (8 - x `mod` 9) then ink c else paper c
       | None => 0
       end.

(** ** The teletype *)

(** [None] is a row whose contents are not known (someone typed into it); the
    head of [tty_rows] is the current one. *)
Record tty := Tty { column : nat; tty_ink : Z; tty_rows : list (option row) }.

Definition tty_blank (y : tty) : tty :=
  if decide (column y = 0%nat) then Tty (column y) (tty_ink y) (Some blank_row :: tail (tty_rows y)) else y.
Section tty.
Context (width bg : Z) (visible : bool).

Definition tty_newline (y : tty) : tty :=
  Tty 0 TERM_DEFAULT_FGCOLOR (Some (prompt_row bg visible) :: tty_rows (tty_blank y)).
Definition tty_put (c : Z) (y : tty) : tty :=
  Tty (S (column y)) (tty_ink y)
    match tty_rows y with
    | r :: above => (row_put (column y) (Cell c (tty_ink y) bg) <$> r) :: above
    | [] => []
    end.
Definition tty_char (y : tty) (c : Z) : tty :=
  if c =? ch_newline then tty_newline y
  else let y' := tty_put c y in
       if 9 * Z.of_nat (column y') >? width - 9 then tty_newline y' else y'.
(** A message: the row is cleared if nothing stands in it yet. *)
Definition tty_print (txt : list Z) (y : tty) : tty := foldl tty_char (tty_blank y) txt.

(** Characters that fit behind a row. *)
Lemma tty_chars_fit i b rs : forall txt cs,
  Forall (fun c => c <> ch_newline) txt -> 9 * Z.of_nat (length cs + length txt) <= width - 9 ->
  foldl tty_char (Tty (length cs) i (Some (Row cs b) :: rs)) txt =
    Tty (length cs + length txt) i (Some (Row (cs ++ ((fun c => Cell c i bg) <$> txt)) b) :: rs).
Proof.
  induction txt as [|c txt IH]; intros cs Hc Hw; cbn [foldl length] in *.
  - by rewrite Nat.add_0_r, app_nil_r.
  - apply Forall_cons in Hc as [Hc Ht]. unfold tty_char at 2. rewrite (proj2 (Z.eqb_neq _ _) Hc).
    unfold tty_put. cbn [column tty_rows tty_ink fmap option_fmap option_map].
    rewrite Z.gtb_ltb, (proj2 (Z.ltb_ge _ _)) by lia. unfold row_put.
    cbn [cells cursor_bar]. rewrite firstn_all, skipn_all2 by lia.
    replace (S (length cs)) with (length (cs ++ [Cell c i bg])) by (rewrite length_app; cbn; lia).
    rewrite IH; [|done|rewrite length_app; cbn; lia]. rewrite length_app, <- app_assoc. cbn [length app].
    by rewrite <- Nat.add_assoc.
Qed.

(** A line that fits, printed where nothing stands yet, becomes a row of its own
    behind the prompt. *)
Lemma tty_print_line i r rs txt :
  Forall (fun c => c <> ch_newline) txt -> txt <> [] -> 9 * Z.of_nat (length txt) <= width - 9 ->
  tty_print (txt ++ [ch_newline]) (Tty 0 i (r :: rs)) =
    Tty 0 TERM_DEFAULT_FGCOLOR
      (Some (prompt_row bg visible) :: Some (Row ((fun c => Cell c i bg) <$> txt) false) :: rs).
Proof.
  intros Hc Hne Hw. unfold tty_print, tty_blank. cbn [column tty_ink tty_rows tail decide]. rewrite decide_True by done.
  rewrite foldl_app. pose proof (tty_chars_fit i false rs txt [] Hc Hw) as E. cbn [length app] in E.
  unfold blank_row. rewrite E. cbn [foldl]. unfold tty_char. rewrite Z.eqb_refl. unfold tty_newline, tty_blank.
  cbn [column tty_ink tty_rows]. rewrite decide_False; [done|]. destruct txt; cbn; [done|lia].
Qed.
End tty.

(** ** Rows on the screen *)

Section rows.
Context (s0 : kernel).
Let stride := fb_pitch (k_term s0) `div` 4.
Let height := fb_height (k_term s0).
Let gh := glyph_height (k_term s0).
Let h := rd 1 (font_header (k_term s0) + off_char_height) (smem s0).

Definition row_at (m : memory) (y : Z) (r : row) : Prop :=
  forall x i, 0 <= x < stride -> 0 <= i < gh -> pixel s0 m x (y + i) = row_pixel (glyph_bit s0) h r x i.

Lemma row_at_same m m' y r :
  (forall x i, 0 <= x < stride -> 0 <= i < gh -> pixel s0 m' x (y + i) = pixel s0 m x (y + i)) ->
  row_at m y r -> row_at m' y r.
Proof. intros E Hr x i Hx Hi. rewrite E by done. by apply Hr. Qed.

Lemma row_at_moved m m' y d r :
  (forall x i, 0 <= x < stride -> 0 <= i < gh -> pixel s0 m' x (y + i) = pixel s0 m x (y + i + d)) ->
  row_at m (y + d) r -> row_at m' y r.
Proof. intros E Hr x i Hx Hi. rewrite E by done. replace (y + i + d) with (y + d + i) by lia. by apply Hr. Qed.

Lemma row_at_blank m y :
  (forall x i, 0 <= x < stride -> 0 <= i < gh -> pixel s0 m x (y + i) = 0) -> row_at m y blank_row.
Proof.
  intros E x i Hx Hi. rewrite E by done. unfold row_pixel. cbn [cursor_bar blank_row andb cells].
  by case_match.
Qed.

(** Drawing a glyph puts its cell. *)
Lemma row_at_put m m' y r n c :
  (n <= length (cells r))%nat -> 0 <= y -> y + gh <= height ->
  (forall px py, on_screen s0 px py -> pixel s0 m' px py =
     if decide (9 * Z.of_nat n < px <= 9 * Z.of_nat n + 8 /\ y <= py < y + h) then
       if glyph_bit s0 (cell_char c) (py - y) (8 - (px - 9 * Z.of_nat n)) then ink c else paper c
     else pixel s0 m px py) ->
  row_at m y r -> row_at m' y (row_put n c r).
Proof.
  intros Hn Hy Hyh E Hr x i Hx Hi. rewrite E by (unfold on_screen; fold stride height; lia).
  rewrite Hr by done. unfold row_pixel. cbn [cursor_bar row_put cells].
  case_decide as D.
  - assert (Ed : x `div` 9 = Z.of_nat n) by (symmetry; apply (Z.div_unique _ _ _ (x - 9 * Z.of_nat n)); lia).
    assert (Em : x `mod` 9 = x - 9 * Z.of_nat n) by (rewrite Z.mod_eq, Ed by lia; lia).
    rewrite (proj2 (Z.eqb_neq x 18)), andb_false_r by (intros ->; change (18 `mod` 9) with 0 in Em; lia).
    rewrite Em, Ed, Nat2Z.id. rewrite (proj2 (Z.eqb_neq _ 0)), (proj2 (Z.leb_gt h i)) by lia. cbn [orb].
    rewrite lookup_app_r by (rewrite length_take; lia). rewrite length_take, Nat.min_l, Nat.sub_diag by lia. cbn [lookup list_lookup].
    by replace (y + i - y) with i by lia.
  - destruct (cursor_bar r && (x =? 18)); [done|].
    destruct (Z.eqb_spec (x `mod` 9) 0) as [|Hm]; [done|]. destruct (Z.leb_spec h i); [done|]. cbn [orb].
    assert (Hne : Z.to_nat (x `div` 9) <> n).
    { intros En. apply D. Z.to_euclidean_division_equations. lia. }
    destruct (decide (Z.to_nat (x `div` 9) < n)%nat).
    + rewrite lookup_app_l by (rewrite length_take; lia). by rewrite lookup_take_lt by lia.
    + rewrite lookup_app_r by (rewrite length_take; lia). rewrite length_take, Nat.min_l by lia.
      destruct (Z.to_nat (x `div` 9) - n)%nat as [|k] eqn:Ek; [lia|].
      change ((c :: drop (S n) (cells r)) !! S k) with (drop (S n) (cells r) !! k). rewrite lookup_drop. by replace (S n + k)%nat with (Z.to_nat (x `div` 9)) by lia.
Qed.

(** Drawing the cursor behind the prompt. *)
Lemma row_at_bar m m' y r (visible : bool) :
  cursor_bar r = false -> 0 <= y -> y + gh <= height ->
  (forall px py, on_screen s0 px py -> pixel s0 m' px py =
     if decide (visible = true /\ px = 18 /\ y <= py < y + gh) then TERM_CURSOR_COLOR else pixel s0 m px py) ->
  row_at m y r -> row_at m' y (Row (cells r) visible).
Proof.
  intros Hb Hy Hyh E Hr x i Hx Hi. rewrite E by (unfold on_screen; fold stride height; lia).
  rewrite Hr by done. unfold row_pixel. rewrite Hb. cbn [cursor_bar cells andb].
  destruct visible; cbn [andb].
  - destruct (Z.eqb_spec x 18).
    + by rewrite decide_True by (split_and!; (done || lia)).
    + by rewrite decide_False by (intros (_ & ? & _); lia).
  - by rewrite decide_False by (intros [? _]; done).
Qed.

(** The rows that are on the screen, from the current one at [y] upwards. *)
Definition rows_at (m : memory) (y : Z) (rs : list (option row)) : Prop :=
  forall k r, rs !! k = Some (Some r) -> 0 <= y - gh * Z.of_nat k -> row_at m (y - gh * Z.of_nat k) r.

Lemma rows_at_cons m y r rs :
  (forall r', r = Some r' -> row_at m y r') -> rows_at m (y - gh) rs -> rows_at m y (r :: rs).
Proof.
  intros Hr Hrs [|k] r' Hk Hy; cbn [lookup list_lookup] in Hk.
  - injection Hk as ->. rewrite Z.mul_0_r, Z.sub_0_r. by apply Hr.
  - replace (y - gh * Z.of_nat (S k)) with (y - gh - gh * Z.of_nat k) by lia. apply Hrs; [done|lia].
Qed.
(** Rows that move up by [d]. *)
Lemma rows_at_moved m m' y d rs :
  0 <= d -> 0 <= gh -> y + gh <= height ->
  (forall px py, on_screen s0 px py -> py < y + gh -> pixel s0 m' px py = pixel s0 m px (py + d)) ->
  rows_at m (y + d) rs -> rows_at m' y rs.
Proof.
  intros Hd Hg Hy E Hrs k r Hk Hk0. apply (row_at_moved m _ _ d).
  - intros x i Hx Hi. apply E; unfold on_screen; fold stride height; nia.
  - replace (y - gh * Z.of_nat k + d) with (y + d - gh * Z.of_nat k) by lia. apply Hrs; [done|lia].
Qed.
Lemma rows_at_same m m' y rs :
  0 <= gh -> y + gh <= height ->
  (forall px py, on_screen s0 px py -> py < y + gh -> pixel s0 m' px py = pixel s0 m px py) ->
  rows_at m y rs -> rows_at m' y rs.
Proof.
  intros Hg Hy E Hrs. apply (rows_at_moved m _ _ 0); try done; [|by rewrite Z.add_0_r].
  intros px py Hp Hlt. rewrite Z.add_0_r. by apply E.
Qed.
Lemma rows_at_tail m y rs : rows_at m y rs -> rows_at m (y - gh) (tail rs).
Proof.
  intros Hrs k r Hk Hy. replace (y - gh - gh * Z.of_nat k) with (y - gh * Z.of_nat (S k)) by lia.
  apply Hrs; [by destruct rs|lia].
Qed.
End rows.

(** ** The font *)

Definition ascii_row (r : row) : Prop := Forall (fun c => 0 <= cell_char c < 128) (cells r).
Definition ascii_rows (rs : list (option row)) : Prop := forall r, Some r ∈ rs -> ascii_row r.

Lemma ascii_rows_cons r rs : (forall r', r = Some r' -> ascii_row r') -> ascii_rows rs -> ascii_rows (r :: rs).
Proof. intros Hr Hrs r' [E|Hin]%elem_of_cons; [by apply Hr|by apply Hrs]. Qed.
Lemma ascii_put n c r : ascii_row r -> 0 <= cell_char c < 128 -> ascii_row (row_put n c r).
Proof.
  intros Hr Hc. unfold ascii_row. cbn [cells row_put]. apply Forall_app. split; [by apply Forall_take|].
  apply Forall_cons. split; [done|]. by apply Forall_drop.
Qed.
Lemma ascii_prompt bg v : ascii_row (prompt_row bg v).
Proof. repeat (apply Forall_cons; split; [done|]). by apply Forall_nil. Qed.

(** Rows of ASCII characters look the same in another state with the same
    screen and font. *)
Lemma rows_at_font s s' m y rs :
  let h := rd 1 (font_header (k_term s) + off_char_height) (smem s) in
  fb_address (k_term s') = fb_address (k_term s) -> fb_pitch (k_term s') = fb_pitch (k_term s) ->
  glyph_height (k_term s') = glyph_height (k_term s) ->
  rd 1 (font_header (k_term s') + off_char_height) (smem s') = h ->
  (forall c i b, 0 <= c < 128 -> 0 <= i < h -> glyph_bit s' c i b = glyph_bit s c i b) ->
  ascii_rows rs -> rows_at s m y rs -> rows_at s' m y rs.
Proof.
  intros h E1 E2 E3 E4 Hbit Ha Hrs k r Hk Hy. rewrite E3 in *. specialize (Hrs k r Hk Hy).
  intros x i Hx Hi. rewrite E2 in Hx. rewrite E3 in Hi. specialize (Hrs x i Hx Hi).
  unfold pixel, pixel_addr in *. rewrite E1, E2. rewrite Hrs, E4. fold h. unfold row_pixel.
  destruct (_ && _); [done|]. destruct (Z.eqb_spec (x `mod` 9) 0); [done|]. destruct (Z.leb_spec h i); [done|].
  destruct (cells r !! _) as [c|] eqn:Ec; [|done]. rewrite Hbit; [done| |lia].
  exact (proj1 (Forall_forall _ _) (Ha r (list_elem_of_lookup_2 _ _ _ Hk)) c (list_elem_of_lookup_2 _ _ _ Ec)).
Qed.
