(* ===== verification/TermScroll.v ===== *)
(** * terminal.c: clearing and scrolling the screen *)
From S2P Require Import Prelude Machine MemLib Pmm Slob Kstate VmProps Terminal TermProps.

(** ** memset into memory that ends too early *)

Lemma for_count_fault {St} (body : Z -> M St unit) (I : Z -> St -> Prop) f k : forall n lo s,
  (forall i t, lo <= i < lo + Z.of_nat k -> I i t -> exists t', body i t = Ret tt t' /\ I (i + 1) t') ->
  (forall t, I (lo + Z.of_nat k) t -> body (lo + Z.of_nat k) t = Fault f) ->
  (k < n)%nat -> I lo s -> for_count n lo body s = Fault f.
Proof.
  induction k as [|k IH]; intros [|n] lo s Hb Hf Hn HI; try lia; cbn [for_count].
  - unfold mbind, M_bind. rewrite Z.add_0_r in Hf. by rewrite Hf.
  - destruct (Hb lo s) as (s1 & E & HI1); [lia|done|]. rewrite (bind_ret_eq _ _ _ _ _ E).
    apply (IH n (lo + 1)); [| |lia|done].
    + intros i t Hi. apply Hb. lia.
    + replace (lo + 1 + Z.of_nat k) with (lo + Z.of_nat (S k)) by lia. exact Hf.
Qed.

Lemma memset_fault `{HasMachine St} p c n k (s : St) :
  0 <= k < n -> region p k (smem s) -> smem s !! (p + k) = None ->
  memset p c n s = Fault (Unmapped (p + k)).
Proof.
  intros Hk Hr Hno. unfold memset, for_range, mbind at 1, M_bind at 1. rewrite Z.sub_0_r.
  rewrite (for_count_fault _ (fun i t => exists m, t = set_mem m s /\
    (forall x, is_Some (m !! x) <-> is_Some (smem s !! x))) (Unmapped (p + k)) (Z.to_nat k)); [done| | |lia|].
  - intros i t Hi (m & -> & Hm). rewrite (store_ok 1).
    2: { rewrite smem_set_mem. intros x Hx. apply Hm, Hr. lia. }
    eexists. split; [reflexivity|]. rewrite smem_set_mem, set_mem_set_mem. eexists. split; [reflexivity|].
    intros x. rewrite <- Hm. split; [|apply wr_is_Some]. intros Hx.
    destruct (decide (p + i = x)) as [<-|Hne]; [apply Hm, Hr; lia|].
    by rewrite wr_lookup_ne in Hx by (change (Z.of_nat 1) with 1; lia).
  - intros t (m & -> & Hm). unfold store. destruct (mapped 1 _ _) eqn:E.
    + apply mapped_spec in E. destruct (E (p + k)) as [v Hv]; [lia|].
      rewrite smem_set_mem in Hv. destruct (proj1 (Hm (p + k))) as [w Hw]; [eauto|congruence].
    + do 2 f_equal. lia.
  - exists (smem s). rewrite set_mem_smem. done.
Qed.

Section scroll.
Context (s : kernel).
Let fb := fb_address (k_term s).
Let stride := fb_pitch (k_term s) `div` 4.
Let height := fb_height (k_term s).
Let width := fb_width (k_term s).
Let gh := glyph_height (k_term s).
Context (Hok : screen_ok s).

Lemma screen_facts : 0 <= fb /\ 0 < width <= stride /\ 0 < height /\ stride * (height + 1) < 2 ^ 32 /\
  region fb (4 * (stride * height)) (smem s) /\ height < 2 ^ 32 /\ width < 2 ^ 32.
Proof.
  destruct Hok as [H1 H2 H3 H4 H5]. unfold fb, stride, height, width. split_and!; try done; try lia; nia.
Qed.

(** Blanking from the start of pixel row [y] to (width, y + rows) covers those
    rows and [width] pixels of the next one. *)
Lemma blank_rows_eq t y rows :
  k_term t = k_term s -> 0 <= y -> 0 <= rows -> y + rows <= height ->
  blank_rows y rows t = (memset (fb + 4 * (y * stride)) 0 (4 * (rows * stride + width)) ;; mret tt) t.
Proof.
  destruct screen_facts as (F1 & F2 & F3 & F4 & F5 & F6 & F7). intros Ht Hy Hr Hh.
  assert (Hp : fb_pitch (k_term t) = fb_pitch (k_term s)) by by rewrite Ht.
  unfold blank_rows. erewrite bind_ret_eq; [|reflexivity]. rewrite Ht. fold width.
  rewrite (bind_ret_eq _ _ _ _ _ (fbindex_ok s Hok 0 y t Hp ltac:(lia) Hy ltac:(fold stride; nia))).
  rewrite (u32_small width), (u32_small (y + rows)) by lia.
  rewrite (bind_ret_eq _ _ _ _ _ (fbindex_ok s Hok width (y + rows) t Hp ltac:(lia) ltac:(lia) ltac:(fold stride; nia))).
  unfold blank_pixels. erewrite bind_ret_eq; [|reflexivity]. rewrite Ht. fold fb stride.
  rewrite u64_small by (split; nia). rewrite Z.add_0_r.
  replace (4 * ((y + rows) * stride + width) - 4 * (y * stride)) with (4 * (rows * stride + width)) by lia. done.
Qed.

Lemma _clear_screen_eq :
  _clear_screen s = (memset fb 0 (4 * (height * stride + width)) ;; mret tt) s.
Proof.
  destruct screen_facts as (F1 & F2 & F3 & F4 & F5 & F6 & F7).
  unfold _clear_screen. do 2 (erewrite bind_ret_eq; [|reflexivity]). fold width height.
  rewrite (bind_ret_eq _ _ _ _ _ (fbindex_ok s Hok 0 0 s eq_refl ltac:(lia) ltac:(lia) ltac:(fold stride; nia))).
  rewrite (u32_small width), (u32_small height) by lia.
  rewrite (bind_ret_eq _ _ _ _ _ (fbindex_ok s Hok width height s eq_refl ltac:(lia) ltac:(lia) ltac:(fold stride; nia))).
  unfold blank_pixels. erewrite bind_ret_eq; [|reflexivity]. fold fb stride.
  rewrite u64_small by (split; nia).
  by replace (fb + 4 * (0 * stride + 0)) with fb by lia; replace (4 * (height * stride + width) - 4 * (0 * stride + 0)) with (4 * (height * stride + width)) by lia.
Qed.

(** Room for the pixels written behind the frame buffer. *)
Definition roomy : Prop := region fb (4 * (stride * height + width)) (smem s).

(** The pixel at (x, y) after a block of memory was overwritten. *)
Lemma pixel_overwritten dest n val m m' x y :
  overwritten dest n val m m' ->
  (pixel_addr s x y + 4 <= dest \/ dest + n <= pixel_addr s x y -> pixel s m' x y = pixel s m x y).
Proof.
  intros Ho Hd. unfold pixel. apply rd_ext. intros a Ha. rewrite (overwritten_byte_at _ _ _ _ _ _ Ho).
  rewrite decide_False by (change (Z.of_nat 4) with 4 in Ha; lia). done.
Qed.

Lemma _shift_screen_up_ok :
  roomy -> 0 < gh <= height ->
  exists m', _shift_screen_up s = Ret tt (set_mem m' s) /\
    (forall x y, on_screen s x y -> pixel s m' x y = if decide (y < height - gh) then pixel s (smem s) x (y + gh) else 0) /\
    (forall a, ~ (fb <= a < fb + 4 * (stride * height + width)) -> m' !! a = smem s !! a) /\
    (forall a, is_Some (smem s !! a) -> is_Some (m' !! a)).
Proof.
  intros Hroom Hgh. destruct screen_facts as (F1 & F2 & F3 & F4 & F5 & F6 & F7).
  unfold _shift_screen_up. do 4 (erewrite bind_ret_eq; [|reflexivity]). fold fb width height gh.
  rewrite (bind_ret_eq _ _ _ _ _ (fbindex_ok s Hok 0 gh s eq_refl ltac:(lia) ltac:(lia) ltac:(fold stride; nia))).
  rewrite (u32_small width), (u32_small height), (u32_small (height - gh)) by lia.
  rewrite (bind_ret_eq _ _ _ _ _ (fbindex_ok s Hok width height s eq_refl ltac:(lia) ltac:(lia) ltac:(fold stride; nia))).
  fold stride. rewrite !Z.add_0_r.
  set (n := 4 * ((height - gh) * stride + width)).
  replace (u64 (4 * (height * stride + width) - 4 * (gh * stride))) with n by (rewrite u64_small by (split; nia); lia).
  assert (Hn : 0 <= n) by (unfold n; nia).
  destruct (copy_up_ok fb (fb + 4 * (gh * stride)) n s Hn) as (m1 & E1 & O1); [nia| | |].
  { apply (region_sub _ _ _ _ _ Hroom); unfold n; nia. }
  { apply (region_sub _ _ _ _ _ Hroom); unfold n; nia. }
  unfold memmove at 1. rewrite (proj2 (Z.gtb_lt _ _)) by nia.
  erewrite bind_ret_eq; [|erewrite bind_ret_eq; [reflexivity|exact E1]].
  set (s1 := set_mem m1 s) in *.
  rewrite (bind_ret_eq _ _ _ _ _ (fbindex_ok s Hok 0 (height - gh) s1 eq_refl ltac:(lia) ltac:(lia) ltac:(fold stride; nia))).
  rewrite (bind_ret_eq _ _ _ _ _ (fbindex_ok s Hok width height s1 eq_refl ltac:(lia) ltac:(lia) ltac:(fold stride; nia))).
  fold stride. unfold blank_pixels. erewrite bind_ret_eq; [|reflexivity].
  change (fb_address (k_term s1)) with fb. rewrite Z.add_0_r.
  set (k := 4 * (gh * stride + width)).
  replace (u64 (4 * (height * stride + width) - 4 * ((height - gh) * stride))) with k by (rewrite u64_small by (split; nia); lia).
  destruct (memset_ok (fb + 4 * ((height - gh) * stride)) 0 k s1) as (m2 & E2 & O2); [unfold k; nia| |].
  { unfold s1. rewrite smem_set_mem. apply (overwritten_region _ _ _ _ _ _ _ O1).
    apply (region_sub _ _ _ _ _ Hroom); unfold k; nia. }
  unfold s1 in O2, E2. rewrite smem_set_mem in O2. exists m2. unfold s1.
  rewrite (bind_ret_eq _ _ _ _ _ E2), set_mem_set_mem.
  split; [done|]. split; [|split].
  - intros x y [Hx Hy]. fold stride height in Hx, Hy. case_decide as D.
    + rewrite (pixel_overwritten _ _ _ _ _ x y O2) by (left; unfold pixel_addr; fold fb stride; nia).
      unfold pixel. apply rd_shift. intros i Hi. rewrite (overwritten_byte_at _ _ _ _ _ _ O1).
      unfold pixel_addr. fold fb stride. change (Z.of_nat 4) with 4 in Hi.
      rewrite decide_True by (unfold n; nia). rewrite Z.mod_small by apply byte_at_range.
      f_equal. lia.
    + apply rd_zero_bytes. intros a Ha. rewrite (overwritten_byte_at _ _ _ _ _ _ O2).
      unfold pixel_addr in Ha. fold fb stride in Ha. change (Z.of_nat 4) with 4 in Ha.
      rewrite decide_True by (unfold k; nia). done.
  - intros a Ha. rewrite O2, decide_False, O1, decide_False; [done|unfold n; nia|unfold k; nia].
  - intros a Ha. rewrite O2. case_decide; [eauto|]. rewrite O1. case_decide; eauto.
Qed.
End scroll.

(** Clearing the screen clears one row too many. _clear_screen zeroes the
    whole frame buffer and the [width] pixels behind it: where nothing is
    mapped behind the frame buffer it faults at its first byte, and where
    something is, those bytes are zeroed with the screen and everything else is
    as before. *)
Theorem clear_screen_overruns s :
  let fb := fb_address (k_term s) in
  let size := 4 * (fb_pitch (k_term s) `div` 4 * fb_height (k_term s)) in
  let extra := 4 * fb_width (k_term s) in
  screen_ok s ->
  (smem s !! (fb + size) = None -> _clear_screen s = Fault (Unmapped (fb + size))) /\
  (region (fb + size) extra (smem s) ->
     exists m', _clear_screen s = Ret tt (set_mem m' s) /\
       forall x, m' !! x = if decide (fb <= x < fb + size + extra) then Some 0 else smem s !! x).
Proof.
  intros fb size extra Hok. destruct (screen_facts s Hok) as (F1 & F2 & F3 & F4 & F5 & F6 & F7).
  rewrite (_clear_screen_eq s Hok).
  replace (4 * (fb_height (k_term s) * (fb_pitch (k_term s) `div` 4) + fb_width (k_term s))) with (size + extra)
    by (unfold size, extra; lia).
  fold fb. split.
  - intros Hno. unfold mbind, M_bind. rewrite (memset_fault fb 0 (size + extra) size s); [done| |exact F5|exact Hno].
    unfold size, extra. nia.
  - intros Hr. destruct (memset_ok fb 0 (size + extra) s) as (m' & E & Ho); [unfold size, extra; nia| |].
    + intros x Hx. destruct (decide (x < fb + size)); [apply F5; fold size; lia|apply Hr; lia].
    + exists m'. rewrite (bind_ret_eq _ _ _ _ _ E). split; [done|]. intros x. rewrite Ho, Z.add_assoc. done.
Qed.

Lemma clear_screen_overruns_witness :
  _clear_screen (term_kernel_at term_mem) = Fault (Unmapped 4224).
Proof.
  assert (Hno : term_mem !! 4224 = None) by (vm_compute; reflexivity).
  destruct term_mem_regions as [_ Hs]. revert Hno Hs. generalize term_mem. intros m Hno Hs.
  destruct (clear_screen_overruns (term_kernel_at m) (term_screen_ok m Hs)) as [Hf _]. by apply Hf.
Defined.
