(* ===== verification/TermPrint.v ===== *)
(** * terminal.c: printing keeps the terminal on the screen *)
From S2P Require Import Prelude Machine MemLib Pmm Slob Str StrFormat StrProps Kstate VmProps Terminal TermProps TermRows TermScroll.

(** ** What drawing leaves alone *)

(** A kernel with other terminal globals and another memory. *)
Definition shown (t : term_globals) (m : memory) (s : kernel) : kernel := set_k_term t (set_mem m s).

(** The fields of the frame buffer, the font and the glyph size, and the two
    that only term_init writes. *)
Definition same_screen (t t0 : term_globals) : Prop :=
  fb_address t = fb_address t0 /\ fb_width t = fb_width t0 /\ fb_height t = fb_height t0 /\
  fb_pitch t = fb_pitch t0 /\ font_header t = font_header t0 /\ glyph_data t = glyph_data t0 /\
  glyph_width t = glyph_width t0 /\ glyph_height t = glyph_height t0 /\
  input_str t = input_str t0 /\ is_ready t = is_ready t0.

(** What drawing may write: the frame buffer and, blanking up to the start of
    the row behind it, the [width] pixels after it. *)
Definition drawn_to (s : kernel) (a : Z) : Prop :=
  fb_address (k_term s) <= a <
  fb_address (k_term s) + 4 * (fb_pitch (k_term s) `div` 4 * fb_height (k_term s) + fb_width (k_term s)).

(** The screen a terminal needs: a frame buffer with that much room, a font
    elsewhere, the glyph size term_init derives from it, and room for a prompt
    and one character. *)
Record display_ok (s : kernel) : Prop := {
  di_screen : screen_ok s;
  di_room : roomy s;
  di_font : font_ok s;
  di_apart : forall a, drawn_to s a ->
    ~ (font_header (k_term s) <= a < font_header (k_term s) + 4) /\
    ~ (glyph_data (k_term s) <= a <
       glyph_data (k_term s) + 128 * rd 1 (font_header (k_term s) + off_char_height) (smem s));
  di_gh : glyph_height (k_term s) = rd 1 (font_header (k_term s) + off_char_height) (smem s) + glyph_padding;
  di_gw : glyph_width (k_term s) = 8 + glyph_padding;
  di_width : 27 <= fb_width (k_term s);
  di_height : glyph_height (k_term s) <= fb_height (k_term s)
}.

(** A text line at (x, y) is on the screen. *)
Definition line_ok (t : term_globals) (x y : Z) : Prop :=
  0 <= x < fb_width t /\ 0 <= y /\ y + glyph_height t <= fb_height t.

(** Where the next character, the input and the cursor go, and the colours. *)
Record cursor_ok (t : term_globals) : Prop := {
  cu_render : line_ok t (render_x t + 8) (render_y t) /\ 0 <= render_x t;
  cu_input : line_ok t (input_render_x t) (input_render_y t);
  cu_cursor : line_ok t (cursor_x t) (cursor_y t);
  cu_colors : is_u32 (fgcolor t) /\ is_u32 (bgcolor t)
}.

Section print.
Context (s0 : kernel) (Hdi : display_ok s0).
Let fb := fb_address (k_term s0).
Let stride := fb_pitch (k_term s0) `div` 4.
Let height := fb_height (k_term s0).
Let width := fb_width (k_term s0).
Let gh := glyph_height (k_term s0).
Let hdr := font_header (k_term s0).
Let glyphs := glyph_data (k_term s0).
Let rows := rd 1 (hdr + off_char_height) (smem s0).

(** Memory as drawing leaves it. *)
Definition undrawn (m : memory) : Prop :=
  (forall a, ~ drawn_to s0 a -> m !! a = smem s0 !! a) /\
  (forall a, is_Some (smem s0 !! a) -> is_Some (m !! a)).

Record terminal_ok (t : term_globals) (m : memory) : Prop := {
  tm_screen : same_screen t (k_term s0);
  tm_undrawn : undrawn m;
  tm_cursor : cursor_ok t
}.

Lemma undrawn_rd m a n : undrawn m ->
  (forall x, a <= x < a + Z.of_nat n -> ~ drawn_to s0 x) -> rd n a m = rd n a (smem s0).
Proof. intros [Hm _] Ha. apply rd_ext. intros x Hx. unfold byte_at. by rewrite Hm by auto. Qed.
Lemma undrawn_region m a n : undrawn m -> region a n (smem s0) -> region a n m.
Proof. intros [_ Hm] Hr x Hx. by apply Hm, Hr. Qed.

Lemma header_undrawn m : undrawn m -> rd 1 (hdr + off_char_height) m = rows.
Proof.
  intros Hm. apply undrawn_rd; [done|]. intros x Hx Hd.
  destruct (di_apart _ Hdi x Hd) as [Ha _]. apply Ha. fold hdr. unfold off_char_height in *. lia.
Qed.

Section step.
Context (t : term_globals) (m : memory) (Hs : same_screen t (k_term s0)) (Hm : undrawn m).
Let s := shown t m s0.

Lemma in_fb_drawn a : in_fb s a -> drawn_to s0 a.
Proof.
  destruct Hs as (E1 & E2 & E3 & E4 & _). unfold in_fb, drawn_to, s. cbn [k_term shown set_k_term].
  rewrite E1, E3, E4. destruct (sc_width _ (di_screen _ Hdi)). lia.
Qed.
Lemma shown_screen : screen_ok s.
Proof.
  destruct (di_screen _ Hdi) as [H1 H2 H3 H4 H5]. destruct Hs as (E1 & E2 & E3 & E4 & _).
  split; unfold s; cbn [k_term shown set_k_term]; rewrite ?E1, ?E2, ?E3, ?E4; try done. by apply (undrawn_region m).
Qed.
Lemma shown_roomy : roomy s.
Proof.
  destruct Hs as (E1 & E2 & E3 & E4 & _). unfold roomy, s. cbn [k_term shown set_k_term].
  rewrite E1, E2, E3, E4. apply (undrawn_region m); [done|apply (di_room _ Hdi)].
Qed.
Lemma shown_rows : rd 1 (font_header (k_term s) + off_char_height) (smem s) = rows.
Proof.
  destruct Hs as (_ & _ & _ & _ & E & _). unfold s. cbn [k_term shown set_k_term]. rewrite E. by apply header_undrawn.
Qed.
Lemma shown_font : font_ok s.
Proof.
  destruct (di_font _ Hdi) as [H1 H2 H3]. pose proof shown_rows as Er.
  destruct Hs as (_ & _ & _ & _ & E5 & E6 & _).
  split; [| |intros a Ha; pose proof (di_apart _ Hdi a (in_fb_drawn a Ha)) as Hap]; rewrite ?Er;
    unfold s; cbn [k_term shown set_k_term]; rewrite ?E5, ?E6.
  - by apply (undrawn_region m).
  - by apply (undrawn_region m).
  - exact Hap.
Qed.

(** The geometry and the font are those of the start. *)
Lemma shown_pixel m' x y : pixel s m' x y = pixel s0 m' x y.
Proof.
  destruct Hs as (E1 & _ & _ & E4 & _). unfold pixel, pixel_addr, s. cbn [k_term shown set_k_term]. by rewrite E1, E4.
Qed.
Lemma shown_on_screen x y : on_screen s0 x y -> on_screen s x y.
Proof. destruct Hs as (_ & _ & E3 & E4 & _). unfold on_screen, s. cbn [k_term shown set_k_term]. by rewrite E3, E4. Qed.
Lemma shown_glyph_bit ch r b : 0 <= ch < 128 -> 0 <= r < rows -> glyph_bit s ch r b = glyph_bit s0 ch r b.
Proof.
  intros Hch Hr. unfold glyph_bit. rewrite shown_rows. destruct Hs as (_ & _ & _ & _ & _ & E6 & _).
  unfold s. cbn [k_term shown set_k_term]. rewrite E6. change (smem (set_k_term t (set_mem m s0))) with m.
  f_equal. apply undrawn_rd; [done|]. intros x Hx Hd. destruct (di_apart _ Hdi x Hd) as [_ Hg]. apply Hg.
  change (Z.of_nat 1) with 1 in Hx. fold hdr rows glyphs in Hx |- *. clear - Hx Hch Hr. clearbody rows glyphs.
  assert (0 <= ch * rows <= 127 * rows) by nia. lia.
Qed.

(** A memory that differs from [m] only where drawing goes. *)
Lemma undrawn_step m' :
  (forall a, ~ drawn_to s0 a -> m' !! a = m !! a) -> (forall a, is_Some (m !! a) -> is_Some (m' !! a)) -> undrawn m'.
Proof. destruct Hm as [H1 H2]. intros F M. split; [intros a Ha; by rewrite F, H1|auto]. Qed.

Lemma shown_set_mem m' : set_mem m' s = shown t m' s0.
Proof. reflexivity. Qed.

Lemma render_glyph_kept ch x y :
  is_u32 (fgcolor t) -> is_u32 (bgcolor t) -> 0 <= ch < 128 -> 0 <= x -> x + 8 < width ->
  0 <= y -> y + gh <= height ->
  exists m', _render_glyph ch x y s = Ret tt (shown t m' s0) /\ undrawn m' /\
    forall px py, on_screen s0 px py -> pixel s0 m' px py =
      if decide (x < px <= x + 8 /\ y <= py < y + rows) then
        if glyph_bit s0 ch (py - y) (8 - (px - x)) then fgcolor t else bgcolor t
      else pixel s0 m px py.
Proof.
  intros Hfg Hbg Hch Hx Hw Hy Hh. destruct (sc_width _ (di_screen _ Hdi)) as [_ Hws].
  pose proof (di_gh _ Hdi) as Hgh. fold gh hdr rows in Hgh. unfold glyph_padding in Hgh.
  destruct (render_glyph_ok s shown_screen shown_font Hfg Hbg ch x y Hch) as (m' & E & P).
  - unfold s. cbn [k_term shown set_k_term]. destruct Hs as (_ & _ & _ & -> & _). fold stride. fold stride width in Hws. lia.
  - rewrite shown_rows. unfold s. cbn [k_term shown set_k_term]. destruct Hs as (_ & _ & -> & _).
    fold height. lia.
  - exists m'. split; [exact E|]. split; [apply undrawn_step|].
    + intros a Ha. apply (pa_frame _ _ _ _ P). intros Hf. by apply Ha, in_fb_drawn.
    + apply (pa_mapped _ _ _ _ P).
    + intros px py Hp. pose proof (pa_pixel _ _ _ _ P px py (shown_on_screen _ _ Hp)) as E'.
      rewrite !shown_pixel in E'. rewrite E'. unfold glyph_box, glyph_color. rewrite shown_rows.
      case_decide as D; [|done]. rewrite shown_glyph_bit by lia. done.
Qed.

Lemma put_pixel_kept x y c : 0 <= x < width -> 0 <= y < height ->
  exists m', _put_pixel x y c s = Ret tt (shown t m' s0) /\ undrawn m' /\
    forall px py, on_screen s0 px py -> is_u32 c ->
      pixel s0 m' px py = if decide (px = x /\ py = y) then c else pixel s0 m px py.
Proof.
  intros Hx Hy. destruct (sc_width _ (di_screen _ Hdi)) as [_ Hws]. fold stride width in Hws.
  assert (Hon : on_screen s x y).
  { unfold on_screen, s. cbn [k_term shown set_k_term]. destruct Hs as (_ & _ & -> & -> & _). fold stride height. lia. }
  pose proof (_put_pixel_ok s shown_screen x y c (smem s) (fun _ H => H) Hon) as E.
  unfold drawing in E. rewrite set_mem_smem in E. eexists. split; [exact E|]. split; [apply undrawn_step|].
  - intros a Ha. apply wr_lookup_ne. intros Hin. apply Ha, in_fb_drawn. clear E.
    pose proof (on_screen_index s x y Hon). unfold in_fb, pixel_addr in *.
    change (Z.of_nat 4) with 4 in Hin. lia.
  - intros a Ha. by apply wr_is_Some.
  - intros px py Hp Hc. rewrite <- !shown_pixel.
    rewrite (pa_pixel s _ _ _ (painted_put s _ _ _ x y c (painted_refl s (smem s)) Hon Hc) px py (shown_on_screen _ _ Hp)).
    by case_decide.
Qed.

Lemma blank_rows_kept y : 0 <= y -> y + gh <= height ->
  exists m', blank_rows y gh s = Ret tt (shown t m' s0) /\ undrawn m' /\
    forall px py, on_screen s0 px py -> py < y + gh ->
      pixel s0 m' px py = if decide (y <= py) then 0 else pixel s0 m px py.
Proof.
  intros Hy Hh. pose proof (di_gh _ Hdi) as Hgh. fold gh hdr rows in Hgh. unfold glyph_padding in Hgh.
  pose proof (rd_range 1 (hdr + off_char_height) (smem s0)) as Hrw. fold rows in Hrw.
  destruct (sc_width _ (di_screen _ Hdi)) as [Hw0 Hws]. fold stride width in Hw0, Hws.
  pose proof shown_roomy as Hroom. unfold roomy in Hroom.
  assert (Hhs : y + gh <= fb_height (k_term s)).
  { unfold s. cbn [k_term shown set_k_term]. destruct Hs as (_ & _ & -> & _). done. }
  rewrite (blank_rows_eq s shown_screen s y gh eq_refl Hy ltac:(lia) Hhs).
  destruct Hs as (E1 & E2 & E3 & E4 & _). unfold s in Hroom |- *. cbn [k_term shown set_k_term] in Hroom |- *.
  rewrite E1, E2, E3, E4 in Hroom. rewrite E1, E2, E4. fold fb stride width height in Hroom |- *. fold s in Hroom |- *.
  destruct (memset_ok (fb + 4 * (y * stride)) 0 (4 * (gh * stride + width)) s) as (m' & E & O); [nia| |].
  { apply (region_sub _ _ _ _ _ Hroom); nia. }
  exists m'. rewrite (bind_ret_eq _ _ _ _ _ E). split; [reflexivity|]. split; [apply undrawn_step|].
  - intros a Ha. rewrite O, decide_False; [done|]. intros Hin. apply Ha. unfold drawn_to.
    fold fb stride width height. nia.
  - intros a Ha. rewrite O. case_decide; [eauto|exact Ha].
  - intros px py [Hpx Hpy] Hlt. fold stride height in Hpx, Hpy. case_decide as D.
    + unfold pixel, pixel_addr. fold fb stride. apply rd_zero_bytes. intros a Ha. change (Z.of_nat 4) with 4 in Ha.
      rewrite (overwritten_byte_at _ _ _ _ _ _ O), decide_True by nia. done.
    + apply (pixel_overwritten s0 _ _ _ _ _ px py O). left. unfold pixel_addr. fold fb stride. nia.
Qed.

Lemma shift_kept : exists m', _shift_screen_up s = Ret tt (shown t m' s0) /\ undrawn m' /\
  forall px py, on_screen s0 px py -> py < height - gh -> pixel s0 m' px py = pixel s0 m px (py + gh).
Proof.
  pose proof (di_gh _ Hdi) as Hgh. fold gh hdr rows in Hgh. unfold glyph_padding in Hgh.
  pose proof (rd_range 1 (hdr + off_char_height) (smem s0)) as Hrw. fold rows in Hrw.
  pose proof (di_height _ Hdi) as Hh. fold gh height in Hh.
  destruct (_shift_screen_up_ok s shown_screen shown_roomy) as (m' & E & Hp & F & M).
  { unfold s. cbn [k_term shown set_k_term]. destruct Hs as (_ & _ & -> & _ & _ & _ & _ & -> & _). fold gh height. lia. }
  exists m'. split; [exact E|]. split; [apply undrawn_step; [|exact M]|].
  - intros a Ha. apply F. intros Hin. apply Ha. unfold drawn_to. revert Hin. unfold s. cbn [k_term shown set_k_term].
    destruct Hs as (-> & -> & -> & -> & _). done.
  - intros px py Hon Hlt. rewrite <- !shown_pixel, (Hp px py (shown_on_screen _ _ Hon)), decide_True.
    + unfold s. cbn [k_term shown set_k_term]. by replace (glyph_height t) with gh by (symmetry; apply Hs).
    + unfold s. cbn [k_term shown set_k_term]. destruct Hs as (_ & _ & -> & _ & _ & _ & _ & -> & _). fold gh height. lia.
Qed.
End step.

(** ** The operations on text *)

Lemma sizes : 27 <= width <= stride /\ 1 <= gh <= height /\ height < 2 ^ 32 /\ stride < 2 ^ 32 /\ gh = rows + 1.
Proof.
  destruct (di_screen _ Hdi) as [_ [H1 H2] H3 H4 _]. fold stride width height in H1, H2, H3, H4.
  pose proof (di_gh _ Hdi) as Hgh. fold gh hdr rows in Hgh. unfold glyph_padding in Hgh.
  pose proof (di_width _ Hdi) as Hw. fold width in Hw. pose proof (di_height _ Hdi) as Hh. fold gh height in Hh.
  pose proof (rd_range 1 (hdr + off_char_height) (smem s0)) as Hr. fold rows in Hr. split_and!; try lia; nia.
Qed.

(** A vertical bar of [n] pixels, and nothing else, painted over [m]. *)
Definition bar (x y n c : Z) (m m' : memory) : Prop :=
  is_u32 c -> forall px py, on_screen s0 px py ->
  pixel s0 m' px py = if decide (px = x /\ y <= py < y + n) then c else pixel s0 m px py.

(** A loop that puts one pixel into each row of a line. *)
Lemma column_kept t m (f : Z -> M kernel unit) x y c :
  same_screen t (k_term s0) -> undrawn m -> line_ok t x y ->
  (forall i m', f i (shown t m' s0) = _put_pixel x (y +32 i) c (shown t m' s0)) ->
  exists m', for_range 0 gh f (shown t m s0) = Ret tt (shown t m' s0) /\ undrawn m' /\
    bar x y gh c m m'.
Proof.
  intros Hs Hm Hl Hf. destruct sizes as (Hw & Hg & Hh & _).
  destruct Hl as (Hx & Hy & Hyh). destruct Hs as (E1 & E2 & E3 & E4 & E5 & E6 & E7 & E8 & E9).
  rewrite E2 in Hx. rewrite E3, E8 in Hyh. fold width in Hx. fold gh height in Hyh.
  destruct (for_range_inv f (fun i s => exists m', s = shown t m' s0 /\ undrawn m' /\ bar x y i c m m') 0 gh (shown t m s0))
    as (s' & E & m' & -> & Hm'); [lia| | |by eauto].
  - intros i s Hi (m1 & -> & Hm1 & Hb1). rewrite Hf, u32_small by lia.
    destruct (put_pixel_kept t m1 (conj E1 (conj E2 (conj E3 (conj E4 (conj E5 (conj E6 (conj E7 (conj E8 E9))))))))
      Hm1 x (y + i) c) as (m2 & E' & Hm2 & Hb2); [fold width; lia|fold height; lia|]. eexists. split; [exact E'|]. exists m2.
    split; [done|]. split; [done|]. intros Hc px py Hp. rewrite (Hb2 px py Hp Hc), (Hb1 Hc px py Hp).
    repeat case_decide; (done || lia).
  - exists m. split; [done|]. split; [done|]. intros _ px py _. by rewrite decide_False by lia.
Qed.

Definition cursor_moved (t : term_globals) : term_globals :=
  if cursor_visible t then set_cursor_y (input_render_y t) (set_cursor_x (input_render_x t) t) else t.

Lemma render_cursor_kept t m :
  same_screen t (k_term s0) -> undrawn m -> line_ok t (input_render_x t) (input_render_y t) ->
  exists m', _render_cursor (shown t m s0) = Ret tt (shown (cursor_moved t) m' s0) /\ undrawn m' /\
    forall px py, on_screen s0 px py -> pixel s0 m' px py =
      if decide (cursor_visible t = true /\ px = input_render_x t /\ input_render_y t <= py < input_render_y t + gh)
      then TERM_CURSOR_COLOR else pixel s0 m px py.
Proof.
  intros Hs Hm Hl. unfold _render_cursor, cursor_moved. erewrite bind_ret_eq; [|reflexivity].
  cbn [k_term shown set_k_term]. destruct (cursor_visible t); cbn [negb].
  2: { exists m. split; [done|]. split; [done|]. intros px py _. by rewrite decide_False by (by intros [? _]). }
  erewrite bind_ret_eq; [|reflexivity]. cbn [k_term shown set_k_term].
  replace (glyph_height t) with gh by (symmetry; apply Hs).
  edestruct (fun f x y => column_kept t m f x y TERM_CURSOR_COLOR) as (m' & E & Hm' & Hb); [exact Hs|exact Hm|exact Hl| |].
  2: { exists m'. rewrite (bind_ret_eq _ _ _ _ _ E). split; [reflexivity|]. split; [done|]. intros px py Hp.
       rewrite (Hb ltac:(done) px py Hp). apply decide_ext. split; [by split|by intros [_ ?]]. }
  intros i m1. reflexivity.
Qed.

(** Drawing in one row of text. *)
Definition same_beside (y : Z) (m m' : memory) : Prop :=
  forall px py, on_screen s0 px py -> py < y \/ y + gh <= py -> pixel s0 m' px py = pixel s0 m px py.

(** One character of the prompt. *)
Lemma prompt_glyph_kept t m (i : nat) y c :
  same_screen t (k_term s0) -> undrawn m -> is_u32 (fgcolor t) -> is_u32 (bgcolor t) -> 0 <= y -> y + gh <= height ->
  0 <= c < 128 -> (i < 2)%nat ->
  exists m', _render_glyph c (9 * Z.of_nat i) y (shown t m s0) = Ret tt (shown t m' s0) /\ undrawn m' /\
    same_beside y m m' /\
    forall r, (i <= length (cells r))%nat -> row_at s0 m y r -> row_at s0 m' y (row_put i (Cell c (fgcolor t) (bgcolor t)) r).
Proof.
  intros Hs Hm Hfg Hbg Hy Hyh Hc Hi. destruct sizes as (Hw & Hg & Hh & Hst & Hrows).
  destruct (render_glyph_kept t m Hs Hm c (9 * Z.of_nat i) y Hfg Hbg Hc) as (m' & E & Hm' & P);
    [lia|fold width; lia|lia|fold gh height; lia|].
  exists m'. split; [exact E|]. split; [done|]. split.
  - intros px py Hp Hlt. by rewrite P, decide_False by (done || lia).
  - intros r Hr. by apply row_at_put.
Qed.

Lemma render_input_line_kept t m :
  terminal_ok t m -> render_x t = 0 ->
  exists t' m', _render_input_line (shown t m s0) = Ret tt (shown t' m' s0) /\ terminal_ok t' m' /\
    (render_x t' = 0 /\ input_render_x t' = 18) /\
    (render_y t' = render_y t /\ fgcolor t' = TERM_DEFAULT_FGCOLOR /\ bgcolor t' = bgcolor t /\
     cursor_visible t' = cursor_visible t) /\
    same_beside (render_y t) m m' /\
    (row_at s0 m (render_y t) blank_row -> row_at s0 m' (render_y t) (prompt_row (bgcolor t) (cursor_visible t))).
Proof.
  intros [Hs Hm [[Hr _] Hi Hc [_ Hbg]]] Hx0. pose proof Hs as (E1 & E2 & E3 & E4 & E5 & E6 & E7 & E8 & E9).
  destruct sizes as (Hw & Hg & Hh & Hst & Hrows). rewrite Hx0 in Hr.
  destruct Hr as (_ & Hy & Hyh). rewrite E3, E8 in Hyh. fold gh height in Hyh.
  unfold _render_input_line. do 4 (erewrite bind_ret_eq; [|reflexivity]).
  cbn [k_term shown set_k_term set_input_render_x render_x render_y glyph_height]. rewrite Hx0. rewrite Z.ltb_irrefl.
  do 2 (erewrite bind_ret_eq; [|reflexivity]).
  set (t1 := set_fgcolor 0x44AAFF (set_input_render_y (render_y t) (set_input_render_x 0 t))).
  match goal with |- context [for_range 0 2 ?f] => set (prompt := f) end.
  destruct (for_range_inv prompt (fun i s => exists m', s = shown (set_input_render_x (9 * i) t1) m' s0 /\ undrawn m' /\
      same_beside (render_y t) m m' /\ (row_at s0 m (render_y t) blank_row ->
        row_at s0 m' (render_y t) (Row (take (Z.to_nat i) (prompt_cells (bgcolor t))) false))) 0 2
    (shown t1 m s0)) as (s' & E & m' & -> & Hm' & Hab & Hrow); [lia| | |].
  3: { rewrite (bind_ret_eq _ _ _ _ _ E). erewrite bind_ret_eq; [|reflexivity].
       change (9 * 2) with 18.
       set (t2 := set_fgcolor TERM_DEFAULT_FGCOLOR (set_input_render_x 18 t1)).
       destruct (render_cursor_kept t2 m') as (m2 & E' & Hm2 & P); [done|done| |].
       - unfold line_ok, t2, t1. cbn. rewrite E2, E3, E8. fold width gh height. lia.
       - exists (cursor_moved t2), m2. split; [exact E'|].
         assert (Hin : line_ok t 18 (render_y t)).
         { unfold line_ok. rewrite E2, E3, E8. fold width gh height. lia. }
         split; [|split; [|split; [|split]]].
         + unfold cursor_moved. destruct (cursor_visible t2); (split; [done|done|]);
           split; unfold t2, t1; cbn; try rewrite Hx0; try done;
           unfold line_ok; cbn; rewrite E2, E3, E8; fold width gh height; lia.
         + unfold cursor_moved. by destruct (cursor_visible t2).
         + unfold cursor_moved. by destruct (cursor_visible t2).
         + intros px py Hp Hlt. rewrite P by done. rewrite decide_False; [by apply Hab|].
           intros (_ & _ & Hin'). cbn in Hin'. fold gh in Hin'. lia.
         + intros Hbl. apply (row_at_bar s0 m' m2 (render_y t) _ (cursor_visible t)) in Hrow; [exact Hrow|done..| |done].
           exact P. }
  - intros i s Hi2 (m1 & -> & Hm1 & Hab1 & Hrow1).
    destruct (prompt_glyph_kept (set_input_render_x (9 * i) t1) m1 (Z.to_nat i) (render_y t) (if i =? 0 then 35 else 32))
      as (m2 & E & Hm2 & Hab2 & Hput); [done|done|done|exact Hbg|done|done|destruct (i =? 0); lia|lia|].
    rewrite Z2Nat.id in E by lia.
    unfold prompt. do 2 (erewrite bind_ret_eq; [|reflexivity]).
    rewrite (bind_ret_eq _ _ _ _ _ E). do 2 (erewrite bind_ret_eq; [|reflexivity]).
    eexists. split; [reflexivity|]. exists m2. split; [|split; [done|split]].
    + cbn [k_term shown set_k_term set_input_render_x input_render_x glyph_width t1 set_fgcolor set_input_render_y].
      rewrite E7. pose proof (di_gw _ Hdi) as ->. unfold glyph_padding. rewrite u32_small by lia.
      replace (9 * i + (8 + 1)) with (9 * (i + 1)) by lia. reflexivity.
    + intros px py Hp Hlt. rewrite Hab2 by done. by apply Hab1.
    + intros Hbl. specialize (Hput (Row (take (Z.to_nat i) (prompt_cells (bgcolor t))) false)
        ltac:(cbn [cells]; rewrite length_take; cbn; lia) (Hrow1 Hbl)).
      assert (i = 0 \/ i = 1) as [-> | ->] by lia; exact Hput.
  - exists m. split; [done|]. split; [done|]. by split.
Qed.

Lemma cursor_at t x y :
  same_screen t (k_term s0) -> cursor_ok t -> 0 <= x -> x + 8 < width -> 0 <= y -> y + gh <= height ->
  cursor_ok (set_render_y y (set_render_x x t)).
Proof.
  intros (E1 & E2 & E3 & E4 & E5 & E6 & E7 & E8 & E9) [_ Hi Hc Hcol] Hx Hxw Hy Hyh.
  split; try done. unfold line_ok. cbn. rewrite E2, E3, E8. fold width gh height. lia.
Qed.

Lemma set_same_render t : set_render_y (render_y t) (set_render_x (render_x t) t) = t.
Proof. by destruct t. Qed.

Lemma blank_row_kept t m y :
  same_screen t (k_term s0) -> undrawn m -> 0 <= y -> y + gh <= height ->
  exists m', blank_rows y gh (shown t m s0) = Ret tt (shown t m' s0) /\ undrawn m' /\
    (forall r rs, rows_at s0 m y (r :: rs) -> rows_at s0 m' y (Some blank_row :: rs)) /\
    (forall rs, rows_at s0 m (y - gh) rs -> rows_at s0 m' (y - gh) rs) /\ row_at s0 m' y blank_row.
Proof.
  intros Hs Hm Hy Hyh. destruct sizes as (Hw & Hg & Hh & Hst & Hrows).
  destruct (blank_rows_kept t m Hs Hm y Hy Hyh) as (m' & E & Hm' & P). exists m'. split; [exact E|]. split; [done|].
  assert (Hbl : row_at s0 m' y blank_row).
  { apply row_at_blank. fold stride gh. intros x i Hx Hi.
    rewrite P by (unfold on_screen; fold stride height; lia). by rewrite decide_True by lia. }
  assert (Hup : forall rs', rows_at s0 m (y - gh) rs' -> rows_at s0 m' (y - gh) rs').
  { intros rs'. apply (rows_at_same s0); fold gh height; [lia|lia|]. intros px py Hp Hlt.
    by rewrite P, decide_False by (done || lia). }
  split; [|by split]. intros r rs Hrs. apply rows_at_cons; [by intros r' [= <-]|].
  apply Hup. exact (rows_at_tail s0 m y _ Hrs).
Qed.

(** Room for a new line: the next row, or the last one after a scroll. *)
Lemma next_row_kept t m :
  same_screen t (k_term s0) -> undrawn m -> 0 <= render_y t -> render_y t + gh <= height ->
  exists y m', (if render_y t + gh >? height - gh then
        _shift_screen_up ;; mod_term (set_render_y (u32 (render_y t + gh - gh))) else mret tt)
        (shown (set_render_y (render_y t + gh) t) m s0) =
      Ret tt (shown (set_render_y y t) m' s0) /\ undrawn m' /\ 0 <= y /\ y + gh <= height /\
    forall rs, rows_at s0 m (render_y t) rs -> rows_at s0 m' (y - gh) rs.
Proof.
  intros Hs Hm Hy Hyh. destruct sizes as (Hw & Hg & Hh & Hst & Hrows).
  rewrite Z.gtb_ltb. case (Z.ltb_spec (height - gh) (render_y t + gh)); intros Hlt.
  - destruct (shift_kept (set_render_y (render_y t + gh) t) m Hs Hm) as (m2 & E & Hm2 & P).
    rewrite (bind_ret_eq _ _ _ _ _ E). exists (render_y t), m2. split; [|split_and!; try done].
    + rewrite u32_small by lia. by replace (render_y t + gh - gh) with (render_y t) by lia.
    + intros rs Hrs. apply (rows_at_moved s0 m _ _ gh); fold gh height; try lia.
      * intros px py Hp Hlt'. apply P; [done|lia].
      * by replace (render_y t - gh + gh) with (render_y t) by lia.
  - exists (render_y t + gh), m. split; [reflexivity|]. split_and!; try done; try lia.
    intros rs Hrs. by replace (render_y t + gh - gh) with (render_y t) by lia.
Qed.

(** The column does not matter; past the right margin it is out of range. *)
Lemma move_to_next_line_kept t m :
  terminal_ok (set_render_x 0 t) m ->
  exists t' m', _move_to_next_line (shown t m s0) = Ret tt (shown t' m' s0) /\ terminal_ok t' m' /\
    input_render_x t' = 18 /\
    (render_x t' = 0 /\ fgcolor t' = TERM_DEFAULT_FGCOLOR /\ bgcolor t' = bgcolor t /\ cursor_visible t' = cursor_visible t) /\
    forall r rs, rows_at s0 m (render_y t) (r :: rs) ->
      rows_at s0 m' (render_y t') (Some (prompt_row (bgcolor t) (cursor_visible t)) ::
        (if decide (render_x t = 0) then Some blank_row else r) :: rs).
Proof.
  intros [Hs' Hm Hc]. assert (Hs : same_screen t (k_term s0)) by exact Hs'.
  pose proof Hs as (E1 & E2 & E3 & E4 & E5 & E6 & E7 & E8 & E9).
  pose proof sizes as (Hw & Hg & Hh & Hst & Hrows).
  pose proof (cu_render _ Hc) as [(_ & Hy & Hyh) _]. cbn in Hy, Hyh. rewrite E3, E8 in Hyh. fold gh height in Hyh.
  unfold _move_to_next_line. do 3 (erewrite bind_ret_eq; [|reflexivity]). cbn [k_term shown set_k_term].
  rewrite E8. fold gh.
  assert (Hb : exists m1, (if render_x t =? 0 then blank_rows (render_y t) gh else mret tt) (shown t m s0) =
    Ret tt (shown t m1 s0) /\ undrawn m1 /\ forall r rs, rows_at s0 m (render_y t) (r :: rs) ->
      rows_at s0 m1 (render_y t) ((if decide (render_x t = 0) then Some blank_row else r) :: rs)).
  { destruct (Z.eqb_spec (render_x t) 0) as [Hx|Hx].
    - destruct (blank_row_kept t m (render_y t) Hs Hm Hy Hyh) as (m1 & E & Hm1 & Hrs & _).
      exists m1. split; [exact E|]. split; [done|]. intros r rs. rewrite decide_True by done. apply Hrs.
    - exists m. split; [done|]. split; [done|]. intros r rs. by rewrite decide_False by done. }
  destruct Hb as (m1 & Eb & Hm1 & Hrs1). rewrite (bind_ret_eq _ _ _ _ _ Eb).
  do 4 (erewrite bind_ret_eq; [|reflexivity]). cbn [k_term shown set_k_term set_render_x set_render_y fb_height render_y].
  rewrite E3. fold height. rewrite (u32_small (render_y t + gh)), u64_small by lia.
  destruct (next_row_kept (set_render_x 0 t) m1 Hs Hm1 Hy Hyh) as (y & m2 & En & Hm2 & Hy0 & Hy1 & Hrs2).
  cbn [render_y set_render_x] in En, Hrs2. rewrite (bind_ret_eq _ _ _ _ _ En).
  set (t2 := set_render_y y (set_render_x 0 t)).
  erewrite bind_ret_eq; [|reflexivity]. cbn [k_term shown set_k_term].
  destruct (blank_row_kept t2 m2 y Hs Hm2 Hy0 Hy1) as (m3 & E3' & Hm3 & _ & Hup & Hbl).
  rewrite (bind_ret_eq _ _ _ _ _ E3').
  destruct (render_input_line_kept t2 m3) as (t3 & m4 & E4' & Ht & (Hx3 & Hx) & (Ey & Ef & Ebg & Ev) & Hab & Hpr); [|done|].
  { split; [done|done|]. apply (cursor_at (set_render_x 0 t)); (done || lia). }
  exists t3, m4. split; [exact E4'|]. split; [done|]. split; [done|]. split; [done|].
  intros r rs Hrs. rewrite Ey. change (render_y t2) with y.
  apply rows_at_cons.
  - intros r' [= <-]. by apply Hpr.
  - apply (rows_at_same s0 m3); fold gh height; [lia|lia| |apply Hup, Hrs2, Hrs1, Hrs].
    intros px py Hp Hlt. apply Hab; [done|]. change (render_y t2) with y. lia.
Qed.

(** The terminal globals and the memory show the teletype [y]. *)
Record at_tty (t : term_globals) (m : memory) (y : tty) : Prop := {
  tt_column : render_x t = 9 * Z.of_nat (column y);
  tt_ink : fgcolor t = tty_ink y;
  tt_rows : rows_at s0 m (render_y t) (tty_rows y);
  tt_current : tty_rows y <> [];
  tt_cells : forall r, head (tty_rows y) = Some (Some r) -> (column y <= length (cells r))%nat;
  tt_ascii : ascii_rows (tty_rows y)
}.
Definition same_paper (t' t : term_globals) : Prop := bgcolor t' = bgcolor t /\ cursor_visible t' = cursor_visible t.

Lemma newline_tty t m y t' m' :
  at_tty t m y -> render_x t' = 0 -> fgcolor t' = TERM_DEFAULT_FGCOLOR ->
  (forall r rs, rows_at s0 m (render_y t) (r :: rs) ->
     rows_at s0 m' (render_y t') (Some (prompt_row (bgcolor t) (cursor_visible t)) ::
       (if decide (render_x t = 0) then Some blank_row else r) :: rs)) ->
  at_tty t' m' (tty_newline (bgcolor t) (cursor_visible t) y).
Proof.
  intros [Hc Hi Hr Hne Hl Ha] Hx Hf Hrs. destruct y as [n i [|r rs]]; [done|]. cbn [column tty_ink tty_rows] in *.
  split; try done.
  - unfold tty_newline, tty_blank. cbn [column tty_rows]. specialize (Hrs r rs Hr).
    destruct (decide (n = 0%nat)); [rewrite decide_True in Hrs by lia|rewrite decide_False in Hrs by lia]; exact Hrs.
  - intros r' [= <-]. cbn. lia.
  - apply ascii_rows_cons; [intros r' [= <-]; apply ascii_prompt|]. unfold tty_blank. cbn [column tty_rows].
    destruct (decide (n = 0%nat)); [|exact Ha]. apply ascii_rows_cons; [intros r' [= <-]; by apply Forall_nil|].
    intros r' Hin. apply Ha, elem_of_cons. by right.
Qed.

(** tprintf clears a line nothing was printed on. *)
Lemma clear_line_kept t m :
  terminal_ok t m ->
  exists m', (if render_x t =? 0 then ry ← term render_y; gh ← term glyph_height; blank_rows ry gh else mret tt)
      (shown t m s0) = Ret tt (shown t m' s0) /\ undrawn m' /\ forall y, at_tty t m y -> at_tty t m' (tty_blank y).
Proof.
  intros [Hs Hm Hcu]. pose proof Hs as (_ & _ & E3 & _ & _ & _ & _ & E8 & _).
  pose proof (cu_render _ Hcu) as [(_ & Hy & Hyh) _]. rewrite E3, E8 in Hyh. fold gh height in Hyh.
  destruct (Z.eqb_spec (render_x t) 0) as [Hx|Hx].
  - do 2 (erewrite bind_ret_eq; [|reflexivity]). cbn [k_term shown set_k_term]. rewrite E8. fold gh.
    destruct (blank_row_kept t m (render_y t) Hs Hm Hy Hyh) as (m' & E & Hm' & Hrs & _).
    exists m'. split; [exact E|]. split; [done|]. intros [n i [|r rs]] [Hn Hi Hr Hne Hl Ha]; [done|].
    cbn [column tty_ink tty_rows] in *. unfold tty_blank. rewrite decide_True by (cbn; lia).
    split; cbn [column tty_ink tty_rows tail]; try done.
    + by apply Hrs in Hr.
    + intros r' _. lia.
    + apply ascii_rows_cons; [intros r' [= <-]; by apply Forall_nil|].
      intros r' Hin. apply Ha, elem_of_cons. by right.
  - exists m. split; [done|]. split; [done|]. intros y Hy'. unfold tty_blank.
    rewrite decide_False; [done|]. pose proof (tt_column _ _ _ Hy'). lia.
Qed.

(** A glyph at the current position. *)
Lemma put_kept t m c :
  terminal_ok t m -> 0 <= c < 128 ->
  exists m', _render_glyph c (render_x t) (render_y t) (shown t m s0) = Ret tt (shown t m' s0) /\ undrawn m' /\
    forall y, at_tty t m y -> at_tty (set_render_x (render_x t + 9) t) m' (tty_put (bgcolor t) c y).
Proof.
  intros [Hs Hm Hcu] Hc. pose proof Hs as (_ & E2 & E3 & _ & _ & _ & _ & E8 & _).
  destruct sizes as (Hw & Hg & Hh & Hst & Hrows). pose proof (cu_render _ Hcu) as [(Hx & Hy & Hyh) Hx0].
  rewrite E3, E8 in Hyh. fold gh height in Hyh. rewrite E2 in Hx. fold width in Hx. destruct (cu_colors _ Hcu) as [Hfg Hbg].
  destruct (render_glyph_kept t m Hs Hm c (render_x t) (render_y t)) as (m1 & E & Hm1 & P); [try done; lia..|].
  exists m1. split; [exact E|]. split; [done|]. intros [n i rs] [Hn Hi Hr Hne Hl Ha]. cbn [column tty_ink tty_rows] in *.
  destruct rs as [|r rs]; [done|]. rewrite Hn in P. split; cbn [set_render_x render_x render_y fgcolor tty_put column tty_ink tty_rows]; try done.
  - lia.
  - apply rows_at_cons.
    + intros r' Er. destruct r as [r|]; [|done]. injection Er as <-.
      apply (row_at_put s0 m); [by apply Hl|lia|fold gh height; lia| |].
      * intros px py Hp. rewrite (P px py Hp). cbn [cell_char ink paper]. by rewrite Hi.
      * specialize (Hr 0%nat r eq_refl). rewrite Z.mul_0_r, Z.sub_0_r in Hr. apply Hr. lia.
    + apply (rows_at_same s0 m); fold gh height; [lia|lia| |exact (rows_at_tail s0 m _ _ Hr)].
      intros px py Hp Hlt. rewrite (P px py Hp). by rewrite decide_False by lia.
  - intros r' Er. destruct r as [r|]; [|done]. injection Er as <-. cbn [cells row_put].
    specialize (Hl r eq_refl). rewrite length_app, length_take. cbn [length]. lia.
  - apply ascii_rows_cons; [|intros r' Hin; apply Ha, elem_of_cons; by right].
    intros r' Er. destruct r as [r|]; [|done]. injection Er as <-. apply ascii_put; [|done]. apply Ha, elem_of_cons. by left.
Qed.

(** One character of the text at [ch]. *)
Lemma print_iter_kept t m ch c d :
  terminal_ok t m -> 0 <= c < 128 -> m !! ch = Some c ->
  smem s0 !! (ch + 1) = Some d -> is_u8 d -> ~ drawn_to s0 (ch + 1) ->
  exists t' m', print_iter ch (shown t m s0) = Ret (if d =? ch_nul then inr tt else inl (ch + 1)) (shown t' m' s0) /\
    terminal_ok t' m' /\ (c = ch_newline -> input_render_x t' = 18) /\ same_paper t' t /\
    forall y, at_tty t m y -> at_tty t' m' (tty_char width (bgcolor t) (cursor_visible t) y c).
Proof.
  intros Ht Hc Hl Hd Hd8 Hnd. pose proof Ht as [Hs Hm Hcu]. pose proof Hs as (E1 & E2 & E3 & E4 & E5 & E6 & E7 & E8 & E9).
  pose proof sizes as (Hw & Hg & Hh & Hst & Hrows). pose proof (cu_render _ Hcu) as [(Hx & Hy & Hyh) Hx0].
  rewrite E3, E8 in Hyh. fold gh height in Hyh. rewrite E2 in Hx. fold width in Hx.
  unfold print_iter. rewrite (bind_ret_eq _ _ _ _ _ (load_byte ch c (shown t m s0) (Hl : smem (shown t m s0) !! ch = Some c) ltac:(lia))).
  enough (Hstep : exists t' m', (if c =? ch_newline then _move_to_next_line else
     x ← term render_x; y ← term render_y; _render_glyph c x y ;; mod_term (set_render_x (x +32 (8 + glyph_padding))) ;;
     x ← term render_x; w ← term fb_width; gw ← term glyph_width; if x >? w -64 gw then _move_to_next_line else mret tt)
     (shown t m s0) = Ret tt (shown t' m' s0) /\ terminal_ok t' m' /\ (c = ch_newline -> input_render_x t' = 18) /\
     same_paper t' t /\ forall y, at_tty t m y -> at_tty t' m' (tty_char width (bgcolor t) (cursor_visible t) y c)).
  { destruct Hstep as (t' & m' & E & Ht' & Hx'). exists t', m'. rewrite (bind_ret_eq _ _ _ _ _ E). split; [|done].
    assert (Hd' : m' !! (ch + 1) = Some d) by (rewrite (proj1 (tm_undrawn _ _ Ht')); done).
    rewrite (bind_ret_eq _ _ _ _ _ (load_byte (ch + 1) d (shown t' m' s0) (Hd' : smem (shown t' m' s0) !! (ch + 1) = Some d)
      ltac:(unfold is_u8 in Hd8; lia))). done. }
  unfold tty_char. destruct (Z.eqb_spec c ch_newline) as [_|Hnl].
  { destruct (move_to_next_line_kept t m) as (t' & m' & E & Ht' & Hx' & (Ex & Ef & Ep) & Hrs).
    - split; [done|done|]. rewrite <- (set_same_render (set_render_x 0 t)). apply (cursor_at t); (done || cbn; lia).
    - exists t', m'. do 3 (split; [done|]). split; [exact Ep|]. intros y Hy'. by apply (newline_tty t m). }
  destruct (put_kept t m c Ht Hc) as (m1 & E & Hm1 & Hput).
  do 2 (erewrite bind_ret_eq; [|reflexivity]). cbn [k_term shown set_k_term].
  rewrite (bind_ret_eq _ _ _ _ _ E). do 4 (erewrite bind_ret_eq; [|reflexivity]).
  cbn [k_term shown set_k_term set_render_x render_x fb_width glyph_width].
  rewrite E2, E7. fold width. rewrite (di_gw _ Hdi). unfold glyph_padding. change (8 + 1) with 9.
  rewrite u32_small, u64_small by lia. set (t1 := set_render_x (render_x t + 9) t) in *.
  assert (Ecol : forall y, at_tty t m y ->
    (9 * Z.of_nat (column (tty_put (bgcolor t) c y)) >? width - 9) = (render_x t + 9 >? width - 9)).
  { intros y Hy'. by rewrite <- (tt_column _ _ _ (Hput y Hy')). }
  destruct (Z.gtb_spec (render_x t + 9) (width - 9)) as [Hgt|Hle].
  - destruct (move_to_next_line_kept t1 m1) as (t' & m' & E' & Ht' & _ & (Ex & Ef & Ep) & Hrs).
    + split; [done|done|]. rewrite <- (set_same_render (set_render_x 0 t1)). apply (cursor_at t); (done || cbn; lia).
    + exists t', m'. do 3 (split; [done|]). split; [exact Ep|]. intros y Hy'. rewrite (Ecol y Hy').
      by apply (newline_tty t1 m1); [apply Hput|..].
  - exists t1, m1. split; [reflexivity|]. split; [|do 2 (split; [done|])].
    + split; [done|done|]. rewrite <- (set_same_render t1). apply (cursor_at t); (done || cbn; lia).
    + intros y Hy'. rewrite (Ecol y Hy'). by apply Hput.
Qed.

Lemma print_loop_kept l : forall c t m p fuel,
  terminal_ok t m -> cstr (smem s0) p (c :: l) -> Forall (fun c => c < 128) (c :: l) ->
  (forall i, 0 <= i <= Z.of_nat (S (length l)) -> ~ drawn_to s0 (p + i)) -> (length l < fuel)%nat ->
  exists t' m', loop fuel print_iter p (shown t m s0) = Ret tt (shown t' m' s0) /\ terminal_ok t' m' /\
    (last (c :: l) = Some ch_newline -> input_render_x t' = 18) /\ same_paper t' t /\
    forall y, at_tty t m y -> at_tty t' m' (foldl (tty_char width (bgcolor t) (cursor_visible t)) y (c :: l)).
Proof.
  induction l as [|d l IH]; intros c t m p [|fuel] Ht Hc Ha Hout Hf; cbn [length] in *; try lia.
  - destruct (cstr_cons _ _ _ _ Hc) as (Hp & Hc0 & Hrest). apply Forall_cons in Ha as [Hc1 _].
    rewrite loop_S. destruct (print_iter_kept t m p c 0 Ht ltac:(lia)) as (t' & m' & E & Ht' & Hx' & Hp' & Hy').
    + rewrite (proj1 (tm_undrawn _ _ Ht)); [done|]. specialize (Hout 0). rewrite Z.add_0_r in Hout. apply Hout. lia.
    + by apply cstr_nil.
    + done.
    + apply Hout. lia.
    + rewrite (bind_ret_eq _ _ _ _ _ E). exists t', m'. split; [done|]. split; [done|].
      split; [intros [= Hnl]; by apply Hx'|]. by split.
  - destruct (cstr_cons _ _ _ _ Hc) as (Hp & Hc0 & Hrest). apply Forall_cons in Ha as [Hc1 Ha].
    destruct (cstr_cons _ _ _ _ Hrest) as (Hp' & Hd0 & _).
    rewrite loop_S. destruct (print_iter_kept t m p c d Ht ltac:(lia)) as (t' & m' & E & Ht' & _ & [Ebg Ev] & Hy').
    + rewrite (proj1 (tm_undrawn _ _ Ht)); [done|]. specialize (Hout 0). rewrite Z.add_0_r in Hout. apply Hout. lia.
    + done.
    + unfold is_u8. lia.
    + apply Hout. lia.
    + rewrite (bind_ret_eq _ _ _ _ _ E). rewrite (proj2 (Z.eqb_neq d ch_nul)) by (unfold ch_nul; lia).
      change (last (c :: d :: l)) with (last (d :: l)).
      destruct (IH d t' m' (p + 1) fuel Ht' Hrest Ha) as (t2 & m2 & E2 & Ht2 & Hx2 & [Ebg2 Ev2] & Hy2); [|lia|].
      * intros i Hi. rewrite <- Z.add_assoc. apply Hout. lia.
      * exists t2, m2. split; [exact E2|]. split; [done|]. split; [done|]. split; [split; congruence|].
        rewrite Ebg, Ev in Hy2. intros y Hy0. change (foldl ?f y (c :: d :: l)) with (foldl f (f y c) (d :: l)).
        by apply Hy2, Hy'.
Qed.

(** The display is as good as before. *)
Lemma shown_display t m : same_screen t (k_term s0) -> undrawn m -> display_ok (shown t m s0).
Proof.
  intros Hs Hm. pose proof (shown_rows t m Hs Hm) as Er. pose proof Hs as (E1 & E2 & E3 & E4 & E5 & E6 & E7 & E8 & E9).
  destruct Hdi as [H1 H2 H3 H4 H5 H6 H7 H8].
  split; [by apply shown_screen|by apply shown_roomy|by apply shown_font|..]; rewrite ?Er; unfold drawn_to;
    cbn [k_term shown set_k_term]; rewrite ?E1, ?E2, ?E3, ?E4, ?E5, ?E6, ?E7, ?E8; done.
Qed.
End print.

(** What a kernel's screen shows. *)
Definition shows (s : kernel) (y : tty) : Prop := at_tty s (k_term s) (smem s) y.

Lemma shown_self s : shown (k_term s) (smem s) s = s.
Proof. unfold shown. rewrite set_mem_smem. by destruct s. Qed.
Lemma same_screen_refl t : same_screen t t.
Proof. by split_and!. Qed.
Lemma undrawn_refl s : undrawn s (smem s).
Proof. by split. Qed.

(** The display does not depend on memory that is neither its own nor the
    font's. *)
Definition off_display (s : kernel) (a : Z) : Prop :=
  ~ drawn_to s a /\ ~ (font_header (k_term s) <= a < font_header (k_term s) + 4) /\
  ~ (glyph_data (k_term s) <= a <
     glyph_data (k_term s) + 128 * rd 1 (font_header (k_term s) + off_char_height) (smem s)).

Lemma display_frame s s' :
  display_ok s -> same_screen (k_term s') (k_term s) ->
  (forall a, font_header (k_term s) <= a < font_header (k_term s) + 4 -> smem s' !! a = smem s !! a) ->
  (forall a, is_Some (smem s !! a) -> is_Some (smem s' !! a)) -> display_ok s'.
Proof.
  intros Hdi (E1 & E2 & E3 & E4 & E5 & E6 & E7 & E8 & _) F M.
  assert (Er : rd 1 (font_header (k_term s) + off_char_height) (smem s') =
    rd 1 (font_header (k_term s) + off_char_height) (smem s)).
  { apply rd_ext. intros x Hx. unfold byte_at. unfold off_char_height in Hx. rewrite F; [done|lia]. }
  destruct Hdi as [[S1 S2 S3 S4 S5] H2 [F1 F2 F3] H4 H5 H6 H7 H8].
  split; [split| |split|..]; unfold roomy, drawn_to, in_fb;
    rewrite ?E1, ?E2, ?E3, ?E4, ?E5, ?E6, ?E7, ?E8, ?Er; try done;
    intros x Hx; apply M; [by apply S5|by apply H2|by apply F1|by apply F2].
Qed.

(** What is shown depends on the screen's memory and the font only. *)
Lemma at_tty_frame s s' t m m' y :
  display_ok s -> same_screen (k_term s') (k_term s) ->
  (forall a, drawn_to s a -> m' !! a = m !! a) ->
  (forall a, font_header (k_term s) <= a < font_header (k_term s) + 4 \/
     glyph_data (k_term s) <= a < glyph_data (k_term s) +
       128 * rd 1 (font_header (k_term s) + off_char_height) (smem s) -> smem s' !! a = smem s !! a) ->
  0 <= render_y t -> render_y t + glyph_height (k_term s) <= fb_height (k_term s) ->
  at_tty s t m y -> at_tty s' t m' y.
Proof.
  intros Hdi (E1 & E2 & E3 & E4 & E5 & E6 & E7 & E8 & _) Hm Hf Hy Hyh [Hc Hi Hr Hne Hl Ha].
  destruct (sizes s Hdi) as (Hw & Hg & Hh & Hst & Hrows).
  assert (Eh : rd 1 (font_header (k_term s') + off_char_height) (smem s') =
    rd 1 (font_header (k_term s) + off_char_height) (smem s)).
  { rewrite E5. apply rd_ext. intros x Hx. unfold byte_at. rewrite Hf; [done|]. left. unfold off_char_height in Hx. lia. }
  split; try done. apply (rows_at_font s s'); try done.
  - intros c i b Hc' Hi'. unfold glyph_bit. rewrite Eh, E6. f_equal. apply rd_ext. intros x Hx. unfold byte_at. rewrite Hf; [done|].
    right. change (Z.of_nat 1) with 1 in Hx. nia.
  - apply (rows_at_same s m); [lia|done| |done]. intros px py Hp _. unfold pixel. apply rd_ext. intros x Hx. unfold byte_at.
    rewrite Hm; [done|]. pose proof (on_screen_index s px py Hp). unfold drawn_to, pixel_addr in *.
    change (Z.of_nat 4) with 4 in Hx. lia.
Qed.

Lemma at_tty_shown s t m y : display_ok s -> terminal_ok s t m -> at_tty s t m y -> shows (shown t m s) y.
Proof.
  intros Hdi [Hs Hm Hcu] Hy. destruct (cu_render _ Hcu) as [(_ & Hy0 & Hle) _].
  pose proof Hs as (_ & _ & E3 & _ & _ & _ & _ & E8 & _).
  apply (at_tty_frame s (shown t m s) t m m); try done; [|by rewrite <- E3, <- E8].
  intros a Ha. apply (proj1 Hm). intros Hd. destruct (di_apart _ Hdi a Hd). tauto.
Qed.

(** tprintf of a text that fits its buffer. *)
Lemma tprintf_ok `{!Image} format fmt args slots txt s :
  let b := tprintf_buffer in
  display_ok s -> cursor_ok (k_term s) -> is_ready (k_term s) = true ->
  0 <= b /\ b + 256 < 2 ^ 64 -> region b 256 (smem s) ->
  (forall a, b <= a < b + 256 -> off_display s a) ->
  in_string b 256 (smem s) format fmt -> Forall2 (va_ok b 256 (smem s)) args slots ->
  render fmt args = Some txt -> (0 < length txt < 256)%nat -> Forall (fun c => 0 < c < 128) txt ->
  exists t' m', tprintf format slots s = Ret tt (shown t' m' s) /\
    display_ok (shown t' m' s) /\ cursor_ok t' /\ same_screen t' (k_term s) /\
    (forall a, ~ drawn_to s a -> ~ (b <= a < b + 256) -> m' !! a = smem s !! a) /\
    (forall a, is_Some (smem s !! a) -> is_Some (m' !! a)) /\
    (last txt = Some ch_newline -> input_render_x t' = 18) /\ same_paper t' (k_term s) /\
    forall y, shows s y -> shows (shown t' m' s)
      (tty_print (fb_width (k_term s)) (bgcolor (k_term s)) (cursor_visible (k_term s)) txt y).
Proof.
  intros b Hdi Hcu Hready Hb Hr Hoff Hs Hva Hrender Hl Hc.
  destruct (vsnprintf_ok b 256 (smem s) Hb ltac:(lia) Hr format fmt args slots txt s eq_refl Hs Hrender Hva
    ltac:(lia)) as (m1 & E & Hh).
  set (s1 := set_mem m1 s) in *.
  assert (Hstr : cstr m1 b txt).
  { apply cstr_text_cstr; [eapply Forall_impl; [exact Hc|intros c Hcc; cbn in *; lia]|].
    intros i c Hi. by apply (ho_prefix _ _ _ _ _ Hh). }
  assert (Hmap : forall a, is_Some (smem s !! a) -> is_Some (m1 !! a)).
  { intros a Ha. destruct (decide (b <= a < b + 256)); [by apply (ho_region _ _ _ _ _ Hh)|].
    by rewrite (ho_outside _ _ _ _ _ Hh). }
  assert (Hdi1 : display_ok s1).
  { apply (display_frame s s1); [done|apply same_screen_refl| |done].
    intros a Ha. apply (ho_outside _ _ _ _ _ Hh). intros Hin. by destruct (Hoff a Hin) as (_ & Hf & _). }
  assert (Hok1 : terminal_ok s1 (k_term s1) m1) by (split; [apply same_screen_refl|apply (undrawn_refl s1)|done]).
  destruct (clear_line_kept s1 Hdi1 (k_term s1) m1 Hok1) as (m2 & Eb & Hm2 & Hy2).
  rewrite (shown_self s1 : shown (k_term s1) m1 s1 = s1) in Eb.
  destruct txt as [|c txt]; [cbn in Hl; lia|].
  assert (Hout : forall i, 0 <= i <= Z.of_nat (S (length txt)) -> ~ drawn_to s1 (b + i)).
  { intros i Hi. apply (Hoff (b + i)). cbn [length] in Hl. lia. }
  assert (Hstr2 : cstr m2 b (c :: txt)).
  { destruct Hstr as [H1 H2]. split.
    - intros i d Hi. pose proof (lookup_lt_Some _ _ _ Hi) as Hlt. cbn [length] in Hlt.
      destruct (H1 i d Hi) as [Hd Hd0]. rewrite (proj1 Hm2) by (apply Hout; lia). done.
    - rewrite (proj1 Hm2) by (apply Hout; cbn [length]; lia). done. }
  destruct (print_loop_kept s1 Hdi1 txt c (k_term s) m2 b (mem_fuel (shown (k_term s) m2 s1))) as (t' & m' & Ep & Ht' & Hnl & Hpa & Hshow).
  - split; [apply same_screen_refl|done|done].
  - exact Hstr.
  - eapply Forall_impl; [exact Hc|]. intros d Hd. cbn in *. lia.
  - exact Hout.
  - pose proof (cstr_fuel _ _ _ Hstr2) as Hf. cbn [length] in Hf. unfold mem_fuel.
    change (smem (shown (k_term s) m2 s1)) with m2. lia.
  - destruct Ht' as [Hs' Hm' Hcu'].
    assert (Esh : forall t m, shown t m s1 = shown t m s).
    { intros t m. unfold shown, s1. by rewrite set_mem_set_mem. }
    exists t', m'. rewrite <- Esh. split_and!; [|by apply shown_display|done|done| | |done|exact Hpa|].
    + unfold tprintf. erewrite bind_ret_eq; [|reflexivity]. rewrite Hready. cbn [negb].
      rewrite (bind_ret_eq _ _ _ _ _ E). erewrite bind_ret_eq; [|reflexivity].
      change (k_term s1) with (k_term s). rewrite (bind_ret_eq _ _ _ _ _ Eb).
      unfold print_buffer. erewrite bind_ret_eq; [|reflexivity]. exact Ep.
    + intros a Ha Hab. rewrite (proj1 Hm') by exact Ha. by apply (ho_outside _ _ _ _ _ Hh).
    + intros a Ha. by apply (proj2 Hm'), Hmap.
    + intros y Hy. destruct (cu_render _ Hcu) as [(_ & Hy0 & Hy1) _].
      apply (at_tty_shown s1); [done|by split|].
      apply Hshow, Hy2. apply (at_tty_frame s s1 (k_term s) (smem s) m1); try done.
      * intros a Ha. apply (ho_outside _ _ _ _ _ Hh). intros Hin. by destruct (Hoff a Hin) as (Hn & _).
      * intros a Ha. apply (ho_outside _ _ _ _ _ Hh). intros Hin. destruct (Hoff a Hin) as (_ & Hn1 & Hn2). tauto.
Qed.

(** C10: printing never leaves the screen. On a display of the geometry
    term_init sets up, with the cursor on the screen, tprintf of any message of
    1 to 255 ASCII characters terminates, however many lines it breaks into or
    scrolls by: the geometry, the position of the next character, of the input
    line and of the cursor satisfy the same invariant afterwards, and no memory
    was written but the local buffer, the frame buffer and the one row of
    pixels behind it. *)
Theorem tprintf_stays_on_screen `{!Image} format fmt args slots txt s :
  let b := tprintf_buffer in
  display_ok s -> cursor_ok (k_term s) -> is_ready (k_term s) = true ->
  0 <= b /\ b + 256 < 2 ^ 64 -> region b 256 (smem s) ->
  (forall a, b <= a < b + 256 -> off_display s a) ->
  in_string b 256 (smem s) format fmt -> Forall2 (va_ok b 256 (smem s)) args slots ->
  render fmt args = Some txt -> (0 < length txt < 256)%nat -> Forall (fun c => 0 < c < 128) txt ->
  exists t' m', tprintf format slots s = Ret tt (shown t' m' s) /\
    display_ok (shown t' m' s) /\ cursor_ok t' /\ same_screen t' (k_term s) /\
    (forall a, ~ drawn_to s a -> ~ (b <= a < b + 256) -> m' !! a = smem s !! a).
Proof.
  intros. destruct (tprintf_ok format fmt args slots txt s) as (t' & m' & E & ? & ? & ? & ? & _); [done..|].
  by exists t', m'.
Qed.

(** A screen of 27 by 4 pixels at 4096, a font of one-row glyphs at 512, the
    buffer at 8000 and a format at 9000. The message wraps and scrolls. *)
Definition print_mem : memory :=
  poke 9000 (chars "ab%d" ++ [10; 0]) (wr 1 515 1 (zeros 512 132 ∪ (zeros 4096 540 ∪ zeros 8000 256))).
Definition print_kernel_at (m : memory) : kernel :=
  set_k_term (TermGlobals 4096 27 4 108 32 512 516 1 3 9 2 true 0xCCCCCC 0 0 0 18 0 18 0 0 0 true)
    (kernel_at m (2 ^ 47) 0 40).
#[local] Instance buffer_at_8000 : Image := {| literal _ := 0; tprintf_buffer := 8000 |}.

Lemma print_mem_regions : region 512 132 print_mem /\ region 4096 540 print_mem /\ region 8000 256 print_mem.
Proof. unfold print_mem. split_and!; apply poke_region, region_wr; auto 10 with memory. Qed.

Lemma print_display m :
  region 512 132 m -> region 4096 540 m -> rd 1 515 m = 1 -> display_ok (print_kernel_at m).
Proof.
  intros Hf Hs E. assert (E' : rd 1 (512 + off_char_height) m = 1) by exact E.
  split; [split| |split|..]; unfold drawn_to, print_kernel_at, roomy;
    cbn [k_term set_k_term fb_address fb_width fb_height fb_pitch font_header glyph_data glyph_width glyph_height];
    change (108 `div` 4) with 27; try change (smem (set_k_term _ (kernel_at m _ _ _))) with m;
    rewrite ?E'; unfold glyph_padding; try lia; try done.
  - apply (region_sub _ _ _ _ _ Hs); lia.
  - apply (region_sub _ _ _ _ _ Hf); lia.
  - apply (region_sub _ _ _ _ _ Hf); lia.
  - intros a Ha. unfold in_fb in Ha. cbn in Ha. lia.
Qed.

Lemma tprintf_stays_on_screen_witness :
  exists t' m', tprintf 9000 [2 ^ 32 - 5] (print_kernel_at print_mem) =
      Ret tt (shown t' m' (print_kernel_at print_mem)) /\ cursor_ok t'.
Proof.
  destruct print_mem_regions as (R1 & R2 & R3).
  assert (E : rd 1 515 print_mem = 1) by (vm_compute; reflexivity).
  assert (Hc : cstr print_mem 9000 (chars "ab%d" ++ [10])) by (apply cstrb_sound; vm_compute; reflexivity).
  revert R1 R2 R3 E Hc. generalize print_mem. intros m R1 R2 R3 E Hc.
  destruct (tprintf_stays_on_screen 9000 (chars "ab%d" ++ [10]) [VNum (2 ^ 32 - 5)] [2 ^ 32 - 5]
    (chars "ab-5" ++ [10]) (print_kernel_at m) (print_display m R1 R2 E)) as (t' & m' & Et & _ & Hcu & _).
  - split; unfold line_ok, is_u32; cbn; lia.
  - reflexivity.
  - cbn. lia.
  - exact R3.
  - intros a Ha. unfold off_display, drawn_to.
    change (rd 1 (font_header (k_term (print_kernel_at m)) + off_char_height) (smem (print_kernel_at m))) with (rd 1 515 m).
    rewrite E. cbn in Ha |- *. change (108 `div` 4) with 27. lia.
  - split; [exact Hc|]. right. cbn. lia.
  - repeat constructor.
  - vm_compute. reflexivity.
  - cbn. lia.
  - repeat constructor.
  - exists t', m'. split; [exact Et|exact Hcu].
Defined.
