(* ===== verification/TermText.v ===== *)
(** * terminal.c: what printing shows on the screen *)
From S2P Require Import Prelude Machine MemLib Pmm Slob Str StrFormat StrProps Kstate VmProps.
From S2P Require Import Terminal TermProps TermRows TermScroll TermPrint.

(** C9: printing is a teletype. Whatever rows of text the screen shows, after
    tprintf of a message of 1 to 255 ASCII characters it shows, pixel for pixel
    in every row that still fits on the screen, what the abstract teletype shows
    after that message: the first character of a line clears it, each character
    is drawn in the current colours behind the last, a newline and the right
    margin start a row with the prompt and the cursor and move the others up,
    the top ones off the screen. The same printing can go on from there. As in
    the code, a row that a message breaks into is not cleared of the prompt
    first: the bar of a visible cursor stays in it for good. *)
Theorem tprintf_is_a_teletype `{!Image} format fmt args slots txt s y :
  let b := tprintf_buffer in
  display_ok s -> cursor_ok (k_term s) -> is_ready (k_term s) = true ->
  0 <= b /\ b + 256 < 2 ^ 64 -> region b 256 (smem s) ->
  (forall a, b <= a < b + 256 -> off_display s a) ->
  in_string b 256 (smem s) format fmt -> Forall2 (va_ok b 256 (smem s)) args slots ->
  render fmt args = Some txt -> (0 < length txt < 256)%nat -> Forall (fun c => 0 < c < 128) txt ->
  shows s y ->
  exists t' m', tprintf format slots s = Ret tt (shown t' m' s) /\
    shows (shown t' m' s) (tty_print (fb_width (k_term s)) (bgcolor (k_term s)) (cursor_visible (k_term s)) txt y) /\
    display_ok (shown t' m' s) /\ cursor_ok t' /\ same_paper t' (k_term s).
Proof.
  intros b Hd Hc Hr Hb Hreg Hoff Hs Hva Hren Hl Hch Hy.
  destruct (tprintf_ok format fmt args slots txt s Hd Hc Hr Hb Hreg Hoff Hs Hva Hren Hl Hch)
    as (t' & m' & E & Hd' & Hc' & _ & _ & _ & _ & Hp & Hsh).
  exists t', m'. split_and!; try done. by apply Hsh.
Qed.

#[local] Existing Instance buffer_at_8000.

(** The screen has three columns: "ab-5" and a newline, printed on a row with
    unknown contents. *)
Definition shown_row (txt : string) : list cell := (fun c => Cell c 0xCCCCCC 0) <$> chars txt.
Lemma tprintf_is_a_teletype_witness :
  exists t' m', tprintf 9000 [2 ^ 32 - 5] (print_kernel_at print_mem) =
      Ret tt (shown t' m' (print_kernel_at print_mem)) /\
    shows (shown t' m' (print_kernel_at print_mem)) (Tty 0 0xCCCCCC
      [Some (prompt_row 0 true); Some (Row (shown_row "5" ++ [Cell 32 0x44AAFF 0]) true);
       Some (Row (shown_row "ab-") false)]).
Proof.
  destruct print_mem_regions as (R1 & R2 & R3).
  assert (E : rd 1 515 print_mem = 1) by (vm_compute; reflexivity).
  assert (Hc : cstr print_mem 9000 (chars "ab%d" ++ [10])) by (apply cstrb_sound; vm_compute; reflexivity).
  revert R1 R2 R3 E Hc. generalize print_mem. intros m R1 R2 R3 E Hc.
  destruct (tprintf_is_a_teletype 9000 (chars "ab%d" ++ [10]) [VNum (2 ^ 32 - 5)] [2 ^ 32 - 5]
    (chars "ab-5" ++ [10]) (print_kernel_at m) (Tty 0 0xCCCCCC [None]) (print_display m R1 R2 E))
    as (t' & m' & Et & Hsh & _).
  - split; unfold line_ok, is_u32; cbn; lia.
  - reflexivity.
  - cbn. lia.
  - exact R3.
  - intros a Ha. unfold off_display, drawn_to.
    change (rd 1 (font_header (k_term (print_kernel_at m)) + off_char_height) (smem (print_kernel_at m))) with (rd 1 515 m).
    rewrite E. cbn in Ha |- *. change (108 `div` 4) with 27. lia.
  - split; [exact Hc|]. right. cbn. lia.
  - repeat constructor.
  - vm_compute. reflexivity.
  - cbn. lia.
  - repeat constructor.
  - split; try done.
    + intros [|[|k]] r Hk; done.
    + intros r Hr%elem_of_cons. destruct Hr as [|Hr%not_elem_of_nil]; done.
  - exists t', m'. split; [exact Et|exact Hsh].
Defined.
