(* ===== verification/TermInput.v ===== *)
(** * terminal.c: the input line as a line editor *)
From S2P Require Import Prelude Machine MemLib Pmm Slob Str StrProofs StrFormat StrProps Kstate VmProps Desc Ps2 Terminal TermProps TermRows TermScroll TermPrint.

(** ** Strings that grow and shrink at their end *)

Lemma cstr_snoc m p l c :
  cstr m p l -> 0 < c < 256 ->
  cstr (wr 1 (p + Z.of_nat (length l) + 1) ch_nul (wr 1 (p + Z.of_nat (length l)) c m)) p (l ++ [c]).
Proof.
  intros [Hl H0] Hc. rewrite !wr_1. unfold ch_nul. rewrite (Z.mod_small c) by lia. split.
  - intros i d [Hi|[Hi Hd]]%lookup_app_Some.
    + pose proof (lookup_lt_Some _ _ _ Hi). rewrite !lookup_insert_ne by lia. by apply Hl.
    + apply list_lookup_singleton_Some in Hd as [Hi0 <-].
      replace (Z.of_nat i) with (Z.of_nat (length l)) by lia.
      rewrite lookup_insert_ne, lookup_insert_eq by lia. done.
  - rewrite length_app, Nat2Z.inj_add, Z.add_assoc. by rewrite lookup_insert_eq.
Qed.

Lemma cstr_cut m p l c : cstr m p (l ++ [c]) -> cstr (wr 1 (p + Z.of_nat (length l)) ch_nul m) p l.
Proof.
  intros [Hl _]. rewrite wr_1. unfold ch_nul. split; [|by rewrite lookup_insert_eq].
  intros i d Hi. pose proof (lookup_lt_Some _ _ _ Hi). rewrite lookup_insert_ne by lia.
  apply Hl. by apply lookup_app_l_Some.
Qed.

Lemma cstr_same m m' p l :
  (forall x, p <= x <= p + Z.of_nat (length l) -> m' !! x = m !! x) -> cstr m p l -> cstr m' p l.
Proof.
  intros E [Hl H0]. split; [|rewrite E by lia; done]. intros i c Hi.
  pose proof (lookup_lt_Some _ _ _ Hi). rewrite E by lia. by apply Hl.
Qed.

(** ** The invariant of the input line *)

Definition input_buffer_len : Z := 256.
(** The string literals of _handle_cmd and of the Enter key. *)
Definition console_literals : list string :=
  ["# "; nl; "hello"; "cls"; "time"; "stime"; "World!" +:+ nl; "Kerner Time: %lums" +:+ nl;
   "Kerner Time: %lus" +:+ nl; "Unknown command." +:+ nl]%string.

(** What the console may write: the frame buffer with the row behind it,
    input_str, and the local buffer of tprintf. *)
Definition console_area `{Image} (s : kernel) (a : Z) : Prop :=
  drawn_to s a \/ input_str (k_term s) <= a < input_str (k_term s) + input_buffer_len \/
  tprintf_buffer <= a < tprintf_buffer + 256.

(** [input_at s l]: the terminal is well formed and the line typed so far is
    [l]: its text is in input_str, and the next key goes behind it. The two
    buffers are apart from each other, the display and the literals. *)
Record input_at `{Image} (s : kernel) (l : list Z) : Prop := {
  in_display : display_ok s;
  in_cursor : cursor_ok (k_term s);
  in_ready : is_ready (k_term s) = true;
  in_small : 0 < input_str (k_term s) /\ input_str (k_term s) + input_buffer_len < 2 ^ 64;
  in_mapped : region (input_str (k_term s)) input_buffer_len (smem s);
  in_apart : forall a, input_str (k_term s) <= a < input_str (k_term s) + input_buffer_len -> off_display s a;
  in_local_small : 0 <= tprintf_buffer /\ tprintf_buffer + 256 < 2 ^ 64;
  in_local : region tprintf_buffer 256 (smem s);
  in_local_apart : forall a, tprintf_buffer <= a < tprintf_buffer + 256 ->
    off_display s a /\ ~ (input_str (k_term s) <= a < input_str (k_term s) + input_buffer_len);
  in_literals : Forall (fun x => cstr (smem s) (literal x) (chars x) /\
    forall i, 0 <= i <= Z.of_nat (length (chars x)) -> ~ console_area s (literal x + i)) console_literals;
  in_time : is_u64 (kernel_timer_secs (k_desc s));
  in_text : cstr (smem s) (input_str (k_term s)) l;
  in_len : Z.of_nat (length l) < input_buffer_len;
  in_x : input_render_x (k_term s) = 18 + 9 * Z.of_nat (length l)
}.

(** What the console may change: the terminal's positions and colours, and
    memory in its area. *)
Record edited `{Image} (s s' : kernel) : Prop := {
  ed_eq : exists t m, s' = shown t m s;
  ed_term : same_screen (k_term s') (k_term s);
  ed_frame : forall a, ~ console_area s a -> smem s' !! a = smem s !! a;
  ed_mapped : forall a, is_Some (smem s !! a) -> is_Some (smem s' !! a)
}.

Lemma console_area_same `{Image} s s' a : same_screen (k_term s') (k_term s) -> console_area s' a <-> console_area s a.
Proof. intros (E1 & E2 & E3 & E4 & _ & _ & _ & _ & E9 & _). unfold console_area, drawn_to. by rewrite E1, E2, E3, E4, E9. Qed.

Lemma edited_refl `{Image} s : edited s s.
Proof. split; [exists (k_term s), (smem s); symmetry; apply shown_self|by split_and!|done|done]. Qed.
Lemma edited_trans `{Image} s1 s2 s3 : edited s1 s2 -> edited s2 s3 -> edited s1 s3.
Proof.
  intros [(t & m & ->) T F M] [(t' & m' & ->) T' F' M']. split.
  - by exists t', m'.
  - destruct T as (E1 & E2 & E3 & E4 & E5 & E6 & E7 & E8 & E9 & E10).
    destruct T' as (G1 & G2 & G3 & G4 & G5 & G6 & G7 & G8 & G9 & G10).
    change (k_term (shown t m s1)) with t in *. change (k_term (shown t' m' (shown t m s1))) with t' in *.
    unfold same_screen. split_and!; congruence.
  - intros a Ha. rewrite F', F; [done|done|]. by rewrite (console_area_same s1 (shown t m s1)).
  - auto.
Qed.

(** ** Drawing from the current state *)

Section now.
Context `{Image} (s : kernel) (Hdi : display_ok s).

Lemma edited_undrawn t m : same_screen t (k_term s) -> undrawn s m -> edited s (shown t m s).
Proof. intros Ht [F M]. split; [by exists t, m|done|intros a Ha; apply F; intros Hd; apply Ha; by left|exact M]. Qed.

Lemma glyph_now c x y :
  cursor_ok (k_term s) -> 0 <= c < 128 -> 0 <= x -> x + 8 < fb_width (k_term s) ->
  0 <= y -> y + glyph_height (k_term s) <= fb_height (k_term s) ->
  exists m, _render_glyph c x y s = Ret tt (set_mem m s) /\ undrawn s m.
Proof.
  intros Hcu Hc Hx Hxw Hy Hyh. destruct (cu_colors _ Hcu) as [Hfg Hbg].
  destruct (render_glyph_kept s Hdi (k_term s) (smem s) (same_screen_refl _) (undrawn_refl s) c x y Hfg Hbg Hc Hx Hxw Hy Hyh)
    as (m & E & Hm & _). rewrite shown_self in E. by exists m.
Qed.

Lemma clear_cursor_now : cursor_ok (k_term s) ->
  exists m, _clear_cursor s = Ret tt (set_mem m s) /\ undrawn s m.
Proof.
  intros Hcu. unfold _clear_cursor. erewrite bind_ret_eq; [|reflexivity].
  match goal with |- context [for_range 0 _ ?f] => set (pixel := f) end.
  destruct (column_kept s Hdi (k_term s) (smem s) pixel (cursor_x (k_term s)) (cursor_y (k_term s)) (bgcolor (k_term s))
    (same_screen_refl _) (undrawn_refl s) (cu_cursor _ Hcu)) as (m & E & Hm & _); [reflexivity|].
  rewrite shown_self in E. by exists m.
Qed.

Lemma render_cursor_now : line_ok (k_term s) (input_render_x (k_term s)) (input_render_y (k_term s)) ->
  exists m, _render_cursor s = Ret tt (shown (cursor_moved (k_term s)) m s) /\ undrawn s m.
Proof.
  intros Hl. destruct (render_cursor_kept s Hdi (k_term s) (smem s) (same_screen_refl _) (undrawn_refl s) Hl)
    as (m & E & Hm & _). rewrite shown_self in E. eauto.
Qed.
End now.

Lemma cursor_moved_same t : same_screen (cursor_moved t) t.
Proof. unfold cursor_moved. destruct (cursor_visible t); by split_and!. Qed.
Lemma cursor_moved_ok t : cursor_ok t -> cursor_ok (cursor_moved t).
Proof. intros [H1 H2 H3 H4]. unfold cursor_moved. destruct (cursor_visible t); split; done. Qed.
Lemma cursor_moved_input t : input_render_x (cursor_moved t) = input_render_x t.
Proof. unfold cursor_moved. by destruct (cursor_visible t). Qed.

(** ** Editing keeps the terminal well formed *)

Section input.
Context `{Image} (s : kernel) (l : list Z) (Hin : input_at s l).
Let buf := input_str (k_term s).

Lemma edited_header s' : edited s s' ->
  forall a, font_header (k_term s) <= a < font_header (k_term s) + 4 -> smem s' !! a = smem s !! a.
Proof.
  intros [_ _ F _] a Ha. apply F. intros [Hd|[Hb|Hb]].
  - by destruct (di_apart _ (in_display _ _ Hin) a Hd) as [Hn _].
  - by destruct (in_apart _ _ Hin a Hb) as (_ & Hn & _).
  - by destruct (in_local_apart _ _ Hin a Hb) as ((_ & Hn & _) & _).
Qed.

Lemma edited_display s' : edited s s' -> display_ok s'.
Proof.
  intros E. pose proof (edited_header s' E) as Fh. destruct E as [_ T _ M].
  by apply (display_frame s); [apply (in_display _ _ Hin)|..].
Qed.

Lemma edited_off s' : edited s s' -> forall a, off_display s a -> off_display s' a.
Proof.
  intros E a Hap. pose proof (edited_header s' E) as Fh. destruct E as [(t & m & ->) T _ M].
  change (smem (shown t m s)) with m in Fh. change (k_term (shown t m s)) with t in T.
  assert (Er : rd 1 (font_header (k_term s) + off_char_height) m = rd 1 (font_header (k_term s) + off_char_height) (smem s)).
  { apply rd_ext. intros x Hx0. unfold byte_at. unfold off_char_height in Hx0. rewrite Fh; [done|lia]. }
  destruct T as (E1 & E2 & E3 & E4 & E5 & E6 & _).
  unfold off_display, drawn_to in *. change (k_term (shown t m s)) with t. change (smem (shown t m s)) with m.
  rewrite E1, E2, E3, E4, E5, E6, Er. exact Hap.
Qed.

Lemma edited_apart s' : edited s s' -> forall a, buf <= a < buf + input_buffer_len -> off_display s' a.
Proof. intros E a Ha. apply edited_off; [done|]. by apply (in_apart _ _ Hin). Qed.
Lemma edited_buf s' : edited s s' -> input_str (k_term s') = buf.
Proof. intros [_ T _ _]. apply T. Qed.
Lemma edited_literals s' x : edited s s' -> x ∈ console_literals ->
  cstr (smem s') (literal x) (chars x) /\
  forall i, 0 <= i <= Z.of_nat (length (chars x)) -> ~ console_area s' (literal x + i).
Proof.
  intros E Hx. pose proof (in_literals _ _ Hin) as Hall. rewrite Forall_forall in Hall.
  destruct (Hall x Hx) as [Hc Ha]. split.
  - apply (cstr_same (smem s)); [|done]. intros a Hi. apply (ed_frame _ _ E).
    replace a with (literal x + (a - literal x)) by lia. apply Ha. lia.
  - intros i Hi. rewrite (console_area_same s s') by apply E. by apply Ha.
Qed.

(** Where the invariant is kept: the cursor on the screen, and the new text in
    the buffer. *)
Lemma input_at_step s' l' :
  edited s s' -> cursor_ok (k_term s') -> cstr (smem s') buf l' -> Z.of_nat (length l') < input_buffer_len ->
  input_render_x (k_term s') = 18 + 9 * Z.of_nat (length l') -> input_at s' l'.
Proof.
  intros E Hcu Ht Hl Hx. pose proof (in_small _ _ Hin) as Hp. pose proof (in_mapped _ _ Hin) as Hm. fold buf in Hp, Hm.
  split; rewrite ?(edited_buf s' E); try done.
  - by apply edited_display.
  - transitivity (is_ready (k_term s)); [apply E|apply (in_ready _ _ Hin)].
  - intros a Ha. by apply (ed_mapped _ _ E), Hm.
  - by apply edited_apart.
  - apply (in_local_small _ _ Hin).
  - intros a Ha. by apply (ed_mapped _ _ E), (in_local _ _ Hin).
  - intros a Ha. destruct (in_local_apart _ _ Hin a Ha) as [H1 H2]. split; [by apply edited_off|done].
  - apply Forall_forall. intros x Hx'. by apply edited_literals.
  - destruct (ed_eq _ _ E) as (t & m & ->). apply (in_time _ _ Hin).
Qed.

(** Drawing does not touch the text. *)
Lemma text_undrawn s' m l' : edited s s' -> undrawn s' m -> Z.of_nat (length l') < input_buffer_len ->
  cstr (smem s') buf l' -> cstr m buf l'.
Proof.
  intros E [F _] Hl Hc. apply (cstr_same (smem s')); [|done]. intros x Hx. apply F.
  by apply (edited_apart s' E x); lia.
Qed.
Lemma edited_draw s' t m : edited s s' -> same_screen t (k_term s') -> undrawn s' m -> edited s (shown t m s').
Proof. intros E Ht Hm. apply (edited_trans _ s'); [done|]. by apply edited_undrawn. Qed.
(** A store into the buffer. *)
Lemma edited_store s' i v : edited s s' -> 0 <= i < input_buffer_len ->
  let s2 := set_mem (wr 1 (buf + i) v (smem s')) s' in store 1 (buf +64 i) v s' = Ret tt s2 /\ edited s s2.
Proof.
  intros E Hi. pose proof (in_small _ _ Hin) as Hp. fold buf in Hp. intros s2. split.
  - rewrite u64_small by lia. apply store_ok. intros x Hx. apply (ed_mapped _ _ E), (in_mapped _ _ Hin).
    fold buf. lia.
  - apply (edited_trans _ s'); [done|]. split.
    + exists (k_term s'), (wr 1 (buf + i) v (smem s')). unfold s2. by rewrite <- (shown_self s') at 2.
    + apply same_screen_refl.
    + intros a Ha. apply wr_lookup_ne. intros Hia. apply Ha. right. left. rewrite (edited_buf s' E).
      change (Z.of_nat 1) with 1 in Hia. lia.
    + intros a Ha. by apply wr_is_Some.
Qed.
End input.

(** ** One character more, one character less *)

Lemma line_same t t0 x y : same_screen t t0 -> line_ok t0 x y -> line_ok t x y.
Proof. intros (_ & E2 & E3 & _ & _ & _ & _ & E8 & _). unfold line_ok. by rewrite E2, E3, E8. Qed.

(** Moving the input along its line. *)
Lemma cursor_input t x : cursor_ok t -> 0 <= x < fb_width t -> cursor_ok (set_input_render_x x t).
Proof. intros [H1 (_ & H2) H3 H4] Hx. split; [exact H1|by split|exact H3|exact H4]. Qed.

Lemma strlen_at s p l : cstr (smem s) p l -> Z.of_nat (length l) < input_buffer_len ->
  strlen p s = Ret (Z.of_nat (length l)) s.
Proof.
  intros Hc Hl. unfold input_buffer_len in Hl. unfold strlen.
  rewrite (strlen_loop_ok s p l (Z.to_nat 65535) 0); [done| |lia]. by rewrite Z.add_0_r.
Qed.

Section input.
Context `{Image} (s : kernel) (l : list Z) (Hin : input_at s l).
Let buf := input_str (k_term s).

(** Room on the line for the cursor behind one more character. *)
Definition room_to_type : Prop :=
  18 + 9 * (Z.of_nat (length l) + 1) < fb_width (k_term s) /\ Z.of_nat (length l) + 1 < input_buffer_len.

(** The last steps of both operations: the cursor moves to the end of the
    line. *)
Lemma cursor_follows s1 l' :
  edited s s1 -> cursor_ok (k_term s1) -> Z.of_nat (length l') < input_buffer_len -> cstr (smem s1) buf l' ->
  input_render_x (k_term s1) = 18 + 9 * Z.of_nat (length l') ->
  exists s', _render_cursor s1 = Ret tt s' /\ edited s s' /\ input_at s' l'.
Proof.
  intros E Hcu Hl Ht Hx. pose proof (edited_display s l Hin s1 E) as Hd.
  destruct (render_cursor_now s1 Hd (cu_input _ Hcu)) as (m & Er & Hm).
  assert (E' : edited s (shown (cursor_moved (k_term s1)) m s1)).
  { apply edited_draw; [done|apply cursor_moved_same|done]. }
  exists (shown (cursor_moved (k_term s1)) m s1). split; [done|]. split; [done|].
  apply (input_at_step s l Hin); [done|by apply cursor_moved_ok| |done|].
  - by apply (text_undrawn s l Hin s1).
  - change (k_term (shown (cursor_moved (k_term s1)) m s1)) with (cursor_moved (k_term s1)).
    by rewrite cursor_moved_input.
Qed.

Lemma clear_cursor_follows s1 l' :
  edited s s1 -> cursor_ok (k_term s1) -> Z.of_nat (length l') < input_buffer_len -> cstr (smem s1) buf l' ->
  exists s', _clear_cursor s1 = Ret tt s' /\ edited s s' /\ k_term s' = k_term s1 /\ cstr (smem s') buf l'.
Proof.
  intros E Hcu Hl Ht. pose proof (edited_display s l Hin s1 E) as Hd.
  destruct (clear_cursor_now s1 Hd Hcu) as (m & Er & Hm). exists (set_mem m s1).
  split; [done|]. split; [|split; [done|by apply (text_undrawn s l Hin s1)]].
  apply (edited_draw s s1 (k_term s1) m); [done|apply same_screen_refl|done].
Qed.

Lemma term_type_ok c : 0 < c < 128 -> room_to_type ->
  exists s', term_type c s = Ret tt s' /\ edited s s' /\ input_at s' (l ++ [c]).
Proof.
  intros Hc [Hw Hlen]. pose proof (in_x _ _ Hin) as Hx. pose proof (in_display _ _ Hin) as Hd.
  pose proof (in_cursor _ _ Hin) as Hcu. pose proof (in_small _ _ Hin) as Hp. fold buf in Hp.
  destruct (cu_input _ Hcu) as (_ & Hy & Hyh). unfold input_buffer_len in *.
  pose proof (sizes s Hd) as (Hsz & _ & _ & Hst & _).
  assert (Hlc : length (l ++ [c]) = S (length l)) by (rewrite length_app; cbn; lia).
  unfold term_type. do 2 (erewrite bind_ret_eq; [|reflexivity]).
  destruct (glyph_now s Hd c (input_render_x (k_term s)) (input_render_y (k_term s))) as (m1 & E1 & H1); [done|lia|lia|lia|lia|lia|].
  rewrite (bind_ret_eq _ _ _ _ _ E1). do 2 (erewrite bind_ret_eq; [|reflexivity]).
  change (k_term (set_mem m1 s)) with (k_term s). rewrite (di_gw _ Hd), Hx. unfold glyph_padding.
  rewrite u32_small by lia.
  set (s1 := shown (set_input_render_x (18 + 9 * Z.of_nat (length l) + (8 + 1)) (k_term s)) m1 s).
  assert (G1 : edited s s1).
  { apply (edited_draw s s _ m1); [apply edited_refl|by split_and!|done]. }
  assert (T1 : cstr (smem s1) buf l).
  { apply (text_undrawn s l Hin s m1 l); [apply edited_refl|done|unfold input_buffer_len; lia|apply (in_text _ _ Hin)]. }
  assert (C1 : cursor_ok (k_term s1)) by (apply cursor_input; [done|lia]).
  erewrite bind_ret_eq; [|reflexivity]. change (smem (set_mem m1 s)) with m1.
  change (set_k_term _ (set_mem m1 s)) with s1. change (input_str (k_term _)) with buf.
  rewrite (bind_ret_eq _ _ _ _ _ (strlen_at s1 buf l T1 ltac:(unfold input_buffer_len; lia))).
  destruct (edited_store s l Hin s1 (Z.of_nat (length l)) c G1) as (E2 & G2); [unfold input_buffer_len; lia|].
  fold buf in E2, G2. rewrite (bind_ret_eq _ _ _ _ _ E2).
  set (s2 := set_mem _ s1) in *. clear E2.
  destruct (edited_store s l Hin s2 (Z.of_nat (length l) + 1) ch_nul G2) as (E3 & G3); [unfold input_buffer_len; lia|].
  fold buf in E3, G3. rewrite (u64_small (Z.of_nat (length l) + 1)) by lia. rewrite (bind_ret_eq _ _ _ _ _ E3).
  set (s3 := set_mem _ s2) in *. clear E3.
  assert (T3 : cstr (smem s3) buf (l ++ [c])).
  { change (smem s3) with (wr 1 (buf + (Z.of_nat (length l) + 1)) ch_nul (wr 1 (buf + Z.of_nat (length l)) c (smem s1))).
    rewrite Z.add_assoc. apply cstr_snoc; [done|lia]. }
  destruct (clear_cursor_follows s3 (l ++ [c]) G3 C1 ltac:(unfold input_buffer_len; lia) T3) as (s4 & E4 & G4 & K4 & T4).
  rewrite (bind_ret_eq _ _ _ _ _ E4).
  apply cursor_follows; [done|by rewrite K4|unfold input_buffer_len; lia|done|].
  rewrite K4. change (input_render_x (k_term s3)) with (18 + 9 * Z.of_nat (length l) + (8 + 1)). lia.
Qed.

End input.

(** The glyph left of the cursor. *)
Lemma blank_pixels_now s1 x y : display_ok s1 -> 0 <= x -> x + 9 <= fb_width (k_term s1) ->
  0 <= y < fb_height (k_term s1) ->
  exists m, (blank_start ← fbindex x y; blank_end ← fbindex (x + 9) y; blank_pixels blank_start blank_end) s1 =
    Ret tt (set_mem m s1) /\ undrawn s1 m.
Proof.
  intros Hd Hx Hxw Hy. pose proof (di_screen _ Hd) as Hsc. destruct Hsc as [S1 [S2 S3] S4 S5 S6].
  set (stride := fb_pitch (k_term s1) `div` 4) in *. set (width := fb_width (k_term s1)) in *.
  set (height := fb_height (k_term s1)) in *. set (fb := fb_address (k_term s1)) in *.
  rewrite (bind_ret_eq _ _ _ _ _ (fbindex_ok s1 (di_screen _ Hd) x y s1 eq_refl Hx ltac:(lia) ltac:(fold stride; nia))).
  rewrite (bind_ret_eq _ _ _ _ _ (fbindex_ok s1 (di_screen _ Hd) (x + 9) y s1 eq_refl ltac:(lia) ltac:(lia) ltac:(fold stride; nia))).
  fold stride. unfold blank_pixels. erewrite bind_ret_eq; [|reflexivity]. fold fb.
  replace (4 * (y * stride + (x + 9)) - 4 * (y * stride + x)) with 36 by lia. rewrite u64_small by lia.
  destruct (memset_ok (fb + 4 * (y * stride + x)) 0 36 s1) as (m & E & O); [lia| |].
  { apply (region_sub _ _ _ _ _ S6); nia. }
  exists m. rewrite (bind_ret_eq _ _ _ _ _ E). split; [reflexivity|]. split.
  - intros a Ha. rewrite O, decide_False; [done|]. intros Hia. apply Ha. unfold drawn_to. fold fb stride width height. nia.
  - intros a Ha. rewrite O. case_decide; [eauto|exact Ha].
Qed.

Lemma blank_glyph_now s1 : display_ok s1 -> line_ok (k_term s1) (input_render_x (k_term s1)) (input_render_y (k_term s1)) ->
  9 <= input_render_x (k_term s1) ->
  exists m, blank_glyph s1 = Ret tt (set_mem m s1) /\ undrawn s1 m.
Proof.
  intros Hd (Hx & Hy & Hyh) Hx9. pose proof (sizes s1 Hd) as (Hsz & Hg & Hh & Hst & _).
  unfold blank_glyph. erewrite bind_ret_eq; [|reflexivity].
  match goal with |- context [for_range 0 _ ?f] => set (row := f) end.
  destruct (for_range_inv row (fun _ s' => exists m, s' = set_mem m s1 /\ undrawn s1 m) 0 (glyph_height (k_term s1)) s1)
    as (s' & E & m & -> & Hm); [lia| |exists (smem s1); split; [by rewrite set_mem_smem|apply undrawn_refl]|by eauto].
  intros i s' Hi (m & -> & Hm). unfold row. do 3 (erewrite bind_ret_eq; [|reflexivity]).
  change (k_term (set_mem m s1)) with (k_term s1). rewrite (di_gw _ Hd). unfold glyph_padding.
  rewrite !u32_small by lia.
  destruct (blank_pixels_now (set_mem m s1) (input_render_x (k_term s1) - (8 + 1)) (input_render_y (k_term s1) + i))
    as (m' & E & F & Mp).
  - apply (shown_display s1 Hd (k_term s1) m); [apply same_screen_refl|done].
  - change (k_term (set_mem m s1)) with (k_term s1). lia.
  - change (k_term (set_mem m s1)) with (k_term s1). lia.
  - change (k_term (set_mem m s1)) with (k_term s1). lia.
  - replace (input_render_x (k_term s1) - (8 + 1) + 9) with (input_render_x (k_term s1)) in E by lia.
    exists (set_mem m' (set_mem m s1)). split; [exact E|]. exists m'. split; [by rewrite set_mem_set_mem|].
    destruct Hm as [F1 M1]. rewrite smem_set_mem in F, Mp. split.
    + intros a Ha. rewrite F; [by apply F1|exact Ha].
    + intros a Ha. by apply Mp, M1.
Qed.
Lemma term_backspace_ok `{Image} s l c : input_at s (l ++ [c]) ->
  exists s', term_backspace s = Ret tt s' /\ edited s s' /\ input_at s' l.
Proof.
  intros Hin. pose proof (in_x _ _ Hin) as Hx. pose proof (in_display _ _ Hin) as Hd.
  pose proof (in_cursor _ _ Hin) as Hcu. pose proof (in_small _ _ Hin) as Hp. pose proof (in_len _ _ Hin) as Hlen.
  unfold input_buffer_len in *. set (buf := input_str (k_term s)) in *.
  destruct (cu_input _ Hcu) as (Hxw & _). pose proof (sizes s Hd) as (Hsz & _ & _ & Hst & _).
  assert (Hlc : length (l ++ [c]) = S (length l)) by (rewrite length_app; cbn; lia).
  assert (Hl : Z.of_nat (length l) < input_buffer_len) by (unfold input_buffer_len; lia).
  unfold term_backspace. erewrite bind_ret_eq; [|reflexivity]. fold buf.
  rewrite (bind_ret_eq _ _ _ _ _ (strlen_at s buf _ (in_text _ _ Hin) (in_len _ _ Hin))).
  rewrite Hlc, (u64_small (Z.of_nat (S (length l)) - 1)) by lia.
  replace (Z.of_nat (S (length l)) - 1) with (Z.of_nat (length l)) by lia.
  destruct (edited_store s _ Hin s (Z.of_nat (length l)) ch_nul (edited_refl s)) as (E1 & G1); [unfold input_buffer_len; lia|].
  fold buf in E1, G1. rewrite (bind_ret_eq _ _ _ _ _ E1). set (s1 := set_mem _ s) in *. clear E1.
  assert (T1 : cstr (smem s1) buf l) by (apply (cstr_cut _ _ l c); apply (in_text _ _ Hin)).
  destruct (clear_cursor_follows s _ Hin s1 l G1 Hcu Hl T1) as (s2 & E2 & G2 & K2 & T2).
  rewrite (bind_ret_eq _ _ _ _ _ E2). change (k_term s1) with (k_term s) in K2.
  destruct (blank_glyph_now s2) as (m & E3 & H3).
  { by apply (edited_display s _ Hin). }
  { rewrite K2. apply (cu_input _ Hcu). }
  { rewrite K2, Hx. lia. }
  pose proof (edited_draw s s2 (k_term s2) m G2 (same_screen_refl _) H3) as G3.
  pose proof (text_undrawn s _ Hin s2 m l G2 H3 Hl T2) as T3.
  rewrite (bind_ret_eq _ _ _ _ _ E3). do 3 (erewrite bind_ret_eq; [|reflexivity]).
  change (k_term (set_mem m s2)) with (k_term s2). rewrite K2, (di_gw _ Hd), Hx, Hlc. unfold glyph_padding.
  rewrite u32_small by lia.
  set (t4 := set_input_render_x (18 + 9 * Z.of_nat (S (length l)) - (8 + 1)) (k_term s)).
  apply (cursor_follows s _ Hin (shown t4 m s2) l); [|by apply cursor_input; [|lia]|done|done|cbn; lia].
  apply (edited_trans _ _ _ G3). apply (edited_undrawn (shown (k_term s2) m s2) t4 m); [|apply undrawn_refl].
  change (k_term (shown (k_term s2) m s2)) with (k_term s2). rewrite K2. by split_and!.
Qed.

(** ** Enter *)

Lemma render_plain l : Forall (fun c => c <> ch_percent) l -> render l [] = Some l.
Proof.
  induction 1 as [|c l Hc _ IH]; [done|]. cbn [render]. by rewrite (proj2 (Z.eqb_neq _ _) Hc), IH.
Qed.

(** A decimal number is short and printable. *)
Lemma decimal_text n : 0 <= n ->
  (0 < length (unsigned_text ch_a 10 n) <= 64)%nat /\ Forall (fun c => 0 < c < 128) (unsigned_text ch_a 10 n).
Proof.
  intros Hn. unfold unsigned_text. change (10 =? 16) with false. cbn iota. rewrite length_rev, length_fmap. split.
  - pose proof (num_digits_length 10 n). pose proof (num_digits_ne 10 n). destruct (num_digits 10 n); [done|]. cbn in *. lia.
  - apply Forall_rev, Forall_fmap. eapply Forall_impl; [apply (num_digits_range 10 n); [unfold base_ok; lia|done]|].
    intros d Hd. cbn in *. unfold digit_char, ch_a, ch_0. destruct (Z.ltb_spec 9 d); lia.
Qed.

Lemma console_literal x : bool_decide (x ∈ console_literals) = true -> x ∈ console_literals.
Proof. apply bool_decide_eq_true_1. Qed.

(** What the commands answer to a line, and the line that clears the screen;
    [ms] is kernel_timer_secs. A command is recognised where strcmp says so. *)
Definition command_text (ms : Z) (l : list Z) : list Z :=
  if agree l (chars "hello") then chars ("World!" +:+ nl)
  else if agree l (chars "time") then chars "Kerner Time: " ++ unsigned_text ch_a 10 ms ++ chars ("ms" +:+ nl)
  else if agree l (chars "stime") then chars "Kerner Time: " ++ unsigned_text ch_a 10 (ms `div` 1000) ++ chars ("s" +:+ nl)
  else chars ("Unknown command." +:+ nl).
Definition clears (l : list Z) : bool := negb (agree l (chars "hello")) && agree l (chars "cls").

(** What Enter does to the teletype: the line is printed behind its prompt, then
    its command runs. *)
Section command.
Context (width bg : Z) (visible : bool) (ms : Z).
Definition tty_command (l : list Z) (y : tty) : tty :=
  if clears l then Tty 0 TERM_DEFAULT_FGCOLOR [Some (prompt_row bg visible)]
  else tty_print width bg visible (command_text ms l) y.
Definition tty_enter (l : list Z) (y : tty) : tty :=
  tty_command l (tty_print width bg visible (chars nl)
    (tty_print width bg visible l (tty_print width bg visible (chars "# ") y))).
End command.

(** The screen below its first row is black. *)
Definition black_below (s : kernel) : Prop :=
  forall x y, on_screen s x y -> glyph_height (k_term s) <= y -> pixel s (smem s) x y = 0.

Section enter.
Context `{Image} (s : kernel) (l : list Z) (Hin : input_at s l).
Let buf := input_str (k_term s).
Let says := tty_print (fb_width (k_term s)) (bgcolor (k_term s)) (cursor_visible (k_term s)).

(** Where printing stands: the cursor is on the screen and the typed line is
    still in its buffer. *)
Definition printing (s' : kernel) : Prop :=
  edited s s' /\ cursor_ok (k_term s') /\ cstr (smem s') buf l /\ same_paper (k_term s') (k_term s).

Lemma printing_ready s' : printing s' -> is_ready (k_term s') = true.
Proof. intros [E _]. transitivity (is_ready (k_term s)); [apply E|apply (in_ready _ _ Hin)]. Qed.

Lemma print_now s1 format fmt args slots txt :
  printing s1 -> in_string tprintf_buffer 256 (smem s1) format fmt ->
  Forall2 (va_ok tprintf_buffer 256 (smem s1)) args slots ->
  render fmt args = Some txt -> (0 < length txt < 256)%nat -> Forall (fun c => 0 < c < 128) txt ->
  exists s2, tprintf format slots s1 = Ret tt s2 /\ printing s2 /\
    (last txt = Some ch_newline -> input_render_x (k_term s2) = 18) /\
    (forall y, shows s1 y -> shows s2 (says txt y)).
Proof.
  intros Hpr Hs Hva Hr Hl Hc. pose proof Hpr as (E & Hcu & Ht & [Hp1 Hp2]).
  assert (Hw : fb_width (k_term s1) = fb_width (k_term s)) by (destruct (ed_term _ _ E) as (_ & E2 & _); exact E2).
  destruct (tprintf_ok format fmt args slots txt s1) as (t & m & Et & _ & Hcu' & Hsame & F & M & Hx & [Hp3 Hp4] & Hsh); try done.
  - by apply (edited_display s l).
  - by apply printing_ready.
  - apply (in_local_small _ _ Hin).
  - intros a Ha. by apply (ed_mapped _ _ E), (in_local _ _ Hin).
  - intros a Ha. apply (edited_off s l Hin s1 E). by apply (in_local_apart _ _ Hin).
  - rewrite Hw, Hp1, Hp2 in Hsh. exists (shown t m s1). split; [done|]. split; [|by split]. split_and!; [|done| |by split; etrans].
    + apply (edited_trans _ s1); [done|]. split; [by exists t, m|done| |done].
      intros a Ha. apply F; intros Hd; apply Ha; [by left|by do 2 right].
    + pose proof (in_len _ _ Hin) as Hlen. apply (cstr_same (smem s1)); [|done]. intros a Ha. apply F.
      * by apply (edited_apart s l Hin s1 E a); fold buf; lia.
      * intros Hb. destruct (in_local_apart _ _ Hin a Hb) as [_ Hn]. apply Hn. fold buf. lia.
Qed.

Lemma literal_string s1 x : printing s1 -> x ∈ console_literals ->
  in_string tprintf_buffer 256 (smem s1) (literal x) (chars x).
Proof.
  intros (E & _) Hx. destruct (edited_literals s l Hin s1 x E Hx) as [Hc Ha]. split; [done|].
  unfold outside_buffer. destruct (Z.lt_ge_cases (literal x + Z.of_nat (length (chars x))) tprintf_buffer); [by left|].
  destruct (Z.le_gt_cases (tprintf_buffer + 256) (literal x)); [by right|]. exfalso.
  apply (Ha (Z.max 0 (tprintf_buffer - literal x))); [lia|]. right. right. lia.
Qed.

Lemma print_literal s1 x args slots txt :
  printing s1 -> x ∈ console_literals -> Forall2 (va_ok tprintf_buffer 256 (smem s1)) args slots ->
  render (chars x) args = Some txt -> (0 < length txt < 256)%nat -> Forall (fun c => 0 < c < 128) txt ->
  exists s2, tprintf_lit x slots s1 = Ret tt s2 /\ printing s2 /\
    (last txt = Some ch_newline -> input_render_x (k_term s2) = 18) /\
    (forall y, shows s1 y -> shows s2 (says txt y)).
Proof. intros Hp Hx. apply print_now; [done|by apply literal_string]. Qed.

Lemma cmd_is_ok s1 name : printing s1 -> name ∈ console_literals ->
  cmd_is name s1 = Ret (agree l (chars name)) s1.
Proof.
  intros Hp Hx. destruct (literal_string s1 name Hp Hx) as [Hc _]. destruct Hp as (E & _ & Ht & _).
  unfold cmd_is. erewrite bind_ret_eq; [|reflexivity]. rewrite (edited_buf s s1 E). fold buf.
  rewrite (bind_ret_eq _ _ _ _ _ (strcmp_ok _ _ _ _ s1 Ht Hc)). by destruct (agree l (chars name)).
Qed.

(** What a command leaves: the prompt on an empty input line. *)
Definition prompted (s' : kernel) : Prop := printing s' /\ input_render_x (k_term s') = 18.

Lemma print_message s1 x :
  printing s1 -> x ∈ console_literals -> render (chars x) [] = Some (chars x) ->
  (0 < length (chars x) < 256)%nat -> Forall (fun c => 0 < c < 128) (chars x) ->
  last (chars x) = Some ch_newline ->
  exists s2, tprintf_lit x [] s1 = Ret tt s2 /\ prompted s2 /\ forall y, shows s1 y -> shows s2 (says (chars x) y).
Proof.
  intros Hp Hx Hr Hl Hc Hn. destruct (print_literal s1 x [] [] (chars x)) as (s2 & E & Hp2 & Hx2 & Hs2); [try done; by constructor..|].
  exists s2. split; [done|]. split; [|exact Hs2]. split; [done|by apply Hx2].
Qed.

(** A message with one number, "before %lu after". *)
Lemma print_count s1 x n (before after : list Z) :
  printing s1 -> x ∈ console_literals -> is_u64 n ->
  render (chars x) [VNum n] = Some (before ++ unsigned_text ch_a 10 (u64 n) ++ after) ->
  Forall (fun c => 0 < c < 128) (before ++ after) -> (length (before ++ after) < 192)%nat -> last after = Some ch_newline ->
  exists s2, tprintf_lit x [n] s1 = Ret tt s2 /\ prompted s2 /\
    forall y, shows s1 y -> shows s2 (says (before ++ unsigned_text ch_a 10 n ++ after) y).
Proof.
  intros Hp Hx Hn Hr Hc Hl Hlast. apply Forall_app in Hc as [Hc1 Hc2]. rewrite length_app in Hl.
  rewrite u64_small in Hr by exact Hn.
  destruct (decimal_text n) as [Hdl Hd]; [unfold is_u64 in Hn; lia|].
  destruct (print_literal s1 x [VNum n] [n] (before ++ unsigned_text ch_a 10 n ++ after) Hp Hx) as (s2 & E & Hp2 & Hx2 & Hs2); [|exact Hr| | |].
  - by repeat constructor.
  - rewrite !length_app. lia.
  - by repeat (apply Forall_app; split).
  - exists s2. split; [done|]. split; [|exact Hs2]. split; [done|]. apply Hx2. rewrite !last_app, Hlast. done.
Qed.

Lemma term_clear_now s1 : printing s1 -> exists s2, term_clear s1 = Ret tt s2 /\ prompted s2 /\
  shows s2 (Tty 0 TERM_DEFAULT_FGCOLOR [Some (prompt_row (bgcolor (k_term s)) (cursor_visible (k_term s)))]) /\
  black_below s2.
Proof.
  intros (E & Hcu & Ht & [Hp1 Hp2]). pose proof (edited_display s l Hin s1 E) as Hd.
  pose proof (di_room _ Hd) as Hroom. unfold roomy in Hroom.
  destruct (sizes s1 Hd) as (Hw & Hg & Hh & Hst & _). pose proof (di_screen _ Hd) as Hsc.
  unfold term_clear.
  destruct (memset_ok (fb_address (k_term s1)) 0
    (4 * (fb_height (k_term s1) * (fb_pitch (k_term s1) `div` 4) + fb_width (k_term s1))) s1) as (m & Em & O);
    [nia|by rewrite (Z.mul_comm (fb_height _))|].
  assert (Ec : _clear_screen s1 = Ret tt (set_mem m s1)).
  { rewrite (_clear_screen_eq s1 Hsc), (bind_ret_eq _ _ _ _ _ Em). done. }
  assert (Hm : undrawn s1 m).
  { split; intros a Ha; rewrite O; [rewrite decide_False; [done|]|case_decide; [eauto|done]].
    intros Hia. apply Ha. unfold drawn_to. lia. }
  rewrite (bind_ret_eq _ _ _ _ _ Ec). erewrite bind_ret_eq; [|reflexivity].
  match goal with |- context [_render_input_line ?st] => set (s2 := st) end.
  set (t2 := k_term s2).
  assert (Hcu2 : cursor_ok t2).
  { destruct Hcu as [_ _ _ Hcol]. split; [| | |exact Hcol]; unfold line_ok; cbn; lia. }
  assert (Hblack : forall x y, on_screen s1 x y -> pixel s1 m x y = 0).
  { intros x y Hp. pose proof (on_screen_index s1 x y Hp). apply rd_zero_bytes. intros a Ha.
    rewrite (overwritten_byte_at _ _ _ _ _ _ O). unfold pixel_addr in Ha. change (Z.of_nat 4) with 4 in Ha.
    rewrite decide_True by nia. done. }
  destruct (render_input_line_kept s1 Hd t2 m) as (t' & m' & E' & [Hs' Hm' Hcu'] & [Hx0 Hx] & (Hy & Hf & Hb & Hv) & Hab & Hrow).
  - split; [by split_and!|done|done].
  - reflexivity.
  - exists (shown t' m' s1). split; [exact E'|]. split; [|split].
    + split; [|exact Hx]. split_and!; [by apply (edited_draw s s1)|done| |by split; etrans].
      apply (text_undrawn s l Hin s1 m' l); [done|done|apply (in_len _ _ Hin)|done].
    + apply at_tty_shown; [done|by split|]. change (render_y t2) with 0 in Hy, Hrow.
      split; cbn [column tty_ink tty_rows]; try done.
      * rewrite Hy. apply rows_at_cons; [|by intros k r Hk].
        intros r [= <-]. rewrite <- Hp1, <- Hp2. apply Hrow, row_at_blank. intros x i Hx' Hi.
        apply Hblack. unfold on_screen. lia.
      * intros r [= <-]. cbn. lia.
      * apply ascii_rows_cons; [intros r [= <-]; apply ascii_prompt|]. intros r Hr%not_elem_of_nil. done.
    + intros x y Hp Hy'. destruct Hs' as (G1 & G2 & G3 & G4 & G5 & G6 & G7 & G8 & _).
      unfold on_screen, pixel, pixel_addr in *. cbn [k_term shown set_k_term smem] in *.
      rewrite G1, G4 in *. rewrite G3 in Hp. rewrite G8 in Hy'.
      etrans; [apply (Hab x y); [done|right; exact Hy']|]. by apply Hblack.
Qed.

Lemma _handle_cmd_now s1 : printing s1 -> exists s2, _handle_cmd s1 = Ret tt s2 /\ prompted s2 /\
  (forall y, shows s1 y -> shows s2 (tty_command (fb_width (k_term s)) (bgcolor (k_term s)) (cursor_visible (k_term s))
    (kernel_timer_secs (k_desc s)) l y)) /\
  (clears l = true -> black_below s2).
Proof.
  intros Hp. assert (Et : kernel_timer_secs (k_desc s1) = kernel_timer_secs (k_desc s)).
  { destruct Hp as (E & _). destruct (ed_eq _ _ E) as (t & m & ->). done. }
  assert (Ht : is_u64 (kernel_timer_secs (k_desc s1))) by (rewrite Et; apply (in_time _ _ Hin)).
  unfold tty_command, command_text, clears.
  unfold _handle_cmd. rewrite (bind_ret_eq _ _ _ _ _ (cmd_is_ok s1 "hello" Hp (console_literal "hello" eq_refl))).
  destruct (agree l (chars "hello")); cbn [negb andb].
  { destruct (print_message s1 ("World!" +:+ nl) Hp (console_literal ("World!" +:+ nl) eq_refl)) as (s2 & E & H2 & Hs); [try done; by apply (bool_decide_unpack _)..|].
    by exists s2. }
  rewrite (bind_ret_eq _ _ _ _ _ (cmd_is_ok s1 "cls" Hp (console_literal "cls" eq_refl))).
  destruct (agree l (chars "cls")).
  { destruct (term_clear_now s1 Hp) as (s2 & E & H2 & Hs & Hb). by exists s2. }
  rewrite (bind_ret_eq _ _ _ _ _ (cmd_is_ok s1 "time" Hp (console_literal "time" eq_refl))).
  erewrite bind_ret_eq; [|reflexivity].
  destruct (agree l (chars "time")).
  { destruct (print_count s1 ("Kerner Time: %lums" +:+ nl) (kernel_timer_secs (k_desc s1)) (chars "Kerner Time: ") (chars ("ms" +:+ nl))) as (s2 & E & H2 & Hs);
      try done; try by apply (bool_decide_unpack _). rewrite Et in Hs. by exists s2. }
  rewrite (bind_ret_eq _ _ _ _ _ (cmd_is_ok s1 "stime" Hp (console_literal "stime" eq_refl))).
  destruct (agree l (chars "stime")).
  2: { destruct (print_message s1 ("Unknown command." +:+ nl) Hp (console_literal ("Unknown command." +:+ nl) eq_refl)) as (s2 & E & H2 & Hs); [try done; by apply (bool_decide_unpack _)..|].
       by exists s2. }
  destruct (print_count s1 ("Kerner Time: %lus" +:+ nl) (kernel_timer_secs (k_desc s1) `div` 1000) (chars "Kerner Time: ") (chars ("s" +:+ nl))) as (s2 & E & H2 & Hs);
    try done; try by apply (bool_decide_unpack _).
  - unfold is_u64 in *. split; [apply Z.div_pos; lia|]. apply Z.le_lt_trans with (kernel_timer_secs (k_desc s1)); [|lia].
    apply Z.div_le_upper_bound; lia.
  - rewrite Et in Hs. by exists s2.
Qed.
End enter.

(** The line was printed behind its prompt and its command ran. *)
Definition command_ran (l : list Z) (s s' : kernel) : Prop :=
  (forall y, shows s y -> shows s' (tty_enter (fb_width (k_term s)) (bgcolor (k_term s)) (cursor_visible (k_term s))
     (kernel_timer_secs (k_desc s)) l y)) /\
  (clears l = true -> black_below s').

(** A store into the input buffer is not seen on the screen. *)
Lemma store_unseen `{Image} s l s1 v : input_at s l -> edited s s1 -> cursor_ok (k_term s1) ->
  let s2 := set_mem (wr 1 (input_str (k_term s)) v (smem s1)) s1 in
  (forall y, shows s1 y -> shows s2 y) /\ (black_below s1 -> black_below s2).
Proof.
  intros Hin E Hcu s2. pose proof (edited_display s l Hin s1 E) as Hd.
  assert (F : forall a, ~ off_display s1 a -> smem s2 !! a = smem s1 !! a).
  { intros a Ha. apply wr_lookup_ne. change (Z.of_nat 1) with 1. intros Hi. apply Ha.
    apply (edited_apart s l Hin s1 E). unfold input_buffer_len. lia. }
  split.
  - intros y Hy. destruct (cu_render _ Hcu) as [(_ & Hy0 & Hle) _].
    apply (at_tty_frame s1 s2 (k_term s1) (smem s1) (smem s2)); try done.
    + intros a Ha. apply F. unfold off_display. tauto.
    + intros a Ha. apply F. unfold off_display. tauto.
  - intros Hb x y Hp Hy. change (rd 4 (pixel_addr s1 x y) (smem s2) = 0).
    rewrite <- (Hb x y Hp Hy). apply rd_ext. intros a Ha. unfold byte_at. rewrite F; [done|].
    intros (Hn & _). apply Hn. pose proof (on_screen_index s1 x y Hp). destruct (sizes s1 Hd) as (Hw & _).
    unfold drawn_to, pixel_addr in *. change (Z.of_nat 4) with 4 in Ha. lia.
Qed.

Lemma term_enter_ok `{Image} s l : input_at s l -> l <> [] ->
  Forall (fun c => c <> ch_percent /\ 0 < c < 128) l ->
  exists s', term_enter s = Ret tt s' /\ edited s s' /\ input_at s' [] /\ command_ran l s s'.
Proof.
  intros Hin Hne Hc. apply Forall_and in Hc as [Hpc Hc]. pose proof (in_len _ _ Hin) as Hlen. unfold input_buffer_len in Hlen.
  assert (H0 : printing s l s) by (split_and!; [apply edited_refl|apply (in_cursor _ _ Hin)|apply (in_text _ _ Hin)|by split]).
  unfold term_enter.
  destruct (print_literal s l Hin s "# " [] [] (chars "# ") H0 (console_literal "# " eq_refl)) as (s1 & E1 & H1 & _ & S1);
    [by constructor|done|cbn; lia|by apply (bool_decide_unpack _)|].
  rewrite (bind_ret_eq _ _ _ _ _ E1). erewrite bind_ret_eq; [|reflexivity].
  rewrite (edited_buf s s1) by apply H1.
  destruct (print_now s l Hin s1 (input_str (k_term s)) l [] [] l H1) as (s2 & E2 & H2 & _ & S2);
    [|by constructor|by apply render_plain|destruct l; cbn in *; (done || lia)|done|].
  { split; [apply H1|]. unfold outside_buffer.
    destruct (Z.lt_ge_cases (input_str (k_term s) + Z.of_nat (length l)) tprintf_buffer); [by left|right].
    destruct (Z.le_gt_cases (tprintf_buffer + 256) (input_str (k_term s))); [done|exfalso].
    destruct (in_local_apart _ _ Hin (Z.max tprintf_buffer (input_str (k_term s)))) as [_ Hn]; [lia|].
    apply Hn. unfold input_buffer_len. lia. }
  rewrite (bind_ret_eq _ _ _ _ _ E2).
  destruct (print_message s l Hin s2 nl H2 (console_literal nl eq_refl)) as (s3 & E3 & [H3 _] & S3); [done|cbn; lia|by apply (bool_decide_unpack _)|done|].
  rewrite (bind_ret_eq _ _ _ _ _ E3).
  destruct (_handle_cmd_now s l Hin s3 H3) as (s4 & E4 & [(G4 & C4 & T4 & _) X4] & S4 & B4).
  rewrite (bind_ret_eq _ _ _ _ _ E4). erewrite bind_ret_eq; [|reflexivity].
  rewrite (edited_buf s s4 G4).
  destruct (edited_store s l Hin s4 0 ch_nul G4) as (E5 & G5); [unfold input_buffer_len; lia|].
  pose proof (in_small _ _ Hin) as Hsm. unfold input_buffer_len in Hsm.
  rewrite u64_small, Z.add_0_r in E5 by lia. rewrite Z.add_0_r in G5. rewrite E5.
  destruct (store_unseen s l s4 ch_nul Hin G4 C4) as [S5 B5].
  eexists. split; [reflexivity|]. split; [exact G5|]. split; [|split; [|by intros Hcl; apply B5, B4]].
  - apply (input_at_step s l Hin _ [] G5); [exact C4| |unfold input_buffer_len; cbn; lia|exact X4].
    rewrite smem_set_mem, wr_1. split; [by intros i c Hi|]. cbn [length]. change (Z.of_nat 0) with 0.
    by rewrite Z.add_0_r, lookup_insert_eq.
  - intros y Hy. by apply S5, S4, S3, S2, S1.
Qed.

(** ** A key event is an edit of the line *)

(** The line editor the terminal is meant to be. *)
Definition is_enter (ke : key_event) : bool :=
  (event_type ke =? PS2_KEYDOWN) && (scan_code ke =? PS2_SCANCODE_ENTER).
Definition is_backspace (ke : key_event) : bool :=
  (event_type ke =? PS2_KEYDOWN) && (scan_code ke =? PS2_SCANCODE_BACKSPACE).
Definition types_char (ke : key_event) : bool := (event_type ke =? 0) && negb (ascii ke =? 0).
Definition edit_line (l : list Z) (ke : key_event) : list Z :=
  if is_enter ke then []
  else if is_backspace ke && negb (bool_decide (l = [])) then take (length l - 1) l
  else if types_char ke then l ++ [ascii ke] else l.

(** The keys it takes: Enter with something typed, and a character only where
    the line has room on a screen of that width and in the buffer. *)
Definition key_fits (width : Z) (l : list Z) (ke : key_event) : bool :=
  if is_enter ke then negb (bool_decide (l = []))
  else if is_backspace ke && negb (bool_decide (l = [])) then true
  else if types_char ke
  then (18 + 9 * (Z.of_nat (length l) + 1) <? width) && (Z.of_nat (length l) + 1 <? input_buffer_len)
  else true.

(** Characters that can be typed: ASCII, and not the % of a format. *)
Definition plain_char (c : Z) : Prop := c <> ch_percent /\ 0 < c < 128.
Definition plain_key (ke : key_event) : Prop := ascii ke = 0 \/ plain_char (ascii ke).

Lemma edit_line_plain l ke : Forall plain_char l -> plain_key ke -> Forall plain_char (edit_line l ke).
Proof.
  intros Hl Hk. unfold edit_line. destruct (is_enter ke); [done|].
  destruct (_ && _); [by apply Forall_take|]. destruct (types_char ke) eqn:E; [|done].
  apply Forall_app. split; [done|]. apply Forall_singleton.
  destruct Hk as [Hk|Hk]; [|done]. unfold types_char in E. rewrite Hk in E. by rewrite andb_false_r in E.
Qed.

Lemma term_key_char_ok `{Image} s l ke :
  input_at s l -> plain_key ke -> (types_char ke = true -> room_to_type s l) ->
  exists s', term_key_char ke s = Ret tt s' /\ edited s s' /\ input_at s' (if types_char ke then l ++ [ascii ke] else l).
Proof.
  intros Hin Hk Hroom. unfold term_key_char. fold (types_char ke). destruct (types_char ke) eqn:E.
  - apply term_type_ok; [done| |by apply Hroom]. destruct Hk as [Hk|Hk]; [|apply Hk].
    unfold types_char in E. rewrite Hk in E. by rewrite andb_false_r in E.
  - exists s. split; [done|]. split; [apply edited_refl|done].
Qed.

Lemma cstr_first m p l : cstr m p l -> m !! p = Some (default 0 (head l)) /\ (default 0 (head l) = 0 <-> l = []).
Proof.
  intros Hc. destruct l as [|c l].
  - split; [by apply cstr_nil|done].
  - destruct (cstr_cons _ _ _ _ Hc) as (Hp & Hc0 & _). split; [done|]. cbn. split; [lia|done].
Qed.

Lemma term_keyevent_ok `{Image} ke s l :
  input_at s l -> Forall plain_char l -> plain_key ke -> key_fits (fb_width (k_term s)) l ke = true ->
  exists s', term_keyevent ke s = Ret tt s' /\ edited s s' /\ input_at s' (edit_line l ke) /\
    (is_enter ke = true -> command_ran l s s').
Proof.
  intros Hin Hl Hk Hfit. unfold term_keyevent, edit_line, key_fits in *.
  fold (is_enter ke) (is_backspace ke) in *. destruct (is_enter ke).
  { apply negb_true_iff, bool_decide_eq_false in Hfit. destruct (term_enter_ok s l) as (s' & E & Hed & Hin' & Hran); try done.
    by exists s'. }
  enough (exists s', (if is_backspace ke then _ else term_key_char ke) s = Ret tt s' /\ edited s s' /\ input_at s' _) as (s' & E & Hed & Hin')
    by (exists s'; split_and!; [exact E|exact Hed|exact Hin'|done]).
  assert (Hchar : is_backspace ke && negb (bool_decide (l = [])) = false -> types_char ke = true -> room_to_type s l).
  { intros Eb Et. rewrite Eb, Et in Hfit. apply andb_true_iff in Hfit as [H1%Z.ltb_lt H2%Z.ltb_lt]. done. }
  destruct (is_backspace ke); cbn [andb] in *; [|by apply term_key_char_ok; [..|apply Hchar]].
  destruct (cstr_first _ _ _ (in_text _ _ Hin)) as [Hp Hz].
  erewrite bind_ret_eq; [|reflexivity].
  assert (Hb : 0 <= default 0 (head l) < 256).
  { destruct l as [|c l']; [done|]. cbn. apply Forall_cons in Hl as [[_ ?] _]. lia. }
  rewrite (bind_ret_eq _ _ _ _ _ (load_byte _ _ s Hp Hb)). unfold ch_nul.
  destruct (bool_decide_reflect (l = [])) as [->|Hne]; cbn [negb] in *.
  - by apply term_key_char_ok; [..|apply Hchar].
  - rewrite (proj2 (Z.eqb_neq _ _)) by (by rewrite Hz). cbn [negb].
    destruct l as [|c l _] using rev_ind; [done|].
    rewrite length_app, Nat.add_sub, take_app_length. by apply (term_backspace_ok s l c).
Qed.

(** C8: the input line is a line editor with commands. From a well-formed
    terminal whose line holds [l], a key event that fits gives exactly the
    abstract edit: a key with a character puts it behind the line, backspace
    takes the last character off a line that is not empty, Enter empties the
    line, and releases and other keys change nothing. Enter runs the command:
    whatever rows the screen showed, it then shows what the teletype shows after
    the prompt, the line and a newline, and then the command's answer (World!,
    the time in milliseconds or seconds, or Unknown command.); cls leaves the
    prompt in the first row of a screen that is black below. The text is in
    input_str with its terminator, the next glyph goes behind it, the terminal
    is well formed again, and nothing was written outside the display, the input
    buffer and the local buffer of tprintf. A key fits ([key_fits]): a character
    where the line has room on the screen and in the 256 bytes, Enter on a line
    that is not empty; characters are ASCII without the percent sign. *)
Theorem term_keyevent_edits `{Image} ke s l :
  input_at s l -> Forall plain_char l -> plain_key ke -> key_fits (fb_width (k_term s)) l ke = true ->
  exists s', term_keyevent ke s = Ret tt s' /\
    input_at s' (edit_line l ke) /\ Forall plain_char (edit_line l ke) /\
    (is_enter ke = true ->
       (forall y, shows s y -> shows s' (tty_enter (fb_width (k_term s)) (bgcolor (k_term s)) (cursor_visible (k_term s))
          (kernel_timer_secs (k_desc s)) l y)) /\
       (clears l = true -> black_below s')) /\
    (forall a, ~ console_area s a -> smem s' !! a = smem s !! a) /\
    s' = shown (k_term s') (smem s') s.
Proof.
  intros Hin Hl Hk Hfit. destruct (term_keyevent_ok ke s l Hin Hl Hk Hfit) as (s' & E & Hed & Hin' & Hran).
  exists s'. split_and!; [done|done|by apply edit_line_plain|exact Hran|apply Hed|].
  destruct (ed_eq _ _ Hed) as (t & m & ->). done.
Qed.

(** A screen of 63 by 2 pixels at 4096, a font of one-row glyphs at 512,
    input_str at 8000, the local buffer at 9000 and the console's literals from
    10000 on, others behind 12000. *)
#[export] Instance console_image : Image := {|
  literal x := match list_find (fun y => y = x) console_literals with Some (i, _) => 10000 + 32 * Z.of_nat i | None => 12000 + 128 * Z.of_nat (String.length x) end;
  tprintf_buffer := 9000 |}.
Definition console_memory (l : list Z) : memory :=
  foldr (fun x => poke (literal x) (chars x))
    (poke 8000 l (wr 1 515 1 (zeros 512 132 ∪ (zeros 4096 756 ∪ (zeros 8000 256 ∪ (zeros 9000 256 ∪ zeros 10000 320))))))
    console_literals.
Definition console_kernel (m : memory) (l : list Z) : kernel :=
  set_k_term (TermGlobals 4096 63 2 252 32 512 516 1 7 9 2 true 0xCCCCCC 0 0 0 (18 + 9 * Z.of_nat (length l)) 0 18 0 8000 0 true)
    (kernel_at m (2 ^ 47) 0 40).

(** What a memory needs to hold that terminal. *)
Definition console_ready (m : memory) (l : list Z) : Prop :=
  region 512 132 m /\ region 4096 756 m /\ region 8000 256 m /\ region 9000 256 m /\ rd 1 515 m = 1 /\
  cstr m 8000 l /\ Forall (fun x => cstr m (literal x) (chars x)) console_literals.

Lemma console_memory_region l a n :
  region a n (zeros 512 132 ∪ (zeros 4096 756 ∪ (zeros 8000 256 ∪ (zeros 9000 256 ∪ zeros 10000 320)))) ->
  region a n (console_memory l).
Proof.
  intros Ha. unfold console_memory. generalize console_literals. induction l0 as [|x xs IH]; cbn [foldr].
  - by apply poke_region, region_wr.
  - by apply poke_region.
Qed.
Definition console_check (m : memory) (l : list Z) : bool :=
  (rd 1 515 m =? 1) && cstrb m 8000 l && forallb (fun x => cstrb m (literal x) (chars x)) console_literals.
Lemma console_check_ready m l :
  region 512 132 m -> region 4096 756 m -> region 8000 256 m -> region 9000 256 m -> console_check m l = true ->
  console_ready m l.
Proof.
  intros R1 R2 R3 R4 [[E1%Z.eqb_eq E2]%andb_true_iff E3]%andb_true_iff.
  split_and!; [done..|exact E1|by apply cstrb_sound|].
  apply Forall_forall. intros x Hx. apply cstrb_sound. rewrite forallb_forall in E3. apply E3. by apply list_elem_of_In.
Qed.
Lemma console_memory_regions l :
  region 512 132 (console_memory l) /\ region 4096 756 (console_memory l) /\ region 8000 256 (console_memory l) /\
  region 9000 256 (console_memory l).
Proof.
  split_and!; apply console_memory_region.
  - apply region_union_l, region_zeros.
  - apply region_union_r, region_union_l, region_zeros.
  - do 2 apply region_union_r. apply region_union_l, region_zeros.
  - do 3 apply region_union_r. apply region_union_l, region_zeros.
Qed.
Lemma console_memory_ready l : console_check (console_memory l) l = true -> console_ready (console_memory l) l.
Proof. destruct (console_memory_regions l) as (R1 & R2 & R3 & R4). by apply console_check_ready. Qed.

Lemma console_input_at m l : console_ready m l -> (length l <= 4)%nat -> input_at (console_kernel m l) l.
Proof.
  intros (R1 & R2 & R3 & R4 & Er & Ht & Hl) Hlen.
  assert (Er' : rd 1 (512 + off_char_height) m = 1) by exact Er.
  assert (Hoff : forall a, 8000 <= a -> off_display (console_kernel m l) a).
  { intros a Ha. unfold off_display, drawn_to.
    change (smem (console_kernel m l)) with m. cbn [console_kernel k_term set_k_term fb_address fb_width fb_height fb_pitch font_header glyph_data].
    change (252 `div` 4) with 63. rewrite Er'. lia. }
  split; cbn [console_kernel k_term set_k_term input_str is_ready]; try change (tprintf_buffer) with 9000; unfold input_buffer_len; try done; try lia.
  - split; [split| |split|..]; unfold drawn_to, console_kernel, roomy;
      cbn [k_term set_k_term fb_address fb_width fb_height fb_pitch font_header glyph_data glyph_width glyph_height];
      change (252 `div` 4) with 63; try change (smem (set_k_term _ (kernel_at m _ _ _))) with m;
      rewrite ?Er'; unfold glyph_padding; try lia; try done.
    + apply (region_sub _ _ _ _ _ R2); lia.
    + apply (region_sub _ _ _ _ _ R1); lia.
    + apply (region_sub _ _ _ _ _ R1); lia.
    + intros a Ha. unfold in_fb in Ha. cbn in Ha. lia.
  - split; unfold line_ok, is_u32; cbn; lia.
  - intros a Ha. apply Hoff. lia.
  - intros a Ha. split; [apply Hoff|]; lia.
  - rewrite Forall_forall in Hl. apply Forall_forall. intros x Hx. split; [by apply Hl|].
    assert (Hlit : 10000 <= literal x < 10400) by (revert x Hx; apply Forall_forall; by repeat constructor).
    intros i Hi. assert (Hge : 10000 <= literal x + i) by lia. revert Hge. generalize (literal x + i). intros a Hge [Ha|[Ha|Ha]].
    + by destruct (Hoff a ltac:(lia)).
    + change (input_str (k_term (console_kernel m l))) with 8000 in Ha. unfold input_buffer_len in Ha. lia.
    + change tprintf_buffer with 9000 in Ha. lia.
Qed.

(** "k" is typed behind "o"; Enter on "he", which strcmp takes for hello, prints
    the line and "World!" in rows of their own above the new prompt. *)
Definition text_row (txt : string) : row := Row ((fun c => Cell c 0xCCCCCC 0) <$> chars txt) false.
Lemma term_keyevent_edits_witness :
  (exists s', term_keyevent (KeyEvent 37 0 107 false) (console_kernel (console_memory (chars "o")) (chars "o")) = Ret tt s' /\
    input_at s' (chars "ok")) /\
  (exists s', term_keyevent (KeyEvent PS2_SCANCODE_ENTER 0 0 false) (console_kernel (console_memory (chars "he")) (chars "he")) = Ret tt s' /\
    input_at s' [] /\
    shows s' (Tty 0 0xCCCCCC [Some (prompt_row 0 true); Some (text_row "World!"); Some (text_row "# he")])).
Proof.
  split.
  - assert (Hr : console_ready (console_memory (chars "o")) (chars "o"))
      by (apply console_memory_ready; vm_compute; reflexivity).
    revert Hr. generalize (console_memory (chars "o")). intros m Hr.
    destruct (term_keyevent_edits (KeyEvent 37 0 107 false) (console_kernel m (chars "o")) (chars "o")) as (s' & E & Hin & _).
    + apply console_input_at; [exact Hr|cbn; lia].
    + by repeat constructor.
    + by right.
    + reflexivity.
    + exists s'. split; [exact E|exact Hin].
  - assert (Hr : console_ready (console_memory (chars "he")) (chars "he"))
      by (apply console_memory_ready; vm_compute; reflexivity).
    revert Hr. generalize (console_memory (chars "he")). intros m Hr.
    destruct (term_keyevent_edits (KeyEvent PS2_SCANCODE_ENTER 0 0 false) (console_kernel m (chars "he")) (chars "he"))
      as (s' & E & Hin & _ & Hran & _).
    + apply console_input_at; [exact Hr|cbn; lia].
    + by repeat constructor.
    + by left.
    + reflexivity.
    + exists s'. split; [exact E|]. split; [exact Hin|].
      destruct (Hran eq_refl) as [Hs _]. apply (Hs (Tty 0 0xCCCCCC [None])). split; try done.
      * intros [|[|k]] r Hk; done.
      * intros r Hr'%elem_of_cons. destruct Hr' as [|Hr'%not_elem_of_nil]; done.
Defined.
