(* ===== verification/TermInit.v ===== *)
(** * terminal.c: term_init

    What the boot loader hands over and what becomes of it: the terminal the
    other theorems start from. *)
From S2P Require Import Prelude Machine MemLib Str StrProofs StrFormat StrProps Regions Pmm Slob Kstate VmProps Acpi AcpiProps.
From S2P Require Import Terminal TermProps TermRows TermScroll TermPrint TermInput.

(** ** Finding the font *)

(** The first module with the name of the font. *)
Definition is_font (m : memory) (x : Z * Z) : Prop := bytes_at m (fst x) 9 = font_path.
#[export] Instance is_font_dec m x : Decision (is_font m x).
Proof. unfold is_font. apply _. Defined.
Definition find_font (m : memory) (modules : list (Z * Z)) : option Z := (snd ∘ snd) <$> list_find (is_font m) modules.

(** Setting the pointers of the font. *)
Definition font_set (hdr : Z) (t : term_globals) : term_globals := set_glyph_data (hdr + sizeof_PSF1_Header) (set_font_header hdr t).

Lemma _load_font_ok modules s :
  Forall (fun x => region (fst x) 9 (smem s)) modules ->
  match find_font (smem s) modules with
  | None => _load_font modules s = Ret tt s
  | Some hdr =>
      region hdr 2 (smem s) ->
      if rd 2 hdr (smem s) =? 0x0436 then _load_font modules s = Ret tt (set_k_term (font_set hdr (k_term s)) s)
      else exists s', _load_font modules s = Halted s'
  end.
Proof.
  unfold find_font. induction modules as [|[p hdr] modules IH]; intros Hm; [done|].
  apply Forall_cons in Hm as [Hp Hm]. cbn [_load_font list_find fst].
  assert (E : matches p font_path s = Ret (bool_decide (is_font (smem s) (p, hdr))) s) by (apply matches_ok; exact Hp).
  destruct (decide (is_font (smem s) (p, hdr))) as [Hf|Hf].
  - rewrite bool_decide_true in E by done. cbn [fmap option_fmap option_map snd compose]. intros Hh.
    rewrite (bind_ret_eq _ _ _ _ _ E). erewrite bind_ret_eq; [|reflexivity]. unfold off_magic. rewrite Z.add_0_r.
    rewrite (bind_ret_eq _ _ _ (rd 2 hdr (smem s)) (set_k_term (set_font_header hdr (k_term s)) s)) by exact (load_ok 2 hdr (set_k_term _ s) Hh).
    destruct (rd 2 hdr (smem s) =? 0x0436); [done|].
    eexists. reflexivity.
  - rewrite bool_decide_false in E by done. rewrite (bind_ret_eq _ _ _ _ _ E). specialize (IH Hm).
    destruct (list_find (is_font (smem s)) modules) as [[i [p' h]]|]; exact IH.
Qed.

(** ** The terminal *)

(** The globals of terminal.c before start-up. *)
Record unstarted (t : term_globals) : Prop := {
  un_font : font_header t = 0;
  un_render : render_x t = 0 /\ render_y t = 0;
  un_input : input_render_x t = 0 /\ input_render_y t = 0;
  un_cursor : cursor_x t = 0 /\ cursor_y t = 0;
  un_colors : is_u32 (fgcolor t) /\ is_u32 (bgcolor t)
}.

(** A frame buffer with a row of pixels behind it, and a font, with room for a
    prompt and a character. *)
Record boot_screen (m : memory) (address width height pitch hdr : Z) : Prop := {
  bs_fb : 0 <= address;
  bs_width : 27 <= width <= pitch `div` 4;
  bs_height : rd 1 (hdr + off_char_height) m + glyph_padding <= height;
  bs_small : pitch `div` 4 * (height + 1) < 2 ^ 32;
  bs_room : region address (4 * (pitch `div` 4 * height + width)) m;
  bs_font : region hdr 4 m;
  bs_glyphs : region (hdr + sizeof_PSF1_Header) (128 * rd 1 (hdr + off_char_height) m) m;
  bs_apart : forall a, address <= a < address + 4 * (pitch `div` 4 * height + width) ->
    ~ (hdr <= a < hdr + sizeof_PSF1_Header + 128 * rd 1 (hdr + off_char_height) m)
}.

(** What term_init makes of the globals before it draws. *)
Definition started (address width height pitch bpp hdr ch : Z) (t : term_globals) : term_globals :=
  set_glyph_height (ch + glyph_padding) (set_glyph_width (8 + glyph_padding)
    (set_max_cols (u32 (width `div` (8 + glyph_padding))) (set_max_rows (u32 (height `div` (ch + glyph_padding)))
      (font_set hdr (set_fb_address address (set_fb_width width (set_fb_height height
        (set_fb_pitch pitch (set_fb_bpp bpp t))))))))).

Definition init_log (width height pitch bpp ch : Z) : list log_entry :=
  [Log ("Pitch: %d" +:+ nl) [KNum pitch]; Log ("BPP: %d" +:+ nl) [KNum bpp];
   Log ("Resolution: %dx%d" +:+ nl) [KNum width; KNum height]; Log ("Font: %dx%d" +:+ nl) [KNum 8; KNum ch]].

(** The first text row is black. *)
Definition row_black (m : memory) (address width pitch rows : Z) : Prop :=
  forall x y, 0 <= x < pitch `div` 4 -> 0 <= y < rows -> rd 4 (address + 4 * (y * (pitch `div` 4) + x)) m = 0.

Section start.
Context (address width height pitch bpp hdr : Z) (s : kernel).
Let m := smem s.
Let ch := rd 1 (hdr + off_char_height) m.
Hypothesis (Hun : unstarted (k_term s)) (Hbs : boot_screen m address width height pitch hdr).
(** The kernel when term_init starts to draw. *)
Definition before_prompt : kernel :=
  set_k_term (started address width height pitch bpp hdr ch (k_term s))
    (set_mach (Machine m (init_log width height pitch bpp ch ++ klog (get_mach s))) s).

Lemma before_prompt_display : display_ok before_prompt.
Proof.
  destruct Hbs as [H1 H2 H3 H4 H5 H6 H7 H8]. pose proof (rd_range 1 (hdr + off_char_height) m) as [Hch _].
  assert (Hfb : forall a, drawn_to before_prompt a -> address <= a < address + 4 * (pitch `div` 4 * height + width)) by done.
  fold ch in H3, H7, H8, Hch. unfold glyph_padding, sizeof_PSF1_Header in *.
  split; [split| |split|..]; try done; cbn; try lia.
  - apply (region_sub _ _ _ _ _ H5); cbn; nia.
  - intros a Ha. specialize (H8 a). unfold in_fb in Ha. cbn in Ha. change (smem before_prompt) with m. fold ch. unfold sizeof_PSF1_Header. lia.
  - intros a Ha. specialize (H8 a (Hfb a Ha)). change (smem before_prompt) with m. fold ch. unfold sizeof_PSF1_Header. lia.
Qed.

Lemma before_prompt_terminal : terminal_ok before_prompt (k_term before_prompt) m.
Proof.
  destruct Hun as [_ [R1 R2] [I1 I2] [C1 C2] [F B]]. destruct Hbs as [H1 H2 H3 H4 H5 H6 H7 H8].
  pose proof (rd_range 1 (hdr + off_char_height) m) as [Hch _]. fold ch in H3, Hch. unfold glyph_padding in *.
  split; [apply same_screen_refl|apply (undrawn_refl before_prompt)|].
  split; unfold line_ok; cbn; rewrite ?R1, ?R2, ?I1, ?I2, ?C1, ?C2; unfold glyph_padding; try done; lia.
Qed.

Lemma ready_display b s1 : display_ok s1 -> display_ok (set_k_term (set_is_ready b (k_term s1)) s1).
Proof. intros [[S1 S2 S3 S4 S5] H2 [F1 F2 F3] H4 H5 H6 H7 H8]. split; [split| |split|..]; assumption. Qed.

Lemma term_init_ok modules :
  Forall (fun x => region (fst x) 9 m) modules -> find_font m modules = Some hdr -> rd 2 hdr m = 0x0436 ->
  exists t' m', term_init address width height pitch bpp modules s = Ret tt (shown t' m' before_prompt) /\
    display_ok (shown t' m' before_prompt) /\ cursor_ok t' /\ is_ready t' = true /\
    same_screen (set_is_ready (is_ready (k_term s)) t') (k_term before_prompt) /\
    render_x t' = 0 /\ render_y t' = 0 /\ input_render_x t' = 18 /\
    same_paper t' (k_term s) /\
    (forall a, ~ drawn_to before_prompt a -> m' !! a = m !! a) /\ (forall a, is_Some (m !! a) -> is_Some (m' !! a)) /\
    (row_black m address width pitch (ch + glyph_padding) ->
     shows (shown t' m' before_prompt) (Tty 0 TERM_DEFAULT_FGCOLOR [Some (prompt_row (bgcolor (k_term s)) (cursor_visible (k_term s)))])).
Proof.
  intros Hmod Hfind Hmagic. pose proof before_prompt_display as Hd. pose proof before_prompt_terminal as Ht.
  pose proof (_load_font_ok modules (set_k_term (set_fb_address address (set_fb_width width (set_fb_height height
    (set_fb_pitch pitch (set_fb_bpp bpp (k_term s)))))) s) Hmod) as Hl.
  change (smem (set_k_term _ s)) with m in Hl. rewrite Hfind in Hl. 
  assert (Hh : region hdr 2 m) by (apply (region_sub _ _ _ _ _ (bs_font _ _ _ _ _ _ Hbs)); lia). specialize (Hl Hh).
  rewrite Hmagic in Hl. cbn [Z.eqb] in Hl.
  unfold term_init. erewrite bind_ret_eq; [|reflexivity]. rewrite (bind_ret_eq _ _ _ _ _ Hl).
  assert (Hc : region (hdr + off_char_height) 1 m)
    by (apply (region_sub _ _ _ _ _ (bs_font _ _ _ _ _ _ Hbs)); unfold off_char_height; lia).
  erewrite bind_ret_eq; [|reflexivity]. erewrite bind_ret_eq; [|apply load_ok; exact Hc].
  do 8 (erewrite bind_ret_eq; [|reflexivity]).
  match goal with |- context [mbind ?f _render_input_line ?st] => change st with before_prompt end.
  destruct (render_input_line_kept before_prompt Hd (k_term before_prompt) m Ht) as
    (t' & m' & E & [Hs Hm Hcu] & [Hx Hix] & (Hry & Hf & Hb & Hv) & _ & Hrow); [apply Hun|].
  rewrite (shown_self before_prompt : shown (k_term before_prompt) m before_prompt = before_prompt) in E.
  rewrite (bind_ret_eq _ _ _ _ _ E).
  exists (set_is_ready true t'), m'. split; [reflexivity|].
  assert (Hs' : same_screen (k_term (shown t' m' before_prompt)) (k_term before_prompt)) by exact Hs.
  split; [by apply (ready_display true (shown t' m' before_prompt)), shown_display|].
  split; [by destruct Hcu|]. split; [done|].
  destruct Hs as (E1 & E2 & E3 & E4 & E5 & E6 & E7 & E8 & E9 & E10).
  split; [by split_and!|]. split; [done|]. 
  split; [change (render_y t' = 0); rewrite Hry; apply Hun|]. split; [done|]. split; [by split|].
  split; [apply Hm|]. split; [apply Hm|]. intros Hblack.
  assert (Hy0 : render_y (k_term before_prompt) = 0) by apply Hun. rewrite Hy0 in Hrow, Hry.
  assert (Hshow : at_tty before_prompt t' m' (Tty 0 TERM_DEFAULT_FGCOLOR [Some (prompt_row (bgcolor (k_term s)) (cursor_visible (k_term s)))])).
  { split; try done.
    - rewrite Hry. intros [|[|k]] r Hk Hk0; [|done|done]. injection Hk as <-.
      rewrite Z.mul_0_r. apply Hrow.
      apply row_at_blank. intros x i Hxx Hi. apply Hblack; done.
    - intros r [= <-]. cbn. lia.
    - apply ascii_rows_cons; [intros r' [= <-]; by apply ascii_prompt|]. intros r Hr. by apply elem_of_nil in Hr. }
  apply (at_tty_frame before_prompt (shown t' m' before_prompt) t' m' m') in Hshow; try done.
  - destruct Hshow as [A1 A2 A3 A4 A5 A6]. by split.
  - intros a Ha. apply Hm. intros Hda. destruct (di_apart _ Hd a Hda) as [B1 B2]. by destruct Ha.
  - rewrite Hry. done.
  - rewrite Hry. rewrite Z.add_0_l. apply (di_height _ Hd).
Qed.
End start.

(** ** The input line *)

(** The buffers of the console in a memory with that screen and font: apart
    from them and from each other, the line empty. *)
Record boot_buffers `{Image} (m : memory) (address width height pitch hdr input : Z) : Prop := {
  bb_small : 0 < input /\ input + input_buffer_len < 2 ^ 64;
  bb_mapped : region input input_buffer_len m;
  bb_local_small : 0 <= tprintf_buffer /\ tprintf_buffer + 256 < 2 ^ 64;
  bb_local : region tprintf_buffer 256 m;
  bb_apart : forall a, input <= a < input + input_buffer_len \/ tprintf_buffer <= a < tprintf_buffer + 256 ->
    ~ (address <= a < address + 4 * (pitch `div` 4 * height + width)) /\
    ~ (hdr <= a < hdr + sizeof_PSF1_Header + 128 * rd 1 (hdr + off_char_height) m);
  bb_apart2 : forall a, tprintf_buffer <= a < tprintf_buffer + 256 -> ~ (input <= a < input + input_buffer_len);
  bb_literals : Forall (fun x => cstr m (literal x) (chars x) /\
    forall a, literal x <= a <= literal x + Z.of_nat (length (chars x)) ->
      ~ (address <= a < address + 4 * (pitch `div` 4 * height + width)) /\
      ~ (input <= a < input + input_buffer_len) /\ ~ (tprintf_buffer <= a < tprintf_buffer + 256)) console_literals;
  bb_empty : cstr m input []
}.

Lemma boot_input `{Image} address width height pitch bpp hdr s t' m' :
  boot_buffers (smem s) address width height pitch hdr (input_str (k_term s)) ->
  is_u64 (kernel_timer_secs (k_desc s)) ->
  let s0 := before_prompt address width height pitch bpp hdr s in
  display_ok (shown t' m' s0) -> cursor_ok t' -> is_ready t' = true ->
  same_screen (set_is_ready (is_ready (k_term s)) t') (k_term s0) -> input_render_x t' = 18 ->
  (forall a, ~ drawn_to s0 a -> m' !! a = smem s !! a) -> (forall a, is_Some (smem s !! a) -> is_Some (m' !! a)) ->
  rd 1 (hdr + off_char_height) m' = rd 1 (hdr + off_char_height) (smem s) ->
  input_at (shown t' m' s0) [].
Proof.
  intros [B1 B2 B3 B4 B5 B6 B7 B8] Ht s0 Hd Hcu Hready (E1 & E2 & E3 & E4 & E5 & E6 & E7 & E8 & E9 & _) Hx F M Er.
  change (fb_address t' = address) in E1. change (fb_width t' = width) in E2. change (fb_height t' = height) in E3.
  change (fb_pitch t' = pitch) in E4. change (font_header t' = hdr) in E5.
  change (glyph_data t' = hdr + sizeof_PSF1_Header) in E6. change (input_str t' = input_str (k_term s)) in E9.
  change (forall a, ~ (address <= a < address + 4 * (pitch `div` 4 * height + width)) -> m' !! a = smem s !! a) in F.
  assert (Hoff : forall a, ~ (address <= a < address + 4 * (pitch `div` 4 * height + width)) /\
    ~ (hdr <= a < hdr + sizeof_PSF1_Header + 128 * rd 1 (hdr + off_char_height) (smem s)) -> off_display (shown t' m' s0) a).
  { intros a [Ha Hf]. unfold off_display, drawn_to. change (k_term (shown t' m' s0)) with t'. change (smem (shown t' m' s0)) with m'.
    rewrite E1, E2, E3, E4, E5, E6, Er. pose proof (rd_range 1 (hdr + off_char_height) (smem s)) as [Hch _].
    unfold sizeof_PSF1_Header in *. split; [exact Ha|lia]. }
  split; change (k_term (shown t' m' s0)) with t'; change (smem (shown t' m' s0)) with m'; rewrite ?E9; try done.
  - intros a Ha. by apply M, B2.
  - intros a Ha. apply Hoff, B5. by left.
  - intros a Ha. by apply M, B4.
  - intros a Ha. split; [apply Hoff, B5; by right|by apply B6].
  - rewrite Forall_forall in B7. apply Forall_forall. intros x Hx'. destruct (B7 x Hx') as [Hc Ha]. split.
    + apply (cstr_same (smem s)); [|done]. intros a Hi. apply F, Ha. exact Hi.
    + intros i Hi. destruct (Ha (literal x + i)) as (A1 & A2 & A3); [lia|]. unfold console_area, drawn_to.
      change (k_term (shown t' m' s0)) with t'. rewrite E1, E2, E3, E4, E9. intros [Hin|[Hin|Hin]]; auto.
  - apply (cstr_same (smem s)); [|done]. intros a Ha. apply F, B5. left. cbn in Ha. unfold input_buffer_len. lia.
Qed.

(** C34: the terminal's start. term_init looks for the module with the font's
    name among those of the boot loader. Without one it reads the glyph height
    through NULL; with another magic number it halts; otherwise, on a frame
    buffer with a pixel row behind it and room for a prompt and a character, it
    returns with everything the other theorems ask of a terminal: a well-formed
    display, positions on the screen, the empty line behind the prompt in input
    position, and a first row that, if it was black, shows exactly the prompt;
    memory outside the display is untouched. *)
Theorem term_init_starts `{Image} address width height pitch bpp modules s :
  unstarted (k_term s) -> Forall (fun x => region (fst x) 9 (smem s)) modules -> is_u64 (kernel_timer_secs (k_desc s)) ->
  match find_font (smem s) modules with
  | None => smem s !! off_char_height = None ->
      term_init address width height pitch bpp modules s = Fault (Unmapped off_char_height)
  | Some hdr =>
      region hdr 2 (smem s) ->
      if rd 2 hdr (smem s) =? 0x0436 then
        boot_screen (smem s) address width height pitch hdr ->
        boot_buffers (smem s) address width height pitch hdr (input_str (k_term s)) ->
        exists s', term_init address width height pitch bpp modules s = Ret tt s' /\ input_at s' [] /\
          (row_black (smem s) address width pitch (rd 1 (hdr + off_char_height) (smem s) + glyph_padding) ->
           shows s' (Tty 0 TERM_DEFAULT_FGCOLOR [Some (prompt_row (bgcolor (k_term s)) (cursor_visible (k_term s)))])) /\
          (forall a, ~ (address <= a < address + 4 * (pitch `div` 4 * height + width)) -> smem s' !! a = smem s !! a)
      else exists s', term_init address width height pitch bpp modules s = Halted s'
  end.
Proof.
  intros Hun Hmod Ht. set (s1 := set_k_term (set_fb_address address (set_fb_width width (set_fb_height height
    (set_fb_pitch pitch (set_fb_bpp bpp (k_term s)))))) s).
  pose proof (_load_font_ok modules s1 Hmod) as Hl. change (smem s1) with (smem s) in Hl.
  assert (E1 : term_init address width height pitch bpp modules s = (_load_font modules ;; _) s1) by reflexivity.
  destruct (find_font (smem s) modules) as [hdr|] eqn:Efind.
  - intros Hh. specialize (Hl Hh). destruct (rd 2 hdr (smem s) =? 0x0436) eqn:Em.
    + intros Hbs Hbb. apply Z.eqb_eq in Em.
      destruct (term_init_ok address width height pitch bpp hdr s Hun Hbs modules Hmod Efind Em)
        as (t' & m' & E & Hd & Hcu & Hr & Hs & _ & _ & Hx & _ & F & M & Hsh).
      eexists. split; [exact E|]. split; [|split; [exact Hsh|exact F]].
      apply (boot_input address width height pitch bpp hdr s); try done.
      apply rd_ext. intros x Hx'. unfold byte_at. rewrite F; [done|]. intros Hin.
      apply (bs_apart _ _ _ _ _ _ Hbs x Hin). pose proof (rd_range 1 (hdr + off_char_height) (smem s)) as [Hch _].
      unfold off_char_height, sizeof_PSF1_Header in *. change (Z.of_nat 1) with 1 in Hx'. lia.
    + destruct Hl as [s' E]. rewrite E1. exists s'. unfold mbind, M_bind. by rewrite E.
  - intros Hnull. rewrite E1, (bind_ret_eq _ _ _ _ _ Hl). erewrite bind_ret_eq; [|reflexivity].
    change (font_header (k_term s1)) with (font_header (k_term s)). rewrite (un_font _ Hun).
    unfold mbind, M_bind. rewrite load_unmapped; [done|].
    intros Hr. destruct (Hr off_char_height) as [v Hv]; [unfold off_char_height; lia|].
    change (smem s !! off_char_height = Some v) in Hv. by rewrite Hnull in Hv.
Qed.

(** ** An example *)

(** The memory of [TermInput] with the font's magic number and its module. *)
Definition boot_memory : memory := poke 20000 font_path (zeros 20000 9 ∪ wr 2 512 0x0436 (console_memory [])).
Definition boot_kernel (m : memory) : kernel :=
  set_k_term (TermGlobals 0 0 0 0 0 0 0 0 0 0 0 false 0xCCCCCC 0 0 0 0 0 0 0 8000 0 false) (kernel_at m (2 ^ 47) 0 40).

Lemma boot_memory_ready : console_ready boot_memory [] /\ rd 2 512 boot_memory = 0x0436 /\ region 20000 9 boot_memory /\
  find_font boot_memory [(20000, 512)] = Some 512 /\ row_black boot_memory 4096 63 252 2.
Proof.
  destruct (console_memory_regions []) as (R1 & R2 & R3 & R4).
  assert (R : forall a n, region a n (console_memory []) -> region a n boot_memory)
    by (intros a n Ha; by apply poke_region, region_union_r, region_wr).
  assert (Eb : forallb (fun i => rd 4 (4096 + 4 * i) boot_memory =? 0) (seqZ 0 126) = true) by (vm_compute; reflexivity).
  split_and!.
  - apply console_check_ready; [by apply R..|vm_compute; reflexivity].
  - vm_compute. reflexivity.
  - apply poke_region, region_union_l, region_zeros.
  - vm_compute. reflexivity.
  - intros x y Hx Hy. change (252 `div` 4) with 63 in *. rewrite forallb_forall in Eb.
    apply Z.eqb_eq, Eb, list_elem_of_In, elem_of_seqZ. lia.
Qed.

Lemma term_init_starts_witness :
  exists s', term_init 4096 63 2 252 32 [(20000, 512)] (boot_kernel boot_memory) = Ret tt s' /\ input_at s' [] /\
    shows s' (Tty 0 TERM_DEFAULT_FGCOLOR [Some (prompt_row 0 false)]).
Proof.
  destruct boot_memory_ready as (Hr & Em & Hp & Hf & Hb). revert Hr Em Hp Hf Hb. generalize boot_memory. intros m Hr Em Hp Hf Hb.
  pose proof Hr as (R1 & R2 & R3 & R4 & Er & Ht & Hl).
  pose proof (term_init_starts 4096 63 2 252 32 [(20000, 512)] (boot_kernel m)) as Hi.
  change (smem (boot_kernel m)) with m in Hi. rewrite Hf, Em in Hi.
  assert (Er' : rd 1 (512 + off_char_height) m = 1) by exact Er.
  destruct Hi as (s' & E & Hin & Hsh & _).
  - split; done.
  - by apply Forall_singleton.
  - done.
  - apply (region_sub _ _ _ _ _ R1); lia.
  - split; rewrite ?Er'; unfold glyph_padding, sizeof_PSF1_Header; change (252 `div` 4) with 63; try lia.
    + apply (region_sub _ _ _ _ _ R2); lia.
    + apply (region_sub _ _ _ _ _ R1); lia.
    + apply (region_sub _ _ _ _ _ R1); lia.
  - change (input_str (k_term (boot_kernel m))) with 8000.
    split; rewrite ?Er'; unfold input_buffer_len, sizeof_PSF1_Header; change tprintf_buffer with 9000; change (252 `div` 4) with 63; try done; try lia.
    rewrite Forall_forall in Hl. apply Forall_forall. intros x Hx. split; [by apply Hl|].
    assert (Hlit : 10000 <= literal x) by (revert x Hx; apply Forall_forall; by repeat constructor). lia.
  - rewrite Er' in Hsh. exists s'. split; [exact E|]. split; [exact Hin|]. by apply Hsh.
Defined.
