(* ===== verification/Kprintf.v ===== *)
(** * lib/str.c: kprintf, from the format to the serial port

    The rest of the development records a call of kprintf as an event of the
    log; here is its body, on top of the formatter, the serial port and the
    terminal. *)
From S2P Require Import Prelude Machine MemLib Pmm Slob Str StrProofs StrFormat StrProps Kstate VmProps.
From S2P Require Import Poll Serial SerialProps Terminal TermProps TermRows TermScroll TermPrint TermInput.

(** [buffer] is the local array of 256 characters. *)
Definition kprintf_call `{Hardware} `{Image} (buffer format : Z) (args : list Z) : M kernel unit :=
  vsnprintf buffer 256 format args ;;
  write_serial_str PORT_COM1 buffer ;;
  tprintf buffer [].

(** What an argument is in the call: a number in its register slot, a string
    literal by its address. *)
Definition karg_slot `{Image} (a : karg) : Z := match a with KNum z => u64 z | KStr x => literal x end.
(** kprintf for the callers, with its local array at [buffer]. *)
Definition kprintf_console `{Hardware} `{Image} (buffer : Z) : Printf kernel := fun fmt args =>
  kprintf_call buffer (literal fmt) (karg_slot <$> args).

Lemma kprintf_call_eq `{Hardware} `{Image} buffer format args s :
  kprintf_call buffer format args s =
  ((vsnprintf buffer 256 format args ;; write_serial_str PORT_COM1 buffer) ;; tprintf buffer []) s.
Proof. unfold kprintf_call, mbind, M_bind. by destruct (vsnprintf buffer 256 format args s). Qed.

(** The first two thirds: the message is in the buffer and has gone out on the
    serial port. *)
Section serial.
Context `{!Hardware} `{!Image} (buffer format : Z) (fmt : list Z) (args : list va) (slots txt : list Z) (s : kernel).
Context (Hb : 0 <= buffer /\ buffer + 256 < 2 ^ 64) (Hr : region buffer 256 (smem s)).
Context (Hs : in_string buffer 256 (smem s) format fmt) (Hva : Forall2 (va_ok buffer 256 (smem s)) args slots).
Context (Hrender : render fmt args = Some txt) (Hl : (length txt < 256)%nat) (Hc : Forall (fun c => 0 < c < 256) txt).
Context (Huart : forall t, settles (line_status PORT_COM1) line_busy patience t).

Lemma kprintf_serial_ok : exists m' t,
  (vsnprintf buffer 256 format slots ;; write_serial_str PORT_COM1 buffer) s = Ret tt (set_k_io t (set_mem m' s)) /\
  holds buffer 256 (smem s) (txt ++ [ch_nul]) m' /\ cstr m' buffer txt /\
  sent PORT_COM1 t = rev txt ++ sent PORT_COM1 (k_io s) /\ (paced PORT_COM1 (k_io s) -> paced PORT_COM1 t) /\
  exists tr, t = tr ++ k_io s.
Proof.
  destruct (vsnprintf_ok buffer 256 (smem s) Hb ltac:(lia) Hr format fmt args slots txt s eq_refl Hs Hrender Hva
    ltac:(lia)) as (m' & E & Hh).
  set (s1 := set_mem m' s) in *.
  assert (Hstr : cstr m' buffer txt).
  { apply cstr_text_cstr; [done|]. intros i c Hi. by apply (ho_prefix _ _ _ _ _ Hh). }
  destruct (write_serial_loop_ok PORT_COM1 txt 256 buffer s1 Hstr Huart) as (t & Et & Hsent & Hp & Htr).
  exists m', t. split_and!; [|done|done|rewrite Hsent, take_ge by lia; done|exact Hp|exact Htr].
  rewrite (bind_ret_eq _ _ _ _ _ E). exact Et.
Qed.
End serial.

(** C18: kprintf delivers the message. Before the terminal is up, for a format
    that agrees with its arguments and a message of at most 255 characters,
    kprintf returns; the bytes the first serial port got are exactly the
    characters of the message in order, each sent only after the line status
    said the transmitter is empty; memory outside the buffer and all other
    state is unchanged. *)
Theorem kprintf_reaches_serial `{!Hardware} `{!Image} buffer format fmt args slots txt s :
  0 <= buffer /\ buffer + 256 < 2 ^ 64 -> region buffer 256 (smem s) ->
  in_string buffer 256 (smem s) format fmt -> Forall2 (va_ok buffer 256 (smem s)) args slots ->
  render fmt args = Some txt -> (length txt < 256)%nat -> Forall (fun c => 0 < c < 256) txt ->
  (forall t, settles (line_status PORT_COM1) line_busy patience t) -> is_ready (k_term s) = false ->
  exists m' t, kprintf_call buffer format slots s = Ret tt (set_k_io t (set_mem m' s)) /\
    sent PORT_COM1 t = rev txt ++ sent PORT_COM1 (k_io s) /\
    (paced PORT_COM1 (k_io s) -> paced PORT_COM1 t) /\
    (forall x, ~ (buffer <= x < buffer + 256) -> m' !! x = smem s !! x).
Proof.
  intros Hb Hr Hs Hva Hrender Hl Hc Huart Hready.
  destruct (kprintf_serial_ok buffer format fmt args slots txt s Hb Hr Hs Hva Hrender Hl Hc Huart)
    as (m' & t & E & Hh & _ & Hsent & Hp & _).
  exists m', t. split_and!; [|exact Hsent|exact Hp|apply Hh].
  rewrite kprintf_call_eq, (bind_ret_eq _ _ _ _ _ E). unfold tprintf. erewrite bind_ret_eq; [|reflexivity].
  change (is_ready (k_term (set_k_io t (set_mem m' s)))) with (is_ready (k_term s)). by rewrite Hready.
Qed.

(** C17: kprintf reaches both outputs. Once the terminal is up, a message of 1
    to 255 ASCII characters without a percent sign goes out on the first serial
    port, each byte sent when the transmitter is empty, and the screen shows
    what the abstract teletype shows after it; the terminal is well formed
    again. (The text is the terminal's format, so a percent sign in it would be
    interpreted once more.) *)
Theorem kprintf_reaches_screen `{!Hardware} `{!Image} buffer format fmt args slots txt s y :
  let b := tprintf_buffer in
  display_ok s -> cursor_ok (k_term s) -> is_ready (k_term s) = true -> shows s y ->
  0 <= buffer /\ buffer + 256 < 2 ^ 64 -> region buffer 256 (smem s) ->
  (forall a, buffer <= a < buffer + 256 -> off_display s a) ->
  0 <= b /\ b + 256 < 2 ^ 64 -> region b 256 (smem s) -> (forall a, b <= a < b + 256 -> off_display s a) ->
  b + 256 <= buffer \/ buffer + 256 <= b ->
  in_string buffer 256 (smem s) format fmt -> Forall2 (va_ok buffer 256 (smem s)) args slots ->
  render fmt args = Some txt -> (0 < length txt < 256)%nat -> Forall plain_char txt ->
  (forall t, settles (line_status PORT_COM1) line_busy patience t) ->
  exists t' m' t, let s' := set_k_io t (shown t' m' s) in kprintf_call buffer format slots s = Ret tt s' /\
    sent PORT_COM1 t = rev txt ++ sent PORT_COM1 (k_io s) /\ (paced PORT_COM1 (k_io s) -> paced PORT_COM1 t) /\
    shows s' (tty_print (fb_width (k_term s)) (bgcolor (k_term s)) (cursor_visible (k_term s)) txt y) /\
    display_ok s' /\ cursor_ok t'.
Proof.
  intros b Hd Hcu Hready Hy Hb Hr Hoff Hb' Hr' Hoff' Hapart Hs Hva Hrender Hl Hc Huart.
  destruct (kprintf_serial_ok buffer format fmt args slots txt s Hb Hr Hs Hva Hrender ltac:(lia)
    ltac:(eapply Forall_impl; [exact Hc|]; intros c [_ ?]; lia) Huart) as (m1 & t & E & Hh & Hstr & Hsent & Hp & _).
  set (s1 := set_k_io t (set_mem m1 s)) in *.
  assert (Hout : forall a, ~ (buffer <= a < buffer + 256) -> m1 !! a = smem s !! a) by apply (ho_outside _ _ _ _ _ Hh).
  assert (Hmap : forall a, is_Some (smem s !! a) -> is_Some (m1 !! a)).
  { intros a Ha. destruct (decide (buffer <= a < buffer + 256)); [by apply (ho_region _ _ _ _ _ Hh)|by rewrite Hout]. }
  assert (Hfont : forall a, font_header (k_term s) <= a < font_header (k_term s) + 4 \/
     glyph_data (k_term s) <= a < glyph_data (k_term s) +
       128 * rd 1 (font_header (k_term s) + off_char_height) (smem s) -> m1 !! a = smem s !! a).
  { intros a Ha. apply Hout. intros Hin. destruct (Hoff a Hin) as (_ & ? & ?). tauto. }
  assert (Hd1 : display_ok s1) by (apply (display_frame s s1); [done|apply same_screen_refl|auto|exact Hmap]).
  assert (Hy1 : shows s1 y).
  { destruct (cu_render _ Hcu) as [(_ & Hy0 & Hy1) _]. apply (at_tty_frame s s1 (k_term s) (smem s) m1); try done.
    intros a Ha. apply Hout. intros Hin. by destruct (Hoff a Hin) as (Hn & _). }
  assert (Eh : rd 1 (font_header (k_term s) + off_char_height) m1 = rd 1 (font_header (k_term s) + off_char_height) (smem s)).
  { apply rd_ext. intros x Hx. unfold byte_at. rewrite Hfont; [done|]. left. unfold off_char_height in Hx. lia. }
  destruct (tprintf_ok buffer txt [] [] txt s1 Hd1 Hcu Hready Hb') as (t' & m' & Et & Hd' & Hc' & _ & _ & _ & _ & _ & Hsh).
  - intros x Hx. apply Hmap, Hr', Hx.
  - intros a Ha. destruct (Hoff' a Ha) as (H1 & H2 & H3). split_and!; [done|done|].
    change (~ glyph_data (k_term s) <= a < glyph_data (k_term s) + 128 * rd 1 (font_header (k_term s) + off_char_height) m1).
    by rewrite Eh.
  - split; [exact Hstr|]. unfold outside_buffer. lia.
  - by constructor.
  - apply render_plain. eapply Forall_impl; [exact Hc|]. by intros c [? _].
  - done.
  - eapply Forall_impl; [exact Hc|]. by intros c [_ ?].
  - exists t', m', t. cbv zeta. split_and!; [|exact Hsent|exact Hp|exact (Hsh y Hy1)|exact Hd'|exact Hc'].
    rewrite kprintf_call_eq, (bind_ret_eq _ _ _ _ _ E). exact Et.
Qed.

(** The answer of a transmitter that is always empty, and some addresses. *)
#[local] Instance ready_uart : Hardware := {|
  device _ _ := 0x60; cpuid_regs _ _ := (0, 0, 0, 0); stale_eax := 0; patience := 2 |}.
#[local] Instance some_image : Image := {| literal _ := 0; tprintf_buffer := 8000 |}.

(** kprintf("CPU %d!", 7) with the format at 1000 and the buffer at 4000. *)
Lemma kprintf_reaches_serial_witness :
  let m := poke 1000 (chars "CPU %d!" ++ [0]) (zeros 4000 256) in
  exists m' t, kprintf_call 4000 1000 [7] (kernel_at m 0 0 40) = Ret tt (set_k_io t (set_mem m' (kernel_at m 0 0 40))) /\
    sent PORT_COM1 t = rev (chars "CPU 7!").
Proof.
  intros m. destruct (kprintf_reaches_serial 4000 1000 (chars "CPU %d!") [VNum 7] [7] (chars "CPU 7!")
    (kernel_at m 0 0 40)) as (m' & t & E & Hs & _).
  - lia.
  - apply (mapped_spec 256). vm_compute. reflexivity.
  - split; [apply cstrb_sound; vm_compute; reflexivity|]. left. vm_compute. done.
  - repeat constructor.
  - vm_compute. reflexivity.
  - cbn. lia.
  - repeat constructor.
  - intros t. exists 0%nat. split; [cbn; lia|reflexivity].
  - reflexivity.
  - exists m', t. split; [exact E|]. rewrite Hs. apply app_nil_r.
Defined.

(** kprintf("ab%d\n", -5) on the small screen, with the buffer at 10000. *)
Definition kprintf_mem : memory := print_mem ∪ zeros 10000 256.
Lemma kprintf_reaches_screen_witness :
  exists t' m' t, let s' := set_k_io t (shown t' m' (print_kernel_at kprintf_mem)) in
    kprintf_call 10000 9000 [2 ^ 32 - 5] (print_kernel_at kprintf_mem) = Ret tt s' /\
    sent PORT_COM1 t = rev (chars "ab-5" ++ [10]) /\ (exists r rs, shows s' (Tty 0 0xCCCCCC (Some (prompt_row 0 true) :: Some r :: rs))).
Proof.
  destruct print_mem_regions as (R1 & R2 & R3).
  assert (R : region 512 132 kprintf_mem /\ region 4096 540 kprintf_mem /\ region 8000 256 kprintf_mem /\
    region 10000 256 kprintf_mem).
  { unfold kprintf_mem. split_and!; [by apply region_union_l..|apply region_union_r, region_zeros]. }
  clear R1 R2 R3. destruct R as (R1 & R2 & R3 & R4).
  assert (E : rd 1 515 kprintf_mem = 1) by (vm_compute; reflexivity).
  assert (Hc : cstr kprintf_mem 9000 (chars "ab%d" ++ [10])) by (apply cstrb_sound; vm_compute; reflexivity).
  revert R1 R2 R3 R4 E Hc. generalize kprintf_mem. intros m R1 R2 R3 R4 E Hc.
  assert (Hoff : forall a, 8000 <= a < 11000 -> off_display (print_kernel_at m) a).
  { intros a Ha. unfold off_display, drawn_to.
    change (rd 1 (font_header (k_term (print_kernel_at m)) + off_char_height) (smem (print_kernel_at m))) with (rd 1 515 m).
    rewrite E. cbn in Ha |- *. change (108 `div` 4) with 27. lia. }
  destruct (kprintf_reaches_screen 10000 9000 (chars "ab%d" ++ [10]) [VNum (2 ^ 32 - 5)] [2 ^ 32 - 5]
    (chars "ab-5" ++ [10]) (print_kernel_at m) (Tty 0 0xCCCCCC [None]) (print_display m R1 R2 E))
    as (t' & m' & t & Et & Hsent & _ & Hsh & _).
  - split; unfold line_ok, is_u32; cbn; lia.
  - reflexivity.
  - split; try done.
    + intros [|[|k]] r Hk; done.
    + intros r Hr%elem_of_cons. destruct Hr as [|Hr%not_elem_of_nil]; done.
  - lia.
  - exact R4.
  - intros a Ha. apply Hoff. lia.
  - cbn. lia.
  - exact R3.
  - intros a Ha. apply Hoff. cbn in Ha. lia.
  - cbn. lia.
  - split; [exact Hc|]. left. cbn. lia.
  - repeat constructor.
  - vm_compute. reflexivity.
  - cbn. lia.
  - repeat (apply Forall_cons; split; [done|]). by apply Forall_nil.
  - intros t. exists 0%nat. split; [cbn; lia|reflexivity].
  - exists t', m', t. split; [exact Et|]. split; [rewrite Hsent; apply app_nil_r|].
    eexists _, _. exact Hsh.
Defined.
