(* ===== verification/Main.v ===== *)
(** * kernel.c: start-up and the event loop *)
From S2P Require Import Prelude Machine Math Atomic MemLib Str Regions Heap Pmm Slob SlobProofs Kstate.
From S2P Require Import KernelHeap Vm Acpi Ioapic Hpet Lapic Serial Queue Desc Pci Ps2 Terminal.

Section main.
Context `{Hardware} `{Image}.

(** One round of the kernel loop. *)
Definition kernel_loop_body : M kernel unit :=
  q ← gets q_keyboard;
  num_items ← load 4 (q + off_num_items);
  if 0 <? num_items then
    disable_interrupts ;;
    scanCode ← cqueue_read q;
    enable_interrupts ;;
    m ← gets scancode_map;
    (if Z.of_nat (length m) <=? scanCode then fail OutOfBounds else mret tt) ;;
    match key_for m scanCode with
    | Some ke => term_keyevent ke
    | None => mret tt
    end
  else mret tt.

(** report_cpu_details; [vendor] and [brand] are its local buffers, of 13 and
    49 bytes and zeroed. The two strings are printed from memory. *)
Definition report_cpu_details (vendor brand : Z) : M kernel unit :=
  memset vendor 0 13 ;;
  get_cpu_vendor vendor ;;
  kprintf ("CPU Vendor: %s" +:+ nl) [KNum vendor] ;;
  memset brand 0 49 ;;
  get_cpu_brand brand ;;
  kprintf ("CPU Brand: %s" +:+ nl) [KNum brand] ;;
  '(perCore, total) ← get_cpu_topology;
  kprintf ("Logical Processors Per Core: %d" +:+ nl) [KNum perCore] ;;
  kprintf ("Total Logical Processors: %d" +:+ nl) [KNum total] ;;
  let '(base, max, bus) := get_cpu_frequency in
  if (base =? 0) && (max =? 0) && (bus =? 0) then
    kprintf ("CPU Frequency (0x16) not supported." +:+ nl) []
  else
    kprintf ("Base Frequency: %d" +:+ nl) [KNum base] ;;
    kprintf ("Max Frequency: %d" +:+ nl) [KNum max] ;;
    kprintf ("Bus Frequency: %d" +:+ nl) [KNum bus].

(** What the boot loader and the linker provide. *)
Record boot_info := BootInfo {
  base_revision_supported : bool;
  bi_framebuffer : Z * Z * Z * Z * Z;
  bi_modules : list (Z * Z);
  bi_vendor : Z; bi_brand : Z;
  bi_gdt : Z; bi_gdtp : Z; bi_idt : Z; bi_idtp : Z;
  bi_thunks : Z -> Z; bi_timer : Z; bi_ps2 : Z; bi_lapic_timer : Z;
  bi_memmap : list memmap_entry; bi_hhdm : Z;
  bi_rsdp : Z; bi_bsp_lapic_id : Z; bi_cpu_count : Z
}.

Definition in_pmm {A} (m : M pmm A) : M kernel A := in_slob (Slob.in_pmm m).

(** The keyboard's queue and its controller. *)
Definition start_keyboard {P : Printf kernel} : M kernel unit :=
  q ← cqueue_create 200;
  modify (set_q_keyboard q) ;;
  ps2_init.

(** kernel_main up to its loop. *)
Definition kernel_start (b : boot_info) : M kernel unit :=
  (if negb (base_revision_supported b) then hcf else mret tt) ;;
  init_serial PORT_COM1 ;;
  (let '(address, width, height, pitch, bpp) := bi_framebuffer b in
   term_init address width height pitch bpp (bi_modules b)) ;;
  term_fgcolor 0x00FF00 ;;
  kprintf ("BloreOS Alpha v0.01" +:+ nl +:+ nl) [] ;;
  term_fgcolor TERM_DEFAULT_FGCOLOR ;;
  report_cpu_details (bi_vendor b) (bi_brand b) ;;
  disable_interrupts ;;
  init_gdt (bi_gdt b) (bi_gdtp b) ;;
  idt_init (bi_idt b) (bi_idtp b) (bi_thunks b) (bi_timer b) (bi_ps2 b) (bi_lapic_timer b) ;;
  pit_disable_timer ;;
  enable_interrupts ;;
  kprintf ("GDT/IDT initialized." +:+ nl) [] ;;
  in_pmm (kmem_init (bi_memmap b) (bi_hhdm b)) ;;
  in_slob slob_init ;;
  n ← gets (fun s => num_pages_available (slob_pmm (k_slob s)));
  kprintf ("PMM Available Pages: %lu" +:+ nl) [KNum n] ;;
  acpi_init (bi_rsdp b) ;;
  hpet_init ;;
  cpu_init (bi_bsp_lapic_id b) (bi_cpu_count b) ;;
  lapic_init ;;
  pci_init ;;
  nvme_init ;;
  start_keyboard ;;
  vm_init.

(** kernel_main: start, then [rounds] rounds of the endless loop. *)
Fixpoint kernel_rounds (rounds : nat) : M kernel unit :=
  match rounds with
  | O => mret tt
  | S k => kernel_loop_body ;; kernel_rounds k
  end.
Definition kernel_main (b : boot_info) (rounds : nat) : M kernel unit :=
  kernel_start b ;; kernel_rounds rounds.
End main.
