(* ===== verification/MainProps.v ===== *)
(** * kernel.c and idt.c: the properties of the event loop *)
From S2P Require Import Prelude Machine Atomic Regions Heap Pmm Slob Kstate VmProps Poll Acpi Ioapic Hpet Lapic Queue QueueProps Desc Ps2 Ps2Props Terminal Main.

(** ** Code that only touches memory and the log *)

Definition machine_only `{HasMachine St} {A} (m : M St A) : Prop :=
  forall s a s', m s = Ret a s' -> exists mc, s' = set_mach mc s.

Section machine_only.
Context `{HasMachine St}.

Lemma mo_bind {A B} (m : M St A) (k : A -> M St B) :
  machine_only m -> (forall a, machine_only (k a)) -> machine_only (m ≫= k).
Proof.
  intros Hm Hk s b s' E. unfold mbind, M_bind in E. destruct (m s) as [a s1| | | |] eqn:E1; try done.
  destruct (Hm _ _ _ E1) as [mc1 ->]. destruct (Hk a _ _ _ E) as [mc2 ->].
  exists mc2. apply set_set_mach.
Qed.
Lemma mo_ret {A} (a : A) : machine_only (mret a).
Proof. intros s a' s' [= <- <-]. exists (get_mach s). by rewrite set_get_mach. Qed.
Lemma mo_load n a : machine_only (load n a).
Proof. intros s v s'. unfold load. case_match; [|done]. intros [= <- <-]. exists (get_mach s). by rewrite set_get_mach. Qed.
Lemma mo_store n a v : machine_only (store n a v).
Proof. intros s u s'. unfold store. case_match; [|done]. intros [= <- <-]. by eexists. Qed.
Lemma mo_kprintf f a : machine_only (kprintf f a).
Proof. intros s u s' [= <- <-]. by eexists. Qed.
Lemma mo_hcf {A} : machine_only (@hcf St A).
Proof. by intros s a s'. Qed.
Lemma mo_spin {A} : machine_only (@spin St A).
Proof. by intros s a s'. Qed.
End machine_only.
Create HintDb machine_only.
#[export] Hint Resolve mo_bind mo_ret mo_load mo_store mo_kprintf mo_hcf mo_spin : machine_only.

Lemma cqueue_read_machine_only `{HasMachine St} q : machine_only (cqueue_read (St := St) q).
Proof.
  unfold cqueue_read, spinlock_lock, spinlock_unlock_mem, tas_mem.
  repeat (first [apply mo_bind; intros | case_match]; auto with machine_only).
Qed.
Lemma cqueue_write_machine_only `{HasMachine St} q v : machine_only (cqueue_write (St := St) q v).
Proof.
  unfold cqueue_write, spinlock_lock, spinlock_unlock_mem, tas_mem.
  repeat (first [apply mo_bind; intros | case_match]; auto with machine_only).
Qed.

Section events.
Context `{Hardware} `{Image}.

(** The register of the local APIC that ends an interrupt, in the direct map. *)
Definition eoi_register (s : kernel) : Z :=
  u64 (vmm_higher_half_offset (slob_pmm (k_slob s)) +64 apic_base (k_lapic s) +64 LAPIC_EOI).

Lemma lapic_eoi_ok s : lapic_eoi s = Ret tt (after_io [MmioWrite 4 (eoi_register s) 0] s).
Proof. done. Qed.

Lemma handle_keyboard_ok len items s :
  let q := q_keyboard s in
  let key := u8 (device (k_io s) (PortIn 1 0x60)) in
  queue_at (smem s) q len items ->
  exists s' mc, _handle_keyboard s = Ret tt s' /\
    queue_at (smem s') q len (if Z.of_nat (length items) =? len then items else items ++ [key]) /\
    (forall x, off_queue q len x -> smem s' !! x = smem s !! x) /\
    s' = set_k_io ([MmioWrite 4 (eoi_register s) 0; PortIn 1 0x60] ++ k_io s) (set_mach mc s).
Proof.
  intros q key Hq. unfold _handle_keyboard, ps2_read_no_wait, inb.
  rewrite (bind_ret_eq _ _ _ key (after_io [PortIn 1 0x60] s)) by done.
  erewrite bind_ret_eq; [|reflexivity]. change (q_keyboard (after_io _ s)) with q.
  set (s1 := after_io [PortIn 1 0x60] s).
  assert (Hw : exists b s2, cqueue_write q key s1 = Ret b s2 /\
    queue_at (smem s2) q len (if Z.of_nat (length items) =? len then items else items ++ [key]) /\
    (forall x, off_queue q len x -> smem s2 !! x = smem s !! x)).
  { pose proof (queue_do_ok q len items (QWrite key) s1 Hq) as Hdo.
    cbn [spec_op queue_do] in Hdo. unfold mbind, M_bind in Hdo.
    assert (Hkey : queue_op_ok (QWrite key)) 
      by (pose proof (u8_range (device (k_io s) (PortIn 1 0x60))) as Hk; fold key in Hk;
          unfold is_u8 in Hk; change (is_u32 key); unfold is_u32; lia).
    destruct (Z.of_nat (length items) =? len); destruct (Hdo Hkey) as (s2 & E & Hq2 & Hx);
      destruct (cqueue_write q key s1) as [b s3| | | |]; try done; injection E as _ ->; by exists b, s2. }
  destruct Hw as (b & s2 & E & Hq2 & Hx). destruct (cqueue_write_machine_only q key _ _ _ E) as [mc ->].
  rewrite (bind_ret_eq _ _ _ _ _ E), lapic_eoi_ok. eexists _, mc. split; [reflexivity|]. done.
Qed.

(** The keyboard interrupt. The handler takes one byte from the data port
    and appends it to the keyboard queue, or drops it when the queue is full;
    it ends by writing the end-of-interrupt register, has read the port only
    once, and touches no memory outside the queue and nothing else of the
    kernel's state. *)
Theorem handle_keyboard_enqueues len items s :
  let q := q_keyboard s in
  let key := u8 (device (k_io s) (PortIn 1 0x60)) in
  queue_at (smem s) q len items ->
  exists s' mc, _handle_keyboard s = Ret tt s' /\
    queue_at (smem s') q len (if Z.of_nat (length items) =? len then items else items ++ [key]) /\
    (forall x, off_queue q len x -> smem s' !! x = smem s !! x) /\
    s' = set_k_io ([MmioWrite 4 (eoi_register s) 0; PortIn 1 0x60] ++ k_io s) (set_mach mc s).
Proof. apply handle_keyboard_ok. Qed.

Lemma kernel_loop_body_ok len items s :
  let q := q_keyboard s in
  queue_at (smem s) q len items ->
  length (scancode_map s) = 256%nat -> Forall is_u8 items ->
  match items with
  | [] => kernel_loop_body s = Ret tt s
  | code :: rest => exists mc,
      let s1 := set_k_io ([Sti; Cli] ++ k_io s) (set_k_cpu (set_intr true (k_cpu s)) (set_mach mc s)) in
      queue_at (smem s1) q len rest /\
      (forall x, off_queue q len x -> smem s1 !! x = smem s !! x) /\
      kernel_loop_body s =
        match key_for (scancode_map s) code with
        | Some ke => term_keyevent ke s1
        | None => Ret tt s1
        end
  end.
Proof.
  intros q Hq Hlen Hitems. pose proof (qa_region _ _ _ _ Hq) as Hr. pose proof (qa_len _ _ _ _ Hq) as [Hl _].
  pose proof (qa_num _ _ _ _ Hq) as [_ Hn]. unfold kernel_loop_body. unfold off_num_items, sizeof_CQueue in *.
  erewrite bind_ret_eq; [|reflexivity]. fold q. erewrite bind_ret_eq; [|apply load_ok; mregion].
  rewrite Hn. destruct items as [|code rest]; [done|].
  rewrite (proj2 (Z.ltb_lt 0 _)) by (cbn; lia).
  apply Forall_cons in Hitems as [Hcode _].
  set (s1 := set_k_cpu (set_intr false (k_cpu s)) (after_io [Cli] s)).
  rewrite (bind_ret_eq _ _ _ tt s1) by done.
  assert (Hq1 : queue_at (smem s1) q len (code :: rest)) by (change (smem s1) with (smem s); exact Hq).
  destruct (cqueue_read_ok q len rest code s1 Hq1) as (s2 & E & Hq2 & Hx).
  destruct (cqueue_read_machine_only q _ _ _ E) as [mc ->]. rewrite (bind_ret_eq _ _ _ _ _ E).
  erewrite bind_ret_eq; [|reflexivity]. erewrite bind_ret_eq; [|reflexivity].
  exists mc. cbv zeta. split; [exact Hq2|]. split; [exact Hx|].
  lazymatch goal with |- context [length ?m] => change m with (scancode_map s) end.
  rewrite Hlen, (proj2 (Z.leb_gt _ _)) by (unfold is_u8 in Hcode; lia).
  erewrite bind_ret_eq; [|reflexivity]. by destruct (key_for (scancode_map s) code).
Qed.

(** The event loop. With a scan code waiting, one round of the loop takes
    the oldest one out of the queue with interrupts disabled exactly for that
    call, and hands the event the scan code map holds for it to the terminal,
    or ignores it where the map has none; with an empty queue a round does
    nothing at all. *)
Theorem kernel_loop_dispatches len items s :
  let q := q_keyboard s in
  queue_at (smem s) q len items ->
  length (scancode_map s) = 256%nat -> Forall is_u8 items ->
  match items with
  | [] => kernel_loop_body s = Ret tt s
  | code :: rest => exists mc,
      let s1 := set_k_io ([Sti; Cli] ++ k_io s) (set_k_cpu (set_intr true (k_cpu s)) (set_mach mc s)) in
      queue_at (smem s1) q len rest /\
      (forall x, off_queue q len x -> smem s1 !! x = smem s !! x) /\
      kernel_loop_body s =
        match key_for (scancode_map s) code with
        | Some ke => term_keyevent ke s1
        | None => Ret tt s1
        end
  end.
Proof. apply kernel_loop_body_ok. Qed.
End events.

(** The queue of [QueueProps], holding 7 and 8, as the keyboard queue; the
    keyboard's data port answers 30. *)
#[local] Instance keyboard_hardware : Hardware := {|
  device _ a := match a with PortIn 1 0x60 => 30 | _ => 0 end;
  cpuid_regs _ _ := (0, 0, 0, 0); stale_eax := 0; patience := 4 |}.
#[local] Instance keyboard_image : Image := {| literal _ := 0; tprintf_buffer := 0 |}.
Definition keyboard_kernel : kernel :=
  set_q_keyboard 4096 (set_scancode_map full_map (kernel_at (smem demo_queue) (2 ^ 47) 0 40)).
Lemma keyboard_queue_at : queue_at (smem keyboard_kernel) 4096 3 [7; 8].
Proof. change (smem keyboard_kernel) with (smem demo_queue). exact demo_queue_at. Qed.

Lemma handle_keyboard_enqueues_witness :
  exists s', _handle_keyboard keyboard_kernel = Ret tt s' /\ queue_at (smem s') 4096 3 [7; 8; 30].
Proof.
  assert (Eq : q_keyboard keyboard_kernel = 4096) by reflexivity.
  pose proof keyboard_queue_at as Hq. revert Eq Hq. generalize keyboard_kernel. intros s Eq Hq.
  destruct (handle_keyboard_enqueues 3 [7; 8] s) as (s' & mc & E & Hq' & _); [by rewrite Eq|].
  exists s'. split; [exact E|]. rewrite Eq in Hq'. exact Hq'.
Defined.

Lemma kernel_loop_dispatches_witness :
  exists s1, queue_at (smem s1) 4096 3 [8] /\ intr (k_cpu s1) = true /\
    kernel_loop_body keyboard_kernel = term_keyevent (KeyEvent 7 0 54 false) s1.
Proof.
  assert (Eq : q_keyboard keyboard_kernel = 4096) by reflexivity.
  assert (El : length (scancode_map keyboard_kernel) = 256%nat) by (vm_compute; reflexivity).
  assert (Ek : key_for (scancode_map keyboard_kernel) 7 = Some (KeyEvent 7 0 54 false)) by (vm_compute; reflexivity).
  pose proof keyboard_queue_at as Hq. revert Eq El Ek Hq. generalize keyboard_kernel. intros s Eq El Ek Hq.
  destruct (kernel_loop_dispatches 3 [7; 8] s) as (mc & Hq' & _ & E); [by rewrite Eq|done| |].
  - apply Forall_cons. split; [done|]. by apply Forall_singleton.
  - rewrite Ek in E. rewrite Eq in Hq'. eexists. split; [exact Hq'|]. split; [reflexivity|exact E].
Defined.
