(* ===== verification/Isr.v ===== *)
(** * include/cpu.h, isr_ps2.S, isr_faults.S: around the interrupt handlers

    The asm statements before and after a handler written in C, and the assembly
    stubs, as the instructions they consist of, on the registers and the stack
    they touch. *)
From S2P Require Import Prelude Machine Pmm Slob Kstate VmProps Acpi Ioapic Hpet Lapic Queue QueueProps Desc Poll Main MainProps.

Inductive gp :=
  | RAX | RBX | RCX | RDX | RSI | RDI | RBP
  | R8 | R9 | R10 | R11 | R12 | R13 | R14 | R15.
#[export] Instance gp_eq_dec : EqDecision gp.
Proof. solve_decision. Defined.

(** The general registers, the two data segment selectors, the direction flag,
    and the stack as its 64-bit words from the top down. *)
Record context := Context { reg : gp -> Z; es : Z; ds : Z; df : bool; stack : list Z }.
(** What iretq leaves: the interrupted program's registers, and the
    instruction, code segment, flags, stack and stack segment it takes from the
    stack. *)
Record resumed := Resumed { re_reg : gp -> Z; re_es : Z; re_ds : Z; re_frame : list Z }.

Definition set_gp (r : gp) (v : Z) (f : gp -> Z) : gp -> Z := fun r' => if decide (r' = r) then v else f r'.

Inductive instr :=
  | Push (r : gp) | Pop (r : gp)
  | MovFromEs | MovFromDs     (* mov %es, %eax *)
  | MovToEs | MovToDs         (* mov %eax, %es *)
  | AddRsp8
  | Cld
  | MovImm (v : Z) (r : gp)   (* mov $v, %r *)
  | MovReg (r r' : gp).       (* mov %r, %r' *)

(** A move to eax clears the upper half of rax; a selector is 16 bits wide. *)
Definition exec (i : instr) (c : context) : option context :=
  match i with
  | Push r => Some (Context (reg c) (es c) (ds c) (df c) (reg c r :: stack c))
  | Pop r => match stack c with
             | v :: st => Some (Context (set_gp r v (reg c)) (es c) (ds c) (df c) st)
             | [] => None
             end
  | MovFromEs => Some (Context (set_gp RAX (es c) (reg c)) (es c) (ds c) (df c) (stack c))
  | MovFromDs => Some (Context (set_gp RAX (ds c) (reg c)) (es c) (ds c) (df c) (stack c))
  | MovToEs => Some (Context (reg c) (u16 (reg c RAX)) (ds c) (df c) (stack c))
  | MovToDs => Some (Context (reg c) (es c) (u16 (reg c RAX)) (df c) (stack c))
  | AddRsp8 => match stack c with
               | _ :: st => Some (Context (reg c) (es c) (ds c) (df c) st)
               | [] => None
               end
  | Cld => Some (Context (reg c) (es c) (ds c) false (stack c))
  | MovImm v r => Some (Context (set_gp r (u64 v) (reg c)) (es c) (ds c) (df c) (stack c))
  | MovReg r r' => Some (Context (set_gp r' (reg c r) (reg c)) (es c) (ds c) (df c) (stack c))
  end.
Fixpoint run (l : list instr) (c : context) : option context :=
  match l with
  | [] => Some c
  | i :: l' => c' ← exec i c; run l' c'
  end.

Definition isr_save : list instr :=
  [Push R15; Push R14; Push R13; Push R12; Push R11; Push R10; Push R9; Push R8; Push RBP; Push RDI;
   Push RSI; Push RDX; Push RCX; Push RBX; Push RAX; MovFromEs; Push RAX; MovFromDs; Push RAX].

(** Up to iretq, which pops five words and goes on with the rest. *)
Definition isr_restore_pops : list instr :=
  [Pop RAX; MovToDs; Pop RAX; MovToEs; Pop RAX; Pop RBX; Pop RCX; Pop RDX; Pop RSI; Pop RDI; Pop RBP;
   Pop R8; Pop R9; Pop R10; Pop R11; Pop R12; Pop R13; Pop R14; Pop R15; AddRsp8].
Definition iretq (c : context) : option resumed :=
  match stack c with
  | rip :: cs :: rflags :: rsp :: ss :: _ => Some (Resumed (reg c) (es c) (ds c) [rip; cs; rflags; rsp; ss])
  | _ => None
  end.
Definition isr_restore (c : context) : option resumed := c' ← run isr_restore_pops c; iretq c'.

Lemma set_gp_eq r v f : set_gp r v f r = v.
Proof. unfold set_gp. by rewrite decide_True. Qed.
Lemma set_gp_ne r r' v f : r' <> r -> set_gp r v f r' = f r'.
Proof. intros. unfold set_gp. by rewrite decide_False. Qed.

Ltac step_isr := cbn [run exec mbind option_bind reg es ds df stack app].

Definition saved (f : gp -> Z) (e d : Z) : list Z :=
  [d; e; f RAX; f RBX; f RCX; f RDX; f RSI; f RDI; f RBP; f R8; f R9; f R10; f R11; f R12; f R13; f R14; f R15].

Lemma isr_save_run f e d b st :
  run isr_save (Context f e d b st) = Some (Context (set_gp RAX d (set_gp RAX e f)) e d b (saved f e d ++ st)).
Proof. unfold isr_save, saved. step_isr. by rewrite !set_gp_eq. Qed.

Lemma isr_restore_run f e d w rip cs rflags rsp ss st b : is_u16 e -> is_u16 d ->
  stack b = saved f e d ++ w :: rip :: cs :: rflags :: rsp :: ss :: st ->
  exists g, isr_restore b = Some (Resumed g e d [rip; cs; rflags; rsp; ss]) /\ forall r, g r = f r.
Proof.
  intros He Hd Hb. destruct b as [f' e' d' b' st']. cbn [stack] in Hb. subst st'.
  unfold isr_restore, isr_restore_pops, saved. step_isr. rewrite !set_gp_eq, !u16_small by done.
  cbn [iretq stack reg es ds]. eexists. split; [reflexivity|].
  intros r. destruct r; repeat (rewrite set_gp_eq || rewrite set_gp_ne by done); done.
Qed.

(** An interrupt handler resumes what it interrupted. isr_save pushes 17
    words; whatever the handler's body then does to the registers, as long as
    it leaves the stack as it found it, isr_restore puts all 15 general
    registers and both selectors back and returns through the frame that lies
    one word below those on the stack: the code counts on a function prologue
    that moved the stack by exactly one word and changed no register, and with
    none it would return through a frame that is off by one. *)
Theorem isr_save_restores c w rip cs rflags rsp ss rest :
  is_u16 (es c) -> is_u16 (ds c) -> stack c = w :: rip :: cs :: rflags :: rsp :: ss :: rest ->
  exists c1, run isr_save c = Some c1 /\ (length (stack c1) = 17 + length (stack c))%nat /\
    forall body, stack body = stack c1 ->
      exists r, isr_restore body = Some r /\ (forall g, re_reg r g = reg c g) /\
        re_es r = es c /\ re_ds r = ds c /\ re_frame r = [rip; cs; rflags; rsp; ss].
Proof.
  intros He Hd Hst. destruct c as [f e d b st]. cbn [es ds stack reg] in *. subst st.
  eexists. split; [apply isr_save_run|]. split; [cbn [stack]; by rewrite length_app|].
  intros body Hb. destruct (isr_restore_run f e d w rip cs rflags rsp ss rest body He Hd Hb) as (g & E & Hg).
  eexists. split; [exact E|]. by split_and!.
Qed.

(** A program interrupted with its return frame behind one word of prologue;
    the handler's body clobbers every register. *)
Lemma isr_save_restores_witness :
  let f g := match g with RAX => 7 | RBP => 0x7000 | R15 => 9 | _ => 0 end in
  exists c1, run isr_save (Context f 16 16 true [0; 0x1000; 8; 0x202; 0x8000; 16]) = Some c1 /\
    exists r, isr_restore (Context (fun _ => 99) 1 2 false (stack c1)) = Some r /\
      re_reg r RBP = 0x7000 /\ re_frame r = [0x1000; 8; 0x202; 0x8000; 16].
Proof.
  intros f. destruct (isr_save_restores (Context f 16 16 true [0; 0x1000; 8; 0x202; 0x8000; 16])
    0 0x1000 8 0x202 0x8000 16 []) as (c1 & E & _ & Hb); [unfold is_u16; simpl; lia..|reflexivity|].
  exists c1. split; [exact E|]. destruct (Hb (Context (fun _ => 99) 1 2 false (stack c1)) eq_refl) as (r & Er & Hr & _ & _ & Hf).
  exists r. split; [exact Er|]. split; [by rewrite Hr|exact Hf].
Defined.

(** rax to and from a register the compiler picks. *)
Definition get_rax (r : gp) : list instr := [MovReg RAX r].
Definition set_rax (r : gp) : list instr := [MovReg r RAX].

(** ** The assembly stubs *)

Definition isr_ps2_enter : list instr :=
  [Push R15; Push R14; Push R13; Push R12; Push R11; Push R10; Push R9; Push R8; Push RBP; Push RDI;
   Push RSI; Push RDX; Push RCX; Push RBX; Push RAX; MovFromEs; Push RAX; MovFromDs; Push RAX; Cld].
Definition isr_ps2_leave : list instr :=
  [Pop RAX; MovToDs; Pop RAX; MovToEs; Pop RAX; Pop RBX; Pop RCX; Pop RDX; Pop RSI; Pop RDI; Pop RBP;
   Pop R8; Pop R9; Pop R10; Pop R11; Pop R12; Pop R13; Pop R14; Pop R15].

Section stubs.
Context `{Hardware}.

(** [callee] is what the compiled C function does to the context; [None] where
    the stack runs out. *)
Definition ISR_Handler_PS2 (callee : context -> context) (c : context) : M kernel (option resumed) :=
  match run isr_ps2_enter c with
  | None => mret None
  | Some c1 => _handle_keyboard ;; mret (c2 ← run isr_ps2_leave (callee c1); iretq c2)
  end.

Definition interrupt_thunk_enter (num : Z) : list instr := [MovImm num RDI; Cld].
(** Interrupts are off in the gates the thunks are put in, and the thunk of the
    NMI halts too: the halt is the end. *)
Definition interrupt_thunk (num : Z) (c : context) : M kernel unit :=
  match run (interrupt_thunk_enter num) c with
  | None => mret tt
  | Some c1 => _handle_fault (reg c1 RDI) ;; io_do Hlt ;; hcf
  end.
(** The table of their addresses. *)
Definition isr_thunks (address : Z -> Z) : list Z := address <$> seqZ 0 32.

Lemma isr_ps2_enter_run f e d b st :
  run isr_ps2_enter (Context f e d b st) = Some (Context (set_gp RAX d (set_gp RAX e f)) e d false (saved f e d ++ st)).
Proof. unfold isr_ps2_enter, saved. step_isr. by rewrite !set_gp_eq. Qed.
Lemma isr_ps2_leave_run f e d rip cs rflags rsp ss st b : is_u16 e -> is_u16 d ->
  stack b = saved f e d ++ rip :: cs :: rflags :: rsp :: ss :: st ->
  exists g, (c2 ← run isr_ps2_leave b; iretq c2) = Some (Resumed g e d [rip; cs; rflags; rsp; ss]) /\ forall r, g r = f r.
Proof.
  intros He Hd Hb. destruct b as [f' e' d' b' st']. cbn [stack] in Hb. subst st'.
  unfold isr_ps2_leave, saved. step_isr. rewrite !set_gp_eq, !u16_small by done.
  cbn [iretq stack reg es ds]. eexists. split; [reflexivity|].
  intros r. destruct r; repeat (rewrite set_gp_eq || rewrite set_gp_ne by done); done.
Qed.

(** C19: the keyboard interrupt as the processor takes it. The stub of
    isr_ps2.S saves 15 registers and both selectors, clears the direction flag,
    calls _handle_keyboard and resumes the interrupted program through the
    frame the processor pushed: whatever the compiled function does to the
    registers, as long as it leaves the stack as it found it, the program
    continues where it was with all of them as they were, and the key is in the
    queue (or dropped, if that is full). *)
Theorem keyboard_interrupt_transparent callee c rip cs rflags rsp ss rest len items s :
  let q := q_keyboard s in
  let key := u8 (device (k_io s) (PortIn 1 0x60)) in
  is_u16 (es c) -> is_u16 (ds c) -> stack c = rip :: cs :: rflags :: rsp :: ss :: rest ->
  (forall c1, stack (callee c1) = stack c1) -> queue_at (smem s) q len items ->
  exists r s', ISR_Handler_PS2 callee c s = Ret (Some r) s' /\
    (forall g, re_reg r g = reg c g) /\ re_es r = es c /\ re_ds r = ds c /\
    re_frame r = [rip; cs; rflags; rsp; ss] /\
    queue_at (smem s') q len (if Z.of_nat (length items) =? len then items else items ++ [key]) /\
    k_io s' = [MmioWrite 4 (eoi_register s) 0; PortIn 1 0x60] ++ k_io s.
Proof.
  intros q key He Hd Hst Habi Hq. destruct (handle_keyboard_ok len items s Hq) as (s' & mc & E & Hq' & _ & Es).
  destruct c as [f e d b st]. cbn [es ds stack reg] in *. subst st.
  unfold ISR_Handler_PS2.
  rewrite isr_ps2_enter_run.
  set (c1 := Context _ _ _ false _).
  destruct (isr_ps2_leave_run f e d rip cs rflags rsp ss rest (callee c1) He Hd) as (g & Er & Hg).
  { rewrite Habi. reflexivity. }
  rewrite (bind_ret_eq _ _ _ _ _ E). exists (Resumed g e d [rip; cs; rflags; rsp; ss]), s'.
  rewrite Er. split; [reflexivity|]. split_and!; try done. by rewrite Es.
Qed.

(** A fault is reported by its name where the handler has one; then the
    processor halts for good. *)
Lemma interrupt_thunk_halts num name c s :
  0 <= num < 32 -> fault_names !! Z.to_nat num = Some name ->
  interrupt_thunk num c s = Halted (set_k_io (Hlt :: k_io s)
    (logged (Log ("**FAULT**: (%lu) %s" +:+ nl) [KNum num; KStr name] :: klog (get_mach s)) s)).
Proof.
  intros Hn Hf. unfold interrupt_thunk, interrupt_thunk_enter. step_isr. rewrite set_gp_eq, u64_small by lia.
  unfold _handle_fault. by rewrite Hf.
Qed.
End stubs.

#[local] Existing Instance keyboard_hardware.
(** A program interrupted by the keyboard of [MainProps]; the handler's code
    clobbers every register. *)
Lemma keyboard_interrupt_transparent_witness :
  let f g := match g with RAX => 7 | RBP => 0x7000 | R15 => 9 | _ => 0 end in
  exists r s', ISR_Handler_PS2 (fun c => Context (fun _ => 99) 1 2 true (stack c))
      (Context f 16 16 true [0x1000; 8; 0x202; 0x8000; 16]) keyboard_kernel = Ret (Some r) s' /\
    re_reg r RBP = 0x7000 /\ queue_at (smem s') 4096 3 [7; 8; 30].
Proof.
  intros f. assert (Eq : q_keyboard keyboard_kernel = 4096) by reflexivity.
  assert (Ei : k_io keyboard_kernel = []) by reflexivity.
  pose proof keyboard_queue_at as Hq. revert Eq Ei Hq. generalize keyboard_kernel. intros s Eq Ei Hq.
  destruct (keyboard_interrupt_transparent (fun c => Context (fun _ => 99) 1 2 true (stack c))
    (Context f 16 16 true [0x1000; 8; 0x202; 0x8000; 16]) 0x1000 8 0x202 0x8000 16 [] 3 [7; 8] s)
    as (r & s' & E & Hr & _ & _ & _ & Hq' & _); [unfold is_u16; simpl; lia..|reflexivity|done|by rewrite Eq|].
  exists r, s'. split; [exact E|]. split; [by rewrite Hr|]. rewrite Eq in Hq'. exact Hq'.
Defined.
