(* ===== verification/Console.v ===== *)
(** * From key presses to the input line: the keyboard interrupt, the queue,
    the event loop and the terminal together *)
From S2P Require Import Prelude Machine Pmm Slob Str StrFormat StrProps Kstate VmProps Poll Queue QueueProps Lapic Desc Ps2 Ps2Props Terminal TermPrint TermInput Main MainProps.

(** ** The abstract machine *)

(** What can happen next: the keyboard interrupts, or the loop goes round. *)
Inductive happening := Interrupt | Round.

(** The scan codes the keyboard sends, the number of them taken so far, the
    codes in the queue and the typed line. *)
Record desk_state := Desk { taken : nat; waiting : list Z; line : list Z }.

Definition desk_step (len width : Z) (codes : nat -> Z) (d : desk_state) (h : happening) : option desk_state :=
  match h with
  | Interrupt => Some (Desk (S (taken d))
      (if Z.of_nat (length (waiting d)) =? len then waiting d else waiting d ++ [codes (taken d)]) (line d))
  | Round =>
      match waiting d with
      | [] => Some d
      | code :: rest =>
          match layout_event code with
          | None => Some (Desk (taken d) rest (line d))
          | Some ke => if key_fits width (line d) ke then Some (Desk (taken d) rest (edit_line (line d) ke)) else None
          end
      end
  end.
Fixpoint desk_run (len width : Z) (codes : nat -> Z) (d : desk_state) (hs : list happening) : option desk_state :=
  match hs with
  | [] => Some d
  | h :: hs' => d' ← desk_step len width codes d h; desk_run len width codes d' hs'
  end.

(** The keys of the layout are plain characters. *)
Lemma layout_plain code ke : layout_event code = Some ke -> plain_key ke.
Proof.
  unfold layout_event. intros E. apply fmap_Some in E as ([i ke'] & (Hi & _ & _)%list_find_Some & ->).
  assert (Hall : forallb (fun k => (ascii k =? 0) || (negb (ascii k =? ch_percent) && (0 <? ascii k) && (ascii k <? 128))) key_map = true)
    by (vm_compute; reflexivity).
  rewrite forallb_forall in Hall. specialize (Hall ke'). rewrite <- list_elem_of_In in Hall.
  specialize (Hall (list_elem_of_lookup_2 _ _ _ Hi)). cbn [snd].
  apply orb_true_iff in Hall as [H%Z.eqb_eq|[[H1%negb_true_iff%Z.eqb_neq H2%Z.ltb_lt]%andb_true_iff H3%Z.ltb_lt]%andb_true_iff];
    [by left|by right].
Qed.

Section desk.
Context `{Hardware} `{Image}.

Definition happen (h : happening) : M kernel unit :=
  match h with Interrupt => _handle_keyboard | Round => kernel_loop_body end.
Fixpoint happens (hs : list happening) : M kernel unit :=
  match hs with [] => mret tt | h :: hs' => happen h ;; happens hs' end.

(** How often the keyboard's data port was read. *)
Definition is_key_read (a : io) : bool := match a with PortIn 1 0x60 => true | _ => false end.
Definition reads (t : list io) : nat := length (List.filter is_key_read t).

(** The addresses the terminal depends on. *)
Definition console_uses (s : kernel) (a : Z) : Prop :=
  console_area s a \/ font_header (k_term s) <= a < font_header (k_term s) + 4 \/
  exists x, x ∈ console_literals /\ literal x <= a <= literal x + Z.of_nat (length (chars x)).

(** The kernel [s] is in the abstract state [d]. *)
Record at_desk (q len width : Z) (s : kernel) (d : desk_state) : Prop := {
  dk_q : q_keyboard s = q;
  dk_taken : reads (k_io s) = taken d;
  dk_queue : queue_at (smem s) q len (waiting d);
  dk_codes : Forall is_u8 (waiting d);
  dk_map : length (scancode_map s) = 256%nat /\
    forall code, 0 <= code < 256 -> key_for (scancode_map s) code = layout_event code;
  dk_line : input_at s (line d);
  dk_plain : Forall plain_char (line d);
  dk_width : fb_width (k_term s) = width;
  dk_apart : forall a, ~ off_queue q len a -> ~ console_uses s a
}.

(** The terminal does not notice what happens to other memory. *)
Lemma input_at_frame s s' l :
  input_at s l -> k_term s' = k_term s -> k_desc s' = k_desc s ->
  (forall a, console_uses s a -> smem s' !! a = smem s !! a) ->
  (forall a, is_Some (smem s !! a) -> is_Some (smem s' !! a)) -> input_at s' l.
Proof.
  intros Hin Et Ed F M. pose proof Hin as [H1 H2 H3 H4 H5 H6 H7 H8 H9 H10 H11 H12 H13 H14].
  assert (Er : rd 1 (font_header (k_term s) + off_char_height) (smem s') =
    rd 1 (font_header (k_term s) + off_char_height) (smem s)).
  { apply rd_ext. intros x Hx. unfold byte_at. unfold off_char_height in Hx. rewrite F; [done|]. right. left. lia. }
  assert (Hoff : forall a, off_display s a -> off_display s' a).
  { intros a. unfold off_display, drawn_to. by rewrite Et, Er. }
  split; rewrite ?Et, ?Ed; try done.
  - apply (display_frame s); [done|rewrite Et; apply same_screen_refl| |done].
    intros a Ha. apply F. right. by left.
  - intros a Ha. by apply M, H5.
  - intros a Ha. by apply Hoff, H6.
  - intros a Ha. by apply M, H8.
  - intros a Ha. destruct (H9 a Ha) as [Ha1 Ha2]. split; [by apply Hoff|done].
  - rewrite Forall_forall in H10. apply Forall_forall. intros x Hx. destruct (H10 x Hx) as [Hc Ha]. split.
    + apply (cstr_same (smem s)); [|done]. intros a Hi. apply F. right. right. eauto.
    + intros i Hi. unfold console_area, drawn_to. rewrite Et. by apply Ha.
  - apply (cstr_same (smem s)); [|done]. intros a Ha. apply F. left. right. left. unfold input_buffer_len in *. lia.
Qed.

(** The queue does not notice what happens to other memory. *)
Lemma queue_at_frame m m' q len items :
  queue_at m q len items -> (forall a, ~ off_queue q len a -> m' !! a = m !! a) -> queue_at m' q len items.
Proof.
  intros Hq F. pose proof Hq as [H1 H2 [H3 H3'] H4 H5 H6 H7 H8 H9].
  assert (R : forall n a, q <= a -> a + Z.of_nat n <= q + sizeof_CQueue + 4 * len -> rd n a m' = rd n a m).
  { intros n a Ha Hn. apply rd_ext. intros x Hx. unfold byte_at. rewrite F; [done|]. unfold off_queue. lia. }
  unfold_offs. split; unfold_offs; rewrite ?R by lia; try done.
  - intros x Hx. rewrite F; [by apply H2|]. unfold off_queue. unfold_offs. lia.
  - intros i v Hi. rewrite R; [by apply H8|..];
      pose proof (Z.mod_pos_bound (rd 4 (q + 0) m + Z.of_nat i) len ltac:(lia)); lia.
Qed.

(** ** The kernel follows the abstract machine *)

Context (q len width : Z) (codes : nat -> Z).
Hypothesis Hcodes : forall t, u8 (device t (PortIn 1 0x60)) = codes (reads t).

(** What the two together may write. *)
Definition desk_area (s : kernel) (a : Z) : Prop := console_area s a \/ ~ off_queue q len a.

Record follows (s s' : kernel) : Prop := {
  fo_screen : same_screen (k_term s') (k_term s);
  fo_frame : forall a, ~ desk_area s a -> smem s' !! a = smem s !! a
}.
Lemma follows_trans s1 s2 s3 : follows s1 s2 -> follows s2 s3 -> follows s1 s3.
Proof.
  intros [T F] [T' F']. split.
  - destruct T as (E1 & E2 & E3 & E4 & E5 & E6 & E7 & E8 & E9 & E10).
    destruct T' as (G1 & G2 & G3 & G4 & G5 & G6 & G7 & G8 & G9 & G10). unfold same_screen. split_and!; congruence.
  - intros a Ha. rewrite F', F; [done|done|]. intros [Hc|Hq]; apply Ha; [left|by right].
    by apply (console_area_same s1 s2).
Qed.

(** Memory outside the queue kept: the terminal's part of the state is as
    before. *)
Lemma at_desk_queue s s' d items :
  at_desk q len width s d -> k_term s' = k_term s -> k_desc s' = k_desc s -> q_keyboard s' = q_keyboard s ->
  scancode_map s' = scancode_map s -> queue_at (smem s') q len items -> Forall is_u8 items ->
  (forall x, off_queue q len x -> smem s' !! x = smem s !! x) ->
  at_desk q len width s' (Desk (reads (k_io s')) items (line d)) /\ follows s s'.
Proof.
  intros [D1 D2 D3 D4 D5 D6 D7 D8 D9] Et Ed Eq Em Hq Hi F. split; [split; cbn [taken waiting line]; try done|split].
  - by rewrite Eq.
  - by rewrite Em.
  - apply (input_at_frame s); try done.
    + intros a Ha. apply F. unfold off_queue. destruct (Z.lt_ge_cases a q); [by left|].
      destruct (Z.le_gt_cases (q + sizeof_CQueue + 4 * len) a); [by right|]. exfalso.
      apply (D9 a); [|done]. unfold off_queue. lia.
    + intros a Ha. destruct (decide (q <= a < q + sizeof_CQueue + 4 * len)) as [Hin|Hout].
      * apply (qa_region _ _ _ _ Hq). lia.
      * rewrite F; [done|]. unfold off_queue. lia.
  - by rewrite Et.
  - intros a Ha. specialize (D9 a Ha). unfold console_uses, console_area, drawn_to in *. by rewrite Et.
  - rewrite Et. apply same_screen_refl.
  - intros a Ha. apply F. unfold off_queue. destruct (Z.lt_ge_cases a q); [by left|].
    destruct (Z.le_gt_cases (q + sizeof_CQueue + 4 * len) a); [by right|]. exfalso. apply Ha. right.
    unfold off_queue. lia.
Qed.

Lemma interrupt_follows s d d' :
  at_desk q len width s d -> desk_step len width codes d Interrupt = Some d' ->
  exists s', happen Interrupt s = Ret tt s' /\ at_desk q len width s' d' /\ follows s s'.
Proof.
  intros Hd [= <-]. pose proof (dk_queue _ _ _ _ _ Hd) as Hq. rewrite <- (dk_q _ _ _ _ _ Hd) in Hq.
  destruct (handle_keyboard_ok len (waiting d) s Hq) as (s' & mc & E & Hq' & F & Es).
  rewrite (dk_q _ _ _ _ _ Hd) in Hq', F. rewrite Hcodes, (dk_taken _ _ _ _ _ Hd) in Hq'.
  exists s'. split; [exact E|].
  assert (Hr : reads (k_io s') = S (taken d)) by (rewrite <- (dk_taken _ _ _ _ _ Hd), Es; reflexivity).
  rewrite <- Hr. apply at_desk_queue; rewrite ?Es; try done; rewrite <- ?Es; try done.
  pose proof (dk_codes _ _ _ _ _ Hd) as Hc. destruct (_ =? _); [done|]. apply Forall_app. split; [done|].
  apply Forall_singleton. rewrite <- (dk_taken _ _ _ _ _ Hd), <- Hcodes. apply u8_range.
Qed.

(** A key event on the desk. *)
Lemma at_desk_key s d ke :
  at_desk q len width s d -> plain_key ke -> key_fits width (line d) ke = true ->
  exists s', term_keyevent ke s = Ret tt s' /\
    at_desk q len width s' (Desk (taken d) (waiting d) (edit_line (line d) ke)) /\ follows s s'.
Proof.
  intros [D1 D2 D3 D4 D5 D6 D7 D8 D9] Hk Hfit. rewrite <- D8 in Hfit.
  destruct (term_keyevent_ok ke s (line d) D6 D7 Hk Hfit) as (s' & E & Hed & Hin & _).
  exists s'. split; [exact E|]. pose proof Hed as [(t & m & Es) T F M]. split; [split; cbn [taken waiting line]|split]; try done.
  - by rewrite Es.
  - by rewrite Es.
  - apply (queue_at_frame (smem s)); [done|]. intros a Ha. apply F. intros Hc. apply (D9 a Ha). by left.
  - by rewrite Es.
  - by apply edit_line_plain.
  - rewrite <- D8. apply T.
  - intros a Ha. specialize (D9 a Ha). unfold console_uses in *. rewrite (console_area_same s s') by done.
    destruct T as (_ & _ & _ & _ & -> & _). exact D9.
  - intros a Ha. apply F. intros Hc. apply Ha. by left.
Qed.

Lemma round_follows s d d' :
  at_desk q len width s d -> desk_step len width codes d Round = Some d' ->
  exists s', happen Round s = Ret tt s' /\ at_desk q len width s' d' /\ follows s s'.
Proof.
  intros Hd Hstep. pose proof Hd as [D1 D2 D3 D4 [D5 D5'] D6 D7 D8 D9].
  assert (Hq : queue_at (smem s) (q_keyboard s) len (waiting d)) by (by rewrite D1).
  pose proof (kernel_loop_body_ok len (waiting d) s Hq D5 D4) as Hloop. cbn [desk_step happen] in *.
  destruct (waiting d) as [|code rest] eqn:Ew.
  { injection Hstep as <-. exists s. split; [done|]. split; [done|]. split; [apply same_screen_refl|done]. }
  destruct Hloop as (mc & Hq1 & F & E). cbv zeta in Hq1, F, E. rewrite D1 in Hq1, F.
  apply Forall_cons in D4 as [Hcode Hrest].
  rewrite D5' in E by exact Hcode. rewrite E. clear E. set (s1 := set_k_io _ _) in *.
  destruct (at_desk_queue s s1 d rest Hd) as [Hd1 Hf1]; try done.
  change (reads (k_io s1)) with (reads (k_io s)) in Hd1. rewrite D2 in Hd1.
  destruct (layout_event code) as [ke|] eqn:Ek.
  - destruct (key_fits width (line d) ke) eqn:Efit; [|done]. injection Hstep as <-.
    destruct (at_desk_key s1 _ ke Hd1 (layout_plain _ _ Ek) Efit) as (s' & E & Hd' & Hf').
    exists s'. split; [exact E|]. split; [exact Hd'|]. by apply (follows_trans s s1).
  - injection Hstep as <-. by exists s1.
Qed.

(** C3: from keyboard to screen. Start from a well-formed terminal, keyboard
    queue and scan code map, and let the keyboard interrupt and the event loop
    go round in any order. As long as the abstract machine accepts the keys,
    every handler and every round returns, and afterwards the kernel is in the
    abstract machine's state: the codes it has taken from the port, those that
    wait in the queue (a full queue drops them), and the line that all keys
    handled so far have edited, in the order they were pressed. Memory outside
    the display, the two text buffers and the queue's block is untouched. *)
Theorem keystrokes_reach_the_line hs : forall d s d',
  at_desk q len width s d -> desk_run len width codes d hs = Some d' ->
  exists s', happens hs s = Ret tt s' /\ at_desk q len width s' d' /\
    (forall a, ~ desk_area s a -> smem s' !! a = smem s !! a).
Proof.
  enough (Hall : forall d s d', at_desk q len width s d -> desk_run len width codes d hs = Some d' ->
    exists s', happens hs s = Ret tt s' /\ at_desk q len width s' d' /\ follows s s').
  { intros d s d' Hd Hr. destruct (Hall d s d' Hd Hr) as (s' & E & Hd' & Hf). exists s'. by split_and!; [| |apply Hf]. }
  induction hs as [|h hs IH]; intros d s d' Hd Hr; cbn [desk_run happens] in *.
  - injection Hr as <-. exists s. split; [done|]. split; [done|]. split; [apply same_screen_refl|done].
  - destruct (desk_step len width codes d h) as [d1|] eqn:Es; [|done].
    assert (Hh : exists s1, happen h s = Ret tt s1 /\ at_desk q len width s1 d1 /\ follows s s1)
      by (destruct h; [by apply interrupt_follows with d|by apply round_follows with d]).
    destruct Hh as (s1 & E1 & Hd1 & Hf1). destruct (IH d1 s1 d' Hd1 Hr) as (s' & E & Hd' & Hf).
    exists s'. rewrite (bind_ret_eq _ _ _ _ _ E1). split; [done|]. split; [done|]. by apply (follows_trans s s1).
Qed.
End desk.

(** The terminal of [TermInput], an empty queue of capacity 3 at 16384, and a
    keyboard on which "o" and "k" are pressed and "k" is released. *)
Definition typed_codes : list Z := [24; 37; 165].
#[local] Instance typing_hardware : Hardware := {|
  device t a := match a with PortIn 1 0x60 => nth (reads t) typed_codes 0 | _ => 0 end;
  cpuid_regs _ _ := (0, 0, 0, 0); stale_eax := 0; patience := 4 |}.
Lemma typed_codes_sent t : u8 (device t (PortIn 1 0x60)) = nth (reads t) typed_codes 0.
Proof. change (device t (PortIn 1 0x60)) with (nth (reads t) typed_codes 0). by destruct (reads t) as [|[|[|[|n]]]]. Qed.
Definition empty_queue : memory :=
  wr 8 (16384 + 8) (16384 + 25) (wr 4 (16384 + 16) 3 (zeros 16384 37)).
Definition desk_kernel (m : memory) : kernel :=
  set_q_keyboard 16384 (set_scancode_map full_map (console_kernel m [])).

Lemma empty_queue_at m : queue_at (empty_queue ∪ m) 16384 3 [].
Proof.
  apply (queue_at_frame empty_queue).
  - split; [done| |by vm_compute|by vm_compute|by vm_compute|by vm_compute|by vm_compute|by intros i v Hi|by vm_compute].
    unfold empty_queue. do 2 apply region_wr. apply region_zeros.
  - intros a Ha. unfold off_queue, sizeof_CQueue in Ha.
    destruct (region_wr 16384 37 8 (16384 + 8) (16384 + 25) _ (region_wr 16384 37 4 (16384 + 16) 3 _ (region_zeros 16384 37)) a
      ltac:(lia)) as [v Hv].
    fold empty_queue in Hv. rewrite Hv. by apply lookup_union_Some_l.
Qed.

Lemma console_ready_under m : console_ready m [] -> console_ready (empty_queue ∪ m) [].
Proof.
  assert (E : forall a, a < 16384 -> (empty_queue ∪ m) !! a = m !! a).
  { intros a Ha. apply lookup_union_r. unfold empty_queue. rewrite !wr_lookup_ne by lia.
    rewrite zeros_lookup, decide_False by lia. done. }
  intros (R1 & R2 & R3 & R4 & Er & Ht & Hl). split_and!; try by apply region_union_r.
  - rewrite <- Er. apply rd_ext. intros x Hx. unfold byte_at. rewrite E by lia. done.
  - apply (cstr_same m); [|done]. intros x Hx. cbn in Hx. apply E. lia.
  - rewrite Forall_forall in Hl. apply Forall_forall. intros x Hx. apply (cstr_same m); [|by apply Hl].
    assert (Hlit : literal x + Z.of_nat (length (chars x)) < 10400).
    { revert x Hx. apply Forall_forall. by repeat constructor. }
    intros y Hy. apply E. lia.
Qed.

(** What the terminal uses lies below. *)
Lemma desk_apart m a : 16384 <= a -> ~ console_uses (desk_kernel m) a.
Proof.
  intros Ha [[Hd|[Hd|Hd]]|[Hd|(x & Hx & Hd)]].
  - unfold drawn_to in Hd. cbn in Hd. change (252 `div` 4) with 63 in Hd. lia.
  - unfold input_buffer_len in Hd. cbn in Hd. lia.
  - change tprintf_buffer with 9000 in Hd. lia.
  - cbn in Hd. lia.
  - assert (Hlit : literal x + Z.of_nat (length (chars x)) < 10400).
    { revert x Hx Hd. intros x Hx _. revert x Hx. apply Forall_forall. by repeat constructor. }
    lia.
Qed.

Lemma desk_kernel_at m :
  console_ready m [] -> queue_at m 16384 3 [] -> at_desk 16384 3 63 (desk_kernel m) (Desk 0 [] []).
Proof.
  intros Hr Hq. pose proof (console_input_at m [] Hr ltac:(cbn; lia)) as Hin. split.
  - reflexivity.
  - reflexivity.
  - exact Hq.
  - by apply Forall_nil.
  - split; [vm_compute; reflexivity|]. intros code Hc. revert Hc. rewrite <- (Z.add_0_l 256), <- elem_of_seqZ.
    revert code. by apply Forall_forall, full_map_ok.
  - apply (input_at_frame (console_kernel m [])); done.
  - by apply Forall_nil.
  - reflexivity.
  - intros a Ha. apply desk_apart. unfold off_queue, sizeof_CQueue in Ha. lia.
Qed.
Lemma desk_memory_ready :
  console_ready (empty_queue ∪ console_memory []) [] /\ queue_at (empty_queue ∪ console_memory []) 16384 3 [].
Proof.
  split; [|apply empty_queue_at]. apply console_ready_under, console_memory_ready; vm_compute; reflexivity.
Qed.

Lemma keystrokes_reach_the_line_witness :
  exists s', happens [Interrupt; Interrupt; Round; Interrupt; Round; Round]
      (desk_kernel (empty_queue ∪ console_memory [])) = Ret tt s' /\
    input_at s' (chars "ok") /\ queue_at (smem s') 16384 3 [].
Proof.
  destruct desk_memory_ready as [Hr Hq]. revert Hr Hq. generalize (empty_queue ∪ console_memory []). intros m Hr Hq.
  destruct (keystrokes_reach_the_line 16384 3 63 (fun n => nth n typed_codes 0)
    typed_codes_sent
    [Interrupt; Interrupt; Round; Interrupt; Round; Round] (Desk 0 [] []) (desk_kernel m) (Desk 3 [] (chars "ok")))
    as (s' & E & Hd & _).
  - by apply desk_kernel_at.
  - vm_compute. reflexivity.
  - exists s'. split; [exact E|]. split; [apply (dk_line _ _ _ _ _ Hd)|apply (dk_queue _ _ _ _ _ Hd)].
Defined.
