(* ===== verification/Preempt.v ===== *)
(** * kernel.c: keyboard interrupts in the middle of the event loop

    The event loop step by step, with the keyboard interrupt coming in between
    the steps wherever interrupts are enabled. *)
From S2P Require Import Prelude Machine Atomic Pmm Slob Str StrFormat StrProps Kstate VmProps Poll Queue QueueProps Interleave QueueConc.
From S2P Require Import Lapic Desc Ps2 Ps2Props Terminal TermPrint TermInput Main MainProps Console.

Section preempt.
Context `{Hardware} `{Image}.

(** The code is dispatched; the key event is handled in one step. *)
Definition dispatch_prog (scanCode : Z) : prog kernel unit :=
  Step (gets scancode_map) (fun m =>
  Step (if Z.of_nat (length m) <=? scanCode then fail OutOfBounds else mret tt) (fun _ =>
  Step (match key_for m scanCode with Some ke => term_keyevent ke | None => mret tt end) Done)).

(** One round of the loop. *)
Definition loop_round_prog : prog kernel unit :=
  Step (gets q_keyboard) (fun q =>
  Step (load 4 (q + off_num_items)) (fun num_items =>
  if 0 <? num_items then
    Step disable_interrupts (fun _ =>
    prog_bind (cqueue_read_prog q) (fun scanCode =>
    Step enable_interrupts (fun _ =>
    dispatch_prog scanCode)))
  else Done tt)).

Lemma loop_round_steps s : prog_run loop_round_prog s = kernel_loop_body s.
Proof.
  unfold kernel_loop_body, loop_round_prog. cbn [prog_run].
  apply bind_ext. intros q s1. cbn [prog_run]. apply bind_ext. intros n s2. destruct (0 <? n); [|done]. cbn [prog_run].
  apply bind_ext. intros [] s3. rewrite prog_run_bind. apply bind_cong; [apply cqueue_read_steps|]. intros c s4.
  repeat (cbn [prog_run]; apply bind_ext; intros ? ?). cbn [prog_run].
  case_match; [|done]. unfold mbind, M_bind. by destruct (term_keyevent _ _) as [[] ?| | | |].
Qed.

(** The processor takes an interrupt when the flag is set. *)
Definition interruptible (s : kernel) : bool := intr (k_cpu s).
Definition run_interrupted {A} : bool -> list bool -> prog kernel A -> M kernel (A * bool) :=
  prog_run_irq interruptible _handle_keyboard.

Lemma machine_steady {A B} (m : M kernel B) (k : B -> prog kernel A) :
  machine_only m -> (forall b, steady interruptible (k b)) -> steady interruptible (Step m k).
Proof. intros Hm Hk. apply steady_step; [|done]. intros s b s' E. by destruct (Hm _ _ _ E) as [mc ->]. Qed.
Lemma cqueue_read_steady q : steady interruptible (cqueue_read_prog q).
Proof.
  unfold cqueue_read_prog, spinlock_lock, tas_mem, spinlock_unlock_mem.
  repeat (first [apply machine_steady; [|intros ?] | apply steady_done | apply mo_bind; intros | case_match];
    auto with machine_only).
Qed.

(** ** The round and the abstract machine *)

Context (q len width : Z) (codes : nat -> Z).
Hypothesis Hcodes : forall t, u8 (device t (PortIn 1 0x60)) = codes (reads t).

(** [n] interrupts in a row. *)
Definition interrupts (n : nat) : list happening := replicate n Interrupt.
Fixpoint after_interrupts (n : nat) (d : desk_state) : desk_state :=
  match n with
  | O => d
  | S n' => after_interrupts n' (Desk (S (taken d))
      (if Z.of_nat (length (waiting d)) =? len then waiting d else waiting d ++ [codes (taken d)]) (line d))
  end.
Lemma desk_run_interrupts n hs : forall d,
  desk_run len width codes d (interrupts n ++ hs) = desk_run len width codes (after_interrupts n d) hs.
Proof. induction n as [|n IH]; intros d; [done|]. cbn [interrupts replicate app desk_run desk_step after_interrupts]. apply IH. Qed.
Lemma after_interrupts_add a b d : after_interrupts (a + b) d = after_interrupts b (after_interrupts a d).
Proof. revert d. induction a as [|a IH]; intros d; [done|]. apply IH. Qed.
Lemma after_interrupts_line n : forall t w l l',
  after_interrupts n (Desk t w l') = Desk (taken (after_interrupts n (Desk t w l))) (waiting (after_interrupts n (Desk t w l))) l'.
Proof. induction n as [|n IH]; intros t w l l'; [done|]. cbn [after_interrupts taken waiting line]. apply IH. Qed.
Lemma after_interrupts_keeps n : forall d, line (after_interrupts n d) = line d.
Proof. induction n as [|n IH]; intros d; [done|]. cbn [after_interrupts]. by rewrite IH. Qed.
Lemma after_interrupts_head n : forall d c rest, waiting d = c :: rest ->
  exists rest', waiting (after_interrupts n d) = c :: rest'.
Proof.
  induction n as [|n IH]; intros d c rest E; [by eauto|]. cbn [after_interrupts].
  set (d1 := Desk _ _ _). assert (Hd1 : exists rest1, waiting d1 = c :: rest1).
  { unfold d1. cbn [waiting]. rewrite E. destruct (Z.of_nat (length (c :: rest)) =? len); eexists; reflexivity. }
  destruct Hd1 as [rest1 E1]. exact (IH d1 c rest1 E1).
Qed.

(** At the desk with interrupts enabled. *)
Definition listening (s : kernel) (d : desk_state) : Prop := at_desk q len width s d /\ interruptible s = true.

Lemma take_irq_listening s d pending :
  listening s d -> exists s' n, take_irq interruptible _handle_keyboard pending s = Ret false s' /\
    (n <= 1)%nat /\ listening s' (after_interrupts n d).
Proof.
  intros [Hd Hi]. destruct pending.
  - pose proof (dk_queue _ _ _ _ _ Hd) as Hq. rewrite <- (dk_q _ _ _ _ _ Hd) in Hq.
    destruct (handle_keyboard_ok len (waiting d) s Hq) as (s' & mc & E & _ & _ & Es).
    destruct (interrupt_follows q len width codes Hcodes s d _ Hd eq_refl) as (s2 & E2 & Hd2 & _).
    cbn [happen] in E2. rewrite E in E2. injection E2 as <-.
    exists s', 1%nat. rewrite take_irq_now by done. rewrite (bind_ret_eq _ _ _ _ _ E). split; [done|]. split; [lia|].
    split; [exact Hd2|]. rewrite Es. exact Hi.
  - exists s, 0%nat. split; [done|]. split; [lia|]. by split.
Qed.

(** A step of the loop, after the interrupts that come before it. *)
Lemma listening_step {A B} (m : M kernel B) (k : B -> prog kernel A) pending irqs s d :
  listening s d -> exists s1 n, (n <= 1)%nat /\ listening s1 (after_interrupts n d) /\
    run_interrupted pending irqs (Step m k) s = (b ← m; run_interrupted false (tail irqs) (k b)) s1.
Proof.
  intros Hd. destruct (take_irq_listening s d (pending || arrives irqs) Hd) as (s1 & n & E & Hn & Hd1).
  exists s1, n. split; [done|]. split; [done|]. unfold run_interrupted. cbn [prog_run_irq]. by rewrite (bind_ret_eq _ _ _ _ _ E).
Qed.

Ltac listen Hd s n Hn Hd' :=
  match goal with |- context [run_interrupted ?p ?i (Step ?m ?k) ?s0] =>
    destruct (listening_step m k p i s0 _ Hd) as (s & n & Hn & Hd' & ->) end.

(** The read of the queue with interrupts disabled, and what follows. *)
Lemma fetch_ok s d code rest :
  listening s d -> waiting d = code :: rest ->
  let s1 := set_k_cpu (set_intr false (k_cpu s)) (after_io [Cli] s) in
  exists s2, prog_run (cqueue_read_prog q) s1 = Ret code s2 /\
    enable_interrupts s2 = Ret tt (set_k_cpu (set_intr true (k_cpu s2)) (after_io [Sti] s2)) /\
    listening (set_k_cpu (set_intr true (k_cpu s2)) (after_io [Sti] s2)) (Desk (taken d) rest (line d)).
Proof.
  intros [Hd Hi] Ew s1. pose proof (dk_queue _ _ _ _ _ Hd) as Hq. rewrite Ew in Hq.
  assert (Hq1 : queue_at (smem s1) q len (code :: rest)) by exact Hq.
  destruct (cqueue_read_ok q len rest code s1 Hq1) as (s2 & E & Hq2 & F).
  destruct (cqueue_read_machine_only q _ _ _ E) as [mc ->].
  exists (set_mach mc s1). rewrite cqueue_read_steps. split; [exact E|]. split; [done|]. split; [|done].
  pose proof (dk_codes _ _ _ _ _ Hd) as Hc. rewrite Ew in Hc. apply Forall_cons in Hc as [_ Hc].
  rewrite <- (dk_taken _ _ _ _ _ Hd).
  match goal with |- at_desk _ _ _ ?s3 _ => destruct (at_desk_queue q len width s s3 d rest Hd) as [Hd3 _]; try done end.
Qed.

(** The event's step. *)
Lemma listening_key s d ke :
  listening s d -> plain_key ke -> key_fits width (line d) ke = true ->
  exists s', term_keyevent ke s = Ret tt s' /\ listening s' (Desk (taken d) (waiting d) (edit_line (line d) ke)).
Proof.
  intros [Hd Hi] Hk Hfit. destruct (at_desk_key q len width s d ke Hd Hk Hfit) as (s' & E & Hd' & _).
  pose proof (dk_width _ _ _ _ _ Hd) as Hw. rewrite <- Hw in Hfit.
  destruct (term_keyevent_ok ke s (line d) (dk_line _ _ _ _ _ Hd) (dk_plain _ _ _ _ _ Hd) Hk Hfit) as (s2 & E2 & [(t & m & Es) _ _ _] & _).
  rewrite E in E2. injection E2 as <-. exists s'. split; [done|]. split; [done|]. rewrite Es. exact Hi.
Qed.

(** What the queue's counter and the map say. *)
Lemma listening_count s d :
  listening s d -> load 4 (q + off_num_items) s = Ret (Z.of_nat (length (waiting d))) s.
Proof.
  intros [Hd _]. apply (ring_load (smem s) q len _ (rd 4 (q + off_write_i) (smem s))); [|done].
  by apply queue_ring, dk_queue with width.
Qed.

(** The line behind a code's key, where it is accepted. *)
Definition accepted (code : Z) (l : list Z) : option (list Z) :=
  match layout_event code with
  | None => Some l
  | Some ke => if key_fits width l ke then Some (edit_line l ke) else None
  end.
Lemma desk_round d code rest d' :
  waiting d = code :: rest -> desk_step len width codes d Round = Some d' ->
  exists l', accepted code (line d) = Some l' /\ d' = Desk (taken d) rest l'.
Proof.
  intros E Hs. cbn [desk_step] in Hs. rewrite E in Hs. unfold accepted.
  destruct (layout_event code) as [ke|]; [destruct (key_fits _ _ _); [|done]|]; injection Hs as <-; by eexists.
Qed.

Lemma dispatch_interrupted_ok {A} (f : unit -> prog kernel A) code pending irqs s d l' :
  is_u8 code -> listening s d ->
  accepted code (line d) = Some l' ->
  exists b s' irqs', (b <= 3)%nat /\ listening s' (after_interrupts b (Desk (taken d) (waiting d) l')) /\
    run_interrupted pending irqs (prog_bind (dispatch_prog code) f) s = run_interrupted false irqs' (f tt) s'.
Proof.
  intros Hc Hd Hl. unfold accepted in Hl. unfold dispatch_prog. cbn [prog_bind].
  listen Hd s1 n1 Hn1 Hd1. pose proof (dk_map _ _ _ _ _ (proj1 Hd1)) as [Hlen Hmap].
  rewrite (bind_ret_eq (gets scancode_map) _ s1 (scancode_map s1) s1 eq_refl), Hlen.
  change (Z.of_nat 256) with 256. rewrite (proj2 (Z.leb_gt 256 code)) by apply Hc.
  listen Hd1 s2 n2 Hn2 Hd2. rewrite (bind_ret_eq (mret tt) _ s2 tt s2 eq_refl).
  listen Hd2 s3 n3 Hn3 Hd3. rewrite (Hmap _ Hc).
  rewrite <- !after_interrupts_add in Hd3. set (b := (n1 + (n2 + n3))%nat) in *.
  exists b. destruct d as [t w l]. cbn [line taken waiting] in *.
  rewrite (after_interrupts_line b t w l l').
  assert (El : line (after_interrupts b (Desk t w l)) = l) by apply after_interrupts_keeps.
  set (m3 := match layout_event code with Some ke => term_keyevent ke | None => mret tt end) in *.
  assert (E : exists s', m3 s3 = Ret tt s' /\ listening s'
    (Desk (taken (after_interrupts b (Desk t w l))) (waiting (after_interrupts b (Desk t w l))) l')).
  { unfold m3. destruct (layout_event code) as [ke|] eqn:Ek.
    - destruct (key_fits width l ke) eqn:Efit; [|done]. injection Hl as <-.
      destruct (listening_key s3 _ ke Hd3 (layout_plain _ _ Ek)) as (s' & E & Hd'); [by rewrite El|].
      rewrite El in Hd'. by exists s'.
    - injection Hl as <-. exists s3. split; [done|]. rewrite (after_interrupts_line b t w l l) in Hd3. exact Hd3. }
  destruct E as (s' & E & Hd'). exists s', (tail (tail (tail irqs))). split; [lia|]. split; [exact Hd'|].
  by rewrite (bind_ret_eq _ _ _ _ _ E).
Qed.

(** One round. *)
Lemma round_interrupted_ok {A} (f : unit -> prog kernel A) pending irqs s d :
  listening s d -> (forall a, (a <= 3)%nat -> is_Some (desk_run len width codes d (interrupts a ++ [Round]))) ->
  exists a b d' s' irqs', (a <= 3)%nat /\ (b <= 3)%nat /\
    desk_run len width codes d (interrupts a ++ Round :: interrupts b) = Some d' /\ listening s' d' /\
    run_interrupted pending irqs (prog_bind loop_round_prog f) s = run_interrupted false irqs' (f tt) s'.
Proof.
  intros Hd Hok. unfold loop_round_prog. cbn [prog_bind].
  listen Hd s1 n1 Hn1 Hd1. rewrite (bind_ret_eq (gets q_keyboard) _ s1 (q_keyboard s1) s1 eq_refl), (dk_q _ _ _ _ _ (proj1 Hd1)).
  listen Hd1 s2 n2 Hn2 Hd2. rewrite (bind_ret_eq _ _ _ _ _ (listening_count _ _ Hd2)).
  destruct (waiting (after_interrupts n2 (after_interrupts n1 d))) as [|c rest] eqn:Ew.
  { rewrite <- after_interrupts_add in Ew, Hd2. exists (n1 + n2)%nat, 0%nat, (after_interrupts (n1 + n2) d), s2, (tail (tail irqs)).
    split; [lia|]. split; [lia|]. split; [|done]. rewrite desk_run_interrupts. cbn [desk_run desk_step]. by rewrite Ew. }
  cbn [length]. rewrite (proj2 (Z.ltb_lt 0 (Z.of_nat (S (length rest))))) by lia. cbn [prog_bind].
  listen Hd2 s3 n3 Hn3 Hd3. destruct (after_interrupts_head n3 _ _ _ Ew) as [rest3 Ew3].
  rewrite <- !after_interrupts_add in *. set (a := (n1 + (n2 + n3))%nat) in *.
  pose proof (Hok a ltac:(lia)) as [d1 Ed1]. rewrite desk_run_interrupts in Ed1.
  destruct (fetch_ok s3 _ c rest3 Hd3 Ew3) as (s4 & E4 & E5 & Hd5). cbv zeta in E4.
  rewrite (bind_ret_eq disable_interrupts _ s3 tt _ eq_refl). unfold run_interrupted.
  rewrite prog_run_irq_assoc. erewrite masked_run; [|apply cqueue_read_steady|reflexivity|exact E4]. cbn [prog_bind prog_run_irq].
  assert (Em : interruptible s4 = false).
  { rewrite cqueue_read_steps in E4. by destruct (cqueue_read_machine_only q _ _ _ E4) as [mc ->]. }
  rewrite (bind_ret_eq _ _ _ _ _ (take_irq_masked _ _ _ _ Em)), (bind_ret_eq _ _ _ _ _ E5).
  pose proof (dk_codes _ _ _ _ _ (proj1 Hd3)) as Hc. rewrite Ew3 in Hc. apply Forall_cons in Hc as [Hc _].
  set (da := after_interrupts a d) in *. cbn [desk_run] in Ed1. destruct (desk_step len width codes da Round) as [d2|] eqn:Es; [|done].
  destruct (desk_round da c rest3 d2 Ew3 Es) as (l' & El & ->).
  match goal with |- context [prog_run_irq _ _ ?p ?i (prog_bind (dispatch_prog c) f) ?s5] =>
    destruct (dispatch_interrupted_ok f c p i s5 _ l' Hc Hd5 El) as (b & s' & irqs' & Hb & Hd' & Er) end.
  exists a, b, (after_interrupts b (Desk (taken da) rest3 l')), s', irqs'.
  split; [lia|]. split; [done|]. split; [|split; [exact Hd'|exact Er]].
  rewrite desk_run_interrupts. cbn [desk_run]. fold da. rewrite Es. cbn [mbind option_bind].
  by rewrite <- (app_nil_r (interrupts b)), desk_run_interrupts.
Qed.

(** The loop, [n] times round. *)
Fixpoint loop_rounds (n : nat) : prog kernel unit :=
  match n with O => Done tt | S n' => prog_bind loop_round_prog (fun _ => loop_rounds n') end.
Definition is_round (h : happening) : bool := match h with Round => true | Interrupt => false end.
Definition rounds (hs : list happening) : nat := length (List.filter is_round hs).

Lemma rounds_app hs hs' : rounds (hs ++ hs') = (rounds hs + rounds hs')%nat.
Proof. unfold rounds. by rewrite List.filter_app, length_app. Qed.
Lemma rounds_interrupts a : rounds (interrupts a) = 0%nat.
Proof. by induction a. Qed.
Lemma rounds_one a b : rounds (interrupts a ++ Round :: interrupts b) = 1%nat.
Proof.
  rewrite rounds_app, rounds_interrupts. change (rounds (Round :: interrupts b)) with (S (rounds (interrupts b))).
  by rewrite rounds_interrupts.
Qed.
Lemma desk_run_app hs hs' : forall d,
  desk_run len width codes d (hs ++ hs') = (d' ← desk_run len width codes d hs; desk_run len width codes d' hs').
Proof.
  induction hs as [|h hs IH]; intros d; [done|]. cbn [app desk_run].
  destruct (desk_step _ _ _ d h) as [d1|]; [apply IH|done].
Qed.

Lemma rounds_interrupted_ok n : forall irqs s d,
  listening s d ->
  (forall hs, (rounds hs <= n)%nat -> is_Some (desk_run len width codes d hs)) ->
  exists hs d' s', rounds hs = n /\ desk_run len width codes d hs = Some d' /\ listening s' d' /\
    run_interrupted false irqs (loop_rounds n) s = Ret (tt, false) s'.
Proof.
  induction n as [|n IH]; intros irqs s d Hd Hok; [by exists [], d, s|]. cbn [loop_rounds].
  destruct (round_interrupted_ok (fun _ => loop_rounds n) false irqs s d Hd) as (a & b & d1 & s1 & irqs1 & _ & _ & Ed & Hd1 & Er).
  { intros a _. apply Hok. change [Round] with (Round :: interrupts 0). rewrite rounds_one. lia. }
  destruct (IH irqs1 s1 d1 Hd1) as (hs & d' & s' & Hn & Ed' & Hd' & Er').
  { intros hs Hhs. specialize (Hok ((interrupts a ++ Round :: interrupts b) ++ hs)). rewrite desk_run_app, Ed in Hok.
    apply Hok. rewrite rounds_app, rounds_one. lia. }
  exists ((interrupts a ++ Round :: interrupts b) ++ hs), d', s'. rewrite rounds_app, rounds_one, desk_run_app, Ed.
  split; [lia|]. split; [exact Ed'|]. split; [exact Hd'|]. by rewrite Er.
Qed.

(** C4: interrupts in the middle of the event loop. Let a keyboard interrupt
    come in between any two steps of the loop, where interrupts are enabled;
    requests that come in while they are disabled wait for the next sti. If the
    abstract machine accepts the keys in every order, [n] rounds of the loop
    return, with no request left pending, in a state that the abstract machine
    reaches when the interrupts come between rounds: no interleaving loses a
    code, corrupts the queue or the line, or blocks. *)
Theorem interrupts_between_steps n : forall irqs s d,
  listening s d ->
  (forall hs, (rounds hs <= n)%nat -> is_Some (desk_run len width codes d hs)) ->
  exists hs d' s', rounds hs = n /\ desk_run len width codes d hs = Some d' /\ listening s' d' /\
    run_interrupted false irqs (loop_rounds n) s = Ret (tt, false) s'.
Proof. apply rounds_interrupted_ok. Qed.

(** A machine whose keyboard has no Enter key never refuses a short line. *)
Definition no_enter (code : Z) : Prop :=
  match layout_event code with Some ke => is_enter ke = false | None => True end.
Lemma desk_accepts hs : forall d,
  Forall no_enter (waiting d) -> (forall t, no_enter (codes t)) ->
  18 + 9 * (Z.of_nat (length (line d)) + Z.of_nat (rounds hs)) < width ->
  Z.of_nat (length (line d)) + Z.of_nat (rounds hs) < input_buffer_len ->
  is_Some (desk_run len width codes d hs).
Proof.
  induction hs as [|[] hs IH]; intros d Hw Hc Hwid Hbuf; cbn [desk_run]; [done|..].
  - cbn [desk_step mbind option_bind]. apply IH; [|done|exact Hwid|exact Hbuf]. cbn [waiting].
    destruct (_ =? _); [done|]. apply Forall_app. split; [done|]. by apply Forall_singleton.
  - change (rounds (Round :: hs)) with (S (rounds hs)) in *. cbn [desk_step]. destruct (waiting d) as [|c rest] eqn:Ew.
    { cbn [mbind option_bind]. apply IH; [by rewrite Ew|done|lia|lia]. }
    apply Forall_cons in Hw as [Hn Hrest]. unfold no_enter in Hn. destruct (layout_event c) as [ke|].
    2: { cbn [mbind option_bind]. apply IH; cbn [waiting line]; [done|done|lia|lia]. }
    unfold key_fits, edit_line. rewrite Hn. destruct (is_backspace ke && _).
    { cbn [mbind option_bind]. apply IH; cbn [waiting line]; rewrite ?length_take; [done|done|lia|lia]. }
    destruct (types_char ke).
    + rewrite (proj2 (Z.ltb_lt _ width)), (proj2 (Z.ltb_lt _ input_buffer_len)) by lia. cbn [andb mbind option_bind].
      apply IH; cbn [waiting line]; rewrite ?length_app; cbn [length]; [done|done|lia|lia].
    + cbn [mbind option_bind]. apply IH; cbn [waiting line]; [done|done|lia|lia].
Qed.

(** ** Without cli *)

(** The lock is held and a keyboard interrupt comes in. *)
Lemma interrupted_holder_spins {A B} (m : M kernel B) (k : B -> prog kernel A) irqs s :
  interruptible s = true -> region (q_keyboard s + 24) 1 (smem s) -> rd 1 (q_keyboard s + 24) (smem s) <> 0 ->
  exists t, run_interrupted false (true :: irqs) (Step m k) s = Spin t.
Proof.
  intros Hi Hr Hl. unfold run_interrupted. cbn [prog_run_irq]. change (false || arrives (true :: irqs)) with true.
  assert (Hs : exists t, _handle_keyboard s = Spin t).
  { unfold _handle_keyboard, ps2_read_no_wait, inb.
    rewrite (bind_ret_eq _ _ _ (u8 (device (k_io s) (PortIn 1 0x60))) (after_io [PortIn 1 0x60] s)) by done.
    rewrite (bind_ret_eq (gets q_keyboard) _ (after_io [PortIn 1 0x60] s) (q_keyboard s) _ eq_refl).
    destruct (cqueue_locked (H := kernel_machine) (q_keyboard s) (after_io [PortIn 1 0x60] s) Hr Hl) as [Hw _].
    destruct (Hw (u8 (device (k_io s) (PortIn 1 0x60)))) as [t E]. exists t. unfold mbind, M_bind. by rewrite E. }
  destruct Hs as [t E]. exists t. unfold mbind, M_bind, take_irq. rewrite Hi. cbn [andb].
  unfold mbind, M_bind. by rewrite E.
Qed.
Lemma no_irq_step {A B} (m : M kernel B) (k : B -> prog kernel A) irqs s :
  run_interrupted false (false :: irqs) (Step m k) s = (b ← m; run_interrupted false irqs (k b)) s.
Proof. done. Qed.

(** The next gap: either the interrupt comes, or the step is made. *)
Ltac gap irqs :=
  destruct irqs as [|[] irqs]; [done|
    apply interrupted_holder_spins; rewrite ?smem_set_mem;
      repeat match goal with |- context [q_keyboard (set_mem ?m ?s)] =>
        change (q_keyboard (set_mem m s)) with (q_keyboard s) end; [done|mregion|rdsimp; done]|
    rewrite no_irq_step; match goal with Hin : true ∈ false :: _ |- _ => apply elem_of_cons in Hin as [?|Hin]; [done|] end].

(** C24: why the loop masks interrupts around the read. With interrupts enabled,
    a keyboard interrupt that is taken between the moment cqueue_read has the
    lock and the moment it gives it back, before whichever of its steps, never
    returns: the handler spins on the lock that the code it interrupted holds. *)
Theorem unmasked_read_deadlocks v items irqs s :
  interruptible s = true -> q_keyboard s = q -> queue_at (smem s) q len (v :: items) ->
  length irqs = 12%nat -> true ∈ irqs ->
  exists t, run_interrupted false (false :: irqs) (cqueue_read_prog q) s = Spin t.
Proof.
  intros Hi Eq Hq Hn Hin. pose proof (queue_lock_ok q len _ _ s eq_refl Hq) as El.
  destruct Hq as [_ Hr [Hl Hlen] Hbuff [_ Hnum] Hread Hwrite _ Hlock]. cbn [length] in *.
  unfold cqueue_read_prog. rewrite no_irq_step, (bind_ret_eq _ _ _ _ _ El). clear El.
  unfold spinlock_unlock_mem. unfold_offs. subst q.
  gap irqs. mstep. rdsimp. rewrite Hnum, (proj2 (Z.eqb_neq _ _)) by lia.
  gap irqs. mstep. gap irqs. mstep. rdsimp. rewrite Hbuff.
  set (r := rd 4 (q_keyboard s + 0) (smem s)) in *. pose proof (rd_range 4 (q_keyboard s + 0) (smem s)) as [Hr0 _]. fold r in Hr0.
  gap irqs. mstep. gap irqs. mstep. rdsimp. fold r. gap irqs. mstep. rewrite u32_small by lia.
  gap irqs. mstep. rdsimp. change (256 ^ Z.of_nat 4) with (2 ^ 32). rewrite (Z.mod_small (r + 1)) by lia.
  gap irqs. mstep. rdsimp. rewrite Hlen.
  set (r' := if r + 1 =? len then 0 else r + 1). gap irqs.
  rewrite (bind_ret_eq _ _ _ tt (set_mem (wr 4 (q_keyboard s + 0) r' (wr 1 (q_keyboard s + 24) 1 (smem s))) s)).
  2: { unfold r'. destruct (r + 1 =? len); [|done].
       rewrite store_ok by mregion. by rewrite smem_set_mem, set_mem_set_mem, wr_wr_eq. }
  gap irqs. mstep. rdsimp. rewrite Hnum. gap irqs. mstep. gap irqs.
  destruct irqs; [by apply elem_of_nil in Hin|cbn in Hn; lia].
Qed.
End preempt.

#[local] Existing Instance typing_hardware.

(** The desk of [Console] with interrupts enabled. *)
Definition listening_kernel (m : memory) : kernel :=
  set_k_cpu (set_intr true (k_cpu (desk_kernel m))) (desk_kernel m).
Lemma listening_kernel_at m :
  console_ready m [] -> queue_at m 16384 3 [] -> listening 16384 3 63 (listening_kernel m) (Desk 0 [] []).
Proof.
  intros Hr Hq. pose proof (desk_kernel_at m Hr Hq) as Hd. split; [|done].
  by apply (at_desk_queue 16384 3 63 (desk_kernel m) (listening_kernel m) _ [] Hd).
Qed.

(** A request before every other step, two rounds. *)
Lemma interrupts_between_steps_witness :
  exists hs d' s', rounds hs = 2%nat /\
    desk_run 3 63 (fun n => nth n typed_codes 0) (Desk 0 [] []) hs = Some d' /\ listening 16384 3 63 s' d' /\
    run_interrupted false [true; false; true; false; true; true; false; true; false]
      (loop_rounds 2) (listening_kernel (empty_queue ∪ console_memory [])) = Ret (tt, false) s'.
Proof.
  destruct desk_memory_ready as [Hr Hq]. revert Hr Hq. generalize (empty_queue ∪ console_memory []). intros m Hr Hq.
  apply (interrupts_between_steps 16384 3 63 (fun n => nth n typed_codes 0) typed_codes_sent).
  - by apply listening_kernel_at.
  - intros hs Hhs. apply desk_accepts; cbn [waiting line length].
    + by apply Forall_nil.
    + intros [|[|[|[|t]]]]; vm_compute; reflexivity.
    + lia.
    + unfold input_buffer_len. lia.
Defined.

(** The first key waits; the second is pressed before the sixth step behind the
    lock. *)
Definition one_waiting (m : memory) : memory :=
  wr 4 (16384 + 25) 24 (wr 4 (16384 + 4) 1 (wr 4 (16384 + 20) 1 m)).
Lemma one_waiting_at : queue_at (one_waiting empty_queue) 16384 3 [24].
Proof.
  split; [done| |by vm_compute|by vm_compute|by vm_compute|by vm_compute|by vm_compute| |by vm_compute].
  - unfold one_waiting, empty_queue. repeat apply region_wr. apply region_zeros.
  - intros [|i] v Hi; [injection Hi as <-; by vm_compute|done].
Qed.
Lemma unmasked_read_deadlocks_witness :
  exists t, run_interrupted false (false :: replicate 5 false ++ true :: replicate 6 false)
    (cqueue_read_prog 16384) (listening_kernel (one_waiting empty_queue)) = Spin t.
Proof.
  pose proof one_waiting_at as Hq. revert Hq. generalize (one_waiting empty_queue). intros m Hq.
  apply (unmasked_read_deadlocks 16384 3 24 []); [done|done|exact Hq|done|].
  change (true ∈ [false; false; false; false; false; true; false; false; false; false; false; false]).
  do 5 right. left.
Defined.
