(* ===== verification/Speech.v ===== *)
(** * kprintf while the terminal waits for input

    The real kprintf as a printer for [Printing]: it goes to the serial port and
    to the screen, and leaves the terminal waiting behind a new prompt. *)
From S2P Require Import Prelude Machine MemLib Pmm Slob Str StrProofs StrFormat StrProps Kstate VmProps Poll Printing Acpi Ioapic IoapicProps.
From S2P Require Import Serial SerialProps Terminal TermProps TermRows TermScroll TermPrint TermInput Kprintf Desc Queue QueueProps Ps2 Main MainProps Console.

(** ** Decimal numbers in a message *)

Lemma digit_plain d : 0 <= d < 36 -> plain_char (digit_char ch_a d).
Proof. intros Hd. unfold plain_char, digit_char, ch_a, ch_0, ch_percent. destruct (Z.ltb_spec 9 d); lia. Qed.
Lemma signed_plain n : - 2 ^ 31 <= n < 2 ^ 31 ->
  Forall plain_char (signed_text 10 n) /\ (0 < length (signed_text 10 n) <= 65)%nat.
Proof.
  intros Hn. unfold signed_text.
  assert (Hd : Forall plain_char (rev (digit_char ch_a <$> num_digits 10 (Z.abs n)))).
  { apply Forall_rev, Forall_fmap. eapply Forall_impl; [apply (num_digits_range 10); [unfold base_ok; lia|lia]|].
    intros d Hd. exact (digit_plain d Hd). }
  pose proof (num_digits_length 10 (Z.abs n)) as Hl. pose proof (num_digits_ne 10 (Z.abs n)) as Hne.
  assert (Hlen : (0 < length (rev (digit_char ch_a <$> num_digits 10 (Z.abs n))) <= 64)%nat).
  { rewrite length_rev, length_fmap. destruct (num_digits 10 (Z.abs n)); [done|]. cbn in *. lia. }
  rewrite length_app. destruct (n <? 0); cbn [app length]; (split; [|lia]); [|done].
  apply Forall_cons. split; [|done]. unfold plain_char, ch_minus, ch_percent. lia.
Qed.

(** The messages of the keyboard's start, with the number of arguments. *)
Definition ps2_message : string := "PS2 initialized." +:+ nl.
Definition keyboard_messages : list (string * nat) := [(applied_message, 2%nat); (override_message, 2%nat); (ps2_message, 0%nat)].
(** The numbers %d can print: not the least int. *)
Definition printable (n : Z) : Prop := is_u32 n /\ n <> 2 ^ 31.
Definition keyboard_says (fmt : string) (ns : list Z) : Prop := (fmt, length ns) ∈ keyboard_messages /\ Forall printable ns.

Lemma printable_int n : printable n -> s32 (u64 n) <> - 2 ^ 31 /\ - 2 ^ 31 <= s32 (u64 n) < 2 ^ 31.
Proof.
  intros [Hn Hne]. unfold is_u32 in Hn. rewrite u64_small by lia. unfold s32.
  Z.to_euclidean_division_equations. lia.
Qed.

Lemma render_number z f args txt : s32 z <> - 2 ^ 31 -> render f args = Some txt ->
  render (ch_percent :: ch_d :: f) (VNum z :: args) = Some (signed_text 10 (s32 z) ++ txt).
Proof.
  intros Hz Hr. cbn [render]. rewrite Z.eqb_refl. change (ch_d =? ch_d) with true. cbn iota.
  by rewrite (proj2 (Z.eqb_neq _ _) Hz), Hr.
Qed.
Lemma render_text l f args txt : Forall plain_char l -> render f args = Some txt -> render (l ++ f) args = Some (l ++ txt).
Proof.
  intros Hl Hr. induction Hl as [|c l [Hc _] _ IH]; [done|]. cbn [app render].
  by rewrite (proj2 (Z.eqb_neq _ _) Hc), IH.
Qed.
Definition plainb (l : list Z) : bool := forallb (fun c => negb (c =? ch_percent) && (0 <? c) && (c <? 128)) l.
Lemma plainb_sound l : plainb l = true -> Forall plain_char l.
Proof.
  intros Hx. apply Forall_forall. intros c Hc. unfold plainb in Hx. rewrite forallb_forall in Hx. specialize (Hx c).
  rewrite <- list_elem_of_In in Hx. specialize (Hx Hc).
  apply andb_true_iff in Hx as [[H1%negb_true_iff%Z.eqb_neq H2%Z.ltb_lt]%andb_true_iff H3%Z.ltb_lt]. by split.
Qed.

(** A message as it comes out: plain, short, with a newline at its end. *)
Definition message_ok (txt : list Z) : Prop :=
  (0 < length txt < 256)%nat /\ Forall plain_char txt /\ last txt = Some ch_newline.

Lemma two_numbers before middle after x y :
  printable x -> printable y -> plainb (before ++ middle ++ after) = true ->
  (length (before ++ middle ++ after) < 120)%nat -> last after = Some ch_newline ->
  exists txt, render (before ++ ch_percent :: ch_d :: middle ++ ch_percent :: ch_d :: after) [VNum (u64 x); VNum (u64 y)] = Some txt /\
    message_ok txt.
Proof.
  intros Hx Hy [Hb [Hm Ha]%Forall_app]%plainb_sound%Forall_app Hl Hlast. rewrite !length_app in Hl.
  destruct (printable_int x Hx) as [Nx Rx]. destruct (printable_int y Hy) as [Ny Ry].
  destruct (signed_plain _ Rx) as [Px Lx]. destruct (signed_plain _ Ry) as [Py Ly].
  eexists. split.
  - apply render_text; [done|]. apply render_number; [done|]. apply render_text; [done|]. apply render_number; [done|].
    apply render_plain. eapply Forall_impl; [exact Ha|]. by intros c [? _].
  - unfold message_ok. rewrite !length_app. split; [lia|]. split; [|by rewrite !last_app, Hlast].
    repeat (apply Forall_app; split; [assumption|]); assumption.
Qed.

Lemma message_text fmt ns : keyboard_says fmt ns ->
  exists txt, render (chars fmt) (VNum <$> (u64 <$> ns)) = Some txt /\ message_ok txt.
Proof.
  intros [Hin Hns]. unfold keyboard_messages in Hin.
  apply elem_of_cons in Hin as [E|Hin]; [|apply elem_of_cons in Hin as [E|Hin]; [|apply list_elem_of_singleton in Hin as E]];
    injection E as -> Hlen.
  - destruct ns as [|x [|y []]]; try done. apply Forall_cons in Hns as [Hx [Hy _]%Forall_cons].
    by apply (two_numbers (chars "Applied I/O APIC redirect: Vector ") (chars ", GSI ") (chars ("." +:+ nl))); [..|apply (bool_decide_unpack _)|].
  - destruct ns as [|x [|y []]]; try done. apply Forall_cons in Hns as [Hx [Hy _]%Forall_cons].
    by apply (two_numbers (chars "I/O APIC using override from ") (chars " to ") (chars ("." +:+ nl))); [..|apply (bool_decide_unpack _)|].
  - destruct ns; [|done]. exists (chars ps2_message). split; [reflexivity|]. split; [by apply (bool_decide_unpack _)|].
    split; [by apply plainb_sound|done].
Qed.

(** ** kprintf as a printer *)

Section speech.
Context `{Hardware} `{Image} (buffer : Z) (s0 : kernel).
Hypothesis Huart : forall t, settles (line_status PORT_COM1) line_busy patience t.

(** kprintf's local array. *)
Definition in_buffer (a : Z) : Prop := buffer <= a < buffer + 256.
(** What printing may write: the console's area and that array. *)
Definition spoken_to (s : kernel) (a : Z) : Prop := console_area s a \/ in_buffer a.

(** The terminal waits behind an empty line, and the array and the messages are
    in memory of their own. *)
Record speech_ready (s : kernel) : Prop := {
  sr_input : input_at s [];
  sr_screen : same_screen (k_term s) (k_term s0);
  sr_small : 0 <= buffer /\ buffer + 256 < 2 ^ 64;
  sr_region : region buffer 256 (smem s);
  sr_apart : forall a, in_buffer a -> ~ console_uses s a;
  sr_literals : Forall (fun x => cstr (smem s) (literal (fst x)) (chars (fst x)) /\
    forall a, literal (fst x) <= a <= literal (fst x) + Z.of_nat (length (chars (fst x))) -> ~ spoken_to s a) keyboard_messages
}.

Record spoken (s s' : kernel) : Prop := {
  sk_eq : exists t m tr, s' = set_k_io (tr ++ k_io s) (shown t m s);
  sk_screen : same_screen (k_term s') (k_term s);
  sk_frame : forall a, ~ spoken_to s a -> smem s' !! a = smem s !! a;
  sk_mapped : forall a, is_Some (smem s !! a) -> is_Some (smem s' !! a)
}.

Lemma spoken_to_same s s' a : same_screen (k_term s') (k_term s) -> spoken_to s' a <-> spoken_to s a.
Proof. intros T. unfold spoken_to. by rewrite (console_area_same s s' a T). Qed.
Lemma same_screen_trans t1 t2 t3 : same_screen t2 t1 -> same_screen t3 t2 -> same_screen t3 t1.
Proof.
  intros (E1 & E2 & E3 & E4 & E5 & E6 & E7 & E8 & E9 & E10) (G1 & G2 & G3 & G4 & G5 & G6 & G7 & G8 & G9 & G10).
  unfold same_screen. split_and!; congruence.
Qed.
Lemma spoken_refl s : spoken s s.
Proof.
  split; [|apply same_screen_refl|done|done]. exists (k_term s), (smem s), [].
  transitivity (set_k_io (k_io s) s); [by destruct s|]. cbn [app]. by rewrite shown_self.
Qed.
Lemma spoken_trans s1 s2 s3 : spoken s1 s2 -> spoken s2 s3 -> spoken s1 s3.
Proof.
  intros [(t & m & tr & ->) T F M] [(t' & m' & tr' & ->) T' F' M']. split.
  - exists t', m', (tr' ++ tr). by rewrite <- app_assoc.
  - by apply (same_screen_trans _ (k_term (set_k_io (tr ++ k_io s1) (shown t m s1)))).
  - intros a Ha. rewrite F', F; [done|done|]. by rewrite (spoken_to_same s1 _ a T).
  - auto.
Qed.

(** Messages around two series of accesses and a change of the scan code map. *)
Lemma spoken_together s1 sa sb s' u1 u2 u3 codes :
  spoken (after_io u1 s1) sa -> spoken (after_io u2 sa) sb -> spoken (set_scancode_map codes (after_io u3 sb)) s' ->
  exists t m tr, s' = set_scancode_map codes (set_k_io tr (shown t m s1)) /\ same_screen t (k_term s1) /\
    (forall a, ~ spoken_to s1 a -> m !! a = smem s1 !! a) /\ (forall a, is_Some (smem s1 !! a) -> is_Some (m !! a)).
Proof.
  intros [(ta & ma & ra & ->) Ta Fa Ma] [(tb & mb & rb & ->) Tb Fb Mb] [(tc & mc & rc & ->) Tc Fc Mc].
  cbn [k_term set_k_term shown set_k_io after_io set_scancode_map] in Ta, Tb, Tc.
  exists tc, mc. eexists. split; [reflexivity|].
  assert (T2 : same_screen tb (k_term s1)) by (by apply (same_screen_trans _ ta)).
  split; [by apply (same_screen_trans _ tb)|]. split.
  - intros a Ha. transitivity (mb !! a); [apply Fc; rewrite (spoken_to_same s1); [done|exact T2]|].
    transitivity (ma !! a); [apply Fb; rewrite (spoken_to_same s1); [done|exact Ta]|]. by apply Fa.
  - intros a Ha. by apply Mc, Mb, Ma.
Qed.

(** The console's memory, where nothing wrote to it. *)
Lemma console_uses_same s s' a : same_screen (k_term s') (k_term s) -> console_uses s' a <-> console_uses s a.
Proof.
  intros T. unfold console_uses. rewrite (console_area_same s s' a T).
  destruct T as (_ & _ & _ & _ & -> & _). done.
Qed.

Lemma speech_ready_step s s' : speech_ready s -> spoken s s' -> input_at s' [] -> speech_ready s'.
Proof.
  intros [R1 R2 R3 R4 R5 R6] [_ T F M] Hin. split; [done| |done| | |].
  - by apply (same_screen_trans _ (k_term s)).
  - intros a Ha. by apply M, R4.
  - intros a Ha. rewrite (console_uses_same s s' a T). by apply R5.
  - apply Forall_forall. intros x Hx. rewrite Forall_forall in R6. destruct (R6 x Hx) as [Hc Ha]. split.
    + apply (cstr_same (smem s)); [|done]. intros a Hi. by apply F, Ha.
    + intros a Hi. rewrite (spoken_to_same s s' a T). by apply Ha.
Qed.

(** A message that ends a line: said, and a new prompt stands there. *)
Lemma speech_print fmt ns s : speech_ready s -> keyboard_says fmt ns ->
  exists s', kprintf_console buffer fmt (KNum <$> ns) s = Ret tt s' /\ spoken s s' /\ speech_ready s'.
Proof.
  intros Hr Hsays. pose proof Hr as [R1 R2 R3 R4 R5 R6].
  destruct (message_text fmt ns Hsays) as (txt & Et & Hl & Hc & Hlast).
  assert (Hfmt : cstr (smem s) (literal fmt) (chars fmt) /\
    forall a, literal fmt <= a <= literal fmt + Z.of_nat (length (chars fmt)) -> ~ spoken_to s a).
  { destruct Hsays as [Hin _]. rewrite Forall_forall in R6. exact (R6 _ Hin). }
  destruct Hfmt as [Hf Hfa].
  assert (Hascii : Forall (fun c => 0 < c < 256) txt) by (eapply Forall_impl; [exact Hc|]; intros c [_ ?]; lia).
  destruct (kprintf_serial_ok buffer (literal fmt) (chars fmt) (VNum <$> (u64 <$> ns)) (u64 <$> ns) txt s R3 R4) as (m' & t & E & Hh & Hstr & _ & _ & tr & ->);
    [ | |exact Et|lia|exact Hascii|exact Huart|].
  { split; [done|]. unfold outside_buffer. destruct (Z.lt_ge_cases (literal fmt + Z.of_nat (length (chars fmt))) buffer); [by left|].
    destruct (Z.le_gt_cases (buffer + 256) (literal fmt)); [by right|]. exfalso.
    apply (Hfa (Z.max buffer (literal fmt))); [lia|]. right. unfold in_buffer. lia. }
  { clear. generalize (u64 <$> ns). intros l. induction l as [|z l IH]; constructor; done. }
  set (s1 := set_k_io (tr ++ k_io s) (set_mem m' s)) in *.
  assert (Hout : forall a, ~ in_buffer a -> smem s1 !! a = smem s !! a) by (intros a Ha; by apply (ho_outside _ _ _ _ _ Hh)).
  assert (Hmap : forall a, is_Some (smem s !! a) -> is_Some (smem s1 !! a)).
  { intros a Ha. destruct (decide (buffer <= a < buffer + 256)); [by apply (ho_region _ _ _ _ _ Hh)|by rewrite Hout]. }
  assert (H1 : input_at s1 []).
  { apply (input_at_frame s); [done|done|done| |done]. intros a Ha. apply Hout. intros Hb. by apply (R5 a). }
  assert (Hp1 : printing s1 [] s1) by (split_and!; [apply edited_refl|apply (in_cursor _ _ H1)|apply (in_text _ _ H1)|done]).
  destruct (print_now s1 [] H1 s1 buffer txt [] [] txt Hp1) as (s2 & E2 & (G2 & C2 & T2 & _) & X2 & _).
  { split; [exact Hstr|]. unfold outside_buffer.
    assert (Hno : forall a, in_buffer a -> ~ (tprintf_buffer <= a < tprintf_buffer + 256))
      by (intros a Ha Hb; apply (R5 a Ha); left; right; by right).
    destruct (Z.lt_ge_cases (buffer + Z.of_nat (length txt)) tprintf_buffer); [by left|].
    destruct (Z.le_gt_cases (tprintf_buffer + 256) buffer); [by right|]. exfalso.
    apply (Hno (Z.max buffer tprintf_buffer)); unfold in_buffer; lia. }
  { by constructor. }
  { apply render_plain. eapply Forall_impl; [exact Hc|]. by intros c [? _]. }
  { done. }
  { eapply Forall_impl; [exact Hc|]. by intros c [_ ?]. }
  assert (H2 : input_at s2 []) by (by apply (input_at_step s1 [] H1); [..|apply X2]).
  assert (Hs2 : spoken s s2).
  { destruct (ed_eq _ _ G2) as (t2 & m2 & E2'). pose proof G2 as [_ T F M]. split.
    - exists t2, m2, tr. by rewrite E2'.
    - exact T.
    - intros a Ha. rewrite F; [apply Hout; intros Hb; apply Ha; by right|]. intros Hc'. apply Ha. by left.
    - auto. }
  exists s2. split; [|split; [done|by apply (speech_ready_step s)]].
  unfold kprintf_console. replace (karg_slot <$> (KNum <$> ns)) with (u64 <$> ns) by (rewrite <- list_fmap_compose; done).
  rewrite kprintf_call_eq, (bind_ret_eq _ _ _ _ _ E). exact E2.
Qed.

(** What printing depends on. *)
Definition speech_uses (s : kernel) (a : Z) : Prop :=
  console_uses s a \/ exists x, x ∈ keyboard_messages /\ literal (fst x) <= a <= literal (fst x) + Z.of_nat (length (chars (fst x))).
Lemma speech_ready_frame s s' : speech_ready s -> k_term s' = k_term s -> k_desc s' = k_desc s ->
  (forall a, speech_uses s a -> smem s' !! a = smem s !! a) ->
  (forall a, is_Some (smem s !! a) -> is_Some (smem s' !! a)) -> speech_ready s'.
Proof.
  intros [R1 R2 R3 R4 R5 R6] Et Ed F M.
  assert (T : same_screen (k_term s') (k_term s)) by (rewrite Et; apply same_screen_refl).
  split; rewrite ?Et; try done.
  - apply (input_at_frame s); try done. intros a Ha. apply F. by left.
  - intros a Ha. by apply M, R4.
  - intros a Ha. rewrite (console_uses_same s s' a T). by apply R5.
  - apply Forall_forall. intros x Hx. rewrite Forall_forall in R6. destruct (R6 x Hx) as [Hc Ha]. split.
    + apply (cstr_same (smem s)); [|done]. intros a Hi. apply F. right. eauto.
    + intros a Hi. rewrite (spoken_to_same s s' a T). by apply Ha.
Qed.

Lemma console_speaks : speaks (kprintf_console buffer) keyboard_says speech_ready spoken (fun a => ~ spoken_to s0 a).
Proof.
  split.
  - apply spoken_refl.
  - apply spoken_trans.
  - intros fmt ns s. apply speech_print.
  - intros t s Hr. by apply (speech_ready_frame s).
  - intros m s Hr. by apply (speech_ready_frame s).
  - by intros s s' [(t & m & tr & ->) _ _ _].
  - by intros s s' [(t & m & tr & ->) _ _ _].
  - by intros s s' [(t & m & tr & ->) _ _ _].
  - by intros s s' [(t & m & tr & ->) _ _ _].
  - intros s s' [(t & m & tr & ->) _ _ _]. by exists tr.
  - intros s s' a Hr [_ _ F _] Ha. apply F. by rewrite (spoken_to_same s0 s a (sr_screen _ Hr)).
Qed.
End speech.
