(* ===== verification/Boot.v ===== *)
(** * kernel.c: from start-up to the desk

    The keyboard's part of kernel_main: the queue from the heap, the controller,
    and the state the event loop is verified from. *)
From S2P Require Import Prelude Machine Atomic Regions Heap Pmm Slob SlobProofs SlobProps Str StrFormat StrProps Kstate KernelHeap VmProps Poll.
From S2P Require Import Acpi Ioapic IoapicProps Queue QueueProps Interleave QueueConc Desc Ps2 Ps2Props Ps2Init Terminal TermPrint TermInput.
From S2P Require Import Serial SerialProps Printing Kprintf Main MainProps Console Preempt Speech.

(** Bytes that a table is read from. *)
Lemma ioapic_at_frame m m' p addr gb :
  ioapic_at m p addr gb -> (forall a, p <= a < p + 12 -> m' !! a = m !! a) -> ioapic_at m' p addr gb.
Proof.
  intros [H1 H2 H3 H4] F. unfold off_ioapic_addr, off_gsi_base in *. split; [done| | |].
  - intros x Hx. rewrite F by done. by apply H2.
  - rewrite <- H3. apply rd_ext. intros x Hx. unfold byte_at. by rewrite F by (unfold off_ioapic_addr in *; lia).
  - rewrite <- H4. apply rd_ext. intros x Hx. unfold byte_at. by rewrite F by (unfold off_gsi_base in *; lia).
Qed.
Lemma iso_route_frame m m' irq l :
  Forall (fun p => p <> 0 -> forall a, p <= a < p + 10 -> m' !! a = m !! a) l ->
  iso_route m' irq l = iso_route m irq l.
Proof.
  induction 1 as [|p l Hp _ IH]; [done|]. cbn [iso_route]. destruct (Z.eqb_spec p 0) as [|Hne]; [done|].
  specialize (Hp Hne). unfold off_iso_irq_source, off_iso_gsi, off_iso_flags.
  assert (E : forall n a, p <= a -> a + Z.of_nat n <= p + 10 -> rd n a m' = rd n a m)
    by (intros n a Ha Hn; apply rd_ext; intros x Hx; unfold byte_at; by rewrite Hp by lia).
  rewrite !E by (cbn; lia). by rewrite IH.
Qed.

Section boot.
Context `{Hardware} `{Image}.
Hypothesis Hin : forall t, settles status in_full patience t.
Hypothesis Hout : forall t, in_full (device t status) = false ->
  settles status out_empty patience (PortOut 1 0x64 0x20 :: status :: t).
Hypothesis Huart : forall t, settles (line_status PORT_COM1) line_busy patience t.
Context (buffer p addr gb : Z) (l : list Z).
Context (ns ns' : list node) (live : list block) (n : node) (s : kernel).
Let hhdm := vmm_higher_half_offset (slob_pmm (k_slob s)).

(** The heap's memory, and the free-list entry the queue's block comes from. *)
Definition heap_byte (a : Z) : Prop := (1 <= cover a (slob_blocks hhdm ns live))%nat.
Definition in_node (a : Z) : Prop := inside a (node_cell n) \/ inside a (node_free hhdm n).

(** The kernel when the keyboard is started: an initialised heap with room, a
    terminal that waits for input, kprintf's local array at [buffer], and the
    firmware's tables, each in memory of its own; no key registered. *)
Record before_keyboard : Prop := {
  bk_heap : slob_heap_ns ns live (k_slob s);
  bk_fit : first_fit (825 + 8) ns = Some (n, ns');
  bk_lock : rd 1 (nd_base n + hhdm + 8 + off_lock) (smem s) = 0;
  bk_speech : speech_ready buffer s s;
  bk_apart : forall a, heap_byte a -> ~ speech_uses s a /\ ~ in_buffer buffer a;
  bk_map : scancode_map s = empty_map;
  bk_line : key_line_ok p addr gb l s;
  bk_tables : forall a, in_node a -> ~ (p <= a < p + 12) /\ Forall (fun x => x <> 0 -> ~ (x <= a < x + 10)) (iso_list (k_acpi s));
  bk_kept : tables_kept p (kept := fun a => ~ spoken_to buffer s a) (good_gsi := fun g => g <> 2 ^ 31) s
}.

Context (Hb : before_keyboard).
Let q := nd_base n + hhdm + 8.

Lemma node_facts : nd_base n + 0 <= nd_base n + nd_length n /\ 833 <= nd_length n /\ 0 <= nd_base n /\ 0 < hhdm.
Proof.
  pose proof (bk_heap Hb) as Hh. destruct (first_fit_Some _ _ _ _ (bk_fit Hb)) as (pre & post & E & _ & Hle & _).
  pose proof (sh_base _ _ _ Hh) as Hbase. rewrite E in Hbase. apply Forall_app in Hbase as [_ [Hn _]%Forall_cons].
  pose proof (sh_hhdm _ _ _ Hh). unfold hhdm. lia.
Qed.

Lemma in_node_heap a : in_node a -> heap_byte a.
Proof.
  destruct (first_fit_Some _ _ _ _ (bk_fit Hb)) as (pre & post & E & _ & _).
  assert (Hn : n ∈ ns) by (rewrite E; apply elem_of_app; right; by apply elem_of_cons; left).
  intros [Ha|Ha]; [exact (cover_in a _ _ (node_cell_in hhdm n ns live Hn) Ha)|exact (cover_in a _ _ (node_free_in hhdm n ns live Hn) Ha)].
Qed.
Lemma queue_in_node a : q <= a < q + 825 -> in_node a.
Proof. pose proof node_facts as (_ & Hlen & _). intros Ha. right. unfold inside, node_free. cbn [fst snd]. unfold q in Ha. lia. Qed.

Lemma queue_created : exists s1,
  cqueue_create 200 s = Ret q s1 /\ s1 = set_mem (smem s1) s /\ queue_at (smem s1) q 200 [] /\
  slob_heap_ns ns' ((q, 825) :: live) (k_slob s1) /\
  (forall a, cover a (slob_blocks hhdm ns' ((q, 825) :: live)) = cover a (slob_blocks hhdm ns live)) /\
  (forall a, ~ in_node a -> smem s1 !! a = smem s !! a) /\
  (forall a, is_Some (smem s !! a) -> is_Some (smem s1 !! a)).
Proof.
  pose proof node_facts as (_ & Hlen & Hbase & Hh). pose proof (bk_heap Hb) as Hheap.
  destruct (k_malloc_ok s ns live 825 n ns' Hheap ltac:(lia) ltac:(lia) (bk_fit Hb)) as (Ek & Hh0 & _ & Hcov).
  fold hhdm in Ek, Hh0, Hcov. fold q in Ek, Hh0, Hcov. set (m1 := SlobProofs.taken hhdm n (825 + 8) (smem s)) in *.
  destruct (cqueue_create_ok live 200 q s (set_mem m1 s)) as (s1 & E1 & _ & _ & Hq & Hl & Es & F & Hmap);
    [by exists ns|lia|exact Ek|unfold q; lia|].
  assert (Houtside : forall a, ~ in_node a -> m1 !! a = smem s !! a).
  { intros a Ha. apply (taken_outside (k_slob s) n (825 + 8)); [lia|..]; intros Hi; apply Ha; [by left|by right]. }
  rewrite smem_set_mem in Hl, F, Hmap.
  exists s1. split; [done|]. split; [by rewrite Es, smem_set_mem, set_mem_set_mem|].
  split; [|split; [|split; [exact Hcov|split]]].
  - apply Hq. rewrite Hl, <- (bk_lock Hb). fold q. apply rd_ext. intros x Hx. unfold byte_at.
    change (Z.of_nat 1) with 1 in Hx. unfold off_lock in Hx.
    assert (Hn : n ∈ ns).
    { destruct (first_fit_Some _ _ _ _ (bk_fit Hb)) as (pre & post & -> & _). apply elem_of_app. right. by apply elem_of_cons; left. }
    pose proof (heap_cell_free_disjoint ns live (k_slob s) Hheap n Hn) as Hd. fold hhdm in Hd.
    assert (Hf : inside x (node_free hhdm n)) by (unfold inside, node_free; cbn [fst snd]; unfold q in Hx; lia).
    assert (Hc : ~ inside x (node_cell n)).
    { intros Hc. apply (disjoint_blocks_cons x _ _ (node_free hhdm n) Hd); [by apply elem_of_cons; left|done|done]. }
    unfold m1, SlobProofs.taken, off_length, off_base. unfold inside, node_cell, sizeof_SlobEntry in Hc. cbn [fst snd] in Hc.
    rewrite !wr_lookup_ne by (unfold q in *; lia). done.
  - rewrite Es. apply (slob_heap_frame ns' _ (k_slob (set_mem m1 s)) (Machine (smem s1) (klog (get_mach s))) Hh0).
    + intros a Ha. apply F. unfold off_queue, sizeof_CQueue. cbn [cover] in Ha.
      destruct (decide (inside a (q, 825))) as [|Hno]; [lia|]. unfold inside in Hno. cbn [fst snd] in Hno. lia.
    + exact Hmap.
  - intros a Ha. rewrite F; [by apply Houtside|]. unfold off_queue, sizeof_CQueue.
    destruct (Z.lt_ge_cases a q); [by left|]. destruct (Z.le_gt_cases (q + 25 + 4 * 200) a); [by right|].
    exfalso. apply Ha, queue_in_node. lia.
  - intros a Ha. apply Hmap. unfold m1, SlobProofs.taken. by repeat apply wr_is_Some.
Qed.

(** The firmware's tables are as before. *)
Lemma key_line_kept s1 :
  (forall a, ~ in_node a -> smem s1 !! a = smem s !! a) -> (forall a, is_Some (smem s !! a) -> is_Some (smem s1 !! a)) ->
  s1 = set_mem (smem s1) s -> key_line_ok p addr gb l (set_q_keyboard q s1).
Proof.
  intros F M E. destruct (bk_line Hb) as [K1 K2 K3 K4 K5]. pose proof (bk_tables Hb) as Htab.
  assert (Ea : k_acpi (set_q_keyboard q s1) = k_acpi s) by (by rewrite E).
  assert (Eiso : iso_route (smem s1) 1 (iso_list (k_acpi s)) = iso_route (smem s) 1 (iso_list (k_acpi s))).
  { apply iso_route_frame. apply Forall_forall. intros x Hx Hne a Ha. apply F. intros Hn.
    destruct (Htab a Hn) as [_ Hf]. rewrite Forall_forall in Hf. by apply (Hf x Hx Hne). }
  assert (Er : irq_route 1 (set_q_keyboard q s1) = irq_route 1 s) by (unfold irq_route; by rewrite Ea).
  split; rewrite ?Ea; try done.
  - apply (Forall_impl _ _ _ K1). intros x Hx Hne a Ha. by apply M, Hx.
  - apply (ioapic_at_frame (smem s)); [done|]. intros a Ha. apply F. intros Hn. by destruct (Htab a Hn).
  - intros t. rewrite Er. rewrite E. exact (K5 t).
Qed.

Lemma start_keyboard_ok : exists s',
  start_keyboard (P := kprintf_console buffer) s = Ret tt s' /\ slob_heap_ns ns' ((q, 825) :: live) (k_slob s') /\ k_cpu s' = k_cpu s /\
  at_desk q 200 (fb_width (k_term s)) s' (Desk (reads (k_io s')) [] []) /\
  (forall a, ~ in_node a -> ~ spoken_to buffer s a -> smem s' !! a = smem s !! a).
Proof.
  destruct queue_created as (s1 & E1 & Es & Hq & Hh & Hcov & F & M).
  set (s1q := set_q_keyboard q s1).
  assert (Et1 : k_term s1q = k_term s) by (unfold s1q; by rewrite Es).
  assert (Hsp : speech_ready buffer s s1q).
  { apply (speech_ready_frame buffer s s); [apply (bk_speech Hb)|done|by unfold s1q; rewrite Es| |exact M].
    intros a Ha. apply F. intros Hn. by destruct (bk_apart Hb a (in_node_heap a Hn)). }
  assert (Hkept : tables_kept p (kept := fun a => ~ spoken_to buffer s a) (good_gsi := fun g => g <> 2 ^ 31) s1q).
  { destruct (bk_kept Hb) as [K1 K2]. split; [exact K1|].
    assert (Ea : k_acpi s1q = k_acpi s) by (unfold s1q; by rewrite Es). rewrite Ea.
    apply Forall_forall. intros x Hx Hne. rewrite Forall_forall in K2. destruct (K2 x Hx Hne) as [Kx Kg]. split; [done|].
    replace (rd 4 (x + off_iso_gsi) (smem s1q)) with (rd 4 (x + off_iso_gsi) (smem s)); [done|].
    apply rd_ext. intros a Ha. unfold byte_at, off_iso_gsi in *. symmetry. change (smem s1q) with (smem s1). rewrite F; [done|]. intros Hn.
    destruct (bk_tables Hb a Hn) as [_ Hf]. rewrite Forall_forall in Hf. apply (Hf x Hx Hne). lia. }
  destruct (ps2_init_says Hin Hout p addr gb l (kprintf_console buffer) _ _ _ _ (console_speaks buffer s Huart)
    (fun g => g <> 2 ^ 31) s1q) as (t1 & t2 & t3 & t4 & sa & sb & s' & Ha & _ & Hsb & Hs' & Hrd & E2 & _); cbv zeta in *.
  - intros v g Hv Hg. split; [by left|]. unfold printable, is_u8, is_u32 in *. repeat constructor; lia.
  - intros i g Hi Hg Hne. split; [by right; left|]. unfold printable, is_u8, is_u32 in *. repeat constructor; (done || lia).
  - split; [by right; right; left|]. by apply Forall_nil.
  - exact Hsp.
  - unfold s1q. rewrite Es. apply (bk_map Hb).
  - exact (key_line_kept s1 F M Es).
  - exact Hkept.
  - revert Ha Hsb. set (u1 := t2 ++ _). set (u2 := key_redirect _ _ _ _). clearbody u1 u2. intros Ha Hsb.
    destruct (spoken_together buffer s1q sa sb s' u1 u2 t3 full_map Ha Hsb Hs') as (t & m & tr & Es' & T & F' & M').
    rewrite Et1 in T.
    assert (Harea : forall a, spoken_to buffer s1q a <-> spoken_to buffer s a)
      by (intros a; apply spoken_to_same; rewrite Et1; apply same_screen_refl).
    assert (Hheap : forall a, heap_byte a -> m !! a = smem s1 !! a).
    { intros a Hha. apply F'. rewrite Harea. intros [Hc|Hc]; destruct (bk_apart Hb a Hha) as [N1 N2]; [|done].
      apply N1. left. by left. }
    assert (Em : smem s' = m) by (rewrite Es'; reflexivity).
    exists s'. unfold start_keyboard. rewrite (bind_ret_eq _ _ _ _ _ E1). erewrite bind_ret_eq; [|reflexivity].
    split; [exact E2|]. split; [|split; [rewrite Es'; unfold s1q; rewrite Es; reflexivity|split]].
    + assert (Ek : k_slob s' = set_mach (Machine m (klog (get_mach s1))) (k_slob s1)) by (rewrite Es'; reflexivity).
      rewrite Ek. apply (slob_heap_outside ns' _ (k_slob s1) (Machine m (klog (get_mach s1))) Hh); [|exact M'].
      intros a Hca. apply Hheap. unfold heap_byte. rewrite <- Hcov.
      replace hhdm with (vmm_higher_half_offset (slob_pmm (k_slob s1))) by (by rewrite Es). exact Hca.
    + destruct full_map_ok as [_ Hall]. rewrite Forall_forall in Hall.
      assert (Hmap : scancode_map s' = full_map) by (rewrite Es'; reflexivity).
      split; cbn [Console.taken waiting line]; try done.
      * rewrite Es'. reflexivity.
      * apply (queue_at_frame (smem s1)); [done|]. intros a Hoff. rewrite Em. apply Hheap, in_node_heap, queue_in_node.
        unfold off_queue, sizeof_CQueue in Hoff. lia.
      * rewrite Hmap. split; [by vm_compute|]. intros code Hc. apply Hall, elem_of_seqZ. lia.
      * apply (sr_input _ _ _ Hrd).
      * rewrite Es'. apply T.
      * intros a Hoff Hc. rewrite (console_uses_same s s') in Hc by (rewrite Es'; exact T).
        destruct (bk_apart Hb a) as [N1 _]; [|by apply N1; left].
        apply in_node_heap, queue_in_node. unfold off_queue, sizeof_CQueue in Hoff. lia.
    + intros a Hn Hsa. rewrite Em, F' by (by rewrite Harea). by apply F.
Qed.

(** C5: the keyboard comes up. From an initialised heap with room for the
    queue, a terminal that waits for input, and the firmware's tables, each in
    memory of its own; with a controller that takes in every byte and answers
    the command to read its configuration, and a serial port that empties:
    kernel_main's start of the keyboard (the queue of 200 codes, the controller,
    the scan code map), its messages printed by the real kprintf on the serial
    port and the screen, returns with the queue in a live block of the heap and
    the kernel at the desk: an empty queue, the layout, the empty input line.
    Only the memory of the free-list entry, the console's and kprintf's array
    were written to. From there the event loop goes round as often as wanted,
    whatever keyboard interrupts come between its steps, in a state of the
    abstract machine. *)
Theorem keyboard_comes_up : interruptible s = true ->
  let width := fb_width (k_term s) in
  exists s1, start_keyboard (P := kprintf_console buffer) s = Ret tt s1 /\
    slob_heap_ns ns' ((q, 825) :: live) (k_slob s1) /\
    (forall a, ~ in_node a -> ~ spoken_to buffer s a -> smem s1 !! a = smem s !! a) /\
    let d := Desk (reads (k_io s1)) [] [] in
    listening q 200 width s1 d /\
    forall codes rounds_n irqs, (forall t, u8 (device t (PortIn 1 0x60)) = codes (reads t)) ->
      (forall hs, (rounds hs <= rounds_n)%nat -> is_Some (desk_run 200 width codes d hs)) ->
      exists hs d' s', rounds hs = rounds_n /\ desk_run 200 width codes d hs = Some d' /\
        listening q 200 width s' d' /\ run_interrupted false irqs (loop_rounds rounds_n) s1 = Ret (tt, false) s'.
Proof.
  intros Hi width. destruct start_keyboard_ok as (s1 & E & Hh & Ec & Hd & F).
  assert (Hl : listening q 200 width s1 (Desk (reads (k_io s1)) [] [])) by (split; [exact Hd|unfold interruptible; by rewrite Ec]).
  exists s1. split; [exact E|]. split; [exact Hh|]. split; [exact F|]. split; [exact Hl|].
  intros codes k irqs Hcodes Hok. by apply rounds_interrupted_ok with (d := Desk (reads (k_io s1)) [] []).
Qed.
End boot.

(** ** An example *)

(** The controller of [Ps2Init], which sends its configuration and then the
    codes of "o" and "k"; a serial port that is always empty; the heap of
    [SlobProps], the I/O APIC of [IoapicProps], the terminal of [TermInput], and
    kprintf's array at 30000. *)
Definition boot_codes : list Z := [0x20; 24; 37].
Definition boot_device (t : list io) (a : io) : Z :=
  match a with
  | PortIn 1 0x64 => if config_waits t then 1 else 0
  | PortIn 1 0x60 => nth (reads t) boot_codes 0
  | PortIn 1 0x3FD => 0x60
  | _ => 0x170020
  end.
#[local] Instance boot_hardware : Hardware := {|
  device := boot_device; cpuid_regs _ _ := (0, 0, 0, 0); stale_eax := 0; patience := 4 |}.
Lemma boot_takes t : settles status in_full patience t.
Proof.
  exists 0%nat. split; [cbn; lia|]. cbn [replicate app]. change (device t status) with (if config_waits t then 1 else 0).
  by destruct (config_waits t).
Qed.
Lemma boot_answers t : settles status out_empty patience (PortOut 1 0x64 0x20 :: status :: t).
Proof. exists 0%nat. split; [cbn; lia|reflexivity]. Qed.
Lemma boot_uart t : settles (line_status PORT_COM1) line_busy patience t.
Proof. exists 0%nat. split; [cbn; lia|reflexivity]. Qed.
Lemma boot_codes_sent t : u8 (device t (PortIn 1 0x60)) = nth (reads t) boot_codes 0.
Proof. change (device t (PortIn 1 0x60)) with (nth (reads t) boot_codes 0). by destruct (reads t) as [|[|[|[|k]]]]. Qed.

Definition message_memory : memory :=
  foldr (fun x => poke (literal (fst x)) (chars (fst x))) (zeros 14000 4200 ∪ zeros 30000 256) keyboard_messages.
Definition start_memory : memory := SlobProps.demo_mem ∪ (ioapic_mem 2 ∪ (console_memory [] ∪ message_memory)).
Definition start_kernel (m : memory) : kernel :=
  set_k_cpu (CpuRegs 0 0 0 true) (set_scancode_map empty_map (set_k_acpi (AcpiGlobals 0 0 0 0 0 0 0 (ioapic_slots 64) (iso_slots 80))
    (set_k_slob (demo_with m) (console_kernel m [])))).

(** What the example needs of its memory. *)
Record start_ready (m : memory) : Prop := {
  st_node : node_at m (Node (2 ^ 47 + 8192) 65536 1000) 0;
  st_cell : region (2 ^ 47 + 8192) 24 m;
  st_free : region (65536 + 2 ^ 47) 1000 m;
  st_tables : region 64 32 m;
  st_ioapic : rd 4 68 m = 0xFEC00000 /\ rd 4 72 m = 0;
  st_route : iso_route m 1 (iso_slots 80) = (1, 0) /\ rd 4 84 m = 2;
  st_lock : rd 1 (65536 + 2 ^ 47 + 8 + off_lock) m = 0;
  st_console : console_ready m [];
  st_buffer : region 30000 256 m;
  st_messages : Forall (fun x => cstr m (literal (fst x)) (chars (fst x))) keyboard_messages
}.
Lemma message_memory_region : region 30000 256 message_memory.
Proof. unfold message_memory, keyboard_messages. cbn [foldr]. do 3 apply poke_region. apply region_union_r, region_zeros. Qed.
Lemma start_memory_ready : start_ready start_memory.
Proof.
  destruct demo_regions as [D1 D2]. destruct (console_memory_regions []) as (R1 & R2 & R3 & R4).
  split; unfold start_memory.
  - split_and!; vm_compute; done.
  - apply region_union_l. exact D1.
  - apply region_union_l. exact D2.
  - apply region_union_r, region_union_l. by apply ioapic_mem_region.
  - split; vm_compute; reflexivity.
  - split; vm_compute; reflexivity.
  - vm_compute. reflexivity.
  - apply console_check_ready; [by do 2 apply region_union_r; apply region_union_l..|vm_compute; reflexivity].
  - do 3 apply region_union_r. apply message_memory_region.
  - repeat (apply Forall_cons; split; [apply cstrb_sound; vm_compute; reflexivity|]). by apply Forall_nil.
Qed.

Lemma messages_apart x a : x ∈ keyboard_messages ->
  literal (fst x) <= a <= literal (fst x) + Z.of_nat (length (chars (fst x))) -> 14000 <= a < 20000.
Proof.
  revert x a. enough (Hall : Forall (fun x => 14000 <= literal (fst x) /\
    literal (fst x) + Z.of_nat (length (chars (fst x))) < 20000) keyboard_messages).
  { intros x a Hx. rewrite Forall_forall in Hall. specialize (Hall x Hx). lia. }
  by apply (bool_decide_unpack _).
Qed.
Lemma start_speaks m : start_ready m -> speech_ready 30000 (start_kernel m) (start_kernel m).
Proof.
  intros [_ _ _ _ _ _ _ S8 S9 S10]. split.
  - apply (input_at_frame (console_kernel m [])); try done. apply console_input_at; [done|cbn; lia].
  - apply same_screen_refl.
  - done.
  - exact S9.
  - intros a Ha. unfold in_buffer in Ha. apply (desk_apart m). lia.
  - apply Forall_forall. intros x Hx. rewrite Forall_forall in S10. split; [by apply S10|].
    intros a Ha. pose proof (messages_apart x a Hx Ha) as Hr. intros [Hc|Hb]; [|unfold in_buffer in Hb; lia].
    destruct Hc as [Hd|[Hd|Hd]].
    + unfold drawn_to in Hd. cbn in Hd. change (252 `div` 4) with 63 in Hd. lia.
    + unfold input_buffer_len in Hd. cbn in Hd. lia.
    + change tprintf_buffer with 9000 in Hd. lia.
Qed.

Lemma start_kernel_ready m : start_ready m ->
  before_keyboard 30000 64 0xFEC00000 0 (replicate 31 0) demo_nodes [Node (2 ^ 47 + 8192) (65536 + 833) 167] []
    (Node (2 ^ 47 + 8192) 65536 1000) (start_kernel m).
Proof.
  intros Hm. pose proof Hm as [S1 S2 S3 S4 [S5 S6] [S7 S7'] S8 S9 S10 S11].
  assert (Hh : forall a, heap_byte demo_nodes [] (start_kernel m) a -> 2 ^ 47 <= a).
  { intros a Ha. unfold heap_byte in Ha. change (slob_blocks _ _ _) with [(2 ^ 47 + 8192, 24); (65536 + 2 ^ 47, 1000)] in Ha.
    cbn [cover] in Ha. unfold inside in Ha. cbn [fst snd] in Ha. repeat case_decide; lia. }
  assert (Hn : forall a, in_node (Node (2 ^ 47 + 8192) 65536 1000) (start_kernel m) a -> 16384 <= a).
  { intros a [Ha|Ha]; unfold inside in Ha; cbn in Ha; lia. }
  assert (Hlow : forall a, a < 4096 -> ~ spoken_to 30000 (start_kernel m) a).
  { intros a Ha [[Hd|[Hd|Hd]]|Hd].
    - unfold drawn_to in Hd. cbn in Hd. lia.
    - cbn in Hd. lia.
    - change tprintf_buffer with 9000 in Hd. lia.
    - unfold in_buffer in Hd. lia. }
  assert (Hiso : forall P : Z -> Prop, P 80 -> Forall (fun x => x <> 0 -> P x) (iso_list (k_acpi (start_kernel m)))).
  { intros P HP. apply Forall_cons. split; [done|]. by apply Forall_replicate. }
  split.
  - by apply demo_heap_with.
  - reflexivity.
  - exact S8.
  - by apply start_speaks.
  - intros a Ha. specialize (Hh a Ha). split; [|unfold in_buffer; lia].
    intros [Hc|(x & Hx & Hr)]; [|pose proof (messages_apart x a Hx Hr); lia]. revert Hc. apply (desk_apart m). lia.
  - reflexivity.
  - split.
    + apply Hiso. apply (region_sub _ _ _ _ _ S4); lia.
    + reflexivity.
    + split; [done|apply (region_sub _ _ _ _ _ S4); lia|exact S5|exact S6].
    + done.
    + intros t. change (irq_route 1 (start_kernel m)) with (iso_route m 1 (iso_slots 80)). rewrite S7.
      change (last_line 0xFEC00000 (after_io t (start_kernel m))) with 23. by vm_compute.
  - intros a Ha. specialize (Hn a Ha). split; [lia|]. apply Hiso. lia.
  - split; [intros a Ha; apply Hlow; lia|]. apply Hiso. split; [intros a Ha; apply Hlow; lia|].
    change (rd 4 84 m <> 2 ^ 31). by rewrite S7'.
Qed.

Lemma keyboard_comes_up_witness : exists s1 hs d' s',
  start_keyboard (P := kprintf_console 30000) (start_kernel start_memory) = Ret tt s1 /\
  rounds hs = 2%nat /\ desk_run 200 63 (fun k => nth k boot_codes 0) (Desk (reads (k_io s1)) [] []) hs = Some d' /\
  listening (65536 + 2 ^ 47 + 8) 200 63 s' d' /\
  run_interrupted false [true; false; true; false; true] (loop_rounds 2) s1 = Ret (tt, false) s'.
Proof.
  pose proof (start_kernel_ready start_memory start_memory_ready) as Hb. revert Hb. generalize start_memory. intros m Hb.
  destruct (keyboard_comes_up boot_takes (fun t _ => boot_answers t) boot_uart
    _ _ _ _ _ _ _ _ _ (start_kernel m) Hb eq_refl) as (s1 & E & _ & _ & _ & Hrun).
  destruct (Hrun (fun k => nth k boot_codes 0) 2%nat [true; false; true; false; true] boot_codes_sent)
    as (hs & d' & s' & Hn & Hd & Hl & Er).
  - intros hs Hhs. apply desk_accepts; cbn [waiting line length].
    + by apply Forall_nil.
    + intros [|[|[|[|k]]]]; vm_compute; reflexivity.
    + change (fb_width (k_term (start_kernel m))) with 63. lia.
    + unfold input_buffer_len. lia.
  - exists s1, hs, d', s'. split_and!; [exact E|exact Hn|exact Hd|exact Hl|exact Er].
Defined.
