(* ===== verification/LibProps.v ===== *)
(** * The properties of the spinlock, the bitmap and the memory primitives *)
From S2P Require Import Prelude Machine Math Bitmap Atomic MemLib Pmm.

(** Some memory to run on: [n] zero bytes at [a]. *)
Definition scratch (a n : Z) : pmm := Pmm (Machine (zeros a n) []) 0 0 0 [] 0 0 0 0 0 0 0 0.

(** ** Spinlock *)

(** C22: mutual exclusion and progress of the test-and-set lock. In every state
    that any number of CPUs can reach by any interleaving of atomic steps from
    an unlocked start, at most one CPU is between spinlock_lock and
    spinlock_unlock, the lock byte is 0 exactly when none is, and a CPU that
    spins either gets the lock by its next exchange or waits for a CPU that can
    release it at once. *)
Theorem spinlock_mutual_exclusion n c :
  rtc any_step (lock_init n) c ->
  (forall i j, critical_at c i -> critical_at c j -> i = j) /\
  (c_lock c = 0 <-> forall i, ~ critical_at c i) /\
  (forall i, c_cpus c !! i = Some Waiting ->
    (exists c', lock_step i c c' /\ critical_at c' i) \/
    (exists k c', critical_at c k /\ lock_step k c c' /\ c_lock c' = 0 /\
       c_cpus c' !! i = Some Waiting)).
Proof.
  intros Hr. pose proof (lock_reachable_inv n c Hr) as Hinv. split_and!.
  - intros i j Hi Hj. destruct Hinv as [[_ Hn]|[_ (k & _ & Hu)]]; [by destruct (Hn i)|].
    by rewrite (Hu i), (Hu j).
  - destruct Hinv as [[Hl Hn]|[Hl (k & Hk & _)]]; [done|].
    split; [lia|]. intros Hn. by destruct (Hn k).
  - intros i Hi. by apply lock_inv_progress.
Qed.

Lemma spinlock_mutual_exclusion_witness :
  let c := Contention 1 [Critical; Waiting] in
  (forall i j, critical_at c i -> critical_at c j -> i = j) /\
  (c_lock c = 0 <-> forall i, ~ critical_at c i) /\
  (forall i, c_cpus c !! i = Some Waiting ->
    (exists c', lock_step i c c' /\ critical_at c' i) \/
    (exists k c', critical_at c k /\ lock_step k c c' /\ c_lock c' = 0 /\
       c_cpus c' !! i = Some Waiting)).
Proof.
  apply (spinlock_mutual_exclusion 2).
  eapply rtc_l; [exists 0%nat; by apply ls_call|]. eapply rtc_l; [exists 1%nat; by apply ls_call|].
  eapply rtc_l; [exists 0%nat; by apply ls_tas|]. apply rtc_refl.
Defined.

(** ** Bitmap *)

(** Bitmap_on and bitmap_off change exactly the flag they name. After
    either, bitmap_test of every other flag of the mapped bitmap answers as
    before, bitmap_test of this one answers true after bitmap_on and false
    after bitmap_off, and the test itself changes nothing. *)
Theorem bitmap_updates_one_flag `{HasMachine St} bitmap bytes i j (s : St) :
  region bitmap bytes (smem s) -> 0 <= i < 8 * bytes -> 0 <= j < 8 * bytes ->
  exists old s_on s_off,
    bitmap_test bitmap j s = Ret old s /\
    bitmap_on bitmap i s = Ret tt s_on /\
    bitmap_test bitmap j s_on = Ret (if decide (j = i) then true else old) s_on /\
    bitmap_off bitmap i s = Ret tt s_off /\
    bitmap_test bitmap j s_off = Ret (if decide (j = i) then false else old) s_off.
Proof.
  intros Hr Hi Hj.
  assert (Hb : forall k, 0 <= k < 8 * bytes -> region (bitmap + k `div` 8) 1 (smem s)).
  { intros k Hk. apply (region_sub _ _ _ _ _ Hr); Z.to_euclidean_division_equations; lia. }
  eexists (flag (smem s) bitmap j), _, _. split_and!.
  - by apply bitmap_test_ok, Hb.
  - by apply bitmap_on_ok, Hb.
  - rewrite bitmap_test_ok by (rewrite smem_set_mem; by apply region_wr, Hb).
    rewrite smem_set_mem, flag_on_spec by lia. f_equal. repeat case_decide; case_bool_decide; done.
  - by apply bitmap_off_ok, Hb.
  - rewrite bitmap_test_ok by (rewrite smem_set_mem; by apply region_wr, Hb).
    rewrite smem_set_mem, flag_off_spec by lia. f_equal. repeat case_decide; case_bool_decide; done.
Qed.

Lemma bitmap_updates_one_flag_witness :
  exists old s_on s_off,
    bitmap_test 64 10 (scratch 64 2) = Ret old (scratch 64 2) /\
    bitmap_on 64 9 (scratch 64 2) = Ret tt s_on /\
    bitmap_test 64 10 s_on = Ret (if decide (10 = 9) then true else old) s_on /\
    bitmap_off 64 9 (scratch 64 2) = Ret tt s_off /\
    bitmap_test 64 10 s_off = Ret (if decide (10 = 9) then false else old) s_off.
Proof. apply (bitmap_updates_one_flag 64 2); [apply region_zeros|lia|lia]. Defined.

(** ** Memory primitives *)

(** C33: memmove copies the original source whatever the overlap. On mapped
    ranges it returns the destination, every byte of the destination is the
    byte the source had before the call, and no other byte changes; memset
    fills exactly its range. *)
Theorem memmove_overlap `{HasMachine St} dest src n (s : St) :
  0 <= n -> region src n (smem s) -> region dest n (smem s) ->
  (exists s', memmove dest src n s = Ret dest s' /\
     (forall i, 0 <= i < n -> byte_at (dest + i) (smem s') = byte_at (src + i) (smem s)) /\
     (forall x, ~ (dest <= x < dest + n) -> smem s' !! x = smem s !! x)) /\
  (forall c, exists s', memset dest c n s = Ret dest s' /\
     (forall i, 0 <= i < n -> byte_at (dest + i) (smem s') = u8 c) /\
     (forall x, ~ (dest <= x < dest + n) -> smem s' !! x = smem s !! x)).
Proof.
  intros Hn Hs Hd. split.
  - assert (Hcopy : forall m', overwritten dest n (fun i => byte_at (src + i) (smem s)) (smem s) m' ->
      (forall i, 0 <= i < n -> byte_at (dest + i) m' = byte_at (src + i) (smem s)) /\
      (forall x, ~ (dest <= x < dest + n) -> m' !! x = smem s !! x)).
    { intros m' Ho. split.
      - intros i Hi. rewrite (overwritten_byte_at _ _ _ _ _ _ Ho), decide_True by lia.
        replace (dest + i - dest) with i by lia. apply Z.mod_small, byte_at_range.
      - intros x Hx. by rewrite Ho, decide_False. }
    unfold memmove. destruct (Z.gtb_spec src dest) as [Hgt|Hle].
    + destruct (copy_up_ok dest src n s) as (m' & E & Ho); [done|lia|done|done|].
      exists (set_mem m' s). rewrite (bind_ret_eq _ _ _ _ _ E), smem_set_mem. split; [done|]. by apply Hcopy.
    + destruct (Z.ltb_spec src dest) as [Hlt|Hge].
      * destruct (copy_down_ok dest src n s) as (m' & E & Ho); [done|lia|done|done|].
        exists (set_mem m' s). rewrite (bind_ret_eq _ _ _ _ _ E), smem_set_mem. split; [done|]. by apply Hcopy.
      * exists s. split; [done|]. assert (src = dest) as -> by lia. done.
  - intros c. destruct (memset_ok dest c n s Hn Hd) as (m' & E & Ho).
    exists (set_mem m' s). rewrite smem_set_mem. split_and!; [done| |].
    + intros i Hi. rewrite (overwritten_byte_at _ _ _ _ _ _ Ho), decide_True by lia. word_lia.
    + intros x Hx. by rewrite Ho, decide_False.
Qed.

Lemma memmove_overlap_witness :
  exists s', memmove 102 100 6 (scratch 100 8) = Ret 102 s' /\
    (forall i, 0 <= i < 6 -> byte_at (102 + i) (smem s') = byte_at (100 + i) (smem (scratch 100 8))) /\
    (forall x, ~ (102 <= x < 102 + 6) -> smem s' !! x = smem (scratch 100 8) !! x).
Proof.
  assert (Hr : region 100 8 (smem (scratch 100 8))) by apply region_zeros.
  revert Hr. generalize (scratch 100 8). intros s Hr.
  destruct (memmove_overlap 102 100 6 s) as [Hm _]; [lia|mregion|mregion|]. exact Hm.
Defined.

Lemma memcmp_loop_ok `{HasMachine St} (s : St) s1 s2 k : forall i,
  region (s1 + i) (Z.of_nat k) (smem s) -> region (s2 + i) (Z.of_nat k) (smem s) ->
  (exists j, i <= j < i + Z.of_nat k /\ byte_at (s1 + j) (smem s) <> byte_at (s2 + j) (smem s) /\
    (forall x, i <= x < j -> byte_at (s1 + x) (smem s) = byte_at (s2 + x) (smem s)) /\
    memcmp_loop k s1 s2 i s =
      Ret (if byte_at (s1 + j) (smem s) <? byte_at (s2 + j) (smem s) then -1 else 1) s) \/
  ((forall x, i <= x < i + Z.of_nat k -> byte_at (s1 + x) (smem s) = byte_at (s2 + x) (smem s)) /\
    memcmp_loop k s1 s2 i s = Ret 0 s).
Proof.
  induction k as [|k IH]; intros i H1 H2; cbn [memcmp_loop].
  - right. split; [intros x Hx; lia|done].
  - erewrite bind_ret_eq; [|apply load_ok; mregion].
    erewrite bind_ret_eq; [|apply load_ok; mregion]. rewrite !rd_1.
    destruct (Z.eqb_spec (byte_at (s1 + i) (smem s)) (byte_at (s2 + i) (smem s))) as [E|E]; cbn [negb].
    + destruct (IH (i + 1)) as [(j & Hj & Hne & Hlt & Er)|[Heq Er]]; [mregion|mregion| |].
      * left. exists j. split_and!; [lia|lia|done| |done]. intros x Hx.
        destruct (decide (x = i)) as [->|]; [done|]. apply Hlt. lia.
      * right. split; [|done]. intros x Hx. destruct (decide (x = i)) as [->|]; [done|]. apply Heq. lia.
    + left. exists i. split_and!; [lia|lia|done| |done]. intros x Hx. lia.
Qed.

(** Memcmp orders memory by the first byte that differs, as unsigned bytes,
    and answers 0 exactly for equal ranges; it terminates and changes nothing. *)
Theorem memcmp_first_difference `{HasMachine St} s1 s2 n (s : St) :
  0 <= n -> region s1 n (smem s) -> region s2 n (smem s) ->
  (exists j, 0 <= j < n /\ byte_at (s1 + j) (smem s) <> byte_at (s2 + j) (smem s) /\
    (forall x, 0 <= x < j -> byte_at (s1 + x) (smem s) = byte_at (s2 + x) (smem s)) /\
    memcmp s1 s2 n s =
      Ret (if byte_at (s1 + j) (smem s) <? byte_at (s2 + j) (smem s) then -1 else 1) s) \/
  ((forall x, 0 <= x < n -> byte_at (s1 + x) (smem s) = byte_at (s2 + x) (smem s)) /\
    memcmp s1 s2 n s = Ret 0 s).
Proof.
  intros Hn H1 H2. unfold memcmp.
  destruct (memcmp_loop_ok s s1 s2 (Z.to_nat n) 0) as [(j & Hj & Hd)|[Hd E]]; [mregion|mregion| |].
  - left. exists j. split; [lia|done].
  - right. split; [|done]. intros x Hx. apply Hd. lia.
Qed.

Lemma memcmp_first_difference_witness :
  let s := scratch 100 8 in
  (exists j, 0 <= j < 4 /\ byte_at (100 + j) (smem s) <> byte_at (104 + j) (smem s) /\
    (forall x, 0 <= x < j -> byte_at (100 + x) (smem s) = byte_at (104 + x) (smem s)) /\
    memcmp 100 104 4 s = Ret (if byte_at (100 + j) (smem s) <? byte_at (104 + j) (smem s) then -1 else 1) s) \/
  ((forall x, 0 <= x < 4 -> byte_at (100 + x) (smem s) = byte_at (104 + x) (smem s)) /\
    memcmp 100 104 4 s = Ret 0 s).
Proof.
  assert (Hr : region 100 8 (smem (scratch 100 8))) by apply region_zeros.
  revert Hr. generalize (scratch 100 8). cbv zeta. intros s Hr.
  apply (memcmp_first_difference 100 104 4 s); [lia|mregion|mregion].
Defined.
